(** * ZigZag mapping-space exploration: loop relevance, overlap sizing and stages

    A shallow embedding of the parts of the ZigZag sources that the
    specification talks about:

    - [zigzag/classes/workload/layer_node.py]: [calc_pr_dimension_size],
      [calc_pr_dimension_size_total], [extract_pr_loop_info],
      [extract_r_ir_loop_info] and the first two steps of [LayerNode.__init__];
    - [zigzag/parser/workload_factory.py]: [create_constant_operands] and
      [create_operand_source] of [LayerNodeFactory];
    - [zigzag/classes/stages/SpatialMappingGeneratorStage.py]: [check_layer],
      [run] and [modify_innermost_input_mem_size];
    - [zigzag/classes/stages/WorkloadStage.py]: [run].

    Around these, the functions they call and are called from:

    - [layer_node.py]: [calc_tensor_dim], [calc_tensor_dims],
      [calc_tensor_size], [extract_layer_info], [get_layer_operand] and
      [get_operand_irrelevant_dimensions];
    - [workload_factory.py]: [create_equation], [create_layer_dim_sizes],
      [create_padding] and [create_pr_layer_dim_sizes] of [LayerNodeFactory],
      and [MappingFactory];
    - [zigzag/parser/MappingValidator.py]: [validate];
    - [zigzag/stages/PlotTemporalMappingsStage.py]: [run];
    - [zigzag/workload/DNNWorkload.py]: [__init__].

    Python exceptions are results of a small error monad, Python [int] is [Z],
    Python [str] is [string], an insertion-ordered [dict] is an association
    list, and the binary64 [float] values that the overlap arithmetic goes
    through are modelled exactly on the integers they hold. *)

From Stdlib Require Import String Ascii ZArith List Bool Lia Permutation Arith.
From Stdlib Require Import Znumtheory DecimalString.
Import ListNotations.

Local Open Scope string_scope.
Local Open Scope list_scope.
Local Open Scope Z_scope.

(** ** Python runtime: exceptions and results *)

Module Py.

Inductive exn : Type :=
| IndexError
| KeyError
| ZeroDivisionError
| OverflowError
| ValueError
| AssertionError
| NotImplementedError
| FileNotFoundError
| OSError.            (* an [OSError] of another kind *)

Inductive res (A : Type) : Type :=
| Ok (a : A)
| Raise (e : exn).
Arguments Ok {A} a.
Arguments Raise {A} e.

Definition bind {A B : Type} (m : res A) (k : A -> res B) : res B :=
  match m with
  | Ok a => k a
  | Raise e => Raise e
  end.

Definition is_raise {A : Type} (m : res A) : bool :=
  match m with
  | Ok _ => false
  | Raise _ => true
  end.

(** [assert cond] *)
Definition py_assert (cond : bool) : res unit :=
  if cond then Ok tt else Raise AssertionError.

(** [l[i]] for [0 <= i]: [IndexError] outside the list. *)
Definition getitem {A : Type} (l : list A) (i : nat) : res A :=
  match nth_error l i with
  | Some a => Ok a
  | None => Raise IndexError
  end.

(** [l[lo:hi]] for [0 <= lo], [0 <= hi]: empty when [hi <= lo], clipped at
    the end of the list. *)
Definition slice {A : Type} (l : list A) (lo hi : nat) : list A :=
  firstn (hi - lo) (skipn lo l).

(** [l.pop(i)] for [0 <= i < len(l)], the list that remains. *)
Fixpoint pop {A : Type} (l : list A) (i : nat) : list A :=
  match l, i with
  | [], _ => []
  | _ :: t, O => t
  | h :: t, S j => h :: pop t j
  end.

End Py.

Import Py.

Declare Scope py_scope.
Delimit Scope py_scope with py.
Notation "x <- m ;; k" := (Py.bind m (fun x => k))
  (at level 61, m at next level, right associativity) : py_scope.
Notation "m ;;; k" := (Py.bind m (fun _ => k))
  (at level 61, right associativity) : py_scope.
Local Open Scope py_scope.

(** ** Python strings

    Strings are ASCII: the regular expressions of the sources only keep ASCII
    letters, digits and operators. *)

Module Str.

Definition between (lo hi : nat) (c : ascii) : bool :=
  let n := nat_of_ascii c in ((lo <=? n) && (n <=? hi))%nat.

Definition is_lower : ascii -> bool := between 97 122.
Definition is_upper : ascii -> bool := between 65 90.
Definition is_alpha (c : ascii) : bool := is_lower c || is_upper c.
(** [c.isdigit()] *)
Definition is_digit : ascii -> bool := between 48 57.

Definition upper_char (c : ascii) : ascii :=
  if is_lower c then ascii_of_nat (nat_of_ascii c - 32) else c.

(** [s.upper()] *)
Definition upper (s : string) : string :=
  string_of_list_ascii (map upper_char (list_ascii_of_string s)).

(** [s.replace(c, by)] for a one-character [c]. *)
Definition replace_char (c : ascii) (by_ : string) (s : string) : string :=
  string_of_list_ascii
    (flat_map (fun x => if Ascii.eqb x c then list_ascii_of_string by_ else [x])
              (list_ascii_of_string s)).

(** [re.findall("[cls]+", s)]: the maximal runs of characters of the class,
    left to right.  [cur] is the run being read, reversed. *)
Fixpoint runs (cls : ascii -> bool) (cur : list ascii) (s : list ascii)
  : list string :=
  let flush := match cur with
               | [] => []
               | _ :: _ => [string_of_list_ascii (rev cur)]
               end in
  match s with
  | [] => flush
  | c :: t => if cls c then runs cls (c :: cur) t
              else flush ++ runs cls [] t
  end.

Definition findall_class (cls : ascii -> bool) (s : string) : list string :=
  runs cls [] (list_ascii_of_string s).

(** [s[i]] with Python's negative indices. *)
Definition getitem (s : string) (i : Z) : res ascii :=
  let n := Z.of_nat (String.length s) in
  let j := if i <? 0 then i + n else i in
  if (0 <=? j) && (j <? n) then
    match String.get (Z.to_nat j) s with
    | Some c => Ok c
    | None => Raise IndexError
    end
  else Raise IndexError.

(** [s.index(sub)]: first position of [sub], [ValueError] when absent. *)
Definition index (s sub : string) : res nat :=
  match String.index 0 sub s with
  | Some n => Ok n
  | None => Raise ValueError
  end.

Fixpoint span (cls : ascii -> bool) (s : list ascii)
  : list ascii * list ascii :=
  match s with
  | c :: t => if cls c then let (a, b) := span cls t in (c :: a, b)
              else ([], s)
  | [] => ([], [])
  end.

(** One attempt of the pattern [(\d+)(?=\*name)] at the head of [s]: the
    digits matched.  A digit run shorter than the maximal one is followed by
    a digit, never by [*], so only the maximal run can match. *)
Definition match_factor (name : string) (s : list ascii) : option (list ascii) :=
  let (ds, rest) := span is_digit s in
  match ds with
  | [] => None
  | _ :: _ =>
      if String.prefix (String "*" name) (string_of_list_ascii rest)
      then Some ds else None
  end.

(** [re.findall("(\d+)(?=\*" + name + ")", s)]: matches are searched left
    to right, the search resuming after the digits of a match ([skip] counts
    the characters of the last match still to pass). *)
Fixpoint findall_factor_from (name : string) (skip : nat) (s : list ascii)
  : list string :=
  match s with
  | [] => []
  | _ :: t =>
      match skip with
      | S k => findall_factor_from name k t
      | O =>
          match match_factor name s with
          | Some ds =>
              string_of_list_ascii ds
                :: findall_factor_from name (List.length ds - 1) t
          | None => findall_factor_from name 0 t
          end
      end
  end.

Definition findall_factor (name : string) (s : string) : list string :=
  findall_factor_from name 0 (list_ascii_of_string s).

(** [int(s)] for a string of decimal digits. *)
Definition int_of_digits (s : string) : Z :=
  fold_left (fun acc c => 10 * acc + Z.of_nat (nat_of_ascii c - 48))
            (list_ascii_of_string s) 0.

(** [s.startswith(p)] on character lists. *)
Fixpoint is_prefix (p s : list ascii) : bool :=
  match p, s with
  | [], _ => true
  | _ :: _, [] => false
  | a :: p', b :: s' => Ascii.eqb a b && is_prefix p' s'
  end.

(** [s.replace(old, new)] for a non-empty [old]: the occurrences are found
    left to right and do not overlap ([skip] counts the characters of the
    last occurrence still to pass). *)
Fixpoint replace_from (old new : list ascii) (skip : nat) (s : list ascii)
  : list ascii :=
  match s with
  | [] => []
  | c :: t =>
      match skip with
      | S k => replace_from old new k t
      | O =>
          if is_prefix old s
          then new ++ replace_from old new (List.length old - 1) t
          else c :: replace_from old new 0 t
      end
  end.

(** [s.replace(old, new)]; with an empty [old], [new] goes before every
    character and at the end. *)
Definition replace (old new s : string) : string :=
  match old with
  | EmptyString =>
      string_of_list_ascii
        (flat_map (fun c => list_ascii_of_string new ++ [c])
                  (list_ascii_of_string s)
         ++ list_ascii_of_string new)
  | String _ _ =>
      string_of_list_ascii
        (replace_from (list_ascii_of_string old) (list_ascii_of_string new) 0
                      (list_ascii_of_string s))
  end.

(** [s.split(sep)] for a one-character [sep]: the pieces between the
    separators, at least one.  [cur] is the piece being read, reversed. *)
Fixpoint split_from (sep : ascii) (cur : list ascii) (s : list ascii)
  : list string :=
  match s with
  | [] => [string_of_list_ascii (rev cur)]
  | c :: t =>
      if Ascii.eqb c sep
      then string_of_list_ascii (rev cur) :: split_from sep [] t
      else split_from sep (c :: cur) t
  end.

Definition split (sep : ascii) (s : string) : list string :=
  split_from sep [] (list_ascii_of_string s).

(** The ASCII characters that [int] skips around a number: space, and tab
    to carriage return. *)
Definition is_space (c : ascii) : bool :=
  let n := nat_of_ascii c in ((n =? 32) || ((9 <=? n) && (n <=? 13)))%nat.

Fixpoint drop_while (cls : ascii -> bool) (s : list ascii) : list ascii :=
  match s with
  | c :: t => if cls c then drop_while cls t else s
  | [] => []
  end.

(** The digits of a run of decimal digits with single underscores between
    digits; [None] when [s] is no such run. *)
Fixpoint digits_of (s : list ascii) (after_digit : bool) : option (list ascii) :=
  match s with
  | [] => if after_digit then Some [] else None
  | c :: t =>
      if is_digit c then option_map (cons c) (digits_of t true)
      else if Ascii.eqb c "_" && after_digit then digits_of t false
      else None
  end.

(** [int(s)] on a string: white space around, a sign, digits with
    underscores; [ValueError] for anything else, and for more digits than
    the interpreter converts ([max_str_digits], 4300 unless configured; 0
    for no limit). *)
Definition to_int (max_str_digits : nat) (s : string) : res Z :=
  let body :=
    rev (drop_while is_space (rev (drop_while is_space (list_ascii_of_string s)))) in
  let '(negative, number) :=
    match body with
    | c :: t => if Ascii.eqb c "-" then (true, t)
                else if Ascii.eqb c "+" then (false, t)
                else (false, body)
    | [] => (false, body)
    end in
  match digits_of number false with
  | None => Raise ValueError
  | Some ds =>
      if ((0 <? max_str_digits) && (max_str_digits <? List.length ds))%nat
      then Raise ValueError
      else
        let n := int_of_digits (string_of_list_ascii ds) in
        Ok (if negative then - n else n)
  end.

(** [os.path.dirname(p)] (posixpath): [p] up to its last slash, without
    the slashes at the end of that unless it is made of slashes. *)
Definition dirname (p : string) : string :=
  let is_slash := fun c => Ascii.eqb c "/" in
  let head :=
    rev (drop_while (fun c => negb (is_slash c)) (rev (list_ascii_of_string p))) in
  string_of_list_ascii
    (if forallb is_slash head then head
     else rev (drop_while is_slash (rev head))).

(** [sub in s] for strings. *)
Definition contains (s sub : string) : bool :=
  match String.index 0 sub s with
  | Some _ => true
  | None => false
  end.

(** [str(z)], as an f-string formats an [int]: [ValueError] for more digits
    than the interpreter converts ([max_str_digits], 0 for no limit). *)
Definition of_int (max_str_digits : nat) (z : Z) : res string :=
  let digits := NilZero.string_of_int (Z.to_int (Z.abs z)) in
  if ((0 <? max_str_digits) && (max_str_digits <? String.length digits))%nat
  then Raise ValueError
  else Ok (NilZero.string_of_int (Z.to_int z)).

End Str.

(** ** Python dictionaries

    A [dict] keeps its keys in insertion order and the sources read that
    order ([list(d.keys())], [d.values()], [d.items()]), so a dictionary is
    an association list whose keys are pairwise different. *)

Class PyEq (K : Type) : Type := {
  py_eqb : K -> K -> bool;
  py_eqb_spec : forall x y, reflect (x = y) (py_eqb x y)
}.

#[export] Instance PyEq_string : PyEq string :=
  {| py_eqb := String.eqb; py_eqb_spec := String.eqb_spec |}.

#[export] Instance PyEq_Z : PyEq Z :=
  {| py_eqb := Z.eqb; py_eqb_spec := Z.eqb_spec |}.

Module Dict.

Section Ops.
Context {K V : Type} `{PyEq K}.

Definition t : Type := list (K * V).

Definition empty : t := [].

(** [d.get(k)] *)
Fixpoint get (d : t) (k : K) : option V :=
  match d with
  | [] => None
  | (k', v) :: rest => if py_eqb k' k then Some v else get rest k
  end.

(** [d[k]] *)
Definition getitem (d : t) (k : K) : res V :=
  match get d k with
  | Some v => Ok v
  | None => Raise KeyError
  end.

(** [k in d] *)
Definition contains (d : t) (k : K) : bool :=
  match get d k with
  | Some _ => true
  | None => false
  end.

(** [d[k] = v]: an existing key keeps its place. *)
Fixpoint set (d : t) (k : K) (v : V) : t :=
  match d with
  | [] => [(k, v)]
  | (k', v') :: rest =>
      if py_eqb k' k then (k', v) :: rest else (k', v') :: set rest k v
  end.

Definition keys (d : t) : list K := map fst d.
Definition values (d : t) : list V := map snd d.
Definition items (d : t) : list (K * V) := d.

(** [{k: v for (k, v) in kvs}] *)
Definition of_items (kvs : list (K * V)) : t :=
  fold_left (fun d kv => set d (fst kv) (snd kv)) kvs empty.

(** The invariant of a dictionary: no key twice. *)
Definition wf (d : t) : Prop := NoDup (keys d).

End Ops.

Arguments t K V : clear implicits.

End Dict.

(** [x in l] for a list. *)
Definition py_in {K : Type} `{PyEq K} (x : K) (l : list K) : bool :=
  existsb (py_eqb x) l.

(** ** Python floats on integer data

    Every [float] that [calc_pr_dimension_size] produces is the binary64
    rounding of an integer: the quotient [sa / gcd(sa, sb)] is an exact
    integer, and differences and products of integers are integers.  IEEE-754
    arithmetic is correctly rounded, so a finite float is represented by the
    integer it holds and each operation rounds the exact integer result to 53
    significant bits, ties to even.  The sign of a zero is not represented:
    no operation below observes it. *)

Module PyFloat.

Inductive t : Type :=
| Fin (z : Z)          (* a finite float holding the integer [z] *)
| Inf (negative : bool)
| NaN.

(** Round-to-nearest, ties-to-even, of an integer to a 53-bit significand
    (unbounded exponent). *)
Definition rnd53 (z : Z) : Z :=
  let a := Z.abs z in
  let e := Z.log2 a - 52 in
  if e <=? 0 then z
  else
    let q := a / 2 ^ e in
    let r := a mod 2 ^ e in
    let half := 2 ^ (e - 1) in
    let q' := if r <? half then q
              else if half <? r then q + 1
              else if Z.even q then q else q + 1 in
    Z.sgn z * (q' * 2 ^ e).

(** Magnitudes from [2^1024] on are not finite binary64 values. *)
Definition overflows (z : Z) : bool := 2 ^ 1024 <=? Z.abs z.

(** [float(n)] as the interpreter applies it to an [int] operand of a mixed
    operation: "int too large to convert to float". *)
Definition of_int (n : Z) : res t :=
  let r := rnd53 n in
  if overflows r then Raise OverflowError else Ok (Fin r).

(** [a / b] on two [int]s whose quotient is exact: the correctly rounded
    quotient, "division by zero" or "integer division result too large for a
    float". *)
Definition truediv_exact (a b : Z) : res t :=
  if b =? 0 then Raise ZeroDivisionError
  else
    let r := rnd53 (a / b) in
    if overflows r then Raise OverflowError else Ok (Fin r).

(** The float result of an exact integer value: rounded, infinite when the
    rounded magnitude is out of range (float arithmetic does not raise). *)
Definition round (z : Z) : t :=
  let r := rnd53 z in
  if overflows r then Inf (r <? 0) else Fin r.

Definition sub (x y : t) : t :=
  match x, y with
  | NaN, _ | _, NaN => NaN
  | Fin a, Fin b => round (a - b)
  | Fin _, Inf s => Inf (negb s)
  | Inf s, Fin _ => Inf s
  | Inf s1, Inf s2 => if Bool.eqb s1 s2 then NaN else Inf s1
  end.

Definition mul (x y : t) : t :=
  match x, y with
  | NaN, _ | _, NaN => NaN
  | Fin a, Fin b => round (a * b)
  | Fin a, Inf s | Inf s, Fin a =>
      if a =? 0 then NaN else Inf (xorb s (a <? 0))
  | Inf s1, Inf s2 => Inf (xorb s1 s2)
  end.

(** [x > 0] *)
Definition gt0 (x : t) : bool :=
  match x with
  | Fin a => 0 <? a
  | Inf s => negb s
  | NaN => false
  end.

(** [max(0, x)]: [x] when [x > 0], else the first argument, the [int] 0,
    which the multiplication that follows converts to the float 0. *)
Definition max0 (x : t) : t := if gt0 x then x else Fin 0.

(** [int(x)]: the value of a finite float (an integer already), "cannot
    convert float infinity to integer", "cannot convert float NaN to
    integer". *)
Definition to_int (x : t) : res Z :=
  match x with
  | Fin a => Ok a
  | Inf _ => Raise OverflowError
  | NaN => Raise ValueError
  end.

End PyFloat.

(** ** [layer_node.py]: overlap-size arithmetic *)

(** [LayerNode.calc_pr_dimension_size(sa, A, sb, B)]:
    [int(A * B - max(0, B - (sa / gcd(sa, sb))) * (A - (sb / gcd(sa, sb))))],
    evaluated left to right.  [math.gcd] is [Z.gcd] (non-negative, 0 only at
    (0, 0)). *)
Definition calc_pr_dimension_size (sa A sb B : Z) : res Z :=
  let ab := A * B in
  fa <- PyFloat.truediv_exact sa (Z.gcd sa sb) ;;
  fB <- PyFloat.of_int B ;;
  let m := PyFloat.max0 (PyFloat.sub fB fa) in
  fb <- PyFloat.truediv_exact sb (Z.gcd sa sb) ;;
  fA <- PyFloat.of_int A ;;
  let p := PyFloat.mul m (PyFloat.sub fA fb) in
  fab <- PyFloat.of_int ab ;;
  PyFloat.to_int (PyFloat.sub fab p).

(** The docstring's reading of [calc_pr_dimension_size]: the number of unique
    indices [c = sa * a + sb * b] for [a] in [range(0, A)] and [b] in
    [range(0, B)]. *)
Definition range (n : Z) : list Z := map Z.of_nat (seq 0 (Z.to_nat n)).

Definition generated_indices (sa A sb B : Z) : list Z :=
  flat_map (fun a => map (fun b => sa * a + sb * b) (range B)) (range A).

Definition count_unique (sa A sb B : Z) : Z :=
  Z.of_nat (length (nodup Z.eq_dec (generated_indices sa A sb B))).


(** ** [layer_node.py]: the layer node *)

Definition LayerDimStr : Type := string.
Definition OperandStr : Type := string.
Definition MemOperandStr : Type := string.
Definition LayerDimSizes : Type := Dict.t LayerDimStr Z.
Definition PrLoop : Type := Dict.t LayerDimStr (list LayerDimStr).
Definition LoopList : Type := list LayerDimStr.
Definition PrScalingFactors : Type := Dict.t LayerDimStr (Dict.t LayerDimStr Z).

(** The value of [operand_loop_dim[operand]]: a dictionary with exactly the
    keys [Relevancy.R], [Relevancy.IR] and [Relevancy.PR]. *)
Record RelevancyDims : Type := {
  R : LoopList;
  IR : LoopList;
  PR : PrLoop
}.

Definition OperandLoopDims : Type := Dict.t OperandStr RelevancyDims.
Definition OperandDimOrder : Type := Dict.t OperandStr LoopList.

(** [user_spatial_mapping]: array dimension name to (layer dimension to
    unrolling size). *)
Definition SpatialMapping : Type := Dict.t string (Dict.t LayerDimStr Z).

(** The entries of [layer_attrs] that the modelled code reads. *)
Record LayerAttrs : Type := {
  has_equation_relations : bool;      (* "equation_relations" in layer_attrs *)
  attr_equation : string;
  attr_loop_dim_size : LayerDimSizes;
  attr_pr_loop_dim_size : option LayerDimSizes;
  attr_dimension_relations : list string;
  attr_spatial_mapping : SpatialMapping;
  attr_core_allocation : option Z;
  attr_memory_operand_links : Dict.t OperandStr MemOperandStr;
  attr_constant_operands : list OperandStr;
  attr_padding : Dict.t LayerDimStr (Z * Z);
  attr_operator_type : option string  (* layer_attrs["operator_type"], if any *)
}.

Record LayerNode : Type := {
  id : Z;
  layer_attrs : LayerAttrs;
  name : string;
  equation : string;
  loop_dim_size : LayerDimSizes;
  pr_loop_dim_size : option LayerDimSizes;
  dimension_relations : list string;
  user_spatial_mapping : SpatialMapping;
  core_allocation : option Z;
  memory_operand_links : Dict.t OperandStr MemOperandStr;
  constant_operands : list OperandStr;
  padding : Dict.t LayerDimStr (Z * Z);
  pr_loop : PrLoop;
  pr_scaling_factors : PrScalingFactors;
  operand_loop_dim : OperandLoopDims;
  operand_loop_dim_reform : Dict.t OperandStr (LoopList * LoopList);
  operand_list : list OperandStr;
  operand_dimensionality_order : OperandDimOrder
}.

(** [self.output_operand = operand_list[0]], [self.input_operands =
    operand_list[1:]] *)
Definition input_operands (self : LayerNode) : list OperandStr :=
  tl (operand_list self).

(** Monadic loops: [for x in l: acc = body(acc, x)]. *)
Fixpoint for_each {A S : Type} (l : list A) (s : S) (body : S -> A -> res S)
  : res S :=
  match l with
  | [] => Ok s
  | x :: t => s' <- body s x ;; for_each t s' body
  end.

(** [[f(x) for x in l]] where [f] may raise. *)
Fixpoint map_res {A B : Type} (f : A -> res B) (l : list A) : res (list B) :=
  match l with
  | [] => Ok []
  | x :: t => y <- f x ;; ys <- map_res f t ;; Ok (y :: ys)
  end.

(** [[x for x in l if p(x)]] where [p] may raise. *)
Fixpoint filter_res {A : Type} (p : A -> res bool) (l : list A) : res (list A) :=
  match l with
  | [] => Ok []
  | x :: t =>
      b <- p x ;; ys <- filter_res p t ;; Ok (if b then x :: ys else ys)
  end.

(** The body of the inner loop of [extract_pr_loop_info]: the scaling factor
    of one right-hand iterator [val_lower] of [relation].  [int(...)] has
    the interpreter's limit on digits, [max_str_digits]. *)
Definition scaling_factor_of (max_str_digits : nat)
    (relation val_lower : string) : res Z :=
  i <- Str.index relation val_lower ;;
  c1 <- Str.getitem relation (Z.of_nat i - 1) ;;
  if Ascii.eqb c1 "*" then
    c2 <- Str.getitem relation (Z.of_nat i - 2) ;;
    if negb (Str.is_digit c2) then Raise NotImplementedError
    else
      d <- Py.getitem (Str.findall_factor val_lower relation) 0 ;;
      Str.to_int max_str_digits d
  else Ok 1.

(** [LayerNode.extract_pr_loop_info] *)
Definition extract_pr_loop_info (max_str_digits : nat)
    (equation_relations : list string)
  : res (PrLoop * LoopList * PrScalingFactors) :=
  for_each equation_relations (Dict.empty, [], Dict.empty)
    (fun '(pr_loop, pr_loop_list, pr_scaling_factors) relation =>
       let relation_disassembly := Str.findall_class Str.is_alpha relation in
       Py.py_assert (List.length relation_disassembly =? 3)%nat ;;;
       key <- Py.getitem (map Str.upper relation_disassembly) 0 ;;
       let val := map Str.upper (tl relation_disassembly) in
       let pr_loop := Dict.set pr_loop key val in
       let pr_loop_list := pr_loop_list ++ (key :: val) in
       scaling_factors <-
         for_each (tl relation_disassembly) Dict.empty
           (fun scaling_factors val_lower =>
              f <- scaling_factor_of max_str_digits relation val_lower ;;
              Ok (Dict.set scaling_factors val_lower f)) ;;
       Py.py_assert (List.length scaling_factors =? 2)%nat ;;;
       Ok (pr_loop, pr_loop_list, Dict.set pr_scaling_factors key scaling_factors)).

(** [LayerNode.build_pr_funcs], on the relations it reads from [self]. *)
Definition build_pr_funcs (max_str_digits : nat)
    (dimension_relations : list string)
  : res (PrLoop * LoopList * PrScalingFactors) :=
  if (0 <? List.length dimension_relations)%nat
  then extract_pr_loop_info max_str_digits dimension_relations
  else Ok (Dict.empty, [], Dict.empty).

(** [LayerNode.calc_pr_dimension_size_total] *)
Definition calc_pr_dimension_size_total (self : LayerNode) (dim : LayerDimStr)
  : res Z :=
  related <- Dict.getitem (pr_loop self) dim ;;
  related_dimension_sizes <- map_res (Dict.getitem (loop_dim_size self)) related ;;
  factors <- Dict.getitem (pr_scaling_factors self) dim ;;
  let scaling_factors := Dict.values factors in
  match scaling_factors, related_dimension_sizes with
  | [sa; sb], [A; B] =>
      total_pr_dim_size <- calc_pr_dimension_size sa A sb B ;;
      let padding :=
        match Dict.get (padding self) dim with
        | Some p => p
        | None => (0, 0)
        end in
      Ok (total_pr_dim_size - (fst padding + snd padding))
  | _, _ => Raise AssertionError
  end.

(** The character class of [re.findall("[a-zA-Z,0-9,=,*,+]+", equation)]. *)
Definition equation_char (c : ascii) : bool :=
  Str.is_alpha c || Str.is_digit c
  || Ascii.eqb c "," || Ascii.eqb c "=" || Ascii.eqb c "*" || Ascii.eqb c "+".

Definition is_eq_or_plus (tok : string) : bool :=
  String.eqb tok "=" || String.eqb tok "+".

(** The loop that drops a [+] standing before [=] or [+]:
    [for i, char in enumerate(equation_disassembly)] over the list that the
    body shortens with [pop(i - 1)].  The list iterator reads position [i] of
    the list as it is then, and stops when [i] is past its end; the list
    never grows, so [len] of the first list bounds the iterations. *)
Fixpoint drop_plus_loop (fuel : nat) (equation_disassembly : list string)
         (i : nat) (prev_char : option string) : list string :=
  match fuel with
  | O => equation_disassembly
  | S fuel' =>
      match nth_error equation_disassembly i with
      | None => equation_disassembly
      | Some char =>
          let l' :=
            if is_eq_or_plus char
               && match prev_char with
                  | Some p => String.eqb p "+"
                  | None => false
                  end
            then Py.pop equation_disassembly (i - 1)
            else equation_disassembly in
          drop_plus_loop fuel' l' (S i) (Some char)
      end
  end.

Definition is_operator (tok : string) : bool :=
  String.eqb tok "=" || String.eqb tok "*" || String.eqb tok "+".

(** [[i for (i, x) in enumerate(l) if x in ["=", "*", "+"]]] *)
Fixpoint operator_positions (l : list string) (i : nat) : list nat :=
  match l with
  | [] => []
  | x :: t => if is_operator x then i :: operator_positions t (S i)
              else operator_positions t (S i)
  end.

Definition size_is_not_1 (loop_dim_size : LayerDimSizes) (loop : LayerDimStr)
  : res bool :=
  n <- Dict.getitem loop_dim_size loop ;; Ok (negb (n =? 1)).

Record RIrState : Type := {
  st_begin_idx : nat;
  st_operand_loop_dim : OperandLoopDims;
  st_operand_list : list OperandStr;
  st_dimensionality_order : OperandDimOrder
}.

(** [LayerNode.extract_r_ir_loop_info].  [set(dimension_list).difference(
    r_loop_list)] is listed in the order of [dimension_list]; Python leaves
    the order of a set open and nothing here depends on it. *)
Definition extract_r_ir_loop_info (equation : string)
    (loop_dim_size : LayerDimSizes) (pr_loop : PrLoop) (pr_loop_list : LoopList)
  : res (OperandLoopDims * Dict.t OperandStr (LoopList * LoopList)
         * list OperandStr * OperandDimOrder) :=
  let equation := Str.replace_char "*" " * " equation in
  let equation := Str.replace_char "=" " = " equation in
  let equation := Str.replace_char "+" " + " equation in
  let equation_disassembly := Str.findall_class equation_char equation in
  let equation_disassembly :=
    drop_plus_loop (List.length equation_disassembly) equation_disassembly 0 None in
  let split_location :=
    operator_positions equation_disassembly 0
      ++ [List.length equation_disassembly] in
  let dimension_list := Dict.keys loop_dim_size in
  st <- for_each split_location
    {| st_begin_idx := 0; st_operand_loop_dim := Dict.empty;
       st_operand_list := []; st_dimensionality_order := Dict.empty |}
    (fun st split_loc =>
       let begin_idx := st_begin_idx st in
       operand <- Py.getitem equation_disassembly begin_idx ;;
       let r_loop_list :=
         map Str.upper (Py.slice equation_disassembly (begin_idx + 1) split_loc) in
       let ir_loop_list :=
         filter (fun d => negb (py_in d r_loop_list)) dimension_list in
       let pr_loop_remove_flag := existsb (Dict.contains pr_loop) r_loop_list in
       dims <-
         (if pr_loop_remove_flag then
            let r := filter (fun loop => negb (py_in loop pr_loop_list)) r_loop_list in
            ir <- filter_res
                    (fun loop =>
                       if negb (py_in loop pr_loop_list)
                       then size_is_not_1 loop_dim_size loop
                       else Ok false)
                    ir_loop_list ;;
            Ok {| R := r; IR := ir; PR := pr_loop |}
          else
            r <- filter_res (size_is_not_1 loop_dim_size) r_loop_list ;;
            ir <- filter_res (size_is_not_1 loop_dim_size) ir_loop_list ;;
            Ok {| R := r; IR := ir; PR := Dict.empty |}) ;;
       Ok {| st_begin_idx := split_loc + 1;
             st_operand_loop_dim := Dict.set (st_operand_loop_dim st) operand dims;
             st_operand_list := st_operand_list st ++ [operand];
             st_dimensionality_order :=
               Dict.set (st_dimensionality_order st) operand r_loop_list |}) ;;
  let operand_loop_dim := st_operand_loop_dim st in
  let operand_loop_dim_reform :=
    map (fun '(operand, dic) =>
           match PR dic with
           | [] => (operand, (R dic, IR dic))
           | _ :: _ =>
               (operand,
                (R dic ++ map (fun d => d ++ "_r")%string (Dict.keys pr_loop),
                 IR dic ++ map (fun d => d ++ "_ir")%string (Dict.keys pr_loop)))
           end)
        (Dict.items operand_loop_dim) in
  Ok (operand_loop_dim, operand_loop_dim_reform, st_operand_list st,
      st_dimensionality_order st).

(** [LayerNode.__init__], Steps 1 and 2.  Step 3 ([extract_layer_info])
    only derives element counts from the fields set here. *)
Definition LayerNode_init (max_str_digits : nat) (layer_id : Z)
    (layer_attrs : LayerAttrs) (node_name : string) : res LayerNode :=
  if has_equation_relations layer_attrs then Raise ValueError
  else
    let loop_dim_size := attr_loop_dim_size layer_attrs in
    prs <- build_pr_funcs max_str_digits (attr_dimension_relations layer_attrs) ;;
    let '(pr_loop, pr_loop_list, pr_scaling_factors) := prs in
    let self0 :=
      {| id := layer_id; layer_attrs := layer_attrs; name := node_name;
         equation := attr_equation layer_attrs;
         loop_dim_size := loop_dim_size;
         pr_loop_dim_size := attr_pr_loop_dim_size layer_attrs;
         dimension_relations := attr_dimension_relations layer_attrs;
         user_spatial_mapping := attr_spatial_mapping layer_attrs;
         core_allocation := attr_core_allocation layer_attrs;
         memory_operand_links := attr_memory_operand_links layer_attrs;
         constant_operands := attr_constant_operands layer_attrs;
         padding := attr_padding layer_attrs;
         pr_loop := pr_loop;
         pr_scaling_factors := pr_scaling_factors;
         operand_loop_dim := Dict.empty;
         operand_loop_dim_reform := Dict.empty;
         operand_list := [];
         operand_dimensionality_order := Dict.empty |} in
    sizes <-
      (match attr_pr_loop_dim_size layer_attrs with
       | Some (e :: d) => Ok (e :: d)
       | Some [] | None =>
           map_res (fun dim =>
                      n <- calc_pr_dimension_size_total self0 dim ;; Ok (dim, n))
                   (Dict.keys pr_loop)
       end) ;;
    info <- extract_r_ir_loop_info (attr_equation layer_attrs) loop_dim_size
                                   pr_loop pr_loop_list ;;
    let '(operand_loop_dim, reform, operand_list, order) := info in
    Ok {| id := layer_id; layer_attrs := layer_attrs; name := node_name;
          equation := attr_equation layer_attrs;
          loop_dim_size := loop_dim_size;
          pr_loop_dim_size := Some sizes;
          dimension_relations := attr_dimension_relations layer_attrs;
          user_spatial_mapping := attr_spatial_mapping layer_attrs;
          core_allocation := attr_core_allocation layer_attrs;
          memory_operand_links := attr_memory_operand_links layer_attrs;
          constant_operands := attr_constant_operands layer_attrs;
          padding := attr_padding layer_attrs;
          pr_loop := pr_loop;
          pr_scaling_factors := pr_scaling_factors;
          operand_loop_dim := operand_loop_dim;
          operand_loop_dim_reform := reform;
          operand_list := operand_list;
          operand_dimensionality_order := order |}.

(** ** Python floats as quotients of integers

    [a / b] on two [int]s is the quotient rounded once, to the nearest
    binary64 value, ties to even, whatever the size of the operands.  A
    finite binary64 value is a dyadic rational, kept here as [mant * 2 ^
    expo] with [mant] odd (and zero as [0 * 2 ^ 0]), so that equal values are
    equal records.  As above, the sign of a zero is not represented. *)

Module Binary64.

Record t : Type := { mant : Z; expo : Z }.

(** The number of trailing zero bits of [p], and [p] without them. *)
Fixpoint twos (p : positive) : nat :=
  match p with
  | xO q => S (twos q)
  | _ => O
  end.

Fixpoint odd_part (p : positive) : positive :=
  match p with
  | xO q => odd_part q
  | _ => p
  end.

(** The value [m * 2 ^ e]. *)
Definition make (m e : Z) : t :=
  match m with
  | Z0 => {| mant := 0; expo := 0 |}
  | Zpos p => {| mant := Zpos (odd_part p); expo := e + Z.of_nat (twos p) |}
  | Zneg p => {| mant := Zneg (odd_part p); expo := e + Z.of_nat (twos p) |}
  end.

(** The float that holds the integer [n] (for [n] of at most 53 bits). *)
Definition of_Z (n : Z) : t := make n 0.

(** [a / b]: "division by zero", "integer division result too large for a
    float", or the quotient rounded to 53 significant bits, and to a
    multiple of [2 ^ -1074] where the quotient is below [2 ^ -1022]. *)
Definition truediv (a b : Z) : res t :=
  if b =? 0 then Raise ZeroDivisionError
  else if a =? 0 then Ok (make 0 0)
  else
    let n := Z.abs a in
    let d := Z.abs b in
    let k := Z.log2 n - Z.log2 d in
    (* the binade of the quotient: 2 ^ fl <= n / d < 2 ^ (fl + 1) *)
    let fl := if d * 2 ^ Z.max 0 k <=? n * 2 ^ Z.max 0 (- k) then k else k - 1 in
    (* the weight of the last bit kept *)
    let u := Z.max (fl - 52) (-1074) in
    let num := n * 2 ^ Z.max 0 (- u) in
    let den := d * 2 ^ Z.max 0 u in
    let q := num / den in
    let r := num mod den in
    let q' := if 2 * r <? den then q
              else if den <? 2 * r then q + 1
              else if Z.even q then q else q + 1 in
    if 2 ^ 1024 <=? q' * 2 ^ Z.max 0 u then Raise OverflowError
    else Ok (make (Z.sgn a * Z.sgn b * q') u).

End Binary64.

(** ** [layer_node.py]: tensor sizes and layer information *)

(** [self.pr_loop_dim_size[dim]] in a method of a constructed node.
    [pr_loop_dim_size] is [None] only while [__init__] runs Step 1, where it
    stands for a dictionary without entries; no caller of the methods below
    sees that state, and it reads here as that dictionary. *)
Definition pr_loop_dim_size_getitem (self : LayerNode) (dim : LayerDimStr)
  : res Z :=
  match pr_loop_dim_size self with
  | Some sizes => Dict.getitem sizes dim
  | None => Raise KeyError
  end.

(** [LayerNode.calc_tensor_dim] *)
Definition calc_tensor_dim (self : LayerNode) (loop_sizes : LayerDimSizes)
    (dim : LayerDimStr) : res Z :=
  if Dict.contains loop_sizes dim then Dict.getitem loop_sizes dim
  else if Dict.contains (pr_loop self) dim then
    related <- Dict.getitem (pr_loop self) dim ;;
    related_dimension_sizes <- map_res (Dict.getitem loop_sizes) related ;;
    factors <- Dict.getitem (pr_scaling_factors self) dim ;;
    let scaling_factors := Dict.values factors in
    match scaling_factors, related_dimension_sizes with
    | [sa; sb], [A; B] =>
        pr_dim_size <- calc_pr_dimension_size sa A sb B ;;
        total <- pr_loop_dim_size_getitem self dim ;;
        Ok (Z.min total pr_dim_size)
    | _, _ => Raise AssertionError
    end
  else if Dict.contains (loop_dim_size self) dim then
    n <- Dict.getitem (loop_dim_size self) dim ;;
    Py.py_assert (n =? 1) ;;;
    Ok 1
  else Raise ValueError.

(** [LayerNode.calc_tensor_dims] *)
Definition calc_tensor_dims (self : LayerNode) (layer_op : OperandStr)
    (loop_sizes : LayerDimSizes) : res (Dict.t LayerDimStr Z) :=
  op_dimensions <- Dict.getitem (operand_loop_dim self) layer_op ;;
  for_each (R op_dimensions ++ Dict.keys (PR op_dimensions)) Dict.empty
    (fun out dim =>
       v <- calc_tensor_dim self loop_sizes dim ;;
       Ok (Dict.set out dim v)).

(** [math.prod] *)
Definition prod (l : list Z) : Z := fold_left Z.mul l 1.

(** [LayerNode.calc_tensor_size] *)
Definition calc_tensor_size (self : LayerNode) (layer_op : OperandStr)
    (loop_sizes : LayerDimSizes) : res Z :=
  dims <- calc_tensor_dims self layer_op loop_sizes ;;
  Ok (prod (Dict.values dims)).

(** The attributes that [extract_layer_info] sets. *)
Record LayerInfo : Type := {
  total_MAC_count : Z;
  operand_size_elem : Dict.t OperandStr Z;
  operand_size_bit : Dict.t OperandStr Z;
  operand_data_reuse : Dict.t OperandStr Binary64.t
}.

(** [d[k] *= n] *)
Definition imul {K : Type} `{PyEq K} (d : Dict.t K Z) (k : K) (n : res Z)
  : res (Dict.t K Z) :=
  cur <- Dict.getitem d k ;;
  n <- n ;;
  Ok (Dict.set d k (cur * n)).

(** [LayerNode.extract_layer_info]; [operand_precision] is the attribute
    [self.operand_precision]. *)
Definition extract_layer_info (self : LayerNode)
    (operand_precision : Dict.t OperandStr Z) : res LayerInfo :=
  total_MAC_count <-
    for_each (Dict.keys (loop_dim_size self)) 1
      (fun total_MAC_count ky =>
         n <- Dict.getitem (loop_dim_size self) ky ;;
         Ok (total_MAC_count * n)) ;;
  operand_size_elem <-
    for_each (Dict.items (operand_loop_dim self)) Dict.empty
      (fun operand_size_elem '(operand, relevancy) =>
         let operand_size_elem := Dict.set operand_size_elem operand 1 in
         operand_size_elem <-
           for_each (R relevancy) operand_size_elem
             (fun operand_size_elem r_loop =>
                imul operand_size_elem operand
                     (Dict.getitem (loop_dim_size self) r_loop)) ;;
         for_each (Dict.items (PR relevancy)) operand_size_elem
           (fun operand_size_elem '(pr_loop, pr_loop_collect) =>
              multiply_factor <-
                (dims <- calc_tensor_dims self operand (loop_dim_size self) ;;
                 Dict.getitem dims pr_loop) ;;
              imul operand_size_elem operand (Ok multiply_factor))) ;;
  operand_size_bit <-
    for_each (Dict.items operand_size_elem) Dict.empty
      (fun operand_size_bit '(operand, size_in_elem) =>
         precision <- Dict.getitem operand_precision operand ;;
         Ok (Dict.set operand_size_bit operand (size_in_elem * precision))) ;;
  operand_data_reuse <-
    for_each (Dict.items operand_size_elem) Dict.empty
      (fun operand_data_reuse '(operand, size_in_elem) =>
         reuse <- Binary64.truediv total_MAC_count size_in_elem ;;
         Ok (Dict.set operand_data_reuse operand reuse)) ;;
  Ok {| total_MAC_count := total_MAC_count;
        operand_size_elem := operand_size_elem;
        operand_size_bit := operand_size_bit;
        operand_data_reuse := operand_data_reuse |}.

(** [LayerNode.__init__] to its end: Steps 1 and 2, the variable input
    operands, and Step 3. *)
Definition LayerNode_init_info (max_str_digits : nat) (layer_id : Z)
    (layer_attrs : LayerAttrs)
    (operand_precision : Dict.t OperandStr Z) (node_name : string)
  : res (LayerNode * list OperandStr * LayerInfo) :=
  self <- LayerNode_init max_str_digits layer_id layer_attrs node_name ;;
  let variable_input_operands :=
    filter (fun op => negb (py_in op (constant_operands self)))
           (input_operands self) in
  info <- extract_layer_info self operand_precision ;;
  Ok (self, variable_input_operands, info).

(** [LayerNode.get_operand_irrelevant_dimensions] *)
Definition get_operand_irrelevant_dimensions (self : LayerNode)
    (layer_op : OperandStr) : res LoopList :=
  dims <- Dict.getitem (operand_loop_dim self) layer_op ;;
  Ok (IR dims).

(** [LayerNode.get_layer_operand] *)
Definition get_layer_operand (self : LayerNode) (mem_op : MemOperandStr)
  : res OperandStr :=
  match find (fun '(layer_operand, memory_operand) =>
                String.eqb memory_operand mem_op)
             (Dict.items (memory_operand_links self)) with
  | Some (layer_operand, _) => Ok layer_operand
  | None => Raise ValueError
  end.

(** ** [workload_factory.py]: operand sources of a layer *)

Module LayerNodeFactory.

(** Modelled from the spec: [LayerOperand] (zigzag.datatypes, not under src/)
    is an interned symbolic name of a tensor operand, a pure value type:
    two operands are equal exactly when their names are. *)
Record LayerOperand : Type := { operand_name : string }.

Definition LayerOperand_eqb (a b : LayerOperand) : bool :=
  String.eqb (operand_name a) (operand_name b).

Lemma LayerOperand_eqb_spec (a b : LayerOperand) :
  reflect (a = b) (LayerOperand_eqb a b).
Proof.
  destruct a as [x], b as [y]. unfold LayerOperand_eqb. simpl.
  destruct (String.eqb_spec x y) as [->|Hne]; constructor; congruence.
Qed.

#[global] Instance PyEq_LayerOperand : PyEq LayerOperand :=
  {| py_eqb := LayerOperand_eqb; py_eqb_spec := LayerOperand_eqb_spec |}.

(** The entries of [node_data] that the two factory methods read. *)
Record NodeData : Type := {
  node_id : Z;                              (* node_data["id"] *)
  node_operand_source : Dict.t string Z     (* node_data["operand_source"] *)
}.

(** [LayerNodeFactory.create_layer_operand] *)
Definition create_layer_operand (name : string) : LayerOperand :=
  {| operand_name := name |}.

(** [LayerNodeFactory.create_constant_operands] *)
Definition create_constant_operands (node_data : NodeData) : list LayerOperand :=
  let operand_sources := node_operand_source node_data in
  let constant_operands :=
    map fst (filter (fun '(_, source) => source =? node_id node_data)
                    (Dict.items operand_sources)) in
  map create_layer_operand constant_operands.

(** [LayerNodeFactory.create_operand_source] *)
Definition create_operand_source (node_data : NodeData)
  : Dict.t LayerOperand Z :=
  let operand_sources := node_operand_source node_data in
  Dict.of_items
    (map (fun '(layer_dim_str, source) => (create_layer_operand layer_dim_str, source))
         (filter (fun '(_, source) => negb (source =? node_id node_data))
                 (Dict.items operand_sources))).

(** The other entries of [node_data] that the factory methods below read;
    [None] stands for a key that [node_data] does not hold. *)
Record NodeFields : Type := {
  node_equation : string;                       (* node_data["equation"] *)
  node_loop_dims : list string;                 (* node_data["loop_dims"] *)
  node_loop_sizes : list Z;                     (* node_data["loop_sizes"] *)
  node_padding : option (list (list Z));        (* node_data["padding"] *)
  node_pr_loop_dims : option (list string);     (* node_data["pr_loop_dims"] *)
  node_pr_loop_sizes : option (list Z)          (* node_data["pr_loop_sizes"] *)
}.

(** [LayerNodeFactory.create_equation]: the string handed to
    [LayerEquation]. *)
Definition create_equation (node_data : NodeFields) : string :=
  let equation := node_equation node_data in
  let equation := Str.replace "+=" "=" equation in
  let equation := Str.replace "++" "+" equation in
  let equation := Str.replace "*" " * " equation in
  let equation := Str.replace "=" " = " equation in
  let equation := Str.replace "+" " + " equation in
  equation.

Section WithLayerDim.

(** [LayerDim] (zigzag.datatypes) is not under src/.  The factory builds a
    [LayerDim] from a name and uses it as a dictionary key: it is a type
    with an equality, and [create_layer_dim] a function to it. *)
Context {LayerDim : Type} `{PyEq LayerDim}.
Variable create_layer_dim : string -> LayerDim.

(** [node_data[key]] for a key that may be missing. *)
Definition required {A : Type} (entry : option A) : res A :=
  match entry with
  | Some a => Ok a
  | None => Raise KeyError
  end.

(** [LayerNodeFactory.create_layer_dim_sizes]: the dictionary handed to
    [LayerDimSizes]; [zip] stops at the end of the shorter list. *)
Definition create_layer_dim_sizes (node_data : NodeFields) : Dict.t LayerDim Z :=
  let loop_dims := map create_layer_dim (node_loop_dims node_data) in
  let loop_sizes := node_loop_sizes node_data in
  Dict.of_items (combine loop_dims loop_sizes).

(** One item of the comprehension of [create_padding]:
    [layer_dim: (padding_data[i][0], padding_data[i][1])]. *)
Definition padding_item (padding_data : list (list Z))
    (entry : nat * LayerDim) : res (LayerDim * (Z * Z)) :=
  let '(i, layer_dim) := entry in
  row <- Py.getitem padding_data i ;;
  before <- Py.getitem row 0 ;;
  row <- Py.getitem padding_data i ;;
  after <- Py.getitem row 1 ;;
  Ok (layer_dim, (before, after)).

(** [LayerNodeFactory.create_padding]: the dictionary handed to
    [LayerPadding], empty for [LayerPadding.empty()]. *)
Definition create_padding (node_data : NodeFields)
  : res (Dict.t LayerDim (Z * Z)) :=
  match node_padding node_data with
  | None => Ok Dict.empty
  | Some padding_data =>
      pr_loop_dims <- required (node_pr_loop_dims node_data) ;;
      let pr_layer_dims := map create_layer_dim pr_loop_dims in
      items <- map_res (padding_item padding_data)
                       (combine (seq 0 (List.length pr_layer_dims)) pr_layer_dims) ;;
      Ok (Dict.of_items items)
  end.

(** [LayerNodeFactory.create_pr_layer_dim_sizes] *)
Definition create_pr_layer_dim_sizes (node_data : NodeFields)
  : res (option (Dict.t LayerDim Z)) :=
  match node_pr_loop_sizes node_data with
  | None => Ok None
  | Some pr_sizes =>
      pr_loop_dims <- required (node_pr_loop_dims node_data) ;;
      let pr_layer_dims := map create_layer_dim pr_loop_dims in
      Ok (Some (Dict.of_items (combine pr_layer_dims pr_sizes)))
  end.

End WithLayerDim.

End LayerNodeFactory.

(** ** [workload_factory.py]: the mapping of a layer *)

Module MappingFactory.

(** One entry of [mapping_data], the validated and normalized mapping of one
    operator type.  The schema requires [name] and gives [core_allocation]
    and [memory_operand_links] a default; the other keys may be missing
    (outer [None]) or hold [None] (inner [None]). *)
Record MappingData : Type := {
  mapping_name : string;
  mapping_core_allocation : Z;
  mapping_spatial_mapping : option (option (Dict.t string (list string)));
  mapping_memory_operand_links : Dict.t string string;
  mapping_temporal_ordering : option (option Z)
}.

(** [MappingFactory.__init__]: the entry it keeps in [self.mapping_data].
    [None] stands for the [StopIteration] of [next(filter(...))] on data
    without an entry named "default". *)
Definition init (operation_type : string) (mapping_data : list MappingData)
  : option MappingData :=
  if existsb (fun x => String.eqb operation_type (mapping_name x)) mapping_data
  then find (fun x => String.eqb (mapping_name x) operation_type) mapping_data
  else find (fun x => String.eqb (mapping_name x) "default") mapping_data.

(** [MappingFactory.get_core_allocation] *)
Definition get_core_allocation (self : MappingData) : Z :=
  mapping_core_allocation self.

Section WithDatatypes.

(** [LayerDim] and [OADimension] (zigzag.datatypes) and
    [AcceleratorFactory.create_oa_dim] are not under src/: types with an
    equality, built from a name.  [max_str_digits] is the interpreter's
    limit on the digits of an [int] read from a string. *)
Context {LayerDim : Type} `{PyEq LayerDim}.
Context {OADimension : Type} `{PyEq OADimension}.
Variable create_layer_dim : string -> LayerDim.
Variable create_oa_dim : string -> OADimension.
Variable max_str_digits : nat.

(** [l[-1]] *)
Definition getitem_last {A : Type} (l : list A) : res A :=
  match l with
  | [] => Raise IndexError
  | _ :: _ => Py.getitem l (List.length l - 1)
  end.

(** [MappingFactory.create_mapping_single_oa_dim]: the dictionary handed to
    [MappingSingleOADim]. *)
Definition create_mapping_single_oa_dim (mapping_data : list string)
  : res (Dict.t LayerDim Z) :=
  for_each mapping_data Dict.empty
    (fun mapping_dict single_unrolling =>
       layer_dim_str <- Py.getitem (Str.split "," single_unrolling) 0 ;;
       last <- getitem_last (Str.split "," single_unrolling) ;;
       unrolling <- Str.to_int max_str_digits last ;;
       let layer_dim := create_layer_dim layer_dim_str in
       Ok (Dict.set mapping_dict layer_dim unrolling)).

(** [MappingFactory.create_spatial_mapping]: the dictionary handed to
    [SpatialMapping], empty for [SpatialMapping.empty()]. *)
Definition create_spatial_mapping (self : MappingData)
  : res (Dict.t OADimension (Dict.t LayerDim Z)) :=
  spatial_mapping <- LayerNodeFactory.required (mapping_spatial_mapping self) ;;
  match spatial_mapping with
  | None => Ok Dict.empty
  | Some user_data =>
      for_each (Dict.items user_data) Dict.empty
        (fun spatial_mapping_dict '(oa_dim_str, unrolling_list) =>
           let oa_dim := create_oa_dim oa_dim_str in
           mapping_this_oa_dim <- create_mapping_single_oa_dim unrolling_list ;;
           Ok (Dict.set spatial_mapping_dict oa_dim mapping_this_oa_dim))
  end.

End WithDatatypes.

(** [MappingFactory.create_temporal_ordering]: the empty ordering, or
    [NotImplementedError] for data that holds one. *)
Definition create_temporal_ordering (self : MappingData) : res unit :=
  match mapping_temporal_ordering self with
  | None | Some None => Ok tt
  | Some (Some _) => Raise NotImplementedError
  end.

End MappingFactory.

(** ** [MappingValidator.py] *)

Module MappingValidator.

(** The regular expression of the schema for one unrolling of
    [spatial_mapping], [^[A-Z]+, [0-9]+$], matched at the start of [s] as
    [re.match] does: the letters and the digits it reads.  [$] also matches
    before a newline that ends the string. *)
Definition match_unrolling (s : string) : option (string * string) :=
  let (letters, rest) := Str.span Str.is_upper (list_ascii_of_string s) in
  match letters, rest with
  | _ :: _, c1 :: c2 :: rest' =>
      if Ascii.eqb c1 "," && Ascii.eqb c2 " " then
        let (digits, tail) := Str.span Str.is_digit rest' in
        match digits with
        | [] => None
        | _ :: _ =>
            let found :=
              Some (string_of_list_ascii letters, string_of_list_ascii digits) in
            match tail with
            | [] => found
            | [c] => if (nat_of_ascii c =? 10)%nat then found else None
            | _ => None
            end
        end
      else None
  | _, _ => None
  end.

(** An entry of the normalized, not yet validated data: [validate] itself
    reads its "name", which an invalid entry may lack. *)
Record RawMapping : Type := { raw_name : option string }.

(** The validator object: [self.data] and [self.is_valid]. *)
Record Validator : Type := {
  data : list RawMapping;
  is_valid : bool
}.

(** [__init__], on the data that [UpgradedValidator.normalize_list]
    returned. *)
Definition init (normalized : list RawMapping) : Validator :=
  {| data := normalized; is_valid := true |}.

(** [normalized_data] *)
Definition normalized_data (self : Validator) : list RawMapping := data self.

(** [invalidate] *)
Definition invalidate (self : Validator) : Validator :=
  {| data := data self; is_valid := false |}.

(** [name in map(lambda x: x["name"], data)]: the names are read one by one
    up to the first that is equal. *)
Fixpoint name_in (name : string) (data : list RawMapping) : res bool :=
  match data with
  | [] => Ok false
  | x :: rest =>
      n <- LayerNodeFactory.required (raw_name x) ;;
      if String.eqb name n then Ok true else name_in name rest
  end.

(** [validate]; [validate_success] is what [self.validator.validate(
    self.data, schema=self.schema)] returned.  [validate_single_mapping]
    does nothing. *)
Definition validate (validate_success : bool) (self : Validator)
  : res (Validator * bool) :=
  let self := if negb validate_success then invalidate self else self in
  has_default <- name_in "default" (data self) ;;
  let self := if negb has_default then invalidate self else self in
  Ok (self, is_valid self).

End MappingValidator.

(** ** The hardware description read by the stages *)

Module Hardware.

(** Modelled from the spec: the hardware architecture classes ([Accelerator],
    [Core], [OperationalArray], [MemoryHierarchy], [MemoryLevel],
    [MemoryInstance]) are not under src/.  Section 6 of the specification
    gives what they expose: per core an operational array with named
    dimensions, and a memory hierarchy exposing per memory level its served
    array dimensions, the operands it holds, its capacity and its port
    allocation.  The records below hold the attributes that the stages read.

    A [MemoryInstance] is a mutable object that memory levels refer to; the
    hierarchy owns the store of these objects and a level holds a reference
    (a position in the store), so two levels may share one instance.
    [copy.deepcopy] of a hierarchy is a copy of the record: the copy has its
    own store, with the sharing of the original. *)

Record Dimension : Type := { dim_name : string }.

Record OperationalArray : Type := {
  dimensions : list Dimension;
  pe_type : option string          (* getattr(operational_array, "pe_type", None) *)
}.

Record MemoryInstance : Type := {
  instance_name : string;
  size : Z
}.

(** Port dictionaries, served-dimension vectors and dataflows are only
    copied by the stages. *)
Definition PortAlloc : Type := list (Dict.t string string).
Definition ServedDimensions : Type := list (list Z).
Definition Dataflows : Type := list (Dict.t string Z).

Record MemoryLevel : Type := {
  memory_instance : nat;                       (* reference into the store *)
  operands : list MemOperandStr;
  port_alloc_raw : PortAlloc;
  served_dimensions_vec : list ServedDimensions;
  served_dimensions : list Dimension           (* a set *)
}.

Record MemoryHierarchy : Type := {
  mh_name : string;
  instances : list MemoryInstance;             (* the store *)
  mem_level_list : list MemoryLevel
}.

Record Core : Type := {
  core_id : Z;
  operational_array : OperationalArray;
  memory_hierarchy : MemoryHierarchy;
  dataflows : Dataflows
}.

Record Accelerator : Type := {
  acc_name : string;
  cores : list Core
}.

(** What [modify_innermost_input_mem_size] constructs: the arguments of the
    constructor calls [MemoryHierarchy(operational_array, name)],
    [add_memory(...)], [Core(...)] and [Accelerator(...)], in order. *)
Record AddMemory : Type := {
  am_memory_instance : MemoryInstance;
  am_operands : list MemOperandStr;
  am_port_alloc : PortAlloc;
  am_served_dimensions : ServedDimensions
}.

Record NewMemoryHierarchy : Type := {
  nmh_operational_array : OperationalArray;
  nmh_name : string;
  nmh_memories : list AddMemory
}.

Record NewCore : Type := {
  nc_id : Z;
  nc_operational_array : OperationalArray;
  nc_memory_hierarchy : NewMemoryHierarchy;
  nc_dataflows : Dataflows
}.

(** An accelerator object in the hands of a stage: the one it was given, or
    one it built. *)
Inductive AnyAccelerator : Type :=
| Given (a : Accelerator)
| Built (name : string) (core_set : list NewCore).

(** [store[ref].size *= factor] *)
Fixpoint scale_instance (store : list MemoryInstance) (ref : nat) (factor : Z)
  : list MemoryInstance :=
  match store, ref with
  | [], _ => []
  | m :: rest, O =>
      {| instance_name := instance_name m; size := size m * factor |} :: rest
  | m :: rest, S r => m :: scale_instance rest r factor
  end.

(** The capacity of each memory level of a hierarchy, innermost first as
    in [mem_level_list] ([None] for a reference outside the store), and of
    each memory of a hierarchy that was built. *)
Definition level_sizes (mh : MemoryHierarchy) : list (option Z) :=
  map (fun l => option_map size (nth_error (instances mh) (memory_instance l)))
      (mem_level_list mh).

Definition new_level_sizes (mh : NewMemoryHierarchy) : list Z :=
  map (fun m => size (am_memory_instance m)) (nmh_memories mh).

End Hardware.

Import Hardware.

(** A cost-model evaluation as the stages see it: the accelerator it refers
    to, and the evaluation itself, which no stage here reads. *)
Record CME : Type := {
  cme_accelerator : AnyAccelerator;
  cme_data : Z
}.

Definition ExtraInfo : Type := Z.

(** [DummyNode.py] *)
Record DummyNode : Type := {
  dummy_id : Z;
  dummy_input_operand_source : Dict.t string (list Z);
  dummy_name : string;
  dummy_type : option string;
  dummy_core_allocation : Z;
  dummy_runtime : Z;
  dummy_start : option Z;
  dummy_end : option Z
}.


(** A node of the workload graph. *)
Inductive Node : Type :=
| Layer (layer : LayerNode)
| Dummy (node : DummyNode).


(** The workload: a directed graph (networkx.DiGraph) on nodes. *)
Record Workload : Type := {
  nodes : list Node;
  edges : list (Node * Node)
}.

(** The collaborators of the stages, which are not under src/: each is a
    function of what the stage passes to it.
    - [get_core acc core_id]: [Accelerator.get_core];
    - [get_inner_memories mh]: [MemoryHierarchy.get_inner_memories], as the
      positions in [mem_level_list] of the levels it returns, in the order
      it returns them;
    - [topological_sort w]: [networkx.topological_sort];
    - [generator_run layer acc provided mix]: the mappings that
      [UserSpatialMappingGenerator(...).run()] yields;
    - [conversion_run acc layer]: what
      [SpatialMappingConversionStage(list_of_callables, accelerator=acc,
      layer=layer, **kwargs).run()] yields;
    - [sub_stage_run layer acc]: what
      [list_of_callables[0](list_of_callables[1:], **kwargs).run()] yields
      in [WorkloadStage]. *)
Record Collaborators : Type := {
  get_core : Accelerator -> option Z -> Core;
  get_inner_memories : MemoryHierarchy -> list nat;
  topological_sort : Workload -> list Node;
  generator_run :
    LayerNode -> Accelerator -> SpatialMapping -> bool -> list SpatialMapping;
  conversion_run : AnyAccelerator -> LayerNode -> list (CME * ExtraInfo);
  sub_stage_run : LayerNode -> Accelerator -> list (CME * ExtraInfo)
}.

(** A generator run to its end: what it did, in order, and the exception
    that ended it, if one did. *)
Record Run (E : Type) : Type := {
  events : list E;
  raised : option exn
}.
Arguments events {E} r.
Arguments raised {E} r.

(** ** [SpatialMappingGeneratorStage.py] *)

Module SpatialMappingGeneratorStage.

Record Stage : Type := {
  accelerator : Accelerator;
  layer : LayerNode;
  enable_mix_spatial_mapping_generation : bool;
  maximize_hardware_utilization : bool;
  enable_weight_diagonal_mapping : bool
}.

(** [check_layer]: [layer] is [None] or a layer node. *)
Definition check_layer (layer : option LayerNode) : res bool :=
  match layer with
  | None => Raise ValueError
  | Some l =>
      match core_allocation l with
      | None => Raise ValueError
      | Some _ => Ok true
      end
  end.

(** [__init__], with the defaults of the keyword arguments left to the
    caller. *)
Definition init (accelerator : Accelerator) (layer : option LayerNode)
    (enable_mix maximize enable_diag : bool) : res Stage :=
  check_layer layer ;;;
  match layer with
  | Some l =>
      Ok {| accelerator := accelerator; layer := l;
            enable_mix_spatial_mapping_generation := enable_mix;
            maximize_hardware_utilization := maximize;
            enable_weight_diagonal_mapping := enable_diag |}
  | None => Raise ValueError
  end.

(** [self.layer.user_spatial_mapping = user_spatial_mapping] *)
Definition set_user_spatial_mapping (l : LayerNode) (usm : SpatialMapping)
  : LayerNode :=
  {| id := id l; layer_attrs := layer_attrs l; name := name l;
     equation := equation l; loop_dim_size := loop_dim_size l;
     pr_loop_dim_size := pr_loop_dim_size l;
     dimension_relations := dimension_relations l;
     user_spatial_mapping := usm;
     core_allocation := core_allocation l;
     memory_operand_links := memory_operand_links l;
     constant_operands := constant_operands l;
     padding := padding l; pr_loop := pr_loop l;
     pr_scaling_factors := pr_scaling_factors l;
     operand_loop_dim := operand_loop_dim l;
     operand_loop_dim_reform := operand_loop_dim_reform l;
     operand_list := operand_list l;
     operand_dimensionality_order := operand_dimensionality_order l |}.

Section WithCollaborators.
Variable ext : Collaborators.

(** The loop over [innermost_levels] that finds the level serving the
    activation operand: the last level that holds it wins.  The state is
    [None] while [act_served_oa_dim] is not in [locals()].  A position past
    the end of [mem_level_list], which [get_inner_memories] of a hierarchy
    does not return, reads as [IndexError]. *)
Definition find_act_level (mh : MemoryHierarchy) (innermost_levels : list nat)
    (layer_op_to_mem_op : Dict.t OperandStr MemOperandStr)
    (act_operand : OperandStr) : res (option (nat * list Dimension)) :=
  for_each innermost_levels None
    (fun found pos =>
       memory_level <- Py.getitem (mem_level_list mh) pos ;;
       let mem_ops := operands memory_level in
       mem_op <- Dict.getitem layer_op_to_mem_op act_operand ;;
       if py_in mem_op mem_ops
       then Ok (Some (pos, served_dimensions memory_level))
       else Ok found).

(** The product of the unrollings, on the served array dimension, of the
    layer dimensions that are irrelevant to the constant operand. *)
Definition mem_scaling_factor_of (user_spatial_mapping : SpatialMapping)
    (act_served_oa_dim_name : string) (weight_ir_layer_dims : list LayerDimStr)
  : Z :=
  match Dict.get user_spatial_mapping act_served_oa_dim_name with
  | None => 1
  | Some act_served_oa_mapping =>
      fold_left
        (fun mem_scaling_factor '(layer_dim, layer_size) =>
           if py_in layer_dim weight_ir_layer_dims
           then mem_scaling_factor * layer_size
           else mem_scaling_factor)
        (Dict.items act_served_oa_mapping) 1
  end.

(** One turn of the loop that fills the new memory hierarchy, for the
    level [memory_level] at position [curr_mem_level].
    [memory_level == act_innermost_mem_level] compares a level of the
    copied hierarchy with the one found among its innermost levels: the
    levels of one hierarchy are told apart by their position.
    [memory_instance.size *= mem_scaling_factor] writes to the store of the
    copied hierarchy; [pickle_deepcopy(memory_instance)] reads the instance
    as the store has it at that moment (a reference past the end of the
    store, which no hierarchy holds, reads as [IndexError]). *)
Definition rebuild_step (act_pos : nat) (mem_scaling_factor : Z)
    (state : list MemoryInstance * list AddMemory)
    (entry : nat * MemoryLevel) : res (list MemoryInstance * list AddMemory) :=
  let '(store, added) := state in
  let '(curr_mem_level, memory_level) := entry in
  let ref := memory_instance memory_level in
  let store :=
    if (curr_mem_level =? act_pos)%nat
    then scale_instance store ref mem_scaling_factor
    else store in
  let operands := operands memory_level in
  let port_alloc := port_alloc_raw memory_level in
  let served_dimensions_vec := served_dimensions_vec memory_level in
  Py.py_assert (1 <=? List.length served_dimensions_vec)%nat ;;;
  served_dimensions <- Py.getitem served_dimensions_vec 0 ;;
  new_memory_instance <- Py.getitem store ref ;;
  Ok (store,
      added ++ [ {| am_memory_instance := new_memory_instance;
                    am_operands := operands;
                    am_port_alloc := port_alloc;
                    am_served_dimensions := served_dimensions |} ]).

(** The loop [for curr_mem_level, memory_level in
    enumerate(memory_hierarchy.mem_level_list)]. *)
Definition rebuild_memories (mh : MemoryHierarchy) (act_pos : nat)
    (mem_scaling_factor : Z) : res (list MemoryInstance * list AddMemory) :=
  for_each (combine (seq 0 (List.length (mem_level_list mh))) (mem_level_list mh))
    (instances mh, [])
    (rebuild_step act_pos mem_scaling_factor).

(** [modify_innermost_input_mem_size] *)
Definition modify_innermost_input_mem_size (self : Stage) (core_id : option Z)
    (user_spatial_mapping : SpatialMapping) : res (bool * AnyAccelerator) :=
  let input_mem_size_updated := false in
  let core := get_core ext (accelerator self) core_id in
  let operational_array := Hardware.operational_array core in
  let memory_hierarchy := Hardware.memory_hierarchy core in
  let innermost_levels := get_inner_memories ext memory_hierarchy in
  let layer_op_to_mem_op := memory_operand_links (layer self) in
  if (1 <? List.length (constant_operands (layer self)))%nat then
    Ok (input_mem_size_updated, Given (accelerator self))
  else
    const_operand <- Py.getitem (constant_operands (layer self)) 0 ;;
    act_operand <-
      Py.getitem
        (filter (fun operand => negb (String.eqb operand const_operand))
                (input_operands (layer self))) 0 ;;
    dims <- Dict.getitem (operand_loop_dim (layer self)) const_operand ;;
    let weight_ir_layer_dims := IR dims in
    found <- find_act_level memory_hierarchy innermost_levels
                            layer_op_to_mem_op act_operand ;;
    match found with
    | Some (act_innermost_mem_level, [act_served_oa_dim]) =>
        let act_served_oa_dim_name := dim_name act_served_oa_dim in
        let mem_scaling_factor :=
          mem_scaling_factor_of user_spatial_mapping act_served_oa_dim_name
                                weight_ir_layer_dims in
        if mem_scaling_factor =? 1 then
          Ok (input_mem_size_updated, Given (accelerator self))
        else
          let input_mem_size_updated := true in
          let new_mh_name :=
            (mh_name memory_hierarchy ++ "-supporting-diagonal-map")%string in
          built <- rebuild_memories memory_hierarchy act_innermost_mem_level
                                    mem_scaling_factor ;;
          let new_memory_hierarchy :=
            {| nmh_operational_array := operational_array;
               nmh_name := new_mh_name;
               nmh_memories := snd built |} in
          let new_core :=
            {| nc_id := Hardware.core_id core;
               nc_operational_array := operational_array;
               nc_memory_hierarchy := new_memory_hierarchy;
               nc_dataflows := dataflows core |} in
          let new_name :=
            (acc_name (accelerator self) ++ "-supporting-diagonal-map")%string in
          Ok (input_mem_size_updated, Built new_name [new_core])
    | _ => Ok (input_mem_size_updated, Given (accelerator self))
    end.

(** What [run] does, in order. *)
Inductive Event : Type :=
| Launch (i nb_user_spatial_mappings : nat) (user_spatial_mapping : SpatialMapping)
| Convert (accelerator : AnyAccelerator) (layer : LayerNode)
| Yield (cme : CME) (info : SpatialMapping * ExtraInfo).

(** The mapping-source selection at the head of [run].  Modelled from the
    spec: [x in user_provided_spatial_mappings] holds when the mapping
    assigns the array dimension [x], that is, has an entry under its name
    (the key that [modify_innermost_input_mem_size] looks up). *)
Definition select_user_spatial_mappings (self : Stage) : list SpatialMapping :=
  let user_provided_spatial_mappings := user_spatial_mapping (layer self) in
  let core_id := core_allocation (layer self) in
  let core := get_core ext (accelerator self) core_id in
  let oa_dims := dimensions (Hardware.operational_array core) in
  if forallb (fun x => Dict.contains user_provided_spatial_mappings (dim_name x))
             oa_dims
  then [user_provided_spatial_mappings]
  else generator_run ext (layer self) (accelerator self)
                     user_provided_spatial_mappings
                     (enable_mix_spatial_mapping_generation self).

(** The stage once [self.layer.user_spatial_mapping = user_spatial_mapping]
    has run. *)
Definition with_mapping (self : Stage) (user_spatial_mapping : SpatialMapping)
  : Stage :=
  {| accelerator := accelerator self;
     layer := set_user_spatial_mapping (layer self) user_spatial_mapping;
     enable_mix_spatial_mapping_generation :=
       enable_mix_spatial_mapping_generation self;
     maximize_hardware_utilization := maximize_hardware_utilization self;
     enable_weight_diagonal_mapping := enable_weight_diagonal_mapping self |}.

(** The adaptation step of one turn: [(input_mem_size_updated,
    new_accelerator)], computed only [if self.enable_weight_diagonal_mapping]
    (without it the flag test that follows short-circuits). *)
Definition adapt (self : Stage) (user_spatial_mapping : SpatialMapping)
  : res (bool * AnyAccelerator) :=
  if enable_weight_diagonal_mapping self
  then modify_innermost_input_mem_size
         (with_mapping self user_spatial_mapping)
         (core_allocation (layer self)) user_spatial_mapping
  else Ok (false, Given (accelerator self)).

(** One turn of the loop of [run], for the [i]-th mapping. *)
Definition run_one (self : Stage) (nb : nat) (i : nat)
    (user_spatial_mapping : SpatialMapping) : Run Event :=
  let layer' := layer (with_mapping self user_spatial_mapping) in
  let launched := Launch (S i) nb user_spatial_mapping in
  match adapt self user_spatial_mapping with
  | Raise e => {| events := [launched]; raised := Some e |}
  | Ok (input_mem_size_updated, new_accelerator) =>
      let swap := enable_weight_diagonal_mapping self && input_mem_size_updated in
      let used := if swap then new_accelerator else Given (accelerator self) in
      {| events :=
           launched :: Convert used layer'
           :: map (fun '(cme, extra_info) =>
                     let cme :=
                       if swap
                       then {| cme_accelerator := Given (accelerator self);
                               cme_data := cme_data cme |}
                       else cme in
                     Yield cme (user_spatial_mapping, extra_info))
                  (conversion_run ext used layer');
         raised := None |}
  end.

(** The loop of [run] over the mappings that are left, from the [i]-th. *)
Fixpoint run_loop (self : Stage) (nb : nat) (i : nat)
    (user_spatial_mappings : list SpatialMapping) : Run Event :=
  match user_spatial_mappings with
  | [] => {| events := []; raised := None |}
  | usm :: rest =>
      let r := run_one self nb i usm in
      match raised r with
      | Some e => r
      | None =>
          let r' := run_loop self nb (S i) rest in
          {| events := events r ++ events r'; raised := raised r' |}
      end
  end.

(** [run] *)
Definition run (self : Stage) : Run Event :=
  let user_spatial_mappings := select_user_spatial_mappings self in
  let nb_user_spatial_mappings := List.length user_spatial_mappings in
  run_loop self nb_user_spatial_mappings 0 user_spatial_mappings.

(** What [run] yields for one candidate: the results of the conversion stage
    built for it, each tagged with the candidate. *)
Definition results_of (self : Stage) (usm : SpatialMapping)
  : list (CME * (SpatialMapping * ExtraInfo)) :=
  let layer' := set_user_spatial_mapping (layer self) usm in
  match adapt self usm with
  | Ok (true, new_accelerator) =>
      map (fun '(cme, extra_info) =>
             ({| cme_accelerator := Given (accelerator self);
                 cme_data := cme_data cme |}, (usm, extra_info)))
          (conversion_run ext new_accelerator layer')
  | Ok (false, _) =>
      map (fun '(cme, extra_info) => (cme, (usm, extra_info)))
          (conversion_run ext (Given (accelerator self)) layer')
  | Raise _ => []
  end.

End WithCollaborators.

(** What an observer of [run] sees: the mappings launched, the mappings the
    conversion stages were built for, and the mappings that tag the results
    yielded. *)
Definition launched (evs : list Event) : list SpatialMapping :=
  flat_map (fun e => match e with Launch _ _ usm => [usm] | _ => [] end) evs.

Definition converted (evs : list Event) : list SpatialMapping :=
  flat_map (fun e => match e with
                     | Convert _ l => [user_spatial_mapping l]
                     | _ => []
                     end) evs.

Definition yield_tags (evs : list Event) : list SpatialMapping :=
  flat_map (fun e => match e with Yield _ (usm, _) => [usm] | _ => [] end) evs.

(** The pairs that [run] yields, in order. *)
Definition yielded (evs : list Event)
  : list (CME * (SpatialMapping * ExtraInfo)) :=
  flat_map (fun e => match e with Yield cme info => [(cme, info)] | _ => [] end)
           evs.

End SpatialMappingGeneratorStage.

(** ** [WorkloadStage.py] *)

Module WorkloadStage.

Record Stage : Type := {
  workload : Workload;
  accelerator : Accelerator
}.

(** What [run] does, in order: [Visit] marks a node that passed the
    [DummyNode] test, [SubStage] the construction of the sub-stage with
    [kwargs["layer"]] and [kwargs["accelerator"]]. *)
Inductive Event : Type :=
| Visit (id : nat) (layer : Node)
| SubStage (layer : Node) (accelerator : Accelerator)
| Yield (cme : CME) (info : Node * ExtraInfo).

Section WithCollaborators.
Variable ext : Collaborators.

(** [(pe_type in ["in_sram_computing"]) and (layer_type in ["Pooling", "Add"])] *)
Definition imc_skips (pe_type layer_type : option string) : bool :=
  match pe_type with
  | Some p => String.eqb p "in_sram_computing"
  | None => false
  end
  && match layer_type with
     | Some t => String.eqb t "Pooling" || String.eqb t "Add"
     | None => false
     end.

(** The body of the loop of [run] for one node. *)
Definition run_node (self : Stage) (id : nat) (node : Node) : list Event :=
  match node with
  | Dummy _ => []
  | Layer layer =>
      let core_id := core_allocation layer in
      let core := get_core ext (accelerator self) core_id in
      let operational_array := Hardware.operational_array core in
      let pe_type := Hardware.pe_type operational_array in
      let layer_type := attr_operator_type (layer_attrs layer) in
      if imc_skips pe_type layer_type then [Visit id node]
      else
        Visit id node :: SubStage node (accelerator self)
        :: map (fun '(cme, extra_info) => Yield cme (node, extra_info))
               (sub_stage_run ext layer (accelerator self))
  end.

Fixpoint run_loop (self : Stage) (id : nat) (order : list Node) : list Event :=
  match order with
  | [] => []
  | node :: rest => run_node self id node ++ run_loop self (S id) rest
  end.

(** [run] *)
Definition run (self : Stage) : list Event :=
  run_loop self 0 (topological_sort ext (workload self)).

(** What [run] yields for one node of the order: nothing for a node it
    skips, and for a layer the results of its sub-stage, each tagged with
    the layer. *)
Definition results_of (self : Stage) (node : Node)
  : list (CME * (Node * ExtraInfo)) :=
  match node with
  | Dummy _ => []
  | Layer layer =>
      let core := get_core ext (accelerator self) (core_allocation layer) in
      if imc_skips (Hardware.pe_type (Hardware.operational_array core))
                   (attr_operator_type (layer_attrs layer))
      then []
      else map (fun '(cme, extra_info) => (cme, (node, extra_info)))
               (sub_stage_run ext layer (accelerator self))
  end.


End WithCollaborators.



Definition yield_tags (evs : list Event) : list Node :=
  flat_map (fun e => match e with Yield _ (n, _) => [n] | _ => [] end) evs.

(** The pairs that [run] yields, in order. *)
Definition yielded (evs : list Event) : list (CME * (Node * ExtraInfo)) :=
  flat_map (fun e => match e with Yield cme info => [(cme, info)] | _ => [] end)
           evs.

End WorkloadStage.

(** ** [PlotTemporalMappingsStage.py] *)

Module PlotTemporalMappingsStage.

Record Stage : Type := {
  plot_filename_pattern : string
}.

(** What a sub-stage yields as its first component: a
    [CostModelEvaluation], or an object of another class. *)
Inductive Result : Type :=
| Evaluation (cme : CME)
| Other.

(** What [run] does, in order: the pairs it yields, and the calls
    [os.makedirs(path, exist_ok=True)] and
    [bar_plot_cost_model_evaluations_breakdown(cmes, filename)]. *)
Inductive Event : Type :=
| Yield (cme : CME) (extra_info : ExtraInfo)
| MakeDirs (path : string)
| Plot (cmes : list CME) (filename : string).

(** [os.makedirs(path, exist_ok=True)]: the exception that ends it, if one
    does.  The empty path names no directory and gives [FileNotFoundError];
    what happens for another path is up to the file system at hand,
    [file_system]. *)
Definition makedirs (file_system : string -> option exn) (path : string)
  : option exn :=
  if String.eqb path "" then Some FileNotFoundError else file_system path.

(** The loop of [run] over what the sub-stage yields, and the two calls
    after it; [cmes] holds the evaluations seen so far. *)
Fixpoint run_loop (file_system : string -> option exn) (filename : string)
    (cmes : list CME) (results : list (Result * ExtraInfo)) : Run Event :=
  match results with
  | [] =>
      match makedirs file_system (Str.dirname filename) with
      | Some e =>
          {| events := [MakeDirs (Str.dirname filename)]; raised := Some e |}
      | None =>
          {| events := [MakeDirs (Str.dirname filename); Plot cmes filename];
             raised := None |}
      end
  | (Other, _) :: _ => {| events := []; raised := Some AssertionError |}
  | (Evaluation cme, extra_info) :: rest =>
      let r := run_loop file_system filename (cmes ++ [cme]) rest in
      {| events := Yield cme extra_info :: events r; raised := raised r |}
  end.

(** [run]; [substage_run] is what
    [self.list_of_callables[0](self.list_of_callables[1:], **self.kwargs)
    .run()] yields. *)
Definition run (file_system : string -> option exn) (self : Stage)
    (substage_run : list (Result * ExtraInfo)) : Run Event :=
  let filename := plot_filename_pattern self in
  run_loop file_system filename [] substage_run.

(** The pairs that [run] yields, in order. *)
Definition yielded (evs : list Event) : list (CME * ExtraInfo) :=
  flat_map (fun e => match e with
                     | Yield cme extra_info => [(cme, extra_info)]
                     | _ => []
                     end) evs.

End PlotTemporalMappingsStage.


(** ** [DNNWorkload.py] *)

Module DNNWorkload.

(** [assert cond, message]: the message is built only when [cond] is
    false, and building it can raise. *)
Definition assert_with {A : Type} (cond : bool) (message : res A) : res unit :=
  if cond then Ok tt else (message ;;; Raise AssertionError).

Section WithCollaborators.

(** The values that the constructor hands on without looking at them, and
    the classes [LayerAttributes] and [LayerNode] of
    [zigzag.workload], which are not part of these sources. *)
Context {Any LayerAttributes LayerNode : Type}.

(** A [dict[str, Any]] that describes a layer, and likewise an entry of the
    mapping.  The constructor reads three attributes itself, which the
    record keeps at the types it uses them at: a name and an operator type
    are strings, [operand_source] maps an operand to the ids of the layers
    that produce it.  [None] is an attribute that the dictionary does not
    have.  All other attributes are in [others]. *)
Record LayerData : Type := {
  name : option string;
  operator_type : option string;
  operand_source : option (Dict.t string (list Z));
  others : Dict.t string Any
}.

(** [LayerAttributes.parse_user_input(layer)] and
    [LayerNode(layer_id, layer_attributes, node_name=layer_name)]. *)
Variable parse_user_input : LayerData -> res LayerAttributes.
Variable new_layer_node : Z -> LayerAttributes -> string -> res LayerNode.

(** The interpreter's limit on the digits of a converted [int]. *)
Variable max_str_digits : nat.

(** [for attr_name, attr_va in attrs.items(): layer[attr_name] = attr_va] *)
Definition update (layer attrs : LayerData) : LayerData :=
  let assign {A : Type} (old new : option A) : option A :=
    match new with
    | Some v => Some v
    | None => old
    end in
  {| name := assign (name layer) (name attrs);
     operator_type := assign (operator_type layer) (operator_type attrs);
     operand_source := assign (operand_source layer) (operand_source attrs);
     others := fold_left (fun d kv => Dict.set d (fst kv) (snd kv))
                         (Dict.items (others attrs)) (others layer) |}.

(** The first part of the loop body: the name of the layer and the layer
    with the attributes of its mapping.  An operator type that is [None] is
    no key of the mapping. *)
Definition apply_mapping (mapping : Dict.t string LayerData)
    (layer_id : Z) (layer : LayerData) : res (string * LayerData) :=
  number <- Str.of_int max_str_digits layer_id ;;
  let layer_name :=
    match name layer with
    | Some n => n
    | None => ("Layer " ++ number)%string
    end in
  let operator_type := operator_type layer in
  attrs <-
    (if Dict.contains mapping layer_name then Dict.getitem mapping layer_name
     else
       match operator_type with
       | Some t =>
           if Dict.contains mapping t then Dict.getitem mapping t
           else Dict.getitem mapping "default"
       | None => Dict.getitem mapping "default"
       end) ;;
  Ok (layer_name, update layer attrs).

(** The loop body up to the new node. *)
Definition build (mapping : Dict.t string LayerData)
    (layer_id : Z) (layer : LayerData) : res (LayerData * LayerNode) :=
  named <- apply_mapping mapping layer_id layer ;;
  let '(layer_name, layer) := named in
  layer_attributes <- parse_user_input layer ;;
  layer_node <- new_layer_node layer_id layer_attributes layer_name ;;
  Ok (layer, layer_node).

(** [layer.get("operand_source", {}).items()] *)
Definition sources (layer : LayerData) : list (string * list Z) :=
  match operand_source layer with
  | Some d => Dict.items d
  | None => []
  end.

(** The two loops that collect the edges of a layer.  The message of the
    assertion is an f-string that formats [parent_id]. *)
Definition edges_of (layer_id_to_obj : Dict.t Z LayerNode)
    (layer : LayerData) (layer_node : LayerNode)
  : res (list (LayerNode * LayerNode)) :=
  for_each (sources layer) []
    (fun edges '(_, parent_list) =>
       for_each parent_list edges
         (fun edges parent_id =>
            assert_with (Dict.contains layer_id_to_obj parent_id)
                        (Str.of_int max_str_digits parent_id) ;;;
            parent_layer <- Dict.getitem layer_id_to_obj parent_id ;;
            Ok (edges ++ [(parent_layer, layer_node)]))).

(** The calls on the graph of the base class [Workload], in order. *)
Inductive Event : Type :=
| AddNode (node : LayerNode)
| AddEdges (edges : list (LayerNode * LayerNode)).

(** The constructor at work: its lookup table, the list it fills, the calls
    it made. *)
Record State : Type := {
  layer_id_to_obj : Dict.t Z LayerNode;
  layer_node_list : list LayerNode;
  events : list Event
}.

(** The body of the loop for one layer: the state it leaves and the
    exception that ended it, if one did. *)
Definition run_layer (mapping : Dict.t string LayerData) (st : State)
    (layer_id : Z) (layer : LayerData) : State * option exn :=
  match build mapping layer_id layer with
  | Raise e => (st, Some e)
  | Ok (layer, layer_node) =>
      let st :=
        {| layer_id_to_obj := Dict.set (layer_id_to_obj st) layer_id layer_node;
           layer_node_list := layer_node_list st ++ [layer_node];
           events := events st ++ [AddNode layer_node] |} in
      match edges_of (layer_id_to_obj st) layer layer_node with
      | Raise e => (st, Some e)
      | Ok edges =>
          ({| layer_id_to_obj := layer_id_to_obj st;
              layer_node_list := layer_node_list st;
              events := events st ++ [AddEdges edges] |}, None)
      end
  end.

Fixpoint run_loop (mapping : Dict.t string LayerData) (st : State)
    (items : list (Z * LayerData)) : State * option exn :=
  match items with
  | [] => (st, None)
  | (layer_id, layer) :: rest =>
      match run_layer mapping st layer_id layer with
      | (st, None) => run_loop mapping st rest
      | (st, Some e) => (st, Some e)
      end
  end.

(** [DNNWorkload.__init__], once the constructor of the base class has
    returned, on a workload whose layers are different objects. *)
Definition init (workload : Dict.t Z LayerData)
    (mapping : Dict.t string LayerData) : State * option exn :=
  run_loop mapping
    {| layer_id_to_obj := Dict.empty; layer_node_list := []; events := [] |}
    (Dict.items workload).

End WithCollaborators.

End DNNWorkload.

(** ** Example inputs *)

(** A convolution layer in the format of the docstring of [LayerNode]:
    batch size [b_size], padding [pad], and the relations
    [ix = 1*ox + 1*fx], [iy = 1*oy + 1*fy]. *)
Definition conv_attrs (b_size : Z) (pad : Dict.t LayerDimStr (Z * Z))
    (consts : list OperandStr) : LayerAttrs :=
  {| has_equation_relations := false;
     attr_equation := "O[b][k][oy][ox]+=W[k][c][fy][fx]*I[b][c][iy][ix]";
     attr_loop_dim_size :=
       [("B", b_size); ("K", 32); ("C", 64); ("OY", 28); ("OX", 4);
        ("FY", 3); ("FX", 3)];
     attr_pr_loop_dim_size := None;
     attr_dimension_relations := ["ix=1*ox+1*fx"; "iy=1*oy+1*fy"];
     attr_spatial_mapping := [];
     attr_core_allocation := Some 1;
     attr_memory_operand_links := [("O", "O"); ("W", "I2"); ("I", "I1")];
     attr_constant_operands := consts;
     attr_padding := pad;
     attr_operator_type := None |}.

(** A one-dimensional convolution with dilation 2 and one output column:
    [ix = 1*ox + 2*fx] with [OX = 1] and [FX = 3], no padding. *)
Definition dilated_attrs : LayerAttrs :=
  {| has_equation_relations := false;
     attr_equation := "O[k][ox]+=W[k][c][fx]*I[c][ix]";
     attr_loop_dim_size := [("K", 32); ("C", 64); ("OX", 1); ("FX", 3)];
     attr_pr_loop_dim_size := None;
     attr_dimension_relations := ["ix=1*ox+2*fx"];
     attr_spatial_mapping := [];
     attr_core_allocation := Some 1;
     attr_memory_operand_links := [("O", "O"); ("W", "I2"); ("I", "I1")];
     attr_constant_operands := ["W"];
     attr_padding := [];
     attr_operator_type := None |}.

(** A core with a 2-dimensional array.  The register file [rf_1B] is one
    [MemoryInstance] object added twice, for [I1] and for [I2], so the first
    two memory levels share it; [shared = false] gives the [I2] level a
    register file of its own. *)
Definition example_hierarchy (shared : bool) : MemoryHierarchy :=
  {| mh_name := "mem";
     instances :=
       [ {| instance_name := "rf_1B"; size := 8 |};
         {| instance_name := "sram"; size := 1000 |};
         {| instance_name := "rf_1B"; size := 8 |} ];
     mem_level_list :=
       [ {| memory_instance := 0; operands := ["I1"]; port_alloc_raw := [];
            served_dimensions_vec := [[[1; 0]]];
            served_dimensions := [ {| dim_name := "D1" |} ] |};
         {| memory_instance := if shared then 0%nat else 2%nat;
            operands := ["I2"]; port_alloc_raw := [];
            served_dimensions_vec := [[[0; 1]]];
            served_dimensions := [ {| dim_name := "D2" |} ] |};
         {| memory_instance := 1; operands := ["I1"; "I2"; "O"];
            port_alloc_raw := [];
            served_dimensions_vec := [[[1; 0]; [0; 1]]];
            served_dimensions :=
              [ {| dim_name := "D1" |}; {| dim_name := "D2" |} ] |} ] |}.

Definition example_core (shared : bool) : Core :=
  {| core_id := 1;
     operational_array :=
       {| dimensions := [ {| dim_name := "D1" |}; {| dim_name := "D2" |} ];
          pe_type := None |};
     memory_hierarchy := example_hierarchy shared;
     dataflows := [] |}.

Definition example_accelerator (shared : bool) : Accelerator :=
  {| acc_name := "acc"; cores := [example_core shared] |}.

(** Collaborators for the examples: the accelerator's first core, the two
    register-file levels as innermost memories, the nodes in the order of the
    graph's node list, two generated mappings, and one result per
    sub-stage. *)
Definition example_ext : Collaborators :=
  {| get_core := fun acc _ => hd (example_core false) (cores acc);
     get_inner_memories := fun _ => [0%nat; 1%nat];
     topological_sort := fun w => nodes w;
     generator_run := fun _ _ _ _ =>
       [ [("D1", [("OX", 4)]); ("D2", [("K", 8)])];
         [("D1", [("K", 8)]); ("D2", [("C", 8)])] ];
     conversion_run := fun acc _ => [({| cme_accelerator := acc; cme_data := 0 |}, 0)];
     sub_stage_run := fun _ acc =>
       [({| cme_accelerator := Given acc; cme_data := 0 |}, 0)] |}.

(** The node that [LayerNode.__init__] builds, or an empty node when it
    raises. *)
Definition node_of (attrs : LayerAttrs) : LayerNode :=
  match LayerNode_init 4300 0 attrs "conv" with
  | Ok node => node
  | Raise _ =>
      {| id := 0; layer_attrs := attrs; name := ""; equation := "";
         loop_dim_size := []; pr_loop_dim_size := None;
         dimension_relations := []; user_spatial_mapping := [];
         core_allocation := None; memory_operand_links := [];
         constant_operands := []; padding := []; pr_loop := [];
         pr_scaling_factors := []; operand_loop_dim := [];
         operand_loop_dim_reform := []; operand_list := [];
         operand_dimensionality_order := [] |}
  end.

(** A generator stage for the convolution layer with the constant operands
    [consts], on the example accelerator. *)
Definition example_stage (shared : bool) (consts : list OperandStr)
    (enable_diag : bool) : SpatialMappingGeneratorStage.Stage :=
  {| SpatialMappingGeneratorStage.accelerator := example_accelerator shared;
     SpatialMappingGeneratorStage.layer := node_of (conv_attrs 1 [] consts);
     SpatialMappingGeneratorStage.enable_mix_spatial_mapping_generation := false;
     SpatialMappingGeneratorStage.maximize_hardware_utilization := true;
     SpatialMappingGeneratorStage.enable_weight_diagonal_mapping := enable_diag |}.

Definition diagonal_mapping : SpatialMapping :=
  [("D1", [("OX", 4)]); ("D2", [("K", 8)])].

(** The convolution layer with a user mapping for both dimensions of the
    array, and a generator stage for it with the diagonal mapping on. *)
Definition mapped_conv_attrs (consts : list OperandStr) : LayerAttrs :=
  let attrs := conv_attrs 1 [] consts in
  {| has_equation_relations := has_equation_relations attrs;
     attr_equation := attr_equation attrs;
     attr_loop_dim_size := attr_loop_dim_size attrs;
     attr_pr_loop_dim_size := attr_pr_loop_dim_size attrs;
     attr_dimension_relations := attr_dimension_relations attrs;
     attr_spatial_mapping := diagonal_mapping;
     attr_core_allocation := attr_core_allocation attrs;
     attr_memory_operand_links := attr_memory_operand_links attrs;
     attr_constant_operands := attr_constant_operands attrs;
     attr_padding := attr_padding attrs;
     attr_operator_type := attr_operator_type attrs |}.

Definition mapped_stage (consts : list OperandStr)
  : SpatialMappingGeneratorStage.Stage :=
  {| SpatialMappingGeneratorStage.accelerator := example_accelerator false;
     SpatialMappingGeneratorStage.layer := node_of (mapped_conv_attrs consts);
     SpatialMappingGeneratorStage.enable_mix_spatial_mapping_generation := false;
     SpatialMappingGeneratorStage.maximize_hardware_utilization := true;
     SpatialMappingGeneratorStage.enable_weight_diagonal_mapping := true |}.




(** Mapping data with a mapping for convolutions and a default mapping. *)
Definition example_mappings : list MappingFactory.MappingData :=
  [ {| MappingFactory.mapping_name := "Conv";
       MappingFactory.mapping_core_allocation := 1;
       MappingFactory.mapping_spatial_mapping :=
         Some (Some [("D1", ["K, 8"]); ("D2", ["C, 8"])]);
       MappingFactory.mapping_memory_operand_links :=
         [("O", "O"); ("W", "I2"); ("I", "I1")];
       MappingFactory.mapping_temporal_ordering := None |};
    {| MappingFactory.mapping_name := "default";
       MappingFactory.mapping_core_allocation := 1;
       MappingFactory.mapping_spatial_mapping := Some None;
       MappingFactory.mapping_memory_operand_links :=
         [("O", "O"); ("W", "I2"); ("I", "I1")];
       MappingFactory.mapping_temporal_ordering := None |} ].

(** The precisions of the operands of the convolution layer. *)
Definition conv_precision : Dict.t OperandStr Z :=
  [("O", 16); ("W", 8); ("I", 8)].

(** ** Definitions that the statements and proofs below use *)

(** No string of [l] stands in it twice. *)
Fixpoint distinct (l : list string) : bool :=
  match l with
  | [] => true
  | x :: t => negb (py_in x t) && distinct t
  end.

(** The integers from [lo] up to [hi], [hi] excluded. *)
Definition rangeZ (lo hi : Z) : list Z :=
  map (fun i => lo + Z.of_nat i) (seq 0 (Z.to_nat (hi - lo))).

(** One pair [(a, b)] for every generated index: among the pairs that
    generate an index, the one with the smallest [a].  [p] and [q] are the
    scaling factors divided by their gcd. *)
Definition representatives (p q A B : Z) : list (Z * Z) :=
  list_prod (rangeZ 0 (Z.min A q)) (rangeZ 0 B)
  ++ list_prod (rangeZ q A) (rangeZ (Z.max 0 (B - p)) B).

(** The padding that [calc_pr_dimension_size_total] subtracts:
    [sum(self.padding.get(dim, (0, 0)))]. *)
Definition total_padding (self : LayerNode) (dim : LayerDimStr) : Z :=
  match Dict.get (padding self) dim with
  | Some (pad_before, pad_after) => pad_before + pad_after
  | None => 0 + 0
  end.

(** One item of the comprehension of [create_operand_source]. *)
Definition tag_operand (kv : string * Z) : LayerNodeFactory.LayerOperand * Z :=
  let '(layer_dim_str, source) := kv in
  (LayerNodeFactory.create_layer_operand layer_dim_str, source).

(** The lists of one operand as the code filters them: the Irrelevant list
    holds no dimension of size 1; the Relevant list holds none when the
    operand has no partially relevant dimension, and otherwise holds no
    dimension of [pr_loop_list]. *)
Definition size_1_free (sizes : LayerDimSizes) (pr_loop_list : LoopList)
    (dims : RelevancyDims) : Prop :=
  (forall d, In d (IR dims) -> exists n, Dict.get sizes d = Some n /\ n <> 1)
  /\ (PR dims = [] ->
      forall d, In d (R dims) -> exists n, Dict.get sizes d = Some n /\ n <> 1)
  /\ (PR dims <> [] -> forall d, In d (R dims) -> ~ In d pr_loop_list).

(** The store of the copied hierarchy when the loop reaches position [i]:
    enlarged once the activation level [act] is behind. *)
Definition store_at (s0 : list MemoryInstance) (act_ref : nat) (factor : Z)
    (act i : nat) : list MemoryInstance :=
  if (act <? i)%nat then scale_instance s0 act_ref factor else s0.

(** A memory instance after [size *= factor]. *)
Definition scaled (factor : Z) (m : MemoryInstance) : MemoryInstance :=
  {| instance_name := instance_name m; size := size m * factor |}.

(** The memory that the loop adds for a level, read from [store]. *)
Definition new_memory (store : list MemoryInstance) (lvl : MemoryLevel)
  : AddMemory :=
  {| am_memory_instance :=
       nth (memory_instance lvl) store {| instance_name := ""; size := 0 |};
     am_operands := operands lvl;
     am_port_alloc := port_alloc_raw lvl;
     am_served_dimensions := hd [] (served_dimensions_vec lvl) |}.

(** The relevance lists of one operand from the dimensions [r_loop_list] of
    its term, as the loop of [extract_r_ir_loop_info] computes them. *)
Definition classify (loop_dim_size : LayerDimSizes) (pr_loop : PrLoop)
    (pr_loop_list : LoopList) (r_loop_list : LoopList) : res RelevancyDims :=
  let dimension_list := Dict.keys loop_dim_size in
  let ir_loop_list :=
    filter (fun d => negb (py_in d r_loop_list)) dimension_list in
  if existsb (Dict.contains pr_loop) r_loop_list then
    let r := filter (fun loop => negb (py_in loop pr_loop_list)) r_loop_list in
    ir <- filter_res
            (fun loop =>
               if negb (py_in loop pr_loop_list)
               then size_is_not_1 loop_dim_size loop
               else Ok false)
            ir_loop_list ;;
    Ok {| R := r; IR := ir; PR := pr_loop |}
  else
    r <- filter_res (size_is_not_1 loop_dim_size) r_loop_list ;;
    ir <- filter_res (size_is_not_1 loop_dim_size) ir_loop_list ;;
    Ok {| R := r; IR := ir; PR := Dict.empty |}.

(** The size in elements that [extract_layer_info] computes for one operand:
    the sizes of its relevant dimensions and the tensor dimensions of its
    partially relevant ones, multiplied up. *)
Definition operand_size (self : LayerNode) (operand : OperandStr)
    (relevancy : RelevancyDims) : res Z :=
  rs <- map_res (Dict.getitem (loop_dim_size self)) (R relevancy) ;;
  ps <- map_res (fun '(pr_loop, _) =>
                   dims <- calc_tensor_dims self operand (loop_dim_size self) ;;
                   Dict.getitem dims pr_loop)
                (Dict.items (PR relevancy)) ;;
  Ok (prod (rs ++ ps)).

(** The results at the head of what a sub-stage yields that are
    evaluations. *)
Fixpoint leading_evaluations
    (results : list (PlotTemporalMappingsStage.Result * ExtraInfo))
  : list (CME * ExtraInfo) :=
  match results with
  | (PlotTemporalMappingsStage.Evaluation cme, extra_info) :: rest =>
      (cme, extra_info) :: leading_evaluations rest
  | _ => []
  end.

Definition is_evaluation (r : PlotTemporalMappingsStage.Result * ExtraInfo)
  : bool :=
  match fst r with
  | PlotTemporalMappingsStage.Evaluation _ => true
  | PlotTemporalMappingsStage.Other => false
  end.

(** The rows of [padding_data] that [create_padding] reads for [n]
    dimensions have two entries or more. *)
Definition padding_rows_ok (padding_data : list (list Z)) (n : nat) : bool :=
  forallb (fun i => (2 <=? List.length (nth i padding_data []))%nat) (seq 0 n).

(** The pair that [create_padding] reads from a row. *)
Definition padding_of_row (row : list Z) : Z * Z := (nth 0 row 0, nth 1 row 0).

(** Whether [int] converts a run of digits: it has no more digits than the
    limit of the interpreter, if there is one. *)
Definition within_int_limit (max_str_digits : nat) (digits : string) : bool :=
  negb ((0 <? max_str_digits) && (max_str_digits <? String.length digits))%nat.

(** A text in which every character of [ops] stands between two spaces of
    its own: the text is made of characters outside [ops] and of groups
    space, operator, space. *)
Inductive spaced (ops : list ascii) : list ascii -> Prop :=
| spaced_nil : spaced ops []
| spaced_char (c : ascii) (l : list ascii) :
    ~ In c ops -> spaced ops l -> spaced ops (c :: l)
| spaced_op (c : ascii) (l : list ascii) :
    In c ops -> spaced ops l ->
    spaced ops (" "%char :: c :: " "%char :: l).

(** A text without its spaces. *)
Definition without_spaces (s : string) : list ascii :=
  filter (fun c => negb (Ascii.eqb c " ")) (list_ascii_of_string s).

(** ** Dimension relations as a layer definition writes them *)
(** [x] stands in [l] at position [n]. *)
Definition occurs_at (x l : list ascii) (n : nat) : Prop :=
  firstn (length x) (skipn n l) = x.

(** A dimension relation [key = fa*a + fb*b] as a layer definition writes
    it, without blanks; a scaling factor that is [None] is left out. *)
Record Relation : Type := {
  rel_key : string;
  rel_a : string;
  rel_factor_a : option string;
  rel_b : string;
  rel_factor_b : option string
}.

Definition render_term (factor : option string) (name : string) : string :=
  match factor with
  | Some digits => digits ++ "*" ++ name
  | None => name
  end.

(** The characters that a factor puts before its name. *)
Definition factor_chars (factor : option string) : list ascii :=
  match factor with
  | Some digits => list_ascii_of_string digits ++ ["*"%char]
  | None => []
  end.

Definition render (r : Relation) : string :=
  rel_key r ++ "=" ++ render_term (rel_factor_a r) (rel_a r)
  ++ "+" ++ render_term (rel_factor_b r) (rel_b r).

Definition factor_value (factor : option string) : Z :=
  match factor with
  | Some digits => Str.int_of_digits digits
  | None => 1
  end.

(** A name is made of letters, a number of digits; neither is empty. *)
Definition is_name (s : string) : Prop :=
  s <> "" /\ forallb Str.is_alpha (list_ascii_of_string s) = true.

Definition is_number (s : string) : Prop :=
  s <> "" /\ forallb Str.is_digit (list_ascii_of_string s) = true.

(** The relations that [extract_pr_loop_info] reads as they are meant: the
    name of the first iterator is no part of the key, the name of the
    second is no part of the key or of the first, and no factor has more
    digits than [int] converts. *)
Definition well_formed (max_str_digits : nat) (r : Relation) : Prop :=
  is_name (rel_key r) /\ is_name (rel_a r) /\ is_name (rel_b r)
  /\ (forall digits, rel_factor_a r = Some digits -> is_number digits)
  /\ (forall digits, rel_factor_b r = Some digits -> is_number digits)
  /\ Str.contains (rel_key r) (rel_a r) = false
  /\ Str.contains (rel_key r) (rel_b r) = false
  /\ Str.contains (rel_a r) (rel_b r) = false
  /\ (forall digits, rel_factor_a r = Some digits ->
       within_int_limit max_str_digits digits = true)
  /\ (forall digits, rel_factor_b r = Some digits ->
       within_int_limit max_str_digits digits = true).

(** What a relation says: the names it relates, in capitals, and the factor
    of each right-hand name. *)
Definition relation_loop (r : Relation) : LayerDimStr * list LayerDimStr :=
  (Str.upper (rel_key r), [Str.upper (rel_a r); Str.upper (rel_b r)]).

Definition relation_factors (r : Relation)
  : LayerDimStr * Dict.t LayerDimStr Z :=
  (Str.upper (rel_key r),
   [(rel_a r, factor_value (rel_factor_a r));
    (rel_b r, factor_value (rel_factor_b r))]).

Definition example_relations : list Relation :=
  [ {| rel_key := "ix"; rel_a := "ox"; rel_factor_a := None;
       rel_b := "fx"; rel_factor_b := None |};
    {| rel_key := "iy"; rel_a := "oy"; rel_factor_a := Some "2";
       rel_b := "fy"; rel_factor_b := Some "13" |} ].

(** ** The graph that [DNNWorkload] builds *)

(** The ids that a layer names as the sources of its operands, the edges
    that a lookup table gives for them, and the nodes that a sequence of
    calls adds to the graph. *)
Definition parents {Any : Type} (layer : @DNNWorkload.LayerData Any) : list Z :=
  flat_map snd (DNNWorkload.sources layer).

Definition edge_list {LayerNode : Type} (layer_id_to_obj : Dict.t Z LayerNode)
    (layer_node : LayerNode) (ids : list Z) : list (LayerNode * LayerNode) :=
  flat_map (fun id => match Dict.get layer_id_to_obj id with
                      | Some parent_layer => [(parent_layer, layer_node)]
                      | None => []
                      end) ids.

(** What a reference to a layer that is not there ends in: the
    [AssertionError], or the exception of building its message. *)
Definition reference_error (max_str_digits : nat) (parent_id : Z) : exn :=
  match Str.of_int max_str_digits parent_id with
  | Ok _ => AssertionError
  | Raise e => e
  end.

Definition added_nodes {LayerNode : Type}
    (evs : list (@DNNWorkload.Event LayerNode)) : list LayerNode :=
  flat_map (fun e => match e with
                     | DNNWorkload.AddNode n => [n]
                     | DNNWorkload.AddEdges _ => []
                     end) evs.

(** What holds of the state whenever the loop body has run: the nodes of
    the lookup table were added to the graph, the list holds the nodes
    added, and edges were added right after the node they end in, from
    nodes added before. *)
Definition edges_point_back {LayerNode : Type} (evs : list (@DNNWorkload.Event LayerNode)) : Prop :=
  forall i es, nth_error evs i = Some (DNNWorkload.AddEdges es) ->
    (0 < i)%nat
    /\ exists n, nth_error evs (pred i) = Some (DNNWorkload.AddNode n)
       /\ forall parent child, In (parent, child) es ->
            child = n
            /\ exists j, (j < i)%nat
                         /\ nth_error evs j = Some (DNNWorkload.AddNode parent).

Definition graph_invariant {LayerNode : Type} (st : @DNNWorkload.State LayerNode) : Prop :=
  (forall id v, Dict.get (DNNWorkload.layer_id_to_obj st) id = Some v ->
     exists j, nth_error (DNNWorkload.events st) j = Some (DNNWorkload.AddNode v))
  /\ DNNWorkload.layer_node_list st = added_nodes (DNNWorkload.events st)
  /\ edges_point_back (DNNWorkload.events st).

(** A workload of three layers, the last of which names itself as a source,
    with collaborators that take a layer's data for its attributes and the
    pair of id and name for its node. *)
Definition example_dnn_layer (sources : list Z) : @DNNWorkload.LayerData unit :=
  {| DNNWorkload.name := None;
     DNNWorkload.operator_type := Some "Conv";
     DNNWorkload.operand_source :=
       match sources with
       | [] => None
       | _ :: _ => Some [("I", sources)]
       end;
     DNNWorkload.others := [] |}.

Definition example_dnn_workload : Dict.t Z (@DNNWorkload.LayerData unit) :=
  [(0, example_dnn_layer []); (1, example_dnn_layer [0]); (2, example_dnn_layer [1; 2])].

Definition example_dnn_mapping : Dict.t string (@DNNWorkload.LayerData unit) :=
  [("default",
    {| DNNWorkload.name := None; DNNWorkload.operator_type := None;
       DNNWorkload.operand_source := None; DNNWorkload.others := [] |})].

Definition example_parse (layer : @DNNWorkload.LayerData unit)
  : res (@DNNWorkload.LayerData unit) := Ok layer.

Definition example_node (layer_id : Z) (attributes : @DNNWorkload.LayerData unit)
    (node_name : string) : res (Z * string) := Ok (layer_id, node_name).

(** ** The dimensions that the relations of a layer name *)

(** The dimensions that a relation names, in capitals, and the dimensions
    that one of the relations of a layer names: the entries of
    [pr_loop_list]. *)
Definition relation_names (relation : string) : list LayerDimStr :=
  map Str.upper (Str.findall_class Str.is_alpha relation).

Definition named_in_relations (relations : list string) (d : LayerDimStr)
  : Prop :=
  exists relation, In relation relations /\ In d (relation_names relation).

(** * Properties *)

(** ** Exactness of the float model on small integers *)

Section FloatExact.

Lemma rnd53_exact (z : Z) : Z.abs z < 2 ^ 53 -> PyFloat.rnd53 z = z.
Proof.
  intros Hz. unfold PyFloat.rnd53.
  destruct (Z.leb_spec (Z.log2 (Z.abs z) - 52) 0) as [_|He]; [reflexivity|].
  exfalso.
  assert (Hpos : 0 < Z.abs z).
  { destruct (Z.eq_dec (Z.abs z) 0) as [E|E]; [rewrite E in He; simpl in He|]; lia. }
  apply (Z.log2_lt_pow2 _ 53 Hpos) in Hz. lia.
Qed.

Lemma small_not_overflows (z : Z) : Z.abs z < 2 ^ 53 -> PyFloat.overflows z = false.
Proof.
  intros Hz. unfold PyFloat.overflows. apply Z.leb_gt.
  apply Z.lt_trans with (2 ^ 53); [exact Hz|].
  apply Z.pow_lt_mono_r; lia.
Qed.

Lemma of_int_exact (n : Z) :
  Z.abs n < 2 ^ 53 -> PyFloat.of_int n = Ok (PyFloat.Fin n).
Proof.
  intros Hn. unfold PyFloat.of_int.
  rewrite (rnd53_exact n Hn), (small_not_overflows n Hn). reflexivity.
Qed.

Lemma round_exact (z : Z) : Z.abs z < 2 ^ 53 -> PyFloat.round z = PyFloat.Fin z.
Proof.
  intros Hz. unfold PyFloat.round.
  rewrite (rnd53_exact z Hz), (small_not_overflows z Hz). reflexivity.
Qed.

Lemma truediv_exact_exact (a b : Z) :
  b <> 0 -> Z.abs (a / b) < 2 ^ 53 ->
  PyFloat.truediv_exact a b = Ok (PyFloat.Fin (a / b)).
Proof.
  intros Hb Hq. unfold PyFloat.truediv_exact.
  destruct (Z.eqb_spec b 0) as [E|_]; [contradiction|].
  rewrite (rnd53_exact _ Hq), (small_not_overflows _ Hq). reflexivity.
Qed.

End FloatExact.

(** The quotient of a positive scaling factor by the gcd. *)
Lemma gcd_quotient_bounds (sa sb : Z) :
  0 < sa -> 0 < Z.gcd sa sb /\ 1 <= sa / Z.gcd sa sb <= sa.
Proof.
  intros Hsa.
  assert (Hg0 : 0 <= Z.gcd sa sb) by apply Z.gcd_nonneg.
  assert (Hgn : Z.gcd sa sb <> 0).
  { intros E. apply Z.gcd_eq_0_l in E. lia. }
  assert (Hg : 0 < Z.gcd sa sb) by lia.
  destruct (Z.gcd_divide_l sa sb) as [k Hk].
  assert (Hq : sa / Z.gcd sa sb = k).
  { rewrite Hk at 1. apply Z.div_mul. lia. }
  rewrite Hq. split; [exact Hg|]. nia.
Qed.

(** The value of [calc_pr_dimension_size] where binary64 is exact and the
    second factor of the product is not negative. *)
Lemma calc_pr_dimension_size_exact (sa A sb B : Z) :
  0 < sa < 2 ^ 53 -> 0 < sb < 2 ^ 53 -> 0 < A -> 0 < B -> A * B < 2 ^ 53 ->
  sb / Z.gcd sa sb <= A \/ B <= sa / Z.gcd sa sb ->
  calc_pr_dimension_size sa A sb B
  = Ok (A * B - Z.max 0 (B - sa / Z.gcd sa sb) * (A - sb / Z.gcd sa sb)).
Proof.
  intros Hsa Hsb HA HB HAB Hguard.
  destruct (gcd_quotient_bounds sa sb (proj1 Hsa)) as [Hg Hp].
  destruct (gcd_quotient_bounds sb sa (proj1 Hsb)) as [_ Hq].
  rewrite (Z.gcd_comm sb sa) in Hq.
  set (p := sa / Z.gcd sa sb) in *. set (q := sb / Z.gcd sa sb) in *.
  assert (HAle : A <= A * B) by nia. assert (HBle : B <= A * B) by nia.
  unfold calc_pr_dimension_size.
  rewrite truediv_exact_exact by (fold p; lia). fold p. cbn [Py.bind].
  rewrite of_int_exact by lia. cbn [Py.bind].
  rewrite truediv_exact_exact by (fold q; lia). fold q. cbn [Py.bind].
  rewrite of_int_exact by lia. cbn [Py.bind].
  rewrite of_int_exact by lia. cbn [Py.bind].
  cbn [PyFloat.sub].
  rewrite (round_exact (B - p)) by lia.
  rewrite (round_exact (A - q)) by lia.
  unfold PyFloat.max0, PyFloat.gt0.
  destruct (Z.ltb_spec 0 (B - p)) as [Hpos|Hneg].
  - assert (Hq' : q <= A) by lia.
    cbn [PyFloat.mul].
    assert (Hprod : 0 <= (B - p) * (A - q) < A * B) by nia.
    rewrite round_exact by lia. cbn [PyFloat.sub].
    rewrite round_exact by lia. cbn [PyFloat.to_int].
    rewrite Z.max_r by lia. reflexivity.
  - cbn [PyFloat.mul]. rewrite Z.mul_0_l.
    rewrite round_exact by (simpl; lia). cbn [PyFloat.sub].
    rewrite round_exact by lia. cbn [PyFloat.to_int].
    rewrite Z.max_l by lia. f_equal; lia.
Qed.

(** ** Counting the generated indices *)

Section Counting.

Lemma In_rangeZ (lo hi x : Z) : In x (rangeZ lo hi) <-> lo <= x < hi.
Proof.
  unfold rangeZ. rewrite in_map_iff. split.
  - intros [i [<- Hi]]. apply in_seq in Hi. lia.
  - intros Hx. exists (Z.to_nat (x - lo)). split; [lia|]. apply in_seq. lia.
Qed.

Lemma In_range (n x : Z) : In x (range n) <-> 0 <= x < n.
Proof.
  unfold range. rewrite in_map_iff. split.
  - intros [i [<- Hi]]. apply in_seq in Hi. lia.
  - intros Hx. exists (Z.to_nat x). split; [lia|]. apply in_seq. lia.
Qed.

Lemma NoDup_rangeZ (lo hi : Z) : NoDup (rangeZ lo hi).
Proof.
  unfold rangeZ. apply NoDup_map_NoDup_ForallPairs; [|apply seq_NoDup].
  intros i j _ _ Hij. lia.
Qed.

Lemma length_rangeZ (lo hi : Z) :
  Z.of_nat (length (rangeZ lo hi)) = Z.max 0 (hi - lo).
Proof. unfold rangeZ. rewrite length_map, length_seq. lia. Qed.

Lemma NoDup_list_prod {X Y : Type} (l : list X) (l' : list Y) :
  NoDup l -> NoDup l' -> NoDup (list_prod l l').
Proof.
  intros Hl Hl'. induction Hl as [|x l Hx _ IH]; simpl; [constructor|].
  apply NoDup_app; [|exact IH|].
  - apply NoDup_map_NoDup_ForallPairs; [|exact Hl'].
    intros y y' _ _ E. congruence.
  - intros [x' y] Hin Hin'. apply in_map_iff in Hin as [y0 [E _]].
    apply in_prod_iff in Hin' as [Hxl _]. congruence.
Qed.

Lemma In_generated_indices (sa A sb B v : Z) :
  In v (generated_indices sa A sb B)
  <-> exists a b, 0 <= a < A /\ 0 <= b < B /\ v = sa * a + sb * b.
Proof.
  unfold generated_indices. rewrite in_flat_map. split.
  - intros [a [Ha Hv]]. apply in_map_iff in Hv as [b [<- Hb]].
    apply In_range in Ha, Hb. exists a, b. auto.
  - intros [a [b [Ha [Hb ->]]]]. exists a. split; [apply In_range; exact Ha|].
    apply in_map_iff. exists b. split; [reflexivity|apply In_range; exact Hb].
Qed.

Lemma In_representatives (p q A B a b : Z) :
  In (a, b) (representatives p q A B)
  <-> (0 <= a < Z.min A q /\ 0 <= b < B)
      \/ (q <= a < A /\ Z.max 0 (B - p) <= b < B).
Proof.
  unfold representatives. rewrite in_app_iff, !in_prod_iff, !In_rangeZ. tauto.
Qed.

Lemma NoDup_representatives (p q A B : Z) : NoDup (representatives p q A B).
Proof.
  unfold representatives. apply NoDup_app.
  - apply NoDup_list_prod; apply NoDup_rangeZ.
  - apply NoDup_list_prod; apply NoDup_rangeZ.
  - intros [a b] H1 H2.
    apply in_prod_iff in H1 as [H1 _]. apply in_prod_iff in H2 as [H2 _].
    apply In_rangeZ in H1, H2. lia.
Qed.

Lemma length_representatives (p q A B : Z) :
  0 < p -> 0 < q -> 0 <= A -> 0 <= B ->
  Z.of_nat (length (representatives p q A B))
  = A * B - Z.max 0 (A - q) * Z.max 0 (B - p).
Proof.
  intros Hp Hq HA HB. unfold representatives.
  rewrite length_app, !length_prod, Nat2Z.inj_add, !Nat2Z.inj_mul.
  rewrite !length_rangeZ.
  destruct (Z.le_gt_cases A q), (Z.le_gt_cases B p);
    rewrite ?Z.min_l, ?Z.min_r, ?Z.max_l, ?Z.max_r by lia; try lia;
    rewrite ?Z.max_l, ?Z.max_r by lia; lia.
Qed.

(** Two pairs that generate the same index differ by a multiple of
    [(q, -p)]. *)
Lemma collision (p q a b a' b' : Z) :
  0 < p -> 0 < q -> Z.gcd p q = 1 ->
  p * a + q * b = p * a' + q * b' -> a' < a ->
  a' + q <= a /\ b + p <= b'.
Proof.
  intros Hp Hq Hco E Hlt.
  assert (Hdiv : (q | a - a')).
  { apply Z.gauss with p.
    - exists (b' - b). lia.
    - rewrite Z.gcd_comm. exact Hco. }
  destruct Hdiv as [k Hk].
  assert (Hk1 : 1 <= k) by nia.
  assert (Hb : b' - b = p * k) by nia.
  split; nia.
Qed.

Lemma representatives_injective (p q A B a b a' b' : Z) :
  0 < p -> 0 < q -> Z.gcd p q = 1 ->
  In (a, b) (representatives p q A B) ->
  In (a', b') (representatives p q A B) ->
  p * a + q * b = p * a' + q * b' -> (a, b) = (a', b').
Proof.
  intros Hp Hq Hco H1 H2 E.
  apply In_representatives in H1, H2.
  destruct (Z.lt_trichotomy a a') as [Hlt|[Heq|Hgt]].
  - destruct (collision p q a' b' a b Hp Hq Hco (eq_sym E) Hlt). lia.
  - subst a'. f_equal. nia.
  - destruct (collision p q a b a' b' Hp Hq Hco E Hgt). lia.
Qed.

(** Every pair of the rectangle generates the index of a representative. *)
Lemma representatives_cover (p q A B : Z) :
  0 < p -> 0 < q ->
  forall a b, 0 <= a < A -> 0 <= b < B ->
  exists a' b', In (a', b') (representatives p q A B)
                /\ p * a' + q * b' = p * a + q * b.
Proof.
  intros Hp Hq.
  assert (Hind : forall n a b, (Z.to_nat a <= n)%nat ->
            0 <= a < A -> 0 <= b < B ->
            exists a' b', In (a', b') (representatives p q A B)
                          /\ p * a' + q * b' = p * a + q * b).
  { induction n as [|n IH]; intros a b Hn Ha Hb.
    - exists a, b. split; [|reflexivity].
      apply In_representatives. left. lia.
    - destruct (Z.lt_ge_cases a q) as [Hlt|Hge].
      + exists a, b. split; [|reflexivity].
        apply In_representatives. left. lia.
      + destruct (Z.le_gt_cases (B - p) b) as [Hhi|Hlo].
        * exists a, b. split; [|reflexivity].
          apply In_representatives. right. lia.
        * destruct (IH (a - q) (b + p)) as [a' [b' [Hin E]]]; try lia.
          exists a', b'. split; [exact Hin|]. lia. }
  intros a b. apply (Hind (Z.to_nat a)). lia.
Qed.

(** The number of unique indices, in closed form. *)
Lemma count_unique_formula (sa A sb B : Z) :
  0 < sa -> 0 < sb -> 0 <= A -> 0 <= B ->
  count_unique sa A sb B
  = A * B - Z.max 0 (A - sb / Z.gcd sa sb) * Z.max 0 (B - sa / Z.gcd sa sb).
Proof.
  intros Hsa Hsb HA HB.
  destruct (gcd_quotient_bounds sa sb Hsa) as [Hg Hp].
  destruct (gcd_quotient_bounds sb sa Hsb) as [_ Hq].
  rewrite (Z.gcd_comm sb sa) in Hq.
  assert (Hco : Z.gcd (sa / Z.gcd sa sb) (sb / Z.gcd sa sb) = 1).
  { apply Z.gcd_div_gcd; [lia|reflexivity]. }
  assert (Esa : sa = Z.gcd sa sb * (sa / Z.gcd sa sb)).
  { apply Zdivide_Zdiv_eq; [exact Hg|apply Z.gcd_divide_l]. }
  assert (Esb : sb = Z.gcd sa sb * (sb / Z.gcd sa sb)).
  { apply Zdivide_Zdiv_eq; [exact Hg|apply Z.gcd_divide_r]. }
  set (g := Z.gcd sa sb) in *.
  set (p := sa / g) in *. set (q := sb / g) in *.
  rewrite <- (length_representatives p q A B) by lia.
  unfold count_unique. f_equal.
  rewrite <- (length_map (fun ab => sa * fst ab + sb * snd ab)
                         (representatives p q A B)).
  apply Permutation_length, NoDup_Permutation.
  - apply NoDup_nodup.
  - apply NoDup_map_NoDup_ForallPairs; [|apply NoDup_representatives].
    intros [a b] [a' b'] H1 H2 E. simpl in E.
    apply (representatives_injective p q A B); try assumption; try lia.
    apply Z.mul_reg_l with g; [lia|].
    rewrite !Z.mul_add_distr_l, !Z.mul_assoc, <- Esa, <- Esb. exact E.
  - intros v. rewrite nodup_In, In_generated_indices, in_map_iff. split.
    + intros [a [b [Ha [Hb ->]]]].
      destruct (representatives_cover p q A B ltac:(lia) ltac:(lia) a b Ha Hb)
        as [a' [b' [Hin E]]].
      exists (a', b'). split; [simpl|exact Hin].
      rewrite Esa, Esb, <- !Z.mul_assoc, <- !Z.mul_add_distr_l. f_equal. exact E.
    + intros [[a b] [<- Hin]]. apply In_representatives in Hin.
      exists a, b. simpl. repeat split; lia.
Qed.

End Counting.

(** ** Overlap-size arithmetic: the claims *)

Lemma count_unique_unit_scaling (A B : Z) :
  0 < A -> 0 < B -> count_unique 1 A 1 B = A + B - 1.
Proof.
  intros HA HB. rewrite count_unique_formula by lia.
  change (Z.gcd 1 1) with 1. rewrite Z.div_1_r.
  rewrite !Z.max_r by lia. lia.
Qed.

(** Where the formula of [calc_pr_dimension_size] is the count: binary64
    exact and the second factor of the subtracted product not negative. *)
Lemma calc_pr_dimension_size_is_count (sa A sb B : Z) :
  0 < sa < 2 ^ 53 -> 0 < sb < 2 ^ 53 -> 0 < A -> 0 < B -> A * B < 2 ^ 53 ->
  sb / Z.gcd sa sb <= A \/ B <= sa / Z.gcd sa sb ->
  calc_pr_dimension_size sa A sb B = Ok (count_unique sa A sb B).
Proof.
  intros Hsa Hsb HA HB HAB Hguard.
  rewrite calc_pr_dimension_size_exact by assumption.
  rewrite count_unique_formula by lia. f_equal.
  destruct (gcd_quotient_bounds sa sb (proj1 Hsa)) as [_ Hp].
  destruct (gcd_quotient_bounds sb sa (proj1 Hsb)) as [_ Hq].
  rewrite (Z.gcd_comm sb sa) in Hq.
  destruct Hguard as [Hq'|Hp'].
  - rewrite (Z.max_r 0 (A - _)) by lia. lia.
  - rewrite !(Z.max_l 0 (B - _)) by lia. lia.
Qed.

(** On positive scaling factors and sizes for which binary64 is exact
    ([sa], [sb] and [A * B] below [2^53]) and for which the second factor of
    the subtracted product is not negative ([sb / gcd <= A], or the product
    is zero because [B <= sa / gcd]), [calc_pr_dimension_size] returns
    exactly the number of distinct values of [sa * a + sb * b] over [a] in
    [[0, A)] and [b] in [[0, B)]; for [sa = sb = 1] that number is
    [A + B - 1]. *)
Theorem calc_pr_dimension_size_counts_unique (sa A sb B : Z) :
  0 < sa < 2 ^ 53 -> 0 < sb < 2 ^ 53 -> 0 < A -> 0 < B -> A * B < 2 ^ 53 ->
  sb / Z.gcd sa sb <= A \/ B <= sa / Z.gcd sa sb ->
  calc_pr_dimension_size sa A sb B = Ok (count_unique sa A sb B)
  /\ (sa = 1 -> sb = 1 -> calc_pr_dimension_size sa A sb B = Ok (A + B - 1)).
Proof.
  intros Hsa Hsb HA HB HAB Hguard.
  pose proof (calc_pr_dimension_size_is_count sa A sb B Hsa Hsb HA HB HAB Hguard)
    as Hcount.
  split; [exact Hcount|].
  intros -> ->. rewrite Hcount. f_equal.
  apply count_unique_unit_scaling; assumption.
Qed.

Lemma calc_pr_dimension_size_counts_unique_witness :
  (0 < 1 < 2 ^ 53 /\ 0 < 4 /\ 0 < 3 /\ 4 * 3 < 2 ^ 53
   /\ (1 / Z.gcd 1 1 <= 4 \/ 3 <= 1 / Z.gcd 1 1))
  /\ calc_pr_dimension_size 1 4 1 3 = Ok (count_unique 1 4 1 3)
  /\ (1 = 1 -> 1 = 1 -> calc_pr_dimension_size 1 4 1 3 = Ok (4 + 3 - 1)).
Proof.
  assert (H1 : 0 < 1 < 2 ^ 53) by (split; reflexivity).
  assert (H2 : 4 * 3 < 2 ^ 53) by reflexivity.
  assert (H3 : 1 / Z.gcd 1 1 <= 4 \/ 3 <= 1 / Z.gcd 1 1)
    by (left; apply Z.leb_le; reflexivity).
  split.
  - repeat split; try reflexivity; exact H3.
  - apply (calc_pr_dimension_size_counts_unique 1 4 1 3 H1 H1);
      [reflexivity|reflexivity|exact H2|exact H3].
Defined.

(** C1 fails on the code: at [(sa, A, sb, B) = (1, 1, 2, 3)], the relation
    [ix = 1*ox + 2*fx] with [OX = 1] and [FX = 3], the indices generated are
    0, 2 and 4, and [calc_pr_dimension_size], whose docstring promises their
    number, returns 5: the second factor of the subtracted product,
    [A - sb / gcd], is negative there and is not clamped as the first is.
    All floats are exact at this input.  Besides, the arithmetic is not the
    integer arithmetic that the specification asks for: with
    [sa = sb = 1], [A = 2^53 + 1] and [B = 2] the floats round and the result
    is [2^53], not [A + B - 1]. *)
Theorem calc_pr_dimension_size_not_exact :
  generated_indices 1 1 2 3 = [0; 2; 4]
  /\ count_unique 1 1 2 3 = 3
  /\ calc_pr_dimension_size 1 1 2 3 = Ok 5
  /\ calc_pr_dimension_size 1 (2 ^ 53 + 1) 1 2 = Ok (2 ^ 53)
  /\ (2 ^ 53 + 1) + 2 - 1 = 2 ^ 53 + 2.
Proof. repeat split; vm_compute; reflexivity. Qed.

(** C8 fails on the code: swapping the two generator pairs at
    [(1, 1, 2, 3)] changes the result from 5 to 3, while the number of
    distinct values is 3 either way. *)
Theorem calc_pr_dimension_size_swap_differs :
  calc_pr_dimension_size 1 1 2 3 = Ok 5
  /\ calc_pr_dimension_size 2 3 1 1 = Ok 3
  /\ count_unique 1 1 2 3 = 3
  /\ count_unique 2 3 1 1 = 3.
Proof. repeat split; vm_compute; reflexivity. Qed.

Lemma truediv_exact_not_zero_division (a b : Z) :
  b <> 0 -> PyFloat.truediv_exact a b <> Raise ZeroDivisionError.
Proof.
  intros Hb. unfold PyFloat.truediv_exact.
  destruct (Z.eqb_spec b 0); [contradiction|].
  destruct (PyFloat.overflows _); discriminate.
Qed.

Lemma of_int_not_zero_division (n : Z) :
  PyFloat.of_int n <> Raise ZeroDivisionError.
Proof. unfold PyFloat.of_int. destruct (PyFloat.overflows _); discriminate. Qed.

Lemma to_int_not_zero_division (x : PyFloat.t) :
  PyFloat.to_int x <> Raise ZeroDivisionError.
Proof. destruct x; discriminate. Qed.

(** C9 (as amended).  [calc_pr_dimension_size] raises [ZeroDivisionError]
    exactly when both scaling factors are zero.  With exactly one zero
    scaling factor (the other positive, sizes positive, binary64 exact) it
    returns a value: [B] when [sa = 0], [A] when [sb = 0]. *)
Theorem calc_pr_dimension_size_zero_scaling (sa A sb B : Z) :
  (calc_pr_dimension_size sa A sb B = Raise ZeroDivisionError
   <-> sa = 0 /\ sb = 0)
  /\ (sa = 0 -> 0 < sb < 2 ^ 53 -> 0 < A -> 0 < B -> A * B < 2 ^ 53 ->
      calc_pr_dimension_size sa A sb B = Ok B)
  /\ (sb = 0 -> 0 < sa < 2 ^ 53 -> 0 < A -> 0 < B -> A * B < 2 ^ 53 ->
      calc_pr_dimension_size sa A sb B = Ok A).
Proof.
  split; [split|split].
  - intros Hraise.
    destruct (Z.eq_dec (Z.gcd sa sb) 0) as [Hg|Hg].
    { split; [apply (Z.gcd_eq_0_l sa sb Hg)|apply (Z.gcd_eq_0_r sa sb Hg)]. }
    exfalso. unfold calc_pr_dimension_size in Hraise.
    pose proof (truediv_exact_not_zero_division sa _ Hg) as H1.
    pose proof (truediv_exact_not_zero_division sb _ Hg) as H2.
    destruct (PyFloat.truediv_exact sa (Z.gcd sa sb)) as [fa|e1];
      [|cbn [Py.bind] in Hraise; injection Hraise as ->; exact (H1 eq_refl)].
    cbn [Py.bind] in Hraise.
    pose proof (of_int_not_zero_division B) as H3.
    destruct (PyFloat.of_int B) as [fB|e2]; [|cbn [Py.bind] in Hraise; injection Hraise as ->; exact (H3 eq_refl)].
    cbn [Py.bind] in Hraise.
    destruct (PyFloat.truediv_exact sb (Z.gcd sa sb)) as [fb|e3];
      [|cbn [Py.bind] in Hraise; injection Hraise as ->; exact (H2 eq_refl)].
    cbn [Py.bind] in Hraise.
    pose proof (of_int_not_zero_division A) as H4.
    destruct (PyFloat.of_int A) as [fA|e4]; [|cbn [Py.bind] in Hraise; injection Hraise as ->; exact (H4 eq_refl)].
    cbn [Py.bind] in Hraise.
    pose proof (of_int_not_zero_division (A * B)) as H5.
    destruct (PyFloat.of_int (A * B)) as [fab|e5]; [|cbn [Py.bind] in Hraise; injection Hraise as ->; exact (H5 eq_refl)].
    cbn [Py.bind] in Hraise.
    exact (to_int_not_zero_division _ Hraise).
  - intros [-> ->]. reflexivity.
  - intros -> Hsb HA HB HAB.
    assert (HAle : A <= A * B) by nia. assert (HBle : B <= A * B) by nia.
    unfold calc_pr_dimension_size.
    rewrite Z.gcd_0_l, (Z.abs_eq sb) by lia.
    rewrite !truediv_exact_exact
      by (rewrite ?Z.div_0_l, ?Z.div_same by lia; simpl; lia).
    rewrite Z.div_0_l, Z.div_same by lia. cbn [Py.bind].
    rewrite !of_int_exact by lia. cbn [Py.bind PyFloat.sub].
    rewrite Z.sub_0_r, (round_exact B), (round_exact (A - 1)) by lia.
    unfold PyFloat.max0, PyFloat.gt0.
    destruct (Z.ltb_spec 0 B) as [_|Hc]; [|lia].
    cbn [PyFloat.mul]. rewrite round_exact by nia.
    cbn [PyFloat.sub]. rewrite round_exact by nia.
    cbn [PyFloat.to_int]. f_equal. lia.
  - intros -> Hsa HA HB HAB.
    assert (HAle : A <= A * B) by nia. assert (HBle : B <= A * B) by nia.
    unfold calc_pr_dimension_size.
    rewrite Z.gcd_0_r, (Z.abs_eq sa) by lia.
    rewrite !truediv_exact_exact
      by (rewrite ?Z.div_0_l, ?Z.div_same by lia; simpl; lia).
    rewrite Z.div_0_l, Z.div_same by lia. cbn [Py.bind].
    rewrite !of_int_exact by lia. cbn [Py.bind PyFloat.sub].
    rewrite Z.sub_0_r, (round_exact A), (round_exact (B - 1)) by lia.
    unfold PyFloat.max0, PyFloat.gt0.
    destruct (Z.ltb_spec 0 (B - 1)) as [Hc|Hc].
    + cbn [PyFloat.mul]. rewrite round_exact by nia.
      cbn [PyFloat.sub]. rewrite round_exact by nia.
      cbn [PyFloat.to_int]. f_equal. lia.
    + cbn [PyFloat.mul]. rewrite Z.mul_0_l, round_exact by (simpl; lia).
      cbn [PyFloat.sub]. rewrite round_exact by nia.
      cbn [PyFloat.to_int]. f_equal. nia.
Qed.

Lemma calc_pr_dimension_size_zero_scaling_witness :
  (calc_pr_dimension_size 0 2 0 3 = Raise ZeroDivisionError <-> 0 = 0 /\ 0 = 0)
  /\ calc_pr_dimension_size 0 2 5 3 = Ok 3.
Proof.
  split.
  - exact (proj1 (calc_pr_dimension_size_zero_scaling 0 2 0 3)).
  - apply (proj1 (proj2 (calc_pr_dimension_size_zero_scaling 0 2 5 3)));
      try reflexivity; split; reflexivity.
Defined.

(** C9 as stated fails: with [sa = 0] and [sb = 1] the call returns 3. *)
Lemma calc_pr_dimension_size_accepts_zero_factor :
  calc_pr_dimension_size 0 2 1 3 = Ok 3
  /\ Py.is_raise (calc_pr_dimension_size 0 2 1 3) = false.
Proof. split; vm_compute; reflexivity. Qed.

(** ** Overlap-size arithmetic: where the result is symmetric, and where it
    is too large *)

(** Swapping the two generator pairs does not change the result when
    neither call has a negative second factor ([sb / gcd <= A] and
    [sa / gcd <= B]) and binary64 is exact. *)
Theorem calc_pr_dimension_size_symmetric_within_sizes (sa A sb B : Z) :
  0 < sa < 2 ^ 53 -> 0 < sb < 2 ^ 53 -> 0 < A -> 0 < B -> A * B < 2 ^ 53 ->
  sb / Z.gcd sa sb <= A -> sa / Z.gcd sa sb <= B ->
  calc_pr_dimension_size sa A sb B = calc_pr_dimension_size sb B sa A.
Proof.
  intros Hsa Hsb HA HB HAB Hq Hp.
  rewrite (calc_pr_dimension_size_exact sa A sb B) by auto.
  rewrite (calc_pr_dimension_size_exact sb B sa A);
    rewrite ?(Z.gcd_comm sb sa); auto; try lia.
  f_equal. rewrite !Z.max_r by lia. lia.
Qed.

Lemma calc_pr_dimension_size_symmetric_within_sizes_witness :
  (0 < 2 < 2 ^ 53 /\ 0 < 1 < 2 ^ 53 /\ 0 < 5 /\ 0 < 3 /\ 5 * 3 < 2 ^ 53
   /\ 1 / Z.gcd 2 1 <= 5 /\ 2 / Z.gcd 2 1 <= 3)
  /\ calc_pr_dimension_size 2 5 1 3 = calc_pr_dimension_size 1 3 2 5.
Proof.
  assert (H2 : 0 < 2 < 2 ^ 53) by (split; reflexivity).
  assert (H1 : 0 < 1 < 2 ^ 53) by (split; reflexivity).
  assert (H15 : 5 * 3 < 2 ^ 53) by reflexivity.
  assert (Hq : 1 / Z.gcd 2 1 <= 5) by (apply Z.leb_le; reflexivity).
  assert (Hp : 2 / Z.gcd 2 1 <= 3) by (apply Z.leb_le; reflexivity).
  split.
  - repeat split; try reflexivity; assumption.
  - exact (calc_pr_dimension_size_symmetric_within_sizes 2 5 1 3 H2 H1
             eq_refl eq_refl H15 Hq Hp).
Defined.

(** When [A < sb / gcd] and [sa / gcd < B] the subtracted product is
    negative: the result is [A * B + (B - sa / gcd) * (sb / gcd - A)], more
    than the [A * B] distinct values there are. *)
Theorem calc_pr_dimension_size_exceeds_count (sa A sb B : Z) :
  0 < sa < 2 ^ 53 -> 0 < sb < 2 ^ 53 -> 0 < A -> 0 < B ->
  A < sb / Z.gcd sa sb -> sa / Z.gcd sa sb < B ->
  A * B + (B - sa / Z.gcd sa sb) * (sb / Z.gcd sa sb - A) < 2 ^ 53 ->
  calc_pr_dimension_size sa A sb B
  = Ok (A * B + (B - sa / Z.gcd sa sb) * (sb / Z.gcd sa sb - A))
  /\ count_unique sa A sb B = A * B.
Proof.
  intros Hsa Hsb HA HB HAq HpB Hbound.
  destruct (gcd_quotient_bounds sa sb (proj1 Hsa)) as [Hg Hp].
  destruct (gcd_quotient_bounds sb sa (proj1 Hsb)) as [_ Hq].
  rewrite (Z.gcd_comm sb sa) in Hq. split.
  - set (p := sa / Z.gcd sa sb) in *. set (q := sb / Z.gcd sa sb) in *.
    assert (Hprod : 0 < (B - p) * (q - A)) by nia.
    assert (HABpos : 0 < A * B) by nia.
    assert (HAle : A <= A * B) by nia. assert (HBle : B <= A * B) by nia.
    unfold calc_pr_dimension_size.
    rewrite truediv_exact_exact by (fold p; lia). fold p. cbn [Py.bind].
    rewrite of_int_exact by lia. cbn [Py.bind].
    rewrite truediv_exact_exact by (fold q; lia). fold q. cbn [Py.bind].
    rewrite of_int_exact by lia. cbn [Py.bind].
    rewrite of_int_exact by lia. cbn [Py.bind PyFloat.sub].
    rewrite (round_exact (B - p)) by lia.
    rewrite (round_exact (A - q)) by lia.
    unfold PyFloat.max0, PyFloat.gt0.
    destruct (Z.ltb_spec 0 (B - p)) as [_|Hc]; [|lia].
    cbn [PyFloat.mul].
    replace ((B - p) * (A - q)) with (- ((B - p) * (q - A))) by ring.
    rewrite round_exact by lia. cbn [PyFloat.sub].
    rewrite round_exact by lia. cbn [PyFloat.to_int]. f_equal. lia.
  - rewrite count_unique_formula by lia.
    rewrite (Z.max_l 0 (A - _)) by lia. lia.
Qed.

Lemma calc_pr_dimension_size_exceeds_count_witness :
  (0 < 1 < 2 ^ 53 /\ 0 < 2 < 2 ^ 53 /\ 0 < 1 /\ 0 < 3
   /\ 1 < 2 / Z.gcd 1 2 /\ 1 / Z.gcd 1 2 < 3
   /\ 1 * 3 + (3 - 1 / Z.gcd 1 2) * (2 / Z.gcd 1 2 - 1) < 2 ^ 53)
  /\ calc_pr_dimension_size 1 1 2 3
     = Ok (1 * 3 + (3 - 1 / Z.gcd 1 2) * (2 / Z.gcd 1 2 - 1))
  /\ count_unique 1 1 2 3 = 1 * 3.
Proof.
  assert (H1 : 0 < 1 < 2 ^ 53) by (split; reflexivity).
  assert (H2 : 0 < 2 < 2 ^ 53) by (split; reflexivity).
  split.
  - repeat split; reflexivity.
  - exact (calc_pr_dimension_size_exceeds_count 1 1 2 3 H1 H2
             eq_refl eq_refl eq_refl eq_refl eq_refl).
Defined.

(** ** Dictionaries as association lists *)

Section DictFacts.
Context {K V : Type} `{PyEq K}.

Lemma get_In (d : Dict.t K V) (k : K) (v : V) :
  Dict.get d k = Some v -> In (k, v) d.
Proof.
  induction d as [|[k' v'] d IH]; simpl; [discriminate|].
  destruct (py_eqb_spec k' k) as [->|Hne].
  - intros [= ->]. left. reflexivity.
  - intros E. right. exact (IH E).
Qed.

Lemma In_get (d : Dict.t K V) (k : K) (v : V) :
  Dict.wf d -> In (k, v) d -> Dict.get d k = Some v.
Proof.
  unfold Dict.wf, Dict.keys.
  induction d as [|[k' v'] d IH]; simpl; intros Hwf Hin; [destruct Hin|].
  inversion Hwf as [|? ? Hk' Hd]; subst.
  destruct (py_eqb_spec k' k) as [->|Hne].
  - destruct Hin as [[= ->]|Hin]; [reflexivity|].
    exfalso. apply Hk'. apply in_map_iff. exists (k, v). auto.
  - destruct Hin as [[= -> _]|Hin]; [contradiction|]. exact (IH Hd Hin).
Qed.

Lemma set_fresh (d : Dict.t K V) (k : K) (v : V) :
  ~ In k (Dict.keys d) -> Dict.set d k v = d ++ [(k, v)].
Proof.
  unfold Dict.keys. induction d as [|[k' v'] d IH]; simpl; intros Hk;
    [reflexivity|].
  destruct (py_eqb_spec k' k) as [->|Hne]; [exfalso; auto|].
  rewrite IH by auto. reflexivity.
Qed.

(** A comprehension over pairs with pairwise different keys keeps them all,
    in order. *)
Lemma of_items_NoDup (kvs : list (K * V)) :
  NoDup (map fst kvs) -> Dict.of_items kvs = kvs.
Proof.
  unfold Dict.of_items, Dict.empty.
  assert (Hgen : forall acc : Dict.t K V, NoDup (map fst (acc ++ kvs)) ->
            fold_left (fun d kv => Dict.set d (fst kv) (snd kv)) kvs acc
            = acc ++ kvs).
  { induction kvs as [|[k v] kvs IH]; intros acc Hnd; simpl.
    - rewrite app_nil_r. reflexivity.
    - rewrite set_fresh.
      + rewrite IH; rewrite <- app_assoc; [reflexivity|exact Hnd].
      + rewrite map_app in Hnd. simpl in Hnd.
        apply NoDup_remove_2 in Hnd. intros Hin. apply Hnd.
        apply in_or_app. left. exact Hin. }
  intros Hnd. apply (Hgen []). exact Hnd.
Qed.

Lemma wf_filter (f : K * V -> bool) (d : Dict.t K V) :
  Dict.wf d -> Dict.wf (filter f d).
Proof.
  unfold Dict.wf, Dict.keys. induction d as [|kv d IH]; simpl; intros Hwf;
    [constructor|].
  inversion Hwf as [|? ? Hk Hd]; subst.
  destruct (f kv); simpl; [constructor|]; auto.
  intros Hin. apply Hk. apply in_map_iff in Hin as [kv' [E Hin]].
  apply filter_In in Hin as [Hin _]. apply in_map_iff. exists kv'. auto.
Qed.

End DictFacts.

(** ** The layer node: the claims *)

Lemma getitem_of_get {K V : Type} `{PyEq K} (d : Dict.t K V) (k : K) (v : V) :
  Dict.get d k = Some v -> Dict.getitem d k = Ok v.
Proof. intros E. unfold Dict.getitem. rewrite E. reflexivity. Qed.

Lemma calc_pr_dimension_size_total_eq (self : LayerNode)
    (dim d1 d2 : LayerDimStr) (factors : Dict.t LayerDimStr Z) (sa sb A B : Z) :
  Dict.get (pr_loop self) dim = Some [d1; d2] ->
  Dict.get (pr_scaling_factors self) dim = Some factors ->
  Dict.values factors = [sa; sb] ->
  Dict.get (loop_dim_size self) d1 = Some A ->
  Dict.get (loop_dim_size self) d2 = Some B ->
  calc_pr_dimension_size_total self dim
  = (n <- calc_pr_dimension_size sa A sb B ;; Ok (n - total_padding self dim)).
Proof.
  intros Hpr Hf Hv HA HB. unfold calc_pr_dimension_size_total.
  rewrite (getitem_of_get _ _ _ Hpr). cbn [Py.bind map_res].
  rewrite (getitem_of_get _ _ _ HA), (getitem_of_get _ _ _ HB).
  cbn [Py.bind]. rewrite (getitem_of_get _ _ _ Hf). cbn [Py.bind].
  rewrite Hv. unfold total_padding.
  destruct (calc_pr_dimension_size sa A sb B) as [n|e]; cbn [Py.bind];
    [|reflexivity].
  destruct (Dict.get (padding self) dim) as [[pb pa]|]; reflexivity.
Qed.

Lemma calc_pr_dimension_size_total_ext (s1 s2 : LayerNode) (dim : LayerDimStr) :
  pr_loop s1 = pr_loop s2 -> loop_dim_size s1 = loop_dim_size s2 ->
  pr_scaling_factors s1 = pr_scaling_factors s2 -> padding s1 = padding s2 ->
  calc_pr_dimension_size_total s1 dim = calc_pr_dimension_size_total s2 dim.
Proof.
  intros E1 E2 E3 E4. unfold calc_pr_dimension_size_total.
  rewrite E1, E2, E3, E4. reflexivity.
Qed.

Lemma map_res_tagged_get {V : Type} (f : string -> res V) (keys : list string)
    (sizes : Dict.t string V) :
  map_res (fun dim => n <- f dim ;; Ok (dim, n)) keys = Ok sizes ->
  forall dim, In dim keys ->
  exists n, f dim = Ok n /\ Dict.get sizes dim = Some n.
Proof.
  revert sizes. induction keys as [|k ks IH]; intros sizes Hmap dim Hin.
  - destruct Hin.
  - cbn [map_res] in Hmap.
    destruct (f k) as [n0|e] eqn:Ek; cbn [Py.bind] in Hmap; [|discriminate].
    destruct (map_res _ ks) as [sizes'|e] eqn:Eks; cbn [Py.bind] in Hmap;
      [|discriminate].
    injection Hmap as <-. cbn [Dict.get].
    destruct (py_eqb_spec k dim) as [->|Hne].
    + exists n0. split; [exact Ek|reflexivity].
    + destruct Hin as [->|Hin]; [contradiction|].
      apply (IH sizes' eq_refl dim Hin).
Qed.

(** What [LayerNode.__init__] stores in [pr_loop_dim_size] when the layer
    attributes supply none. *)
Lemma LayerNode_init_pr_loop_dim_size {max_str_digits : nat}
    (layer_id : Z) (attrs : LayerAttrs)
    (node_name : string) (node : LayerNode) :
  LayerNode_init max_str_digits layer_id attrs node_name = Ok node ->
  attr_pr_loop_dim_size attrs = None \/ attr_pr_loop_dim_size attrs = Some [] ->
  exists sizes, pr_loop_dim_size node = Some sizes
    /\ forall dim, In dim (Dict.keys (pr_loop node)) ->
       exists n, calc_pr_dimension_size_total node dim = Ok n
                 /\ Dict.get sizes dim = Some n.
Proof.
  intros Hinit Hnone. unfold LayerNode_init in Hinit.
  destruct (has_equation_relations attrs); [discriminate|].
  destruct (build_pr_funcs _ _) as [[[prl prll] psf]|e]; cbn [Py.bind] in Hinit;
    [|discriminate].
  match type of Hinit with
  | Py.bind ?m _ = _ => destruct m as [sizes|e] eqn:Esizes
  end; cbn [Py.bind] in Hinit; [|discriminate].
  destruct (extract_r_ir_loop_info _ _ _ _) as [[[[old reform] ol] order]|e];
    cbn [Py.bind] in Hinit; [|discriminate].
  injection Hinit as <-. cbn [pr_loop_dim_size pr_loop].
  exists sizes. split; [reflexivity|].
  intros dim Hin.
  destruct Hnone as [E|E]; rewrite E in Esizes;
    destruct (map_res_tagged_get _ _ _ Esizes dim Hin) as [n [Hn Hget]];
    exists n; (split; [|exact Hget]);
    rewrite <- Hn; apply calc_pr_dimension_size_total_ext; reflexivity.
Qed.

(** C4 fails on the code: for the node constructed from the relation
    [ix = 1*ox + 2*fx] with [OX = 1], [FX = 3] and no padding, the indices
    generated over the full sizes are 0, 2 and 4, so [count_unique] minus the
    padding is 3; [calc_pr_dimension_size_total] returns 5, and 5 is what
    [__init__] stores in [pr_loop_dim_size]. *)
Theorem calc_pr_dimension_size_total_overcounts :
  exists node sizes,
    LayerNode_init 4300 0 dilated_attrs "conv" = Ok node
    /\ Dict.get (pr_loop node) "IX" = Some ["OX"; "FX"]
    /\ Dict.get (pr_scaling_factors node) "IX" = Some [("ox", 1); ("fx", 2)]
    /\ Dict.get (loop_dim_size node) "OX" = Some 1
    /\ Dict.get (loop_dim_size node) "FX" = Some 3
    /\ total_padding node "IX" = 0
    /\ count_unique 1 1 2 3 - total_padding node "IX" = 3
    /\ calc_pr_dimension_size_total node "IX" = Ok 5
    /\ pr_loop_dim_size node = Some sizes
    /\ Dict.get sizes "IX" = Some 5.
Proof.
  eexists. eexists. split; [vm_compute; reflexivity|].
  repeat split; vm_compute; reflexivity.
Qed.

(** For a partially relevant dimension of a node constructed without a
    [pr_loop_dim_size] of its own, whose two generators have positive
    scaling factors and sizes in the range where binary64 is exact and where
    the second factor of the subtracted product is not negative,
    [calc_pr_dimension_size_total] is the number of distinct indices that
    the generators produce over their full sizes, minus
    [pad_before + pad_after] (0 + 0 without an entry), and that value is
    what [__init__] stores in [pr_loop_dim_size]. *)
Theorem calc_pr_dimension_size_total_counts_unique {max_str_digits : nat}
    (layer_id : Z) (attrs : LayerAttrs) (node_name : string) (node : LayerNode)
    (dim d1 d2 : LayerDimStr) (factors : Dict.t LayerDimStr Z) (sa sb A B : Z) :
  LayerNode_init max_str_digits layer_id attrs node_name = Ok node ->
  attr_pr_loop_dim_size attrs = None \/ attr_pr_loop_dim_size attrs = Some [] ->
  Dict.get (pr_loop node) dim = Some [d1; d2] ->
  Dict.get (pr_scaling_factors node) dim = Some factors ->
  Dict.values factors = [sa; sb] ->
  Dict.get (loop_dim_size node) d1 = Some A ->
  Dict.get (loop_dim_size node) d2 = Some B ->
  0 < sa < 2 ^ 53 -> 0 < sb < 2 ^ 53 -> 0 < A -> 0 < B -> A * B < 2 ^ 53 ->
  sb / Z.gcd sa sb <= A \/ B <= sa / Z.gcd sa sb ->
  calc_pr_dimension_size_total node dim
  = Ok (count_unique sa A sb B - total_padding node dim)
  /\ exists sizes,
       pr_loop_dim_size node = Some sizes
       /\ Dict.get sizes dim
          = Some (count_unique sa A sb B - total_padding node dim).
Proof.
  intros Hinit Hnone Hpr Hf Hv HA HB Hsa Hsb HApos HBpos HAB Hguard.
  assert (Htotal : calc_pr_dimension_size_total node dim
                   = Ok (count_unique sa A sb B - total_padding node dim)).
  { rewrite (calc_pr_dimension_size_total_eq node dim d1 d2 factors sa sb A B
               Hpr Hf Hv HA HB).
    rewrite (calc_pr_dimension_size_is_count sa A sb B Hsa Hsb HApos HBpos HAB
               Hguard).
    reflexivity. }
  split; [exact Htotal|].
  destruct (LayerNode_init_pr_loop_dim_size layer_id attrs node_name node
              Hinit Hnone) as [sizes [Hs Hall]].
  exists sizes. split; [exact Hs|].
  destruct (Hall dim) as [n [Hn Hget]].
  { apply get_In in Hpr. apply (in_map fst) in Hpr. exact Hpr. }
  rewrite Htotal in Hn. injection Hn as <-. exact Hget.
Qed.

Lemma calc_pr_dimension_size_total_counts_unique_witness :
  exists node,
    LayerNode_init 4300 0 (conv_attrs 1 [("IX", (1, 1))] ["W"]) "conv" = Ok node
    /\ calc_pr_dimension_size_total node "IX"
       = Ok (count_unique 1 4 1 3 - total_padding node "IX")
    /\ count_unique 1 4 1 3 - total_padding node "IX" = 4
    /\ exists sizes,
         pr_loop_dim_size node = Some sizes
         /\ Dict.get sizes "IX"
            = Some (count_unique 1 4 1 3 - total_padding node "IX").
Proof.
  destruct (LayerNode_init 4300 0 (conv_attrs 1 [("IX", (1, 1))] ["W"]) "conv")
    as [node|e] eqn:Hinit; [|vm_compute in Hinit; discriminate].
  exists node. split; [reflexivity|].
  assert (H1 : 0 < 1 < 2 ^ 53) by (split; reflexivity).
  assert (Hguard : 1 / Z.gcd 1 1 <= 4 \/ 3 <= 1 / Z.gcd 1 1)
    by (left; apply Z.leb_le; reflexivity).
  pose proof Hinit as Hval. vm_compute in Hval. injection Hval as Hval.
  destruct (calc_pr_dimension_size_total_counts_unique 0
              (conv_attrs 1 [("IX", (1, 1))] ["W"]) "conv" node
              "IX" "OX" "FX" [("ox", 1); ("fx", 1)] 1 1 4 3 Hinit
              (or_introl eq_refl)) as [Htotal Hstored];
    try (subst node; reflexivity); try exact H1; try exact Hguard.
  split; [exact Htotal|]. split; [|exact Hstored].
  subst node. reflexivity.
Defined.

(** C2 as stated fails: for the input operand [I] of a convolution layer
    with batch size 1, which has the partially relevant dimensions [IX] and
    [IY], the Relevant list holds the size-1 dimension [B]. *)
Lemma size_1_dimension_in_relevant_list :
  exists node dims,
    LayerNode_init 4300 0 (conv_attrs 1 [] ["W"]) "conv" = Ok node
    /\ Dict.get (operand_loop_dim node) "I" = Some dims
    /\ PR dims = [("IX", ["OX"; "FX"]); ("IY", ["OY"; "FY"])]
    /\ R dims = ["B"; "C"]
    /\ Dict.get (loop_dim_size node) "B" = Some 1.
Proof.
  eexists. eexists. split; [vm_compute; reflexivity|].
  repeat split; vm_compute; reflexivity.
Qed.

(** ** Relevance lists and size-1 dimensions *)

Section RelevanceLists.

Lemma for_each_invariant {A S : Type} (P : S -> Prop) (body : S -> A -> res S)
    (l : list A) :
  (forall s x s', P s -> body s x = Ok s' -> P s') ->
  forall s0 s, P s0 -> for_each l s0 body = Ok s -> P s.
Proof.
  intros Hstep. induction l as [|x t IH]; intros s0 s H0 Hrun.
  - injection Hrun as <-. exact H0.
  - cbn [for_each] in Hrun.
    destruct (body s0 x) as [s1|e] eqn:E; cbn [Py.bind] in Hrun; [|discriminate].
    exact (IH s1 s (Hstep s0 x s1 H0 E) Hrun).
Qed.

Lemma filter_res_In {A : Type} (p : A -> res bool) (l l' : list A) :
  filter_res p l = Ok l' -> forall x, In x l' -> In x l /\ p x = Ok true.
Proof.
  revert l'. induction l as [|y t IH]; intros l' Hf x Hin.
  - injection Hf as <-. destruct Hin.
  - cbn [filter_res] in Hf.
    destruct (p y) as [b|e] eqn:Ey; cbn [Py.bind] in Hf; [|discriminate].
    destruct (filter_res p t) as [ys|e] eqn:Et; cbn [Py.bind] in Hf;
      [|discriminate].
    injection Hf as <-.
    destruct b.
    + destruct Hin as [<-|Hin]; [split; [left; reflexivity|exact Ey]|].
      destruct (IH ys eq_refl x Hin) as [H1 H2]. split; [right|]; assumption.
    + destruct (IH ys eq_refl x Hin) as [H1 H2]. split; [right|]; assumption.
Qed.

Lemma size_is_not_1_true (sizes : LayerDimSizes) (loop : LayerDimStr) :
  size_is_not_1 sizes loop = Ok true ->
  exists n, Dict.get sizes loop = Some n /\ n <> 1.
Proof.
  unfold size_is_not_1, Dict.getitem.
  destruct (Dict.get sizes loop) as [n|]; cbn [Py.bind]; [|discriminate].
  intros [= E]. exists n. split; [reflexivity|].
  apply negb_true_iff, Z.eqb_neq in E. exact E.
Qed.

Lemma In_set {K V : Type} `{PyEq K} (d : Dict.t K V) (k0 : K) (v0 : V)
    (k : K) (v : V) :
  In (k, v) (Dict.set d k0 v0) -> (k, v) = (k0, v0) \/ In (k, v) d.
Proof.
  induction d as [|[k' v'] d IH]; cbn [Dict.set].
  - intros [E|[]]. left. symmetry. exact E.
  - destruct (py_eqb_spec k' k0) as [->|Hne].
    + intros [E|Hin]; [left; symmetry; exact E|right; right; exact Hin].
    + intros [E|Hin]; [right; left; exact E|].
      destruct (IH Hin) as [E|Hin']; [left; exact E|right; right; exact Hin'].
Qed.

Lemma contains_nonempty (prl : PrLoop) (l : list LayerDimStr) :
  existsb (Dict.contains prl) l = true -> prl <> [].
Proof.
  intros Hex ->. induction l as [|x t IH]; [discriminate|].
  cbn in Hex. exact (IH Hex).
Qed.

Lemma py_in_false (d : string) (l : list string) :
  py_in d l = false -> ~ In d l.
Proof.
  unfold py_in. intros Hf Hin.
  assert (Ht : existsb (py_eqb d) l = true).
  { apply existsb_exists. exists d. split; [exact Hin|].
    destruct (py_eqb_spec d d); [reflexivity|congruence]. }
  congruence.
Qed.

Lemma extract_r_ir_loop_info_size_1_free (equation : string)
    (sizes : LayerDimSizes) (prl : PrLoop) (prll : LoopList)
    (old : OperandLoopDims) reform ol order :
  extract_r_ir_loop_info equation sizes prl prll = Ok (old, reform, ol, order) ->
  forall operand dims,
    In (operand, dims) old ->
    size_1_free sizes prll dims /\ (PR dims = [] \/ PR dims = prl).
Proof.
  unfold extract_r_ir_loop_info. intros Hrun.
  match type of Hrun with
  | Py.bind (for_each ?l ?s0 ?body) _ = _ =>
      destruct (for_each l s0 body) as [st|e] eqn:Eloop;
      cbn [Py.bind] in Hrun; [|discriminate];
      pose proof (for_each_invariant
        (fun st => forall operand dims,
           In (operand, dims) (st_operand_loop_dim st) ->
           size_1_free sizes prll dims /\ (PR dims = [] \/ PR dims = prl))
        body l) as Hinv
  end.
  injection Hrun as <- _ _ _.
  eapply Hinv; [| |exact Eloop]; [|intros operand dims Hin; destruct Hin].
  clear. intros s split_loc s' Hs Hbody operand dims Hin.
  destruct (Py.getitem _ (st_begin_idx s)) as [op|e]; cbn [Py.bind] in Hbody;
    [|discriminate].
  match type of Hbody with
  | Py.bind ?m _ = _ => destruct m as [new|e] eqn:Enew
  end; cbn [Py.bind] in Hbody; [|discriminate].
  injection Hbody as <-. cbn [st_operand_loop_dim] in Hin.
  apply In_set in Hin as [E|Hin]; [|exact (Hs operand dims Hin)].
  injection E as -> ->. clear Hs.
  destruct (existsb (Dict.contains prl) _) eqn:Eflag.
  - destruct (filter_res _ _) as [ir|e] eqn:Eir; cbn [Py.bind] in Enew;
      [|discriminate].
    injection Enew as <-. split; [|right; reflexivity].
    split; [|split]; cbn [IR PR R].
    + intros d Hd. destruct (filter_res_In _ _ _ Eir d Hd) as [_ Hp].
      destruct (negb (py_in d prll)); [|discriminate].
      exact (size_is_not_1_true _ _ Hp).
    + intros ->. exfalso. exact (contains_nonempty _ _ Eflag eq_refl).
    + intros _ d Hd. apply filter_In in Hd as [_ Hd].
      apply negb_true_iff in Hd. exact (py_in_false _ _ Hd).
  - destruct (filter_res _ _) as [r|e] eqn:Er; cbn [Py.bind] in Enew;
      [|discriminate].
    destruct (filter_res _ (filter _ _)) as [ir|e] eqn:Eir;
      cbn [Py.bind] in Enew; [|discriminate].
    injection Enew as <-. split; [|left; reflexivity].
    split; [|split]; cbn [IR PR R].
    + intros d Hd. destruct (filter_res_In _ _ _ Eir d Hd) as [_ Hp].
      exact (size_is_not_1_true _ _ Hp).
    + intros _ d Hd. destruct (filter_res_In _ _ _ Er d Hd) as [_ Hp].
      exact (size_is_not_1_true _ _ Hp).
    + intros Hne. exfalso. apply Hne. reflexivity.
Qed.

(** [pr_loop_list] holds every partially relevant dimension of [pr_loop]
    and its two generators. *)
Lemma extract_pr_loop_info_lists {max_str_digits : nat}
    (equation_relations : list string)
    (prl : PrLoop) (prll : LoopList) (psf : PrScalingFactors) :
  extract_pr_loop_info max_str_digits equation_relations = Ok (prl, prll, psf) ->
  forall key gens, In (key, gens) prl -> In key prll /\ incl gens prll.
Proof.
  unfold extract_pr_loop_info. intros Hrun.
  refine (for_each_invariant
            (fun st : PrLoop * LoopList * PrScalingFactors =>
               forall key gens, In (key, gens) (fst (fst st)) ->
                 In key (snd (fst st)) /\ incl gens (snd (fst st)))
            _ equation_relations _ _ (prl, prll, psf) _ Hrun).
  - clear. intros [[prl prll] psf] relation s' Hs Hbody.
    destruct (Py.py_assert _) as [[]|e]; cbn [Py.bind] in Hbody; [|discriminate].
    destruct (Py.getitem _ 0) as [key|e]; cbn [Py.bind] in Hbody; [|discriminate].
    destruct (for_each _ Dict.empty _) as [sf|e]; cbn [Py.bind] in Hbody;
      [|discriminate].
    destruct (Py.py_assert _) as [[]|e]; cbn [Py.bind] in Hbody; [|discriminate].
    injection Hbody as <-. cbn [fst snd] in *.
    intros k gens Hin. apply In_set in Hin as [E|Hin].
    + injection E as -> ->. split.
      * apply in_or_app. right. left. reflexivity.
      * intros g Hg. apply in_or_app. right. right. exact Hg.
    + destruct (Hs k gens Hin) as [Hk Hg]. split.
      * apply in_or_app. left. exact Hk.
      * intros g Hgin. apply in_or_app. left. exact (Hg g Hgin).
  - intros key gens [].
Qed.

End RelevanceLists.

(** ** [LayerNodeFactory]: the claim *)

Section OperandSources.
Import LayerNodeFactory.

Lemma create_layer_operand_name (op : LayerOperand) :
  create_layer_operand (operand_name op) = op.
Proof. destruct op. reflexivity. Qed.

Lemma create_operand_source_items (node_data : NodeData) :
  Dict.wf (node_operand_source node_data) ->
  create_operand_source node_data
  = map tag_operand
        (filter (fun '(_, source) => negb (source =? node_id node_data))
                (node_operand_source node_data))
  /\ Dict.wf (create_operand_source node_data).
Proof.
  intros Hwf. unfold create_operand_source, Dict.items.
  set (kept := filter _ (node_operand_source node_data)).
  assert (Hkept : Dict.wf kept) by (apply wf_filter; exact Hwf).
  assert (Hnd : NoDup (map fst (map tag_operand kept))).
  { rewrite map_map.
    replace (map (fun x => fst (tag_operand x)) kept)
      with (map create_layer_operand (map fst kept)).
    - apply NoDup_map_NoDup_ForallPairs; [|exact Hkept].
      intros x y _ _ E. injection E as E. exact E.
    - rewrite map_map. apply map_ext. intros [k s]. reflexivity. }
  change (map _ kept) with (map tag_operand kept).
  rewrite of_items_NoDup by exact Hnd. split; [reflexivity|exact Hnd].
Qed.

(** C10.  An operand is constant exactly when its entry of
    [operand_source] is the layer's own id; [input_operand_source] holds
    exactly the entries whose source differs from the id; so every entry
    lands in exactly one of the two. *)
Theorem operand_source_partition (node_data : NodeData) :
  Dict.wf (node_operand_source node_data) ->
  (forall op, In op (create_constant_operands node_data)
     <-> Dict.get (node_operand_source node_data) (operand_name op)
         = Some (node_id node_data))
  /\ (forall op source,
        Dict.get (create_operand_source node_data) op = Some source
        <-> Dict.get (node_operand_source node_data) (operand_name op)
            = Some source
            /\ source <> node_id node_data)
  /\ (forall op_str source,
        Dict.get (node_operand_source node_data) op_str = Some source ->
        let op := create_layer_operand op_str in
        (In op (create_constant_operands node_data)
         /\ Dict.contains (create_operand_source node_data) op = false)
        \/ (~ In op (create_constant_operands node_data)
            /\ Dict.contains (create_operand_source node_data) op = true)).
Proof.
  intros Hwf.
  destruct (create_operand_source_items node_data Hwf) as [Esrc Hwf'].
  assert (Hconst : forall op, In op (create_constant_operands node_data)
     <-> Dict.get (node_operand_source node_data) (operand_name op)
         = Some (node_id node_data)).
  { intros op. unfold create_constant_operands, Dict.items.
    rewrite in_map_iff. split.
    - intros [k [<- Hk]]. apply in_map_iff in Hk as [[k' s] [<- Hin]].
      apply filter_In in Hin as [Hin Hs]. apply Z.eqb_eq in Hs. subst s.
      apply In_get; assumption.
    - intros Hget. apply get_In in Hget. exists (operand_name op).
      split; [apply create_layer_operand_name|].
      apply in_map_iff. exists (operand_name op, node_id node_data).
      split; [reflexivity|]. apply filter_In. split; [exact Hget|].
      apply Z.eqb_refl. }
  assert (Hsrc : forall op source,
        Dict.get (create_operand_source node_data) op = Some source
        <-> Dict.get (node_operand_source node_data) (operand_name op)
            = Some source
            /\ source <> node_id node_data).
  { intros op source. split.
    - intros Hget. apply get_In in Hget. rewrite Esrc in Hget.
      apply in_map_iff in Hget as [[k s] [E Hin]]. injection E as <- ->.
      apply filter_In in Hin as [Hin Hs]. simpl. split.
      + apply In_get; assumption.
      + apply negb_true_iff, Z.eqb_neq in Hs. exact Hs.
    - intros [Hget Hne]. apply In_get; [exact Hwf'|]. rewrite Esrc.
      apply in_map_iff. exists (operand_name op, source). split.
      + simpl. rewrite create_layer_operand_name. reflexivity.
      + apply filter_In. split; [apply get_In; exact Hget|].
        apply negb_true_iff, Z.eqb_neq. exact Hne. }
  split; [exact Hconst|]. split; [exact Hsrc|].
  intros op_str source Hget op.
  destruct (Z.eq_dec source (node_id node_data)) as [->|Hne].
  - left. split; [apply Hconst; exact Hget|].
    unfold Dict.contains.
    destruct (Dict.get (create_operand_source node_data) op) as [s|] eqn:E;
      [|reflexivity].
    apply Hsrc in E as [E Hs]. simpl in E. congruence.
  - right. split.
    + intros Hin. apply Hconst in Hin. simpl in Hin. congruence.
    + unfold Dict.contains.
      assert (E : Dict.get (create_operand_source node_data) op = Some source)
        by (apply Hsrc; auto).
      rewrite E. reflexivity.
Qed.

End OperandSources.

Lemma operand_source_partition_witness :
  let node_data :=
    {| LayerNodeFactory.node_id := 2;
       LayerNodeFactory.node_operand_source := [("W", 2); ("I", 1)] |} in
  Dict.wf (LayerNodeFactory.node_operand_source node_data)
  /\ (In {| LayerNodeFactory.operand_name := "W" |}
         (LayerNodeFactory.create_constant_operands node_data)
      <-> Dict.get (LayerNodeFactory.node_operand_source node_data) "W" = Some 2)
  /\ (Dict.get (LayerNodeFactory.create_operand_source node_data)
               {| LayerNodeFactory.operand_name := "I" |} = Some 1
      <-> Dict.get (LayerNodeFactory.node_operand_source node_data) "I" = Some 1
          /\ 1 <> 2).
Proof.
  intros node_data.
  assert (Hwf : Dict.wf (LayerNodeFactory.node_operand_source node_data)).
  { repeat constructor.
    - intros [E|[]]. discriminate E.
    - intros []. }
  split; [exact Hwf|].
  destruct (operand_source_partition node_data Hwf) as [Hc [Hs _]].
  split.
  - exact (Hc {| LayerNodeFactory.operand_name := "W" |}).
  - exact (Hs {| LayerNodeFactory.operand_name := "I" |} 1).
Defined.

(** ** [SpatialMappingGeneratorStage]: the claims *)

Section GeneratorStage.
Import SpatialMappingGeneratorStage.
Variable ext : Collaborators.

Lemma generator_run_one_observed (self : Stage) (nb i : nat) (usm : SpatialMapping) :
  Py.is_raise (adapt ext self usm) = false ->
  raised (run_one ext self nb i usm) = None
  /\ launched (events (run_one ext self nb i usm)) = [usm]
  /\ converted (events (run_one ext self nb i usm)) = [usm]
  /\ Forall (eq usm) (yield_tags (events (run_one ext self nb i usm))).
Proof.
  intros Hok. unfold run_one.
  destruct (adapt ext self usm) as [[updated new_accelerator]|e];
    [|discriminate].
  cbn [events raised]. split; [reflexivity|].
  match goal with
  | |- context [conversion_run ext ?u ?l] => generalize (conversion_run ext u l)
  end.
  intros results. unfold launched, converted, yield_tags.
  cbn [flat_map app]. repeat split.
  - f_equal. induction results as [|[cme x] rs IH]; [reflexivity|exact IH].
  - f_equal. induction results as [|[cme x] rs IH]; [reflexivity|exact IH].
  - induction results as [|[cme x] rs IH]; [constructor|].
    cbn [map flat_map app]. constructor; [reflexivity|exact IH].
Qed.

Lemma generator_run_loop_observed (self : Stage) (nb : nat) (cands : list SpatialMapping) :
  forall i,
  (forall usm, In usm cands -> Py.is_raise (adapt ext self usm) = false) ->
  raised (run_loop ext self nb i cands) = None
  /\ launched (events (run_loop ext self nb i cands)) = cands
  /\ converted (events (run_loop ext self nb i cands)) = cands
  /\ Forall (fun usm => In usm cands)
            (yield_tags (events (run_loop ext self nb i cands))).
Proof.
  induction cands as [|usm rest IH]; intros i Hok.
  - cbn. repeat split; constructor.
  - destruct (generator_run_one_observed self nb i usm (Hok usm (or_introl eq_refl)))
      as [Hr [Hl [Hc Hy]]].
    destruct (IH (S i) (fun u Hu => Hok u (or_intror Hu)))
      as [Hr' [Hl' [Hc' Hy']]].
    cbn [run_loop]. rewrite Hr. cbn [events raised].
    unfold launched, converted, yield_tags in *.
    rewrite !flat_map_app, Hl, Hl', Hc, Hc'. repeat split; try assumption.
    apply Forall_app. split.
    + eapply Forall_impl; [|exact Hy]. intros u <-. left. reflexivity.
    + eapply Forall_impl; [|exact Hy']. intros u Hu. right. exact Hu.
Qed.

(** When the user mapping assigns every dimension of the core's array, the
    one candidate is that mapping; otherwise the candidates are the mappings
    of the generator collaborator.  Provided the per-candidate adaptation
    raises for none of them (it cannot when [enable_weight_diagonal_mapping]
    is off), [run] ends without an exception, launches and converts exactly
    the candidates, each once and in order, and tags every result it yields
    with a candidate. *)
Theorem run_processes_selected_mappings (self : Stage) :
  (forall usm, In usm (select_user_spatial_mappings ext self) ->
               Py.is_raise (adapt ext self usm) = false) ->
  let oa_dims :=
    dimensions (Hardware.operational_array
                  (get_core ext (accelerator self)
                            (core_allocation (layer self)))) in
  let covered :=
    forallb (fun x => Dict.contains (user_spatial_mapping (layer self))
                                    (dim_name x)) oa_dims in
  let candidates :=
    if covered then [user_spatial_mapping (layer self)]
    else generator_run ext (layer self) (accelerator self)
                       (user_spatial_mapping (layer self))
                       (enable_mix_spatial_mapping_generation self) in
  raised (run ext self) = None
  /\ launched (events (run ext self)) = candidates
  /\ converted (events (run ext self)) = candidates
  /\ Forall (fun usm => In usm candidates) (yield_tags (events (run ext self))).
Proof.
  intros Hok oa_dims covered candidates.
  exact (generator_run_loop_observed self _ _ 0%nat Hok).
Qed.

Lemma adapt_disabled (self : Stage) (usm : SpatialMapping) :
  enable_weight_diagonal_mapping self = false ->
  Py.is_raise (adapt ext self usm) = false.
Proof. intros E. unfold adapt. rewrite E. reflexivity. Qed.

End GeneratorStage.

Lemma run_processes_selected_mappings_witness :
  let self := example_stage false ["W"] true in
  (forall usm,
      In usm (SpatialMappingGeneratorStage.select_user_spatial_mappings
                example_ext self) ->
      Py.is_raise (SpatialMappingGeneratorStage.adapt example_ext self usm)
      = false)
  /\ raised (SpatialMappingGeneratorStage.run example_ext self) = None
  /\ SpatialMappingGeneratorStage.launched
       (events (SpatialMappingGeneratorStage.run example_ext self))
     = generator_run example_ext
         (SpatialMappingGeneratorStage.layer self)
         (SpatialMappingGeneratorStage.accelerator self) [] false.
Proof.
  intros self.
  assert (Hok : forall usm,
      In usm (SpatialMappingGeneratorStage.select_user_spatial_mappings
                example_ext self) ->
      Py.is_raise (SpatialMappingGeneratorStage.adapt example_ext self usm)
      = false).
  { intros usm Hin. vm_compute in Hin.
    destruct Hin as [<-|[<-|[]]]; vm_compute; reflexivity. }
  split; [exact Hok|].
  destruct (run_processes_selected_mappings example_ext self Hok)
    as [Hr [Hl _]].
  split; [exact Hr|exact Hl].
Defined.

(** C3 fails on the code: for a layer without constant operand and with
    [enable_weight_diagonal_mapping] on, [run] ends with [IndexError] in the
    adaptation of its first candidate, before the conversion stage is built:
    no candidate is converted and no result is yielded.  So it is for a
    user mapping that assigns both dimensions of the array, which is then
    the one candidate, and so it is for the candidates of the generator. *)
Theorem run_yields_nothing_without_constant_operand :
  let self := mapped_stage [] in
  let oa_dims :=
    dimensions (Hardware.operational_array
                  (get_core example_ext
                     (SpatialMappingGeneratorStage.accelerator self)
                     (core_allocation (SpatialMappingGeneratorStage.layer self)))) in
  let r := SpatialMappingGeneratorStage.run example_ext self in
  let self' := example_stage false [] true in
  let r' := SpatialMappingGeneratorStage.run example_ext self' in
  LayerNode_init 4300 0 (mapped_conv_attrs []) "conv"
  = Ok (SpatialMappingGeneratorStage.layer self)
  /\ constant_operands (SpatialMappingGeneratorStage.layer self) = []
  /\ user_spatial_mapping (SpatialMappingGeneratorStage.layer self)
     = diagonal_mapping
  /\ forallb (fun x => Dict.contains diagonal_mapping (dim_name x)) oa_dims
     = true
  /\ SpatialMappingGeneratorStage.select_user_spatial_mappings example_ext self
     = [diagonal_mapping]
  /\ raised r = Some IndexError
  /\ SpatialMappingGeneratorStage.launched (events r) = [diagonal_mapping]
  /\ SpatialMappingGeneratorStage.converted (events r) = []
  /\ SpatialMappingGeneratorStage.yielded (events r) = []
  /\ user_spatial_mapping (SpatialMappingGeneratorStage.layer self') = []
  /\ SpatialMappingGeneratorStage.select_user_spatial_mappings example_ext self'
     = generator_run example_ext
         (SpatialMappingGeneratorStage.layer self')
         (SpatialMappingGeneratorStage.accelerator self') [] false
  /\ length (SpatialMappingGeneratorStage.select_user_spatial_mappings
               example_ext self') = 2%nat
  /\ raised r' = Some IndexError
  /\ SpatialMappingGeneratorStage.converted (events r') = []
  /\ SpatialMappingGeneratorStage.yielded (events r') = [].
Proof. repeat split; vm_compute; reflexivity. Qed.

(** C5 fails on the code: a layer without constant operand (both inputs of
    the convolution come from other layers) does not have exactly one
    constant operand, and [modify_innermost_input_mem_size] raises
    [IndexError] at [self.layer.constant_operands[0]]; [run] with
    [enable_weight_diagonal_mapping] ends with that exception at its first
    candidate. *)
Theorem modify_innermost_input_mem_size_raises_without_constant :
  let self := example_stage false [] true in
  LayerNode_init 4300 0 (conv_attrs 1 [] []) "conv"
  = Ok (SpatialMappingGeneratorStage.layer self)
  /\ constant_operands (SpatialMappingGeneratorStage.layer self) = []
  /\ SpatialMappingGeneratorStage.modify_innermost_input_mem_size
       example_ext self (Some 1) diagonal_mapping
     = Raise IndexError
  /\ raised (SpatialMappingGeneratorStage.run example_ext self)
     = Some IndexError.
Proof. repeat split; vm_compute; reflexivity. Qed.

(** C6 fails on the code: when the register file of the activation level
    ([I1], level 0) is the [MemoryInstance] object that the weight level
    ([I2], level 1) holds too, the new accelerator has both levels enlarged
    by the factor 4, not the activation level alone. *)
Theorem modify_innermost_input_mem_size_scales_shared_instance :
  let self := example_stage true ["W"] true in
  exists new_core,
    SpatialMappingGeneratorStage.modify_innermost_input_mem_size
      example_ext self (Some 1) diagonal_mapping
    = Ok (true, Built "acc-supporting-diagonal-map" [new_core])
    /\ SpatialMappingGeneratorStage.find_act_level
         (example_hierarchy true) [0%nat; 1%nat]
         (memory_operand_links (SpatialMappingGeneratorStage.layer self)) "I"
       = Ok (Some (0%nat, [ {| dim_name := "D1" |} ]))
    /\ level_sizes (example_hierarchy true) = [Some 8; Some 8; Some 1000]
    /\ new_level_sizes (nc_memory_hierarchy new_core) = [32; 32; 1000].
Proof.
  eexists. split; [vm_compute; reflexivity|].
  repeat split; vm_compute; reflexivity.
Qed.

(** ** The adapter: what it returns and what it enlarges *)

Section Adapter.
Import SpatialMappingGeneratorStage.
Variable ext : Collaborators.

(** The results of [modify_innermost_input_mem_size]: with more than one
    constant operand the accelerator comes back unchanged; a result whose
    flag is [False] carries the accelerator of the stage itself; a result
    whose flag is [True] carries a new accelerator named with the suffix
    "-supporting-diagonal-map"; and once the constant operand, the
    activation operand and their dictionary entries are found, the
    accelerator comes back unchanged when no innermost level holds the
    activation operand, when that level does not serve exactly one array
    dimension, or when the scaling factor is 1. *)
Theorem modify_innermost_input_mem_size_results (self : Stage)
    (core_id : option Z) (usm : SpatialMapping) :
  ((1 < length (constant_operands (layer self)))%nat ->
   modify_innermost_input_mem_size ext self core_id usm
   = Ok (false, Given (accelerator self)))
  /\ (forall acc, modify_innermost_input_mem_size ext self core_id usm
                  = Ok (false, acc) ->
                  acc = Given (accelerator self))
  /\ (forall acc, modify_innermost_input_mem_size ext self core_id usm
                  = Ok (true, acc) ->
                  exists core_set,
                    acc = Built (acc_name (accelerator self)
                                 ++ "-supporting-diagonal-map")%string core_set)
  /\ (forall const_operand act_operand dims found,
        Py.getitem (constant_operands (layer self)) 0 = Ok const_operand ->
        Py.getitem
          (filter (fun operand => negb (String.eqb operand const_operand))
                  (input_operands (layer self))) 0 = Ok act_operand ->
        Dict.getitem (operand_loop_dim (layer self)) const_operand = Ok dims ->
        find_act_level
          (Hardware.memory_hierarchy (get_core ext (accelerator self) core_id))
          (get_inner_memories ext
             (Hardware.memory_hierarchy (get_core ext (accelerator self) core_id)))
          (memory_operand_links (layer self)) act_operand = Ok found ->
        match found with
        | Some (_, [act_served_oa_dim]) =>
            mem_scaling_factor_of usm (dim_name act_served_oa_dim) (IR dims) = 1
        | _ => True
        end ->
        modify_innermost_input_mem_size ext self core_id usm
        = Ok (false, Given (accelerator self))).
Proof.
  unfold modify_innermost_input_mem_size. split; [|split; [|split]].
  - intros Hlen. apply Nat.ltb_lt in Hlen. rewrite Hlen. reflexivity.
  - intros acc.
    destruct (1 <? length (constant_operands (layer self)))%nat;
      [intros [= <-]; reflexivity|].
    destruct (Py.getitem (constant_operands (layer self)) 0) as [c|e];
      cbn [Py.bind]; [|discriminate].
    destruct (Py.getitem (filter _ _) 0) as [a|e]; cbn [Py.bind]; [|discriminate].
    destruct (Dict.getitem _ c) as [dims|e]; cbn [Py.bind]; [|discriminate].
    destruct (find_act_level _ _ _ _) as [found|e]; cbn [Py.bind]; [|discriminate].
    destruct found as [[pos [|d [|d' ds]]]|]; try (intros [= <-]; reflexivity).
    destruct (_ =? 1); [intros [= <-]; reflexivity|].
    destruct (rebuild_memories _ _ _) as [built|e]; cbn [Py.bind]; discriminate.
  - intros acc.
    destruct (1 <? length (constant_operands (layer self)))%nat; [discriminate|].
    destruct (Py.getitem (constant_operands (layer self)) 0) as [c|e];
      cbn [Py.bind]; [|discriminate].
    destruct (Py.getitem (filter _ _) 0) as [a|e]; cbn [Py.bind]; [|discriminate].
    destruct (Dict.getitem _ c) as [dims|e]; cbn [Py.bind]; [|discriminate].
    destruct (find_act_level _ _ _ _) as [found|e]; cbn [Py.bind]; [|discriminate].
    destruct found as [[pos [|d [|d' ds]]]|]; try discriminate.
    destruct (_ =? 1); [discriminate|].
    destruct (rebuild_memories _ _ _) as [built|e]; cbn [Py.bind]; [|discriminate].
    intros [= <-]. eexists. reflexivity.
  - intros c a dims found Hc Ha Hd Hf Hcond.
    destruct (1 <? length (constant_operands (layer self)))%nat; [reflexivity|].
    rewrite Hc. cbn [Py.bind]. rewrite Ha. cbn [Py.bind].
    rewrite Hd. cbn [Py.bind]. rewrite Hf. cbn [Py.bind].
    destruct found as [[pos [|d [|d' ds]]]|]; try reflexivity.
    rewrite Hcond. reflexivity.
Qed.

End Adapter.

Lemma modify_innermost_input_mem_size_results_witness :
  let self := example_stage false ["W"; "I"] true in
  (1 < length (constant_operands (SpatialMappingGeneratorStage.layer self)))%nat
  /\ SpatialMappingGeneratorStage.modify_innermost_input_mem_size
       example_ext self (Some 1) diagonal_mapping
     = Ok (false, Given (SpatialMappingGeneratorStage.accelerator self)).
Proof.
  intros self.
  assert (Hlen : (1 < length (constant_operands
                                (SpatialMappingGeneratorStage.layer self)))%nat).
  { apply Nat.ltb_lt. vm_compute. reflexivity. }
  split; [exact Hlen|].
  exact (proj1 (modify_innermost_input_mem_size_results example_ext self
                  (Some 1) diagonal_mapping) Hlen).
Defined.

Section Rebuild.
Import SpatialMappingGeneratorStage.

Lemma nth_error_scale_instance (s : list MemoryInstance) (r : nat) (f : Z) :
  forall j,
  nth_error (scale_instance s r f) j
  = if (j =? r)%nat then option_map (scaled f) (nth_error s j)
    else nth_error s j.
Proof.
  revert r. induction s as [|m s IH]; intros r j.
  - destruct r, j; simpl; try reflexivity; destruct (j =? r)%nat; reflexivity.
  - destruct r as [|r], j as [|j]; simpl; try reflexivity. apply IH.
Qed.

Lemma length_scale_instance (s : list MemoryInstance) (r : nat) (f : Z) :
  length (scale_instance s r f) = length s.
Proof.
  revert r. induction s as [|m s IH]; intros [|r]; simpl; auto.
Qed.

Lemma length_store_at s0 act_ref f act i :
  length (store_at s0 act_ref f act i) = length s0.
Proof.
  unfold store_at. destruct (act <? i)%nat;
    [apply length_scale_instance|reflexivity].
Qed.

(** The loop from position [k] on, over the levels [rest] that are left. *)
Lemma rebuild_loop_spec (s0 : list MemoryInstance) (act_ref : nat) (f : Z)
    (act : nat) (rest : list MemoryLevel) :
  forall k added,
  (forall lvl, In lvl rest ->
     (memory_instance lvl < length s0)%nat /\ served_dimensions_vec lvl <> []) ->
  (forall j lvl, nth_error rest j = Some lvl -> (k + j)%nat = act ->
     memory_instance lvl = act_ref) ->
  for_each (combine (seq k (length rest)) rest)
           (store_at s0 act_ref f act k, added) (rebuild_step act f)
  = Ok (store_at s0 act_ref f act (k + length rest),
        added ++ map (fun '(i, lvl) => new_memory (store_at s0 act_ref f act (S i)) lvl)
                     (combine (seq k (length rest)) rest)).
Proof.
  induction rest as [|lvl rest IH]; intros k added Hwf Hact.
  - cbn. rewrite Nat.add_0_r, app_nil_r. reflexivity.
  - cbn [length seq combine for_each map].
    assert (Hstore :
      (if (k =? act)%nat
       then scale_instance (store_at s0 act_ref f act k) (memory_instance lvl) f
       else store_at s0 act_ref f act k)
      = store_at s0 act_ref f act (S k)).
    { unfold store_at. destruct (Nat.eqb_spec k act) as [E|E].
      - rewrite (Hact 0%nat lvl eq_refl) by lia.
        replace (act <? k)%nat with false by (symmetry; apply Nat.ltb_ge; lia).
        replace (act <? S k)%nat with true by (symmetry; apply Nat.ltb_lt; lia).
        reflexivity.
      - destruct (Nat.ltb_spec act k), (Nat.ltb_spec act (S k));
          try reflexivity; lia. }
    destruct (Hwf lvl (or_introl eq_refl)) as [Href Hvec].
    unfold rebuild_step at 1. rewrite Hstore.
    destruct (served_dimensions_vec lvl) as [|sd vec] eqn:Evec; [congruence|].
    cbn [length Nat.leb Py.py_assert Py.bind Py.getitem nth_error].
    unfold Py.getitem.
    destruct (nth_error (store_at s0 act_ref f act (S k)) (memory_instance lvl))
      as [m|] eqn:Em.
    2: { apply nth_error_None in Em. rewrite length_store_at in Em. lia. }
    cbn [Py.bind].
    rewrite (IH (S k)).
    + rewrite <- app_assoc, Nat.add_succ_r. cbn [app]. do 3 f_equal.
      unfold new_memory. rewrite Evec. cbn [hd].
      rewrite (nth_error_nth _ _ _ Em). reflexivity.
    + intros l Hl. apply Hwf. right. exact Hl.
    + intros j l Hj Hk. apply (Hact (S j) l Hj). lia.
Qed.

Lemma nth_error_combine_seq {X : Type} (l : list X) :
  forall k i x, nth_error l i = Some x ->
  nth_error (combine (seq k (length l)) l) i = Some ((k + i)%nat, x).
Proof.
  induction l as [|y l IH]; intros k [|i] x Hx; try discriminate.
  - injection Hx as <-. cbn. rewrite Nat.add_0_r. reflexivity.
  - cbn. rewrite (IH (S k) i x Hx). do 2 f_equal. lia.
Qed.

(** What the loop of [modify_innermost_input_mem_size] puts into the new
    hierarchy, level by level: the operands, the port allocation and the
    first entry of [served_dimensions_vec] as they are, the instance under
    its name, and its size multiplied by the factor exactly for the
    activation level [act] and for the levels after it that hold the same
    [MemoryInstance] object. *)
Theorem rebuild_memories_levels (mh : MemoryHierarchy) (act : nat) (f : Z)
    (lvl_act : MemoryLevel) :
  nth_error (mem_level_list mh) act = Some lvl_act ->
  (forall lvl, In lvl (mem_level_list mh) ->
     (memory_instance lvl < length (instances mh))%nat
     /\ served_dimensions_vec lvl <> []) ->
  exists store added,
    rebuild_memories mh act f = Ok (store, added)
    /\ length added = length (mem_level_list mh)
    /\ forall i lvl m0,
         nth_error (mem_level_list mh) i = Some lvl ->
         nth_error (instances mh) (memory_instance lvl) = Some m0 ->
         exists m,
           nth_error added i = Some m
           /\ am_operands m = operands lvl
           /\ am_port_alloc m = port_alloc_raw lvl
           /\ hd_error (served_dimensions_vec lvl) = Some (am_served_dimensions m)
           /\ instance_name (am_memory_instance m) = instance_name m0
           /\ size (am_memory_instance m)
              = if (act <=? i)%nat
                   && (memory_instance lvl =? memory_instance lvl_act)%nat
                then size m0 * f else size m0.
Proof.
  intros Hact Hwf. unfold rebuild_memories.
  pose proof (rebuild_loop_spec (instances mh) (memory_instance lvl_act) f act
                (mem_level_list mh) 0%nat [] Hwf) as Hloop.
  unfold store_at at 1 in Hloop. cbn [Nat.ltb Nat.leb] in Hloop.
  rewrite Hloop.
  2: { intros j lvl Hj E. cbn in E. subst j. congruence. }
  eexists. eexists. split; [reflexivity|]. cbn [app]. split.
  - rewrite length_map, length_combine, length_seq. apply Nat.min_id.
  - intros i lvl m0 Hi Hm0.
    exists (new_memory (store_at (instances mh) (memory_instance lvl_act) f act (S i)) lvl).
    split.
    { rewrite nth_error_map, (nth_error_combine_seq _ 0%nat i lvl Hi).
      reflexivity. }
    destruct (Hwf lvl (nth_error_In _ _ Hi)) as [_ Hvec].
    unfold new_memory. cbn [am_operands am_port_alloc am_served_dimensions
                            am_memory_instance].
    split; [reflexivity|]. split; [reflexivity|]. split.
    { destruct (served_dimensions_vec lvl); [congruence|reflexivity]. }
    unfold store_at.
    replace (act <? S i)%nat with (act <=? i)%nat
      by (destruct (Nat.leb_spec act i), (Nat.ltb_spec act (S i));
          try reflexivity; lia).
    destruct (act <=? i)%nat; cbn [andb].
    + pose proof (nth_error_scale_instance (instances mh)
                    (memory_instance lvl_act) f (memory_instance lvl)) as Hn.
      rewrite Hm0 in Hn.
      destruct (memory_instance lvl =? memory_instance lvl_act)%nat;
        cbn [option_map] in Hn; rewrite (nth_error_nth _ _ _ Hn);
        split; reflexivity.
    + rewrite (nth_error_nth _ _ _ Hm0). split; reflexivity.
Qed.


Variable ext : Collaborators.


End Rebuild.


Lemma rebuild_memories_levels_witness :
  (nth_error (mem_level_list (example_hierarchy false)) 0
   = Some {| memory_instance := 0; operands := ["I1"]; port_alloc_raw := [];
             served_dimensions_vec := [[[1; 0]]];
             served_dimensions := [ {| dim_name := "D1" |} ] |})
  /\ exists store added,
       SpatialMappingGeneratorStage.rebuild_memories (example_hierarchy false) 0 4
       = Ok (store, added)
       /\ length added = 3%nat.
Proof.
  split; [reflexivity|].
  assert (Hwf : forall lvl, In lvl (mem_level_list (example_hierarchy false)) ->
     (memory_instance lvl < length (instances (example_hierarchy false)))%nat
     /\ served_dimensions_vec lvl <> []).
  { intros lvl [<-|[<-|[<-|[]]]]; (split; [cbn; lia|discriminate]). }
  destruct (rebuild_memories_levels (example_hierarchy false) 0 4 _ eq_refl Hwf)
    as [store [added [Hrun [Hlen _]]]].
  exists store, added. split; [exact Hrun|exact Hlen].
Defined.

(** ** [WorkloadStage]: the claim *)


Section WorkloadStageFacts.
Import WorkloadStage.
Variable ext : Collaborators.




End WorkloadStageFacts.



(** ** [SpatialMappingGeneratorStage.run]: the results it yields *)

Section GeneratorYields.
Import SpatialMappingGeneratorStage.
Variable ext : Collaborators.

Lemma adapt_flag (self : Stage) (usm : SpatialMapping) (acc : AnyAccelerator) :
  adapt ext self usm = Ok (true, acc) -> enable_weight_diagonal_mapping self = true.
Proof.
  unfold adapt. destruct (enable_weight_diagonal_mapping self);
    [reflexivity|discriminate].
Qed.

Lemma yielded_run_one (self : Stage) (nb i : nat) (usm : SpatialMapping) :
  yielded (events (run_one ext self nb i usm)) = results_of ext self usm.
Proof.
  unfold run_one, results_of.
  destruct (adapt ext self usm) as [[updated new_accelerator]|e] eqn:Ea;
    [|reflexivity].
  cbn [events]. unfold yielded. cbn [flat_map app with_mapping layer].
  destruct updated.
  - rewrite (adapt_flag _ _ _ Ea). cbn [andb].
    generalize (conversion_run ext new_accelerator
                  (set_user_spatial_mapping (layer self) usm)).
    intros results. induction results as [|[cme x] rs IH]; [reflexivity|].
    cbn [map flat_map app]. f_equal. exact IH.
  - rewrite andb_false_r.
    generalize (conversion_run ext (Given (accelerator self))
                  (set_user_spatial_mapping (layer self) usm)).
    intros results. induction results as [|[cme x] rs IH]; [reflexivity|].
    cbn [map flat_map app]. f_equal. exact IH.
Qed.

Lemma yielded_run_loop (self : Stage) (nb : nat) (cands : list SpatialMapping) :
  forall i,
  (forall usm, In usm cands -> Py.is_raise (adapt ext self usm) = false) ->
  yielded (events (run_loop ext self nb i cands)) = flat_map (results_of ext self) cands.
Proof.
  induction cands as [|usm rest IH]; intros i Hok; [reflexivity|].
  destruct (generator_run_one_observed ext self nb i usm
              (Hok usm (or_introl eq_refl))) as [Hr _].
  cbn [run_loop flat_map]. rewrite Hr. cbn [events].
  unfold yielded in *. rewrite flat_map_app.
  rewrite (IH (S i) (fun u Hu => Hok u (or_intror Hu))).
  f_equal. exact (yielded_run_one self nb i usm).
Qed.

End GeneratorYields.

Section GeneratorYieldsFacts.
Import SpatialMappingGeneratorStage.
Variable ext : Collaborators.

(** [run] yields, candidate after candidate and in the order of the
    candidates, the results of the conversion stage built for the candidate,
    each tagged with it.  For a candidate whose adaptation enlarged a memory
    the conversion stage runs on the new accelerator and every result is
    handed on with [cme.accelerator] set back to the stage's accelerator;
    for the others the conversion stage runs on the stage's accelerator and
    its results are handed on as they are. *)
Theorem run_yields_conversion_results (self : Stage) :
  (forall usm, In usm (select_user_spatial_mappings ext self) ->
               Py.is_raise (adapt ext self usm) = false) ->
  yielded (events (run ext self))
  = flat_map (results_of ext self) (select_user_spatial_mappings ext self)
  /\ Forall (fun '(cme, (usm, _)) =>
               forall new_accelerator,
                 adapt ext self usm = Ok (true, new_accelerator) ->
                 cme_accelerator cme = Given (accelerator self))
            (yielded (events (run ext self))).
Proof.
  intros Hok.
  assert (Hy : yielded (events (run ext self))
               = flat_map (results_of ext self)
                          (select_user_spatial_mappings ext self))
    by exact (yielded_run_loop ext self _ _ 0%nat Hok).
  split; [exact Hy|]. rewrite Hy. clear Hy Hok.
  apply Forall_forall. intros [cme [usm x]] Hin new_accelerator Ha.
  apply in_flat_map in Hin as [u [_ Hin]]. unfold results_of in Hin.
  destruct (adapt ext self u) as [[[|] acc]|e] eqn:Eu.
  - apply in_map_iff in Hin as [[c y] [E _]]. injection E as <- _ _. reflexivity.
  - apply in_map_iff in Hin as [[c y] [E _]]. injection E as _ <- _.
    rewrite Eu in Ha. discriminate Ha.
  - destruct Hin.
Qed.

End GeneratorYieldsFacts.

Lemma run_yields_conversion_results_witness :
  let self := example_stage false ["W"] true in
  (forall usm,
      In usm (SpatialMappingGeneratorStage.select_user_spatial_mappings
                example_ext self) ->
      Py.is_raise (SpatialMappingGeneratorStage.adapt example_ext self usm)
      = false)
  /\ map (fun y => cme_accelerator (fst y))
         (SpatialMappingGeneratorStage.yielded
            (events (SpatialMappingGeneratorStage.run example_ext self)))
     = [Given (example_accelerator false); Given (example_accelerator false)]
  /\ map (fun y => fst (snd y))
         (SpatialMappingGeneratorStage.yielded
            (events (SpatialMappingGeneratorStage.run example_ext self)))
     = generator_run example_ext
         (SpatialMappingGeneratorStage.layer self)
         (SpatialMappingGeneratorStage.accelerator self) [] false.
Proof.
  intros self.
  assert (Hok : forall usm,
      In usm (SpatialMappingGeneratorStage.select_user_spatial_mappings
                example_ext self) ->
      Py.is_raise (SpatialMappingGeneratorStage.adapt example_ext self usm)
      = false).
  { intros usm Hin. vm_compute in Hin.
    destruct Hin as [<-|[<-|[]]]; vm_compute; reflexivity. }
  split; [exact Hok|].
  destruct (run_yields_conversion_results example_ext self Hok) as [Hy _].
  rewrite Hy. split; vm_compute; reflexivity.
Defined.

Section GeneratorFailure.
Import SpatialMappingGeneratorStage.
Variable ext : Collaborators.

Lemma generator_run_loop_failure (self : Stage) (nb : nat)
    (cands : list SpatialMapping) :
  forall i e,
  raised (run_loop ext self nb i cands) = Some e ->
  exists done usm rest,
    cands = done ++ usm :: rest
    /\ (forall u, In u done -> Py.is_raise (adapt ext self u) = false)
    /\ adapt ext self usm = Raise e
    /\ launched (events (run_loop ext self nb i cands)) = done ++ [usm]
    /\ converted (events (run_loop ext self nb i cands)) = done
    /\ yielded (events (run_loop ext self nb i cands))
       = flat_map (results_of ext self) done.
Proof.
  induction cands as [|usm rest IH]; intros i e Hr; [discriminate Hr|].
  cbn [run_loop] in *.
  destruct (adapt ext self usm) as [[updated acc]|e'] eqn:Ea.
  - assert (Hok : Py.is_raise (adapt ext self usm) = false)
      by (rewrite Ea; reflexivity).
    destruct (generator_run_one_observed ext self nb i usm Hok)
      as [Hnone [Hl [Hc _]]].
    rewrite Hnone in *. cbn [events raised] in *.
    destruct (IH (S i) e Hr) as [done [u [rest' [-> [Hd [Hu [Hl' [Hc' Hy']]]]]]]].
    exists (usm :: done), u, rest'. split; [reflexivity|].
    split; [intros v [<-|Hv]; [exact Hok|exact (Hd v Hv)]|].
    split; [exact Hu|].
    unfold launched, converted, yielded in *. rewrite !flat_map_app.
    rewrite Hl, Hc, Hl', Hc', Hy'. repeat split.
    cbn [flat_map]. f_equal. exact (yielded_run_one ext self nb i usm).
  - unfold run_one in *. rewrite Ea in *. cbn [events raised] in *.
    injection Hr as <-. exists [], usm, rest.
    split; [reflexivity|]. split; [intros u []|]. split; [exact Ea|].
    repeat split.
Qed.

(** When the adaptation of a candidate raises, [run] ends with that
    exception at the first such candidate: the candidates before it were
    launched and converted and their results yielded, the failing candidate
    was launched only, and no later candidate is launched. *)
Theorem run_stops_at_first_failure (self : Stage) (e : exn) :
  raised (run ext self) = Some e ->
  exists done usm rest,
    select_user_spatial_mappings ext self = done ++ usm :: rest
    /\ (forall u, In u done -> Py.is_raise (adapt ext self u) = false)
    /\ adapt ext self usm = Raise e
    /\ launched (events (run ext self)) = done ++ [usm]
    /\ converted (events (run ext self)) = done
    /\ yielded (events (run ext self)) = flat_map (results_of ext self) done.
Proof.
  intros Hr. exact (generator_run_loop_failure self _ _ 0%nat e Hr).
Qed.

End GeneratorFailure.

Lemma run_stops_at_first_failure_witness :
  let self := example_stage false [] true in
  raised (SpatialMappingGeneratorStage.run example_ext self) = Some IndexError
  /\ exists done usm rest,
       SpatialMappingGeneratorStage.select_user_spatial_mappings example_ext self
       = done ++ usm :: rest
       /\ SpatialMappingGeneratorStage.adapt example_ext self usm
          = Raise IndexError
       /\ SpatialMappingGeneratorStage.launched
            (events (SpatialMappingGeneratorStage.run example_ext self))
          = done ++ [usm]
       /\ SpatialMappingGeneratorStage.converted
            (events (SpatialMappingGeneratorStage.run example_ext self))
          = done.
Proof.
  intros self.
  assert (Hr : raised (SpatialMappingGeneratorStage.run example_ext self)
               = Some IndexError) by (vm_compute; reflexivity).
  split; [exact Hr|].
  destruct (run_stops_at_first_failure example_ext self IndexError Hr)
    as [done [usm [rest [Hs [_ [Ha [Hl [Hc _]]]]]]]].
  exists done, usm, rest. repeat split; assumption.
Defined.

(** ** [WorkloadStage.run]: the results it yields *)

Section WorkloadYields.
Import WorkloadStage.
Variable ext : Collaborators.

Lemma yielded_run_node (self : Stage) (id : nat) (node : Node) :
  yielded (run_node ext self id node) = results_of ext self node.
Proof.
  destruct node as [layer|d]; cbn [run_node results_of]; [|reflexivity].
  destruct (imc_skips _ _); [reflexivity|].
  unfold yielded. cbn [flat_map app].
  generalize (sub_stage_run ext layer (accelerator self)). intros results.
  induction results as [|[cme x] rs IH]; [reflexivity|].
  cbn [map flat_map app]. f_equal. exact IH.
Qed.

(** [run] drains the sub-stage of one layer before it goes on to the next:
    what it yields is, for the nodes in topological order, nothing for a
    [DummyNode] or a layer skipped on an in-memory-computing core, and for
    every other layer each result of its sub-stage, unchanged and in order,
    tagged with the layer.  Every sub-stage is built with the stage's
    accelerator. *)
Theorem run_yields_sub_stage_results (self : Stage) :
  yielded (run ext self)
  = flat_map (results_of ext self) (topological_sort ext (workload self))
  /\ (forall n acc, In (SubStage n acc) (run ext self) -> acc = accelerator self).
Proof.
  unfold run. generalize (topological_sort ext (workload self)) 0%nat.
  intros order. induction order as [|node rest IH]; intros id.
  - split; [reflexivity|intros n acc []].
  - destruct (IH (S id)) as [Hy Hs]. cbn [run_loop flat_map]. split.
    + unfold yielded in *. rewrite flat_map_app, Hy. f_equal.
      exact (yielded_run_node self id node).
    + intros n acc Hin. apply in_app_or in Hin as [Hin|Hin];
        [|exact (Hs n acc Hin)].
      destruct node as [layer|d]; cbn [run_node] in Hin; [|destruct Hin].
      destruct (imc_skips _ _).
      * destruct Hin as [E|[]]. discriminate E.
      * destruct Hin as [E|[E|Hin]]; [discriminate E|congruence|].
        apply in_map_iff in Hin as [[c x] [E _]]. discriminate E.
Qed.

End WorkloadYields.

(** ** More facts on dictionaries *)

Section DictUpdates.
Context {K V : Type} `{PyEq K}.

Lemma py_eqb_refl (k : K) : py_eqb k k = true.
Proof. destruct (py_eqb_spec k k); [reflexivity|congruence]. Qed.

Lemma get_set_same (d : Dict.t K V) (k : K) (v : V) :
  Dict.get (Dict.set d k v) k = Some v.
Proof.
  induction d as [|[k' v'] d IH]; cbn [Dict.set Dict.get].
  - rewrite py_eqb_refl. reflexivity.
  - destruct (py_eqb k' k) eqn:E; cbn [Dict.get]; rewrite E;
      [reflexivity|exact IH].
Qed.

Lemma get_set_other (d : Dict.t K V) (k k' : K) (v : V) :
  k <> k' -> Dict.get (Dict.set d k v) k' = Dict.get d k'.
Proof.
  intros Hne. induction d as [|[k0 v0] d IH]; cbn [Dict.set Dict.get].
  - destruct (py_eqb_spec k k'); [contradiction|reflexivity].
  - destruct (py_eqb_spec k0 k) as [->|Hk]; cbn [Dict.get].
    + destruct (py_eqb_spec k k'); [contradiction|reflexivity].
    + destruct (py_eqb k0 k'); [reflexivity|exact IH].
Qed.

Lemma get_None_keys (d : Dict.t K V) (k : K) :
  Dict.get d k = None <-> ~ In k (Dict.keys d).
Proof.
  induction d as [|[k' v'] d IH]; cbn [Dict.get Dict.keys map fst].
  - split; [intros _ []|reflexivity].
  - destruct (py_eqb_spec k' k) as [->|Hne].
    + split; [discriminate|]. intros Hn. exfalso. apply Hn. left. reflexivity.
    + rewrite IH. unfold Dict.keys. split.
      * intros Hn [E|Hin]; [contradiction|exact (Hn Hin)].
      * intros Hn Hin. apply Hn. right. exact Hin.
Qed.

Lemma contains_keys (d : Dict.t K V) (k : K) :
  Dict.contains d k = true <-> In k (Dict.keys d).
Proof.
  unfold Dict.contains. destruct (Dict.get d k) as [v|] eqn:E.
  - split; [intros _|reflexivity].
    apply get_In in E. apply (in_map fst) in E. exact E.
  - split; [discriminate|]. intros Hin. apply get_None_keys in E. contradiction.
Qed.

Lemma keys_set_In (d : Dict.t K V) (k : K) (v : V) :
  In k (Dict.keys d) -> Dict.keys (Dict.set d k v) = Dict.keys d.
Proof.
  induction d as [|[k' v'] d IH]; cbn [Dict.set Dict.keys map fst];
    [intros []|].
  destruct (py_eqb_spec k' k) as [->|Hne]; [reflexivity|].
  intros [E|Hin]; [contradiction|]. cbn [map fst]. f_equal. exact (IH Hin).
Qed.

Lemma keys_set_fresh (d : Dict.t K V) (k : K) (v : V) :
  ~ In k (Dict.keys d) -> Dict.keys (Dict.set d k v) = Dict.keys d ++ [k].
Proof.
  intros Hn. rewrite set_fresh; [|exact Hn]. unfold Dict.keys.
  rewrite map_app. reflexivity.
Qed.

Lemma set_wf (d : Dict.t K V) (k : K) (v : V) :
  Dict.wf d -> Dict.wf (Dict.set d k v).
Proof.
  unfold Dict.wf. intros Hd.
  destruct (in_dec (fun x y => reflect_dec _ _ (py_eqb_spec x y)) k (Dict.keys d))
    as [Hin|Hn].
  - rewrite keys_set_In; assumption.
  - rewrite keys_set_fresh; [|exact Hn]. apply NoDup_app; [exact Hd| |].
    + repeat constructor. intros [].
    + intros x Hx [<-|[]]. exact (Hn Hx).
Qed.

End DictUpdates.

Lemma keys_set_congr {K V W : Type} `{PyEq K} (d : Dict.t K V) (d' : Dict.t K W)
    (k : K) (v : V) (w : W) :
  Dict.keys d = Dict.keys d' ->
  Dict.keys (Dict.set d k v) = Dict.keys (Dict.set d' k w).
Proof.
  intros E.
  destruct (in_dec (fun x y => reflect_dec _ _ (py_eqb_spec x y)) k (Dict.keys d))
    as [Hin|Hn].
  - rewrite (keys_set_In d), (keys_set_In d'); [exact E| |exact Hin].
    rewrite <- E. exact Hin.
  - rewrite (keys_set_fresh d), (keys_set_fresh d'); [rewrite E; reflexivity| |exact Hn].
    rewrite <- E. exact Hn.
Qed.

(** ** [extract_pr_loop_info]: the shape of what it returns *)

Lemma extract_pr_loop_info_shape {max_str_digits : nat}
    (equation_relations : list string)
    (prl : PrLoop) (prll : LoopList) (psf : PrScalingFactors) :
  extract_pr_loop_info max_str_digits equation_relations = Ok (prl, prll, psf) ->
  Dict.keys prl = Dict.keys psf
  /\ Dict.wf prl
  /\ (forall key gens, In (key, gens) prl -> length gens = 2%nat)
  /\ (forall key factors, In (key, factors) psf -> length factors = 2%nat).
Proof.
  unfold extract_pr_loop_info. intros Hrun.
  refine (for_each_invariant
            (fun st : PrLoop * LoopList * PrScalingFactors =>
               Dict.keys (fst (fst st)) = Dict.keys (snd st)
               /\ Dict.wf (fst (fst st))
               /\ (forall key gens, In (key, gens) (fst (fst st)) ->
                                    length gens = 2%nat)
               /\ (forall key factors, In (key, factors) (snd st) ->
                                       length factors = 2%nat))
            _ equation_relations _ _ (prl, prll, psf) _ Hrun).
  - clear. intros [[prl prll] psf] relation s' [Hk [Hwf [Hg Hf]]] Hbody.
    destruct (Py.py_assert _) as [[]|e] eqn:Elen; cbn [Py.bind] in Hbody;
      [|discriminate].
    destruct (Py.getitem _ 0) as [key|e]; cbn [Py.bind] in Hbody; [|discriminate].
    destruct (for_each _ Dict.empty _) as [sf|e]; cbn [Py.bind] in Hbody;
      [|discriminate].
    match type of Hbody with
    | Py.bind ?m _ = _ => destruct m as [[]|e] eqn:Esf
    end; cbn [Py.bind] in Hbody; [|discriminate].
    injection Hbody as <-. cbn [fst snd] in *.
    split; [apply keys_set_congr; exact Hk|].
    split; [apply set_wf; exact Hwf|]. split.
    + intros k gens Hin. apply In_set in Hin as [E|Hin]; [|exact (Hg k gens Hin)].
      injection E as _ ->. unfold Py.py_assert in Elen.
      destruct (Nat.eqb_spec (length (Str.findall_class Str.is_alpha relation)) 3)
        as [E3|]; [|discriminate].
      rewrite length_map.
      destruct (Str.findall_class Str.is_alpha relation) as [|x t];
        [discriminate E3|]. cbn [tl]. cbn [length] in E3. lia.
    + intros k factors Hin. apply In_set in Hin as [E|Hin];
        [|exact (Hf k factors Hin)].
      injection E as _ ->. unfold Py.py_assert in Esf.
      destruct (Nat.eqb_spec (length sf) 2) as [E2|]; [exact E2|discriminate].
  - cbn [fst snd]. split; [reflexivity|]. split; [constructor|].
    split; intros key x [].
Qed.

(** The relevance data of a constructed node comes from [build_pr_funcs] on
    its dimension relations. *)
Lemma LayerNode_init_pr_funcs {max_str_digits : nat}
    (layer_id : Z) (attrs : LayerAttrs)
    (node_name : string) (node : LayerNode) :
  LayerNode_init max_str_digits layer_id attrs node_name = Ok node ->
  exists prll,
    build_pr_funcs max_str_digits (dimension_relations node)
    = Ok (pr_loop node, prll, pr_scaling_factors node)
    /\ extract_r_ir_loop_info (equation node) (loop_dim_size node)
                              (pr_loop node) prll
       = Ok (operand_loop_dim node, operand_loop_dim_reform node,
             operand_list node, operand_dimensionality_order node)
    /\ loop_dim_size node = attr_loop_dim_size attrs
    /\ padding node = attr_padding attrs.
Proof.
  intros Hinit. unfold LayerNode_init in Hinit.
  destruct (has_equation_relations attrs); [discriminate|].
  destruct (build_pr_funcs _ _) as [[[prl prll] psf]|e] eqn:Epr;
    cbn [Py.bind] in Hinit; [|discriminate].
  match type of Hinit with
  | Py.bind ?m _ = _ => destruct m as [sizes|e]
  end; cbn [Py.bind] in Hinit; [|discriminate].
  destruct (extract_r_ir_loop_info _ _ _ _) as [[[[old reform] ol] order]|e]
    eqn:Einfo; cbn [Py.bind] in Hinit; [|discriminate].
  injection Hinit as <-. cbn. exists prll. repeat split; assumption.
Qed.

Lemma build_pr_funcs_shape {max_str_digits : nat} (relations : list string)
    (prl : PrLoop) (prll : LoopList) (psf : PrScalingFactors) :
  build_pr_funcs max_str_digits relations = Ok (prl, prll, psf) ->
  Dict.keys prl = Dict.keys psf
  /\ Dict.wf prl
  /\ (forall key gens, In (key, gens) prl -> length gens = 2%nat)
  /\ (forall key factors, In (key, factors) psf -> length factors = 2%nat).
Proof.
  unfold build_pr_funcs. destruct (0 <? length relations)%nat.
  - apply extract_pr_loop_info_shape.
  - intros [= <- <- <-]. split; [reflexivity|]. split; [constructor|].
    split; intros key x [].
Qed.

(** A partially relevant dimension of a node whose relevance data comes from
    [build_pr_funcs] has two generators and two scaling factors. *)
Lemma pr_entry_shape {max_str_digits : nat}
    (self : LayerNode) (prll : LoopList) (dim : LayerDimStr) :
  build_pr_funcs max_str_digits (dimension_relations self)
  = Ok (pr_loop self, prll, pr_scaling_factors self) ->
  (Dict.get (pr_loop self) dim = None
   /\ Dict.get (pr_scaling_factors self) dim = None)
  \/ exists g1 g2 k1 sa k2 sb,
       Dict.get (pr_loop self) dim = Some [g1; g2]
       /\ Dict.get (pr_scaling_factors self) dim = Some [(k1, sa); (k2, sb)].
Proof.
  intros Hb. destruct (build_pr_funcs_shape _ _ _ _ Hb) as [Hk [_ [Hg Hf]]].
  destruct (Dict.get (pr_loop self) dim) as [gens|] eqn:Eg.
  - right.
    destruct (Dict.get (pr_scaling_factors self) dim) as [factors|] eqn:Ef.
    + pose proof (Hg _ _ (get_In _ _ _ Eg)) as Lg.
      pose proof (Hf _ _ (get_In _ _ _ Ef)) as Lf.
      destruct gens as [|g1 [|g2 [|]]]; try discriminate Lg.
      destruct factors as [|[k1 sa] [|[k2 sb] [|]]]; try discriminate Lf.
      exists g1, g2, k1, sa, k2, sb. split; reflexivity.
    + exfalso. apply get_None_keys in Ef. apply Ef. rewrite <- Hk.
      apply get_In in Eg. exact (in_map fst _ _ Eg).
  - left. split; [reflexivity|].
    apply get_None_keys. rewrite <- Hk. apply get_None_keys. exact Eg.
Qed.

(** [calc_pr_dimension_size_total] on a node whose relevance data comes from
    [build_pr_funcs]. *)
Lemma calc_pr_dimension_size_total_cases {max_str_digits : nat}
    (self : LayerNode) (prll : LoopList)
    (dim : LayerDimStr) :
  build_pr_funcs max_str_digits (dimension_relations self)
  = Ok (pr_loop self, prll, pr_scaling_factors self) ->
  (Dict.get (pr_loop self) dim = None
   /\ calc_pr_dimension_size_total self dim = Raise KeyError)
  \/ exists g1 g2 k1 sa k2 sb,
       Dict.get (pr_loop self) dim = Some [g1; g2]
       /\ Dict.get (pr_scaling_factors self) dim = Some [(k1, sa); (k2, sb)]
       /\ calc_pr_dimension_size_total self dim
          = (A <- Dict.getitem (loop_dim_size self) g1 ;;
             B <- Dict.getitem (loop_dim_size self) g2 ;;
             total_pr_dim_size <- calc_pr_dimension_size sa A sb B ;;
             Ok (total_pr_dim_size - total_padding self dim)).
Proof.
  intros Hb.
  destruct (pr_entry_shape self prll dim Hb)
    as [[Eg Ef]|[g1 [g2 [k1 [sa [k2 [sb [Eg Ef]]]]]]]].
  - left. split; [exact Eg|].
    unfold calc_pr_dimension_size_total, Dict.getitem. rewrite Eg. reflexivity.
  - right. exists g1, g2, k1, sa, k2, sb. split; [exact Eg|]. split; [exact Ef|].
    unfold calc_pr_dimension_size_total, total_padding.
    unfold Dict.getitem at 1. rewrite Eg. cbn [Py.bind map_res].
    destruct (Dict.getitem (loop_dim_size self) g1) as [A|e]; cbn [Py.bind];
      [|reflexivity].
    destruct (Dict.getitem (loop_dim_size self) g2) as [B|e]; cbn [Py.bind];
      [|reflexivity].
    unfold Dict.getitem at 1. rewrite Ef. cbn [Py.bind Dict.values map snd].
    destruct (calc_pr_dimension_size sa A sb B) as [v|e]; cbn [Py.bind];
      [|reflexivity].
    destruct (Dict.get (padding self) dim) as [[p1 p2]|]; reflexivity.
Qed.

(** [calc_tensor_dim] on a partially relevant dimension that [loop_sizes]
    does not hold. *)
Lemma calc_tensor_dim_pr (self : LayerNode) (loop_sizes : LayerDimSizes)
    (dim g1 g2 k1 k2 : LayerDimStr) (sa sb : Z) :
  Dict.contains loop_sizes dim = false ->
  Dict.get (pr_loop self) dim = Some [g1; g2] ->
  Dict.get (pr_scaling_factors self) dim = Some [(k1, sa); (k2, sb)] ->
  calc_tensor_dim self loop_sizes dim
  = (A <- Dict.getitem loop_sizes g1 ;;
     B <- Dict.getitem loop_sizes g2 ;;
     pr_dim_size <- calc_pr_dimension_size sa A sb B ;;
     total <- pr_loop_dim_size_getitem self dim ;;
     Ok (Z.min total pr_dim_size)).
Proof.
  intros Hc Eg Ef. unfold calc_tensor_dim. rewrite Hc.
  unfold Dict.contains. rewrite Eg.
  unfold Dict.getitem at 1. rewrite Eg. cbn [Py.bind map_res].
  destruct (Dict.getitem loop_sizes g1) as [A|e]; cbn [Py.bind]; [|reflexivity].
  destruct (Dict.getitem loop_sizes g2) as [B|e]; cbn [Py.bind]; [|reflexivity].
  unfold Dict.getitem at 1. rewrite Ef. reflexivity.
Qed.

Lemma calc_pr_dimension_size_no_assertion (sa A sb B : Z) :
  calc_pr_dimension_size sa A sb B <> Raise AssertionError.
Proof.
  unfold calc_pr_dimension_size.
  unfold PyFloat.truediv_exact, PyFloat.of_int.
  repeat match goal with
         | |- context [if ?c then _ else _] => destruct c; cbn [Py.bind]
         end; try discriminate.
  destruct (PyFloat.sub _ _); cbn [PyFloat.to_int]; discriminate.
Qed.

(** The assertions "Shouldn't happen if partial relevancy checks in
    extract_pr_loop_info() are done correctly" of
    [calc_pr_dimension_size_total] and [calc_tensor_dim] hold on a
    constructed node: neither method raises [AssertionError] on a partially
    relevant dimension.  [calc_pr_dimension_size_total] raises [KeyError]
    for a dimension outside [pr_loop], and for one inside it is
    [calc_pr_dimension_size] on the two scaling factors and the sizes of the
    two generators, less the padding. *)
Theorem pr_dimension_assertions_hold {max_str_digits : nat}
    (layer_id : Z) (attrs : LayerAttrs)
    (node_name : string) (node : LayerNode) (dim : LayerDimStr)
    (loop_sizes : LayerDimSizes) :
  LayerNode_init max_str_digits layer_id attrs node_name = Ok node ->
  ((Dict.get (pr_loop node) dim = None
    /\ calc_pr_dimension_size_total node dim = Raise KeyError)
   \/ exists g1 g2 k1 sa k2 sb,
        Dict.get (pr_loop node) dim = Some [g1; g2]
        /\ Dict.get (pr_scaling_factors node) dim = Some [(k1, sa); (k2, sb)]
        /\ calc_pr_dimension_size_total node dim
           = (A <- Dict.getitem (loop_dim_size node) g1 ;;
              B <- Dict.getitem (loop_dim_size node) g2 ;;
              total_pr_dim_size <- calc_pr_dimension_size sa A sb B ;;
              Ok (total_pr_dim_size - total_padding node dim)))
  /\ calc_pr_dimension_size_total node dim <> Raise AssertionError
  /\ (Dict.contains (pr_loop node) dim = true ->
      calc_tensor_dim node loop_sizes dim <> Raise AssertionError).
Proof.
  intros Hinit.
  destruct (LayerNode_init_pr_funcs _ _ _ _ Hinit) as [prll [Hb _]].
  pose proof (calc_pr_dimension_size_total_cases node prll dim Hb) as Htotal.
  split; [exact Htotal|]. split.
  - destruct Htotal as [[_ ->]|[g1 [g2 [k1 [sa [k2 [sb [_ [_ ->]]]]]]]]];
      [discriminate|].
    unfold Dict.getitem.
    destruct (Dict.get (loop_dim_size node) g1) as [A|]; cbn [Py.bind];
      [|discriminate].
    destruct (Dict.get (loop_dim_size node) g2) as [B|]; cbn [Py.bind];
      [|discriminate].
    pose proof (calc_pr_dimension_size_no_assertion sa A sb B) as H.
    destruct (calc_pr_dimension_size sa A sb B) as [v|e]; cbn [Py.bind];
      [discriminate|exact H].
  - intros Hc.
    destruct (Dict.contains loop_sizes dim) eqn:Hl.
    { unfold calc_tensor_dim. rewrite Hl. unfold Dict.getitem.
      destruct (Dict.get loop_sizes dim); discriminate. }
    destruct (pr_entry_shape node prll dim Hb)
      as [[Eg Ef]|[g1 [g2 [k1 [sa [k2 [sb [Eg Ef]]]]]]]].
    { unfold Dict.contains in Hc. rewrite Eg in Hc. discriminate Hc. }
    rewrite (calc_tensor_dim_pr _ _ _ _ _ _ _ _ _ Hl Eg Ef).
    unfold Dict.getitem.
    destruct (Dict.get loop_sizes g1) as [A|]; cbn [Py.bind]; [|discriminate].
    destruct (Dict.get loop_sizes g2) as [B|]; cbn [Py.bind]; [|discriminate].
    pose proof (calc_pr_dimension_size_no_assertion sa A sb B) as H.
    destruct (calc_pr_dimension_size sa A sb B) as [v|e]; cbn [Py.bind];
      [|exact H].
    unfold pr_loop_dim_size_getitem, Dict.getitem.
    destruct (pr_loop_dim_size node) as [sizes|]; [|discriminate].
    destruct (Dict.get sizes dim); discriminate.
Qed.

(** ** [extract_r_ir_loop_info]: the entries of [operand_loop_dim] *)

Lemma extract_r_ir_loop_info_entries (equation : string)
    (sizes : LayerDimSizes) (prl : PrLoop) (prll : LoopList)
    (old : OperandLoopDims) reform ol order :
  extract_r_ir_loop_info equation sizes prl prll = Ok (old, reform, ol, order) ->
  Dict.wf old
  /\ forall operand dims,
       Dict.get old operand = Some dims ->
       exists term,
         Dict.get order operand = Some term
         /\ classify sizes prl prll term = Ok dims.
Proof.
  unfold extract_r_ir_loop_info. intros Hrun.
  match type of Hrun with
  | Py.bind (for_each ?l ?s0 ?body) _ = _ =>
      destruct (for_each l s0 body) as [st|e] eqn:Eloop;
      cbn [Py.bind] in Hrun; [|discriminate];
      pose proof (for_each_invariant
        (fun st =>
           Dict.wf (st_operand_loop_dim st)
           /\ forall operand dims,
                Dict.get (st_operand_loop_dim st) operand = Some dims ->
                exists term,
                  Dict.get (st_dimensionality_order st) operand = Some term
                  /\ classify sizes prl prll term = Ok dims)
        body l) as Hinv
  end.
  injection Hrun as <- _ _ <-.
  eapply Hinv; [| |exact Eloop];
    [|split; [constructor|intros operand dims Hget; discriminate Hget]].
  clear. intros s split_loc s' [Hwf Hs] Hbody.
  destruct (Py.getitem _ (st_begin_idx s)) as [op|e]; cbn [Py.bind] in Hbody;
    [|discriminate].
  match type of Hbody with
  | Py.bind ?m _ = _ => destruct m as [new|e] eqn:Enew
  end; cbn [Py.bind] in Hbody; [|discriminate].
  injection Hbody as <-. cbn [st_operand_loop_dim st_dimensionality_order].
  split; [apply set_wf; exact Hwf|].
  intros operand dims Hget.
  destruct (String.eqb_spec op operand) as [->|Hne].
  - rewrite get_set_same in Hget. injection Hget as <-.
    eexists. split; [apply get_set_same|]. exact Enew.
  - rewrite get_set_other in Hget by exact Hne.
    rewrite get_set_other by exact Hne. exact (Hs operand dims Hget).
Qed.

Lemma filter_res_filter {A : Type} (p : A -> res bool) (l l' : list A) :
  filter_res p l = Ok l' ->
  l' = filter (fun x => match p x with Ok true => true | _ => false end) l
  /\ forall x, In x l -> exists b, p x = Ok b.
Proof.
  revert l'. induction l as [|y t IH]; intros l' Hf.
  - injection Hf as <-. split; [reflexivity|intros x []].
  - cbn [filter_res] in Hf.
    destruct (p y) as [b|e] eqn:Ey; cbn [Py.bind] in Hf; [|discriminate].
    destruct (filter_res p t) as [ys|e] eqn:Et; cbn [Py.bind] in Hf;
      [|discriminate].
    injection Hf as <-. destruct (IH ys eq_refl) as [-> Hall].
    split.
    + cbn [filter]. rewrite Ey. destruct b; reflexivity.
    + intros x [<-|Hin]; [exists b; exact Ey|exact (Hall x Hin)].
Qed.

Lemma py_in_In (d : string) (l : list string) : py_in d l = true <-> In d l.
Proof.
  unfold py_in. rewrite existsb_exists. split.
  - intros [x [Hin Hx]]. cbn in Hx. apply String.eqb_eq in Hx. subst. exact Hin.
  - intros Hin. exists d. split; [exact Hin|apply String.eqb_refl].
Qed.

Lemma size_is_not_1_Ok (sizes : LayerDimSizes) (d : LayerDimStr) (b : bool) :
  size_is_not_1 sizes d = Ok b ->
  exists n, Dict.get sizes d = Some n /\ b = negb (n =? 1).
Proof.
  unfold size_is_not_1, Dict.getitem.
  destruct (Dict.get sizes d) as [n|]; cbn [Py.bind]; [|discriminate].
  intros [= <-]. exists n. split; reflexivity.
Qed.

(** A loop dimension of a size other than 1 is in the Relevant or in the
    Irrelevant list of every operand, unless the operand has partially
    relevant dimensions and the dimension is one of them or one of their
    generators; no dimension is in both lists; the Irrelevant list holds
    loop dimensions only, each once, and none that the operand's term
    names. *)
Theorem relevant_irrelevant_partition (equation : string)
    (sizes : LayerDimSizes) (prl : PrLoop) (prll : LoopList)
    (old : OperandLoopDims) reform ol order :
  extract_r_ir_loop_info equation sizes prl prll = Ok (old, reform, ol, order) ->
  forall operand dims,
    Dict.get old operand = Some dims ->
    (forall d, In d (IR dims) -> In d (Dict.keys sizes) /\ ~ In d (R dims))
    /\ (Dict.wf sizes -> NoDup (IR dims))
    /\ (forall d n, Dict.get sizes d = Some n -> n <> 1 ->
                    PR dims = [] \/ ~ In d prll ->
                    In d (R dims) \/ In d (IR dims))
    /\ exists term,
         Dict.get order operand = Some term
         /\ incl (R dims) term
         /\ forall d, In d (IR dims) -> ~ In d term.
Proof.
  intros Hrun operand dims Hget.
  destruct (extract_r_ir_loop_info_entries _ _ _ _ _ _ _ _ Hrun) as [_ Hent].
  destruct (Hent operand dims Hget) as [term [Hterm Hc]]. clear Hent Hrun Hget.
  unfold classify in Hc.
  destruct (existsb (Dict.contains prl) term) eqn:Eflag.
  - destruct (filter_res _ _) as [ir|e] eqn:Eir; cbn [Py.bind] in Hc;
      [|discriminate].
    injection Hc as <-. cbn [R IR PR].
    destruct (filter_res_filter _ _ _ Eir) as [-> Hall].
    assert (Hir : forall d,
      In d (filter
              (fun x => match (if negb (py_in x prll)
                               then size_is_not_1 sizes x else Ok false) with
                        | Ok true => true
                        | _ => false
                        end)
              (filter (fun d => negb (py_in d term)) (Dict.keys sizes))) ->
      In d (Dict.keys sizes) /\ ~ In d term).
    { intros d Hd. apply filter_In in Hd as [Hd _].
      apply filter_In in Hd as [Hk Hd]. split; [exact Hk|].
      apply negb_true_iff in Hd. intros Hin. apply py_in_In in Hin.
      exact (eq_true_false_abs _ Hin Hd). }
    split; [|split; [|split]].
    + intros d Hd. destruct (Hir d Hd) as [Hk Hn]. split; [exact Hk|].
      intros Hr. apply filter_In in Hr as [Hr _]. exact (Hn Hr).
    + intros Hwf. apply NoDup_filter, NoDup_filter. exact Hwf.
    + intros d n Hsize Hn1 [Hnil|Hnp].
      { subst prl. exfalso. clear - Eflag.
        induction term as [|x t IH]; [discriminate|]. cbn in Eflag. exact (IH Eflag). }
      assert (Hp : py_in d prll = false).
      { destruct (py_in d prll) eqn:E; [|reflexivity].
        apply py_in_In in E. contradiction. }
      destruct (py_in d term) eqn:Et.
      * left. apply filter_In. split; [apply py_in_In; exact Et|].
        rewrite Hp. reflexivity.
      * right. apply filter_In. split.
        -- apply filter_In. split; [|rewrite Et; reflexivity].
           apply get_In in Hsize. exact (in_map fst _ _ Hsize).
        -- rewrite Hp. cbn [negb]. unfold size_is_not_1, Dict.getitem.
           rewrite Hsize. cbn [Py.bind].
           destruct (Z.eqb_spec n 1); [contradiction|reflexivity].
    + exists term. split; [exact Hterm|]. split.
      * intros d Hd. apply filter_In in Hd as [Hd _]. exact Hd.
      * intros d Hd. exact (proj2 (Hir d Hd)).
  - destruct (filter_res _ term) as [r|e] eqn:Er; cbn [Py.bind] in Hc;
      [|discriminate].
    destruct (filter_res _ (filter _ _)) as [ir|e] eqn:Eir;
      cbn [Py.bind] in Hc; [|discriminate].
    injection Hc as <-. cbn [R IR PR].
    destruct (filter_res_filter _ _ _ Eir) as [-> Hall].
    destruct (filter_res_filter _ _ _ Er) as [-> Hallr].
    assert (Hir : forall d,
      In d (filter (fun x => match size_is_not_1 sizes x with
                             | Ok true => true
                             | _ => false
                             end)
              (filter (fun d => negb (py_in d term)) (Dict.keys sizes))) ->
      In d (Dict.keys sizes) /\ ~ In d term).
    { intros d Hd. apply filter_In in Hd as [Hd _].
      apply filter_In in Hd as [Hk Hd]. split; [exact Hk|].
      apply negb_true_iff in Hd. intros Hin. apply py_in_In in Hin.
      exact (eq_true_false_abs _ Hin Hd). }
    split; [|split; [|split]].
    + intros d Hd. destruct (Hir d Hd) as [Hk Hn]. split; [exact Hk|].
      intros Hr. apply filter_In in Hr as [Hr _]. exact (Hn Hr).
    + intros Hwf. apply NoDup_filter, NoDup_filter. exact Hwf.
    + intros d n Hsize Hn1 _.
      assert (Hs1 : size_is_not_1 sizes d = Ok true).
      { unfold size_is_not_1, Dict.getitem. rewrite Hsize. cbn [Py.bind].
        destruct (Z.eqb_spec n 1); [contradiction|reflexivity]. }
      destruct (py_in d term) eqn:Et.
      * left. apply filter_In. split; [apply py_in_In; exact Et|].
        rewrite Hs1. reflexivity.
      * right. apply filter_In. split.
        -- apply filter_In. split; [|rewrite Et; reflexivity].
           apply get_In in Hsize. exact (in_map fst _ _ Hsize).
        -- rewrite Hs1. reflexivity.
    + exists term. split; [exact Hterm|]. split.
      * intros d Hd. apply filter_In in Hd as [Hd _]. exact Hd.
      * intros d Hd. exact (proj2 (Hir d Hd)).
Qed.

(** ** Exact quotients in binary64 *)

Section Binary64Exact.

Lemma make_double (m e : Z) : Binary64.make (2 * m) e = Binary64.make m (e + 1).
Proof.
  destruct m as [|p|p]; cbn [Binary64.make Z.mul Pos.mul Binary64.odd_part
                                Binary64.twos]; [reflexivity| |];
    f_equal; lia.
Qed.

Lemma make_shift (j : nat) (m e : Z) :
  Binary64.make (m * 2 ^ Z.of_nat j) (e - Z.of_nat j) = Binary64.make m e.
Proof.
  revert m e. induction j as [|j IH]; intros m e.
  - cbn [Z.of_nat]. rewrite Z.pow_0_r, Z.mul_1_r, Z.sub_0_r. reflexivity.
  - rewrite Nat2Z.inj_succ, Z.pow_succ_r by lia.
    replace (m * (2 * 2 ^ Z.of_nat j)) with (2 * (m * 2 ^ Z.of_nat j)) by ring.
    rewrite make_double.
    replace (e - Z.succ (Z.of_nat j) + 1) with (e - Z.of_nat j) by lia.
    apply IH.
Qed.

(** The quotient of two integers that is an integer of at most 53 bits is
    computed exactly. *)
Lemma truediv_exact_quotient (c b : Z) :
  b <> 0 -> Z.abs c < 2 ^ 53 ->
  Binary64.truediv (c * b) b = Ok (Binary64.of_Z c).
Proof.
  intros Hb Hc. unfold Binary64.truediv, Binary64.of_Z.
  destruct (Z.eqb_spec b 0) as [|_]; [contradiction|].
  destruct (Z.eqb_spec (c * b) 0) as [E0|Hne].
  { apply Z.mul_eq_0 in E0 as [->|]; [reflexivity|contradiction]. }
  assert (Hc0 : c <> 0) by (intros ->; apply Hne; reflexivity).
  set (n := Z.abs (c * b)). set (d := Z.abs b).
  assert (Hd : 0 < d) by (unfold d; lia).
  assert (Hn : n = Z.abs c * d) by (unfold n, d; apply Z.abs_mul).
  assert (Hac : 1 <= Z.abs c) by lia.
  set (k := Z.log2 n - Z.log2 d).
  assert (Hk0 : 0 <= k).
  { unfold k. assert (Z.log2 d <= Z.log2 n); [|lia].
    apply Z.log2_le_mono. rewrite Hn. nia. }
  assert (Hk53 : k <= 53).
  { unfold k. rewrite Hn.
    pose proof (Z.log2_mul_above (Z.abs c) d ltac:(lia) ltac:(lia)) as Hm.
    assert (Z.log2 (Z.abs c) < 53); [|lia].
    apply Z.log2_lt_pow2; lia. }
  set (fl := if d * 2 ^ Z.max 0 k <=? n * 2 ^ Z.max 0 (- k) then k else k - 1).
  assert (Hfl : 0 <= fl <= 52).
  { unfold fl. rewrite (Z.max_r 0 k), (Z.max_l 0 (- k)) by lia.
    rewrite Z.pow_0_r, Z.mul_1_r.
    destruct (Z.leb_spec (d * 2 ^ k) n) as [Hle|Hgt].
    - split; [exact Hk0|].
      assert (2 ^ k < 2 ^ 53); [|apply Z.pow_lt_mono_r_iff in H; lia].
      rewrite Hn in Hle. nia.
    - split; [|lia].
      destruct (Z.eq_dec k 0) as [E|]; [|lia].
      rewrite E, Z.pow_0_r in Hgt. rewrite Hn in Hgt. nia. }
  set (u := Z.max (fl - 52) (-1074)).
  assert (Hu : -1074 <= u <= 0 /\ - u <= 52) by (unfold u; lia).
  rewrite (Z.max_l 0 u), (Z.max_r 0 (- u)) by lia.
  rewrite Z.pow_0_r, !Z.mul_1_r.
  assert (Hp : 0 < 2 ^ (- u)) by (apply Z.pow_pos_nonneg; lia).
  assert (Hq : n * 2 ^ (- u) / d = Z.abs c * 2 ^ (- u)).
  { rewrite Hn.
    replace (Z.abs c * d * 2 ^ (- u)) with (Z.abs c * 2 ^ (- u) * d) by ring.
    apply Z.div_mul. lia. }
  assert (Hr : (n * 2 ^ (- u)) mod d = 0).
  { rewrite Hn.
    replace (Z.abs c * d * 2 ^ (- u)) with (Z.abs c * 2 ^ (- u) * d) by ring.
    apply Z.mod_mul. lia. }
  rewrite Hq, Hr. cbn [Z.mul].
  destruct (Z.ltb_spec 0 d) as [_|]; [|lia].
  assert (Hsmall : Z.abs c * 2 ^ (- u) < 2 ^ 1024).
  { assert (2 ^ (- u) <= 2 ^ 52) by (apply Z.pow_le_mono_r; lia).
    assert (Z.abs c * 2 ^ (- u) < 2 ^ 53 * 2 ^ 52) by nia.
    assert (2 ^ 53 * 2 ^ 52 < 2 ^ 1024); [|lia].
    rewrite <- Z.pow_add_r by lia. apply Z.pow_lt_mono_r; lia. }
  destruct (Z.leb_spec (2 ^ 1024) (Z.abs c * 2 ^ (- u))) as [|_]; [lia|].
  f_equal.
  replace (Z.sgn (c * b) * Z.sgn b * (Z.abs c * 2 ^ (- u)))
    with (c * 2 ^ (- u)).
  - replace u with (0 - Z.of_nat (Z.to_nat (- u))) at 2 by lia.
    replace (- u) with (Z.of_nat (Z.to_nat (- u))) at 1 by lia.
    apply make_shift.
  - rewrite Z.sgn_mul.
    replace (Z.sgn c * Z.sgn b * Z.sgn b * (Z.abs c * 2 ^ (- u)))
      with ((Z.sgn b * Z.sgn b) * (Z.sgn c * Z.abs c) * 2 ^ (- u)) by ring.
    replace (Z.sgn c * Z.abs c) with c by (destruct c; reflexivity).
    replace (Z.sgn b * Z.sgn b) with 1 by (destruct b; try contradiction; reflexivity).
    ring.
Qed.

(** A quotient is computed only for a divisor other than zero. *)
Lemma truediv_Ok_nonzero (a b : Z) (x : Binary64.t) :
  Binary64.truediv a b = Ok x -> b <> 0.
Proof.
  unfold Binary64.truediv. destruct (Z.eqb_spec b 0); [discriminate|trivial].
Qed.

End Binary64Exact.

(** ** Loops that multiply up and loops that fill a dictionary *)

Section Products.

Lemma fold_left_mul (l : list Z) (a : Z) : fold_left Z.mul l a = a * prod l.
Proof.
  unfold prod. revert a. induction l as [|x t IH]; intros a; cbn [fold_left].
  - ring.
  - rewrite IH, (IH (1 * x)). ring.
Qed.

Lemma prod_cons (x : Z) (l : list Z) : prod (x :: l) = x * prod l.
Proof. unfold prod at 1. cbn [fold_left]. rewrite fold_left_mul. ring. Qed.

Lemma prod_app (l1 l2 : list Z) : prod (l1 ++ l2) = prod l1 * prod l2.
Proof.
  induction l1 as [|x t IH]; cbn [app].
  - change (prod []) with 1. ring.
  - rewrite !prod_cons, IH. ring.
Qed.

Lemma prod_Permutation (l1 l2 : list Z) : Permutation l1 l2 -> prod l1 = prod l2.
Proof.
  induction 1 as [|x l l' _ IH|x y l|l l' l'' _ IH1 _ IH2].
  - reflexivity.
  - rewrite !prod_cons, IH. reflexivity.
  - rewrite !prod_cons. ring.
  - congruence.
Qed.

Lemma prod_filter_split {A : Type} (f : A -> Z) (p : A -> bool) (l : list A) :
  prod (map f l)
  = prod (map f (filter p l)) * prod (map f (filter (fun x => negb (p x)) l)).
Proof.
  induction l as [|x t IH]; [reflexivity|].
  cbn [map filter]. destruct (p x); cbn [negb map]; rewrite !prod_cons, IH; ring.
Qed.

Lemma prod_filter_ones {A : Type} (f : A -> Z) (l : list A) :
  prod (map f l) = prod (map f (filter (fun x => negb (f x =? 1)) l)).
Proof.
  induction l as [|x t IH]; [reflexivity|].
  cbn [map filter]. destruct (Z.eqb_spec (f x) 1) as [E|_]; cbn [negb map];
    rewrite !prod_cons, IH; [rewrite E; ring|reflexivity].
Qed.

End Products.

Section Loops.

Lemma map_res_ext_in {A B : Type} (f : A -> res B) (h : A -> B) (l : list A) :
  (forall x, In x l -> f x = Ok (h x)) -> map_res f l = Ok (map h l).
Proof.
  induction l as [|x t IH]; intros Hf; [reflexivity|].
  cbn [map_res map]. rewrite (Hf x (or_introl eq_refl)). cbn [Py.bind].
  rewrite IH; [reflexivity|]. intros y Hy. apply Hf. right. exact Hy.
Qed.

Lemma map_res_map {A B C : Type} (f : B -> res C) (g : A -> B) (l : list A) :
  map_res f (map g l) = map_res (fun x => f (g x)) l.
Proof.
  induction l as [|x t IH]; [reflexivity|].
  cbn [map map_res]. rewrite IH. reflexivity.
Qed.

Lemma map_res_Ok {A B : Type} (f : A -> res B) (l : list A) (ys : list B) :
  map_res f l = Ok ys ->
  length ys = length l
  /\ forall x, In x l -> exists y, f x = Ok y /\ In y ys.
Proof.
  revert ys. induction l as [|x t IH]; intros ys Hm.
  - injection Hm as <-. split; [reflexivity|intros x []].
  - cbn [map_res] in Hm.
    destruct (f x) as [y|e] eqn:Ex; cbn [Py.bind] in Hm; [|discriminate].
    destruct (map_res f t) as [ys'|e]; cbn [Py.bind] in Hm; [|discriminate].
    injection Hm as <-. destruct (IH ys' eq_refl) as [Hl Hall]. split.
    + cbn [length]. rewrite Hl. reflexivity.
    + intros z [<-|Hz]; [exists y; split; [exact Ex|left; reflexivity]|].
      destruct (Hall z Hz) as [w [Hw Hin]]. exists w. split; [exact Hw|].
      right. exact Hin.
Qed.

Lemma for_each_ext {A S : Type} (b b' : S -> A -> res S) (l : list A) :
  (forall s x, b s x = b' s x) ->
  forall s, for_each l s b = for_each l s b'.
Proof.
  intros Hb. induction l as [|x t IH]; intros s; [reflexivity|].
  cbn [for_each]. rewrite Hb. destruct (b' s x); cbn [Py.bind];
    [apply IH|reflexivity].
Qed.

(** [for x in l: acc *= f(x)] *)
Lemma for_each_mul {A : Type} (f : A -> res Z) (l : list A) (a : Z) :
  for_each l a (fun acc x => n <- f x ;; Ok (acc * n))
  = (ns <- map_res f l ;; Ok (a * prod ns)).
Proof.
  revert a. induction l as [|x t IH]; intros a; cbn [for_each map_res Py.bind].
  - unfold prod. cbn. f_equal. ring.
  - destruct (f x) as [n|e]; cbn [Py.bind]; [|reflexivity].
    rewrite IH. destruct (map_res f t) as [ns|e]; cbn [Py.bind]; [|reflexivity].
    rewrite prod_cons. f_equal. ring.
Qed.

Context {K : Type} `{PyEq K}.

Lemma set_set {V : Type} (d : Dict.t K V) (k : K) (v w : V) :
  Dict.set (Dict.set d k v) k w = Dict.set d k w.
Proof.
  induction d as [|[k' v'] d IH]; cbn [Dict.set].
  - rewrite py_eqb_refl. reflexivity.
  - destruct (py_eqb k' k) eqn:E; cbn [Dict.set]; rewrite E;
      [reflexivity|f_equal; exact IH].
Qed.

Lemma set_get_id {V : Type} (d : Dict.t K V) (k : K) (v : V) :
  Dict.get d k = Some v -> Dict.set d k v = d.
Proof.
  induction d as [|[k' v'] d IH]; cbn [Dict.get Dict.set]; [discriminate|].
  destruct (py_eqb_spec k' k) as [->|Hne].
  - intros [= ->]. reflexivity.
  - intros Hg. f_equal. exact (IH Hg).
Qed.

(** [for x in l: d[k] *= f(x)] *)
Lemma for_each_imul {A : Type} (f : A -> res Z) (k : K)
    (body : Dict.t K Z -> A -> res (Dict.t K Z)) :
  (forall d c x, Dict.get d k = Some c ->
                 body d x = (n <- f x ;; Ok (Dict.set d k (c * n)))) ->
  forall (l : list A) (d : Dict.t K Z) (c : Z),
    Dict.get d k = Some c ->
    for_each l d body = (ns <- map_res f l ;; Ok (Dict.set d k (c * prod ns))).
Proof.
  intros Hbody. induction l as [|x t IH]; intros d c Hc;
    cbn [for_each map_res Py.bind].
  - replace (c * prod []) with c by (unfold prod; cbn; ring).
    rewrite set_get_id by exact Hc. reflexivity.
  - rewrite (Hbody d c x Hc). destruct (f x) as [n|e]; cbn [Py.bind];
      [|reflexivity].
    rewrite (IH (Dict.set d k (c * n)) (c * n) (get_set_same d k (c * n))).
    destruct (map_res f t) as [ns|e]; cbn [Py.bind]; [|reflexivity].
    rewrite set_set, prod_cons. do 2 f_equal. ring.
Qed.

Lemma for_each_imul_direct {A : Type} (f : A -> res Z) (k : K)
    (l : list A) (d : Dict.t K Z) (c : Z) :
  Dict.get d k = Some c ->
  for_each l d (fun d x => imul d k (f x))
  = (ns <- map_res f l ;; Ok (Dict.set d k (c * prod ns))).
Proof.
  apply (for_each_imul f k (fun d x => imul d k (f x))).
  intros d' c' x Hc. unfold imul, Dict.getitem. rewrite Hc. reflexivity.
Qed.

Lemma for_each_imul_after {A : Type} (f : A -> res Z) (k : K)
    (l : list A) (d : Dict.t K Z) (c : Z) :
  Dict.get d k = Some c ->
  for_each l d (fun d x => n <- f x ;; imul d k (Ok n))
  = (ns <- map_res f l ;; Ok (Dict.set d k (c * prod ns))).
Proof.
  apply (for_each_imul f k (fun d x => n <- f x ;; imul d k (Ok n))).
  intros d' c' x Hc. unfold imul, Dict.getitem. rewrite Hc. reflexivity.
Qed.

(** [for x in l: d[key(x)] = g(x)] on items with pairwise different keys
    that [d] does not hold. *)
Lemma for_each_fill {A W : Type} (key : A -> K) (g : A -> res W)
    (body : Dict.t K W -> A -> res (Dict.t K W)) :
  (forall acc x, body acc x = (w <- g x ;; Ok (Dict.set acc (key x) w))) ->
  forall (l : list A) (acc : Dict.t K W),
    NoDup (map key l) ->
    (forall x, In x l -> ~ In (key x) (Dict.keys acc)) ->
    for_each l acc body
    = (ws <- map_res g l ;; Ok (acc ++ combine (map key l) ws)).
Proof.
  intros Hbody. induction l as [|x t IH]; intros acc Hnd Hfresh;
    cbn [for_each map_res map Py.bind].
  - cbn [combine]. rewrite app_nil_r. reflexivity.
  - rewrite Hbody. destruct (g x) as [w|e]; cbn [Py.bind]; [|reflexivity].
    apply NoDup_cons_iff in Hnd as [Hx Hnd].
    rewrite set_fresh by (apply Hfresh; left; reflexivity).
    rewrite IH; [|exact Hnd|].
    + destruct (map_res g t) as [ws|e]; cbn [Py.bind]; [|reflexivity].
      cbn [combine]. rewrite <- app_assoc. reflexivity.
    + intros y Hy. unfold Dict.keys. rewrite map_app. intros Hin.
      apply in_app_or in Hin as [Hin|[E|[]]].
      * exact (Hfresh y (or_intror Hy) Hin).
      * cbn in E. apply Hx. rewrite E. apply in_map. exact Hy.
Qed.

Lemma for_each_fill_empty {A W : Type} (key : A -> K) (g : A -> res W)
    (body : Dict.t K W -> A -> res (Dict.t K W)) (l : list A) :
  (forall acc x, body acc x = (w <- g x ;; Ok (Dict.set acc (key x) w))) ->
  NoDup (map key l) ->
  for_each l Dict.empty body
  = (ws <- map_res g l ;; Ok (combine (map key l) ws)).
Proof.
  intros Hbody Hnd.
  exact (for_each_fill key g body Hbody l [] Hnd (fun x _ H => H)).
Qed.

Lemma map_res_length {A B : Type} (f : A -> res B) (l : list A) (ys : list B) :
  map_res f l = Ok ys -> length ys = length l.
Proof. intros Hm. exact (proj1 (map_res_Ok f l ys Hm)). Qed.

Lemma keys_combine {W : Type} (ks : list K) (ws : list W) :
  length ws = length ks -> Dict.keys (combine ks ws) = ks.
Proof.
  revert ws. induction ks as [|k t IH]; intros [|w ws] Hl; try discriminate Hl;
    [reflexivity|].
  cbn [combine Dict.keys map fst]. f_equal. apply IH.
  cbn [length] in Hl. lia.
Qed.

Lemma values_combine {W : Type} (ks : list K) (ws : list W) :
  length ws = length ks -> Dict.values (combine ks ws) = ws.
Proof.
  revert ws. induction ks as [|k t IH]; intros [|w ws] Hl; try discriminate Hl;
    [reflexivity|].
  cbn [combine Dict.values map snd]. f_equal. apply IH.
  cbn [length] in Hl. lia.
Qed.

(** The entry of [combine (map key l) ws] for an item of [l], when [ws]
    holds the values of [g] on [l]. *)
Lemma get_combine_map_res {A W : Type} (key : A -> K) (g : A -> res W)
    (l : list A) (ws : list W) :
  map_res g l = Ok ws ->
  NoDup (map key l) ->
  forall x, In x l ->
    exists w, g x = Ok w /\ Dict.get (combine (map key l) ws) (key x) = Some w.
Proof.
  revert ws. induction l as [|y t IH]; intros ws Hm Hnd x Hin; [destruct Hin|].
  cbn [map_res] in Hm.
  destruct (g y) as [w|e] eqn:Ey; cbn [Py.bind] in Hm; [|discriminate].
  destruct (map_res g t) as [ws'|e] eqn:Et; cbn [Py.bind] in Hm; [|discriminate].
  injection Hm as <-. cbn [map combine Dict.get].
  cbn [map] in Hnd. apply NoDup_cons_iff in Hnd as [Hy Hnd].
  destruct Hin as [<-|Hin].
  - exists w. split; [exact Ey|]. rewrite py_eqb_refl. reflexivity.
  - destruct (py_eqb_spec (key y) (key x)) as [E|_].
    + exfalso. apply Hy. rewrite E. apply in_map. exact Hin.
    + exact (IH ws' eq_refl Hnd x Hin).
Qed.

End Loops.

(** ** [extract_layer_info]: what it computes *)

Lemma total_MAC_count_loop (sizes : LayerDimSizes) :
  Dict.wf sizes ->
  for_each (Dict.keys sizes) 1
    (fun total_MAC_count ky =>
       n <- Dict.getitem sizes ky ;; Ok (total_MAC_count * n))
  = Ok (prod (Dict.values sizes)).
Proof.
  intros Hwf. rewrite for_each_mul. unfold Dict.keys. rewrite map_res_map.
  rewrite (map_res_ext_in _ snd).
  - cbn [Py.bind]. f_equal. unfold Dict.values. ring.
  - intros [k v] Hin. cbn [fst snd]. unfold Dict.getitem.
    rewrite (In_get sizes k v Hwf Hin). reflexivity.
Qed.

Lemma operand_size_loop (self : LayerNode) (acc : Dict.t OperandStr Z)
    (operand : OperandStr) (relevancy : RelevancyDims) :
  (let operand_size_elem := Dict.set acc operand 1 in
   operand_size_elem <-
     for_each (R relevancy) operand_size_elem
       (fun operand_size_elem r_loop =>
          imul operand_size_elem operand
               (Dict.getitem (loop_dim_size self) r_loop)) ;;
   for_each (Dict.items (PR relevancy)) operand_size_elem
     (fun operand_size_elem '(pr_loop, pr_loop_collect) =>
        multiply_factor <-
          (dims <- calc_tensor_dims self operand (loop_dim_size self) ;;
           Dict.getitem dims pr_loop) ;;
        imul operand_size_elem operand (Ok multiply_factor)))
  = (w <- operand_size self operand relevancy ;; Ok (Dict.set acc operand w)).
Proof.
  cbv zeta. unfold operand_size.
  rewrite (for_each_imul_direct (Dict.getitem (loop_dim_size self)) operand
             (R relevancy) (Dict.set acc operand 1) 1
             (get_set_same acc operand 1)).
  destruct (map_res (Dict.getitem (loop_dim_size self)) (R relevancy))
    as [rs|e]; cbn [Py.bind]; [|reflexivity].
  pose proof (for_each_imul_after
                (fun '(pr_loop, _) =>
                   dims <- calc_tensor_dims self operand (loop_dim_size self) ;;
                   Dict.getitem dims pr_loop)
                operand (Dict.items (PR relevancy))
                (Dict.set (Dict.set acc operand 1) operand (1 * prod rs))
                (1 * prod rs) (get_set_same _ operand _)) as Hloop.
  match type of Hloop with
  | for_each ?l _ ?b' = _ =>
      rewrite (for_each_ext _ b' l);
        [rewrite Hloop|intros s [pr gens]; reflexivity]
  end.
  match goal with
  | |- Py.bind ?m _ = _ => destruct m as [ps|e]
  end; cbn [Py.bind]; [|reflexivity].
  rewrite !set_set, prod_app. do 2 f_equal. ring.
Qed.

Lemma extract_layer_info_spec (self : LayerNode)
    (operand_precision : Dict.t OperandStr Z) (info : LayerInfo) :
  Dict.wf (loop_dim_size self) ->
  Dict.wf (operand_loop_dim self) ->
  extract_layer_info self operand_precision = Ok info ->
  total_MAC_count info = prod (Dict.values (loop_dim_size self))
  /\ exists elems bits reuses,
       map_res (fun '(operand, relevancy) => operand_size self operand relevancy)
               (Dict.items (operand_loop_dim self)) = Ok elems
       /\ operand_size_elem info = combine (Dict.keys (operand_loop_dim self)) elems
       /\ map_res (fun '(operand, size_in_elem) =>
                     precision <- Dict.getitem operand_precision operand ;;
                     Ok (size_in_elem * precision))
                  (operand_size_elem info) = Ok bits
       /\ operand_size_bit info = combine (Dict.keys (operand_loop_dim self)) bits
       /\ map_res (fun '(operand, size_in_elem) =>
                     Binary64.truediv (total_MAC_count info) size_in_elem)
                  (operand_size_elem info) = Ok reuses
       /\ operand_data_reuse info
          = combine (Dict.keys (operand_loop_dim self)) reuses.
Proof.
  intros Hwf Hwfo Hrun. unfold extract_layer_info in Hrun.
  rewrite (total_MAC_count_loop _ Hwf) in Hrun. cbn [Py.bind] in Hrun.
  rewrite (for_each_fill_empty fst
             (fun '(operand, relevancy) => operand_size self operand relevancy))
    in Hrun;
    [|intros acc [operand relevancy]; apply operand_size_loop|exact Hwfo].
  destruct (map_res
              (fun '(operand, relevancy) => operand_size self operand relevancy)
              (Dict.items (operand_loop_dim self))) as [elems|e] eqn:Ee;
    cbn [Py.bind] in Hrun; [|discriminate].
  change (map fst (Dict.items (operand_loop_dim self)))
    with (Dict.keys (operand_loop_dim self)) in Hrun.
  set (E := combine (Dict.keys (operand_loop_dim self)) elems) in *.
  assert (HkE : Dict.keys E = Dict.keys (operand_loop_dim self)).
  { apply keys_combine. rewrite (map_res_length _ _ _ Ee).
    unfold Dict.keys, Dict.items. rewrite length_map. reflexivity. }
  rewrite (for_each_fill_empty fst
             (fun '(operand, size_in_elem) =>
                precision <- Dict.getitem operand_precision operand ;;
                Ok (size_in_elem * precision))) in Hrun;
    [|intros acc [operand n]; cbn [fst];
      destruct (Dict.getitem operand_precision operand); reflexivity
     |change (NoDup (Dict.keys E)); rewrite HkE; exact Hwfo].
  destruct (map_res
              (fun '(operand, size_in_elem) =>
                 precision <- Dict.getitem operand_precision operand ;;
                 Ok (size_in_elem * precision))
              (Dict.items E)) as [bits|e] eqn:Eb;
    cbn [Py.bind] in Hrun; [|discriminate].
  rewrite (for_each_fill_empty fst
             (fun '(operand, size_in_elem) =>
                Binary64.truediv (prod (Dict.values (loop_dim_size self)))
                                 size_in_elem)) in Hrun;
    [|intros acc [operand n]; reflexivity
     |change (NoDup (Dict.keys E)); rewrite HkE; exact Hwfo].
  destruct (map_res
              (fun '(operand, size_in_elem) =>
                 Binary64.truediv (prod (Dict.values (loop_dim_size self)))
                                  size_in_elem)
              (Dict.items E)) as [reuses|e] eqn:Er;
    cbn [Py.bind] in Hrun; [|discriminate].
  injection Hrun as <-. cbn [total_MAC_count operand_size_elem operand_size_bit
                             operand_data_reuse].
  split; [reflexivity|]. exists elems, bits, reuses.
  change (map fst (Dict.items E)) with (Dict.keys E). rewrite HkE.
  repeat split; assumption.
Qed.

Lemma extract_layer_info_entry (self : LayerNode)
    (operand_precision : Dict.t OperandStr Z) (info : LayerInfo)
    (operand : OperandStr) (relevancy : RelevancyDims) :
  Dict.wf (loop_dim_size self) ->
  Dict.wf (operand_loop_dim self) ->
  extract_layer_info self operand_precision = Ok info ->
  Dict.get (operand_loop_dim self) operand = Some relevancy ->
  exists n p f,
    operand_size self operand relevancy = Ok n
    /\ Dict.get (operand_size_elem info) operand = Some n
    /\ Dict.get operand_precision operand = Some p
    /\ Dict.get (operand_size_bit info) operand = Some (n * p)
    /\ Binary64.truediv (total_MAC_count info) n = Ok f
    /\ Dict.get (operand_data_reuse info) operand = Some f.
Proof.
  intros Hwf Hwfo Hrun Hget.
  destruct (extract_layer_info_spec _ _ _ Hwf Hwfo Hrun)
    as [_ [elems [bits [reuses [He [HE [Hb [HB [Hr HR]]]]]]]]].
  destruct (get_combine_map_res fst _ _ _ He Hwfo (operand, relevancy)
              (get_In _ _ _ Hget)) as [n [Hn Hgn]].
  cbn [fst] in Hgn.
  change (map fst (Dict.items (operand_loop_dim self)))
    with (Dict.keys (operand_loop_dim self)) in Hgn.
  rewrite <- HE in Hgn.
  assert (HwfE : NoDup (map fst (operand_size_elem info))).
  { change (NoDup (Dict.keys (operand_size_elem info))). rewrite HE.
    rewrite keys_combine; [exact Hwfo|].
    rewrite (map_res_length _ _ _ He). unfold Dict.keys, Dict.items.
    rewrite length_map. reflexivity. }
  assert (HkE : map fst (operand_size_elem info)
                = Dict.keys (operand_loop_dim self)).
  { change (Dict.keys (operand_size_elem info)
            = Dict.keys (operand_loop_dim self)). rewrite HE.
    apply keys_combine. rewrite (map_res_length _ _ _ He).
    unfold Dict.keys, Dict.items. rewrite length_map. reflexivity. }
  destruct (get_combine_map_res fst _ _ _ Hb HwfE (operand, n)
              (get_In _ _ _ Hgn)) as [b [Hbv Hgb]].
  destruct (get_combine_map_res fst _ _ _ Hr HwfE (operand, n)
              (get_In _ _ _ Hgn)) as [f [Hfv Hgf]].
  cbn [fst] in Hgb, Hgf. rewrite HkE, <- HB in Hgb. rewrite HkE, <- HR in Hgf.
  unfold Dict.getitem in Hbv.
  destruct (Dict.get operand_precision operand) as [p|] eqn:Ep;
    cbn [Py.bind] in Hbv; [|discriminate].
  injection Hbv as <-.
  exists n, p, f. repeat split; assumption.
Qed.

Lemma LayerNode_init_info_parts {max_str_digits : nat}
    (layer_id : Z) (attrs : LayerAttrs)
    (operand_precision : Dict.t OperandStr Z) (node_name : string)
    (node : LayerNode) (variable : list OperandStr) (info : LayerInfo) :
  LayerNode_init_info max_str_digits layer_id attrs operand_precision node_name
  = Ok (node, variable, info) ->
  LayerNode_init max_str_digits layer_id attrs node_name = Ok node
  /\ extract_layer_info node operand_precision = Ok info
  /\ variable = filter (fun op => negb (py_in op (constant_operands node)))
                       (input_operands node).
Proof.
  unfold LayerNode_init_info. intros Hrun.
  destruct (LayerNode_init max_str_digits layer_id attrs node_name) as [self|e];
    cbn [Py.bind] in Hrun; [|discriminate].
  destruct (extract_layer_info self operand_precision) as [i|e] eqn:Ei;
    cbn [Py.bind] in Hrun; [|discriminate].
  injection Hrun as <- <- <-. repeat split. exact Ei.
Qed.

(** The size of a dimension in a table of sizes, 1 for a dimension the
    table does not hold. *)
Lemma values_map_get (sizes : LayerDimSizes) :
  Dict.wf sizes ->
  Dict.values sizes
  = map (fun d => match Dict.get sizes d with Some n => n | None => 1 end)
        (Dict.keys sizes).
Proof.
  intros Hwf. unfold Dict.values, Dict.keys. rewrite map_map.
  apply map_ext_in. intros [k v] Hin. cbn [fst snd].
  rewrite (In_get sizes k v Hwf Hin). reflexivity.
Qed.

Lemma size_is_not_1_test (sizes : LayerDimSizes) (d : LayerDimStr) :
  match size_is_not_1 sizes d with Ok true => true | _ => false end
  = negb (match Dict.get sizes d with Some n => n | None => 1 end =? 1).
Proof.
  unfold size_is_not_1, Dict.getitem.
  destruct (Dict.get sizes d) as [n|]; cbn [Py.bind]; [|reflexivity].
  destruct (n =? 1); reflexivity.
Qed.

Lemma filter_comm {A : Type} (p q : A -> bool) (l : list A) :
  filter p (filter q l) = filter q (filter p l).
Proof.
  induction l as [|x t IH]; [reflexivity|].
  cbn [filter]. destruct (p x) eqn:Ep, (q x) eqn:Eq; cbn [filter];
    rewrite ?Ep, ?Eq, IH; reflexivity.
Qed.

(** The relevance lists of an operand without partially relevant
    dimensions split the loop dimensions of a size other than 1: the sizes
    of the Relevant and of the Irrelevant dimensions multiply up to the
    product of all sizes. *)
Lemma classify_product (sizes : LayerDimSizes) (prl : PrLoop) (prll term : LoopList)
    (dims : RelevancyDims) :
  let sz := fun d => match Dict.get sizes d with Some n => n | None => 1 end in
  Dict.wf sizes ->
  classify sizes prl prll term = Ok dims ->
  PR dims = [] ->
  NoDup (R dims) ->
  map_res (Dict.getitem sizes) (R dims) = Ok (map sz (R dims))
  /\ map_res (Dict.getitem sizes) (IR dims) = Ok (map sz (IR dims))
  /\ prod (map sz (R dims)) * prod (map sz (IR dims)) = prod (Dict.values sizes).
Proof.
  intros sz Hwf Hc Hpr Hnd. unfold classify in Hc.
  destruct (existsb (Dict.contains prl) term) eqn:Eflag.
  { destruct (filter_res _ _) as [ir|e]; cbn [Py.bind] in Hc; [|discriminate].
    injection Hc as <-. cbn [PR] in Hpr.
    exfalso. exact (contains_nonempty _ _ Eflag Hpr). }
  destruct (filter_res _ term) as [r|e] eqn:Er; cbn [Py.bind] in Hc;
    [|discriminate].
  destruct (filter_res _ (filter _ _)) as [ir|e] eqn:Eir;
    cbn [Py.bind] in Hc; [|discriminate].
  injection Hc as <-. cbn [R IR PR] in *. clear Hpr Eflag.
  destruct (filter_res_filter _ _ _ Er) as [-> _].
  destruct (filter_res_filter _ _ _ Eir) as [-> _].
  set (pR := fun x => match size_is_not_1 sizes x with
                      | Ok true => true
                      | _ => false
                      end) in *.
  assert (HpR : forall x, pR x = negb (sz x =? 1))
    by (intros x; apply size_is_not_1_test).
  assert (Hsome : forall x, pR x = true -> Dict.getitem sizes x = Ok (sz x)).
  { intros x Hx. unfold pR, size_is_not_1, Dict.getitem, sz in *.
    destruct (Dict.get sizes x); [reflexivity|discriminate]. }
  split; [|split].
  - apply map_res_ext_in. intros x Hx. apply filter_In in Hx as [_ Hx].
    exact (Hsome x Hx).
  - apply map_res_ext_in. intros x Hx. apply filter_In in Hx as [_ Hx].
    exact (Hsome x Hx).
  - rewrite (values_map_get sizes Hwf). fold sz.
    rewrite (prod_filter_ones sz (Dict.keys sizes)).
    rewrite (filter_ext (fun x => negb (sz x =? 1)) pR)
      by (intros x; symmetry; apply HpR).
    rewrite (prod_filter_split sz (fun d => py_in d term)
               (filter pR (Dict.keys sizes))).
    cbv beta.
    rewrite (filter_comm pR (fun d => negb (py_in d term)) (Dict.keys sizes)).
    f_equal.
    apply prod_Permutation, Permutation_map, NoDup_Permutation.
    + exact Hnd.
    + apply NoDup_filter, NoDup_filter. exact Hwf.
    + intros x. rewrite !filter_In. split.
      * intros [Ht Hx]. split; [split; [|exact Hx]|apply py_in_In; exact Ht].
        pose proof (Hsome x Hx) as Hg. unfold Dict.getitem in Hg.
        destruct (Dict.get sizes x) as [n|] eqn:E; [|discriminate].
        apply get_In in E. exact (in_map fst _ _ E).
      * intros [[_ Hx] Ht]. split; [apply py_in_In; exact Ht|exact Hx].
Qed.

(** For an operand without partially relevant dimensions whose term names
    no dimension twice, the size in elements times the sizes of its
    irrelevant dimensions is the MAC count of the layer, and the data reuse
    factor that [__init__] stores, [total_MAC_count / size_in_elem], is the
    float of the product of the sizes of the irrelevant dimensions (for a
    product of at most 53 bits).  [loop_dim_size] is a dictionary: it holds
    no dimension twice. *)
Theorem operand_data_reuse_is_irrelevant_product {max_str_digits : nat}
    (layer_id : Z)
    (attrs : LayerAttrs) (operand_precision : Dict.t OperandStr Z)
    (node_name : string) (node : LayerNode) (variable : list OperandStr)
    (info : LayerInfo) (operand : OperandStr) (dims : RelevancyDims) :
  LayerNode_init_info max_str_digits layer_id attrs operand_precision node_name
  = Ok (node, variable, info) ->
  Dict.wf (loop_dim_size node) ->
  Dict.get (operand_loop_dim node) operand = Some dims ->
  PR dims = [] ->
  NoDup (R dims) ->
  exists size_in_elem ir_sizes,
    Dict.get (operand_size_elem info) operand = Some size_in_elem
    /\ map_res (Dict.getitem (loop_dim_size node)) (IR dims) = Ok ir_sizes
    /\ size_in_elem * prod ir_sizes = total_MAC_count info
    /\ (Z.abs (prod ir_sizes) < 2 ^ 53 ->
        Dict.get (operand_data_reuse info) operand
        = Some (Binary64.of_Z (prod ir_sizes))).
Proof.
  intros Hinit Hwf Hget Hpr Hnd.
  destruct (LayerNode_init_info_parts _ _ _ _ _ _ _ Hinit) as [Hnode [Hinfo _]].
  destruct (LayerNode_init_pr_funcs _ _ _ _ Hnode) as [prll [_ [Hext _]]].
  destruct (extract_r_ir_loop_info_entries _ _ _ _ _ _ _ _ Hext) as [Hwfo Hent].
  destruct (Hent operand dims Hget) as [term [_ Hc]].
  destruct (classify_product _ _ _ _ _ Hwf Hc Hpr Hnd) as [Hr [Hir Hprod]].
  destruct (extract_layer_info_entry _ _ _ _ _ Hwf Hwfo Hinfo Hget)
    as [n [p [f [Hn [Hgn [_ [_ [Hdiv Hgf]]]]]]]].
  unfold operand_size in Hn. rewrite Hr, Hpr in Hn.
  cbn [Py.bind Dict.items map_res] in Hn. rewrite app_nil_r in Hn.
  injection Hn as <-.
  destruct (extract_layer_info_spec _ _ _ Hwf Hwfo Hinfo) as [Htotal _].
  eexists. eexists. split; [exact Hgn|]. split; [exact Hir|].
  split; [rewrite Htotal; exact Hprod|].
  intros Hsmall. rewrite Hgf. f_equal.
  pose proof (truediv_Ok_nonzero _ _ _ Hdiv) as Hnz.
  rewrite Htotal, <- Hprod, Z.mul_comm in Hdiv.
  rewrite (truediv_exact_quotient _ _ Hnz Hsmall) in Hdiv.
  injection Hdiv as <-. reflexivity.
Qed.

(** ** [calc_tensor_dims] and [calc_tensor_size] *)

Lemma map_res_app {A B : Type} (f : A -> res B) (l1 l2 : list A) :
  map_res f (l1 ++ l2)
  = (a <- map_res f l1 ;; b <- map_res f l2 ;; Ok (a ++ b)).
Proof.
  induction l1 as [|x t IH]; cbn [app map_res Py.bind].
  - destruct (map_res f l2); reflexivity.
  - destruct (f x) as [y|e]; cbn [Py.bind]; [|reflexivity].
    rewrite IH. destruct (map_res f t) as [ys|e]; cbn [Py.bind]; [|reflexivity].
    destruct (map_res f l2); reflexivity.
Qed.

Lemma map_res_ext_in_res {A B : Type} (f g : A -> res B) (l : list A) :
  (forall x, In x l -> f x = g x) -> map_res f l = map_res g l.
Proof.
  induction l as [|x t IH]; intros Hf; [reflexivity|].
  cbn [map_res]. rewrite (Hf x (or_introl eq_refl)), IH; [reflexivity|].
  intros y Hy. apply Hf. right. exact Hy.
Qed.

Lemma NoDup_app_disjoint {A : Type} (l1 l2 : list A) (x : A) :
  NoDup (l1 ++ l2) -> In x l1 -> In x l2 -> False.
Proof.
  induction l1 as [|y t IH]; intros Hnd H1 H2; [destruct H1|].
  cbn [app] in Hnd. apply NoDup_cons_iff in Hnd as [Hy Hnd].
  destruct H1 as [->|H1]; [|exact (IH Hnd H1 H2)].
  apply Hy. apply in_or_app. right. exact H2.
Qed.

Lemma get_combine_app {K W : Type} `{PyEq K} (l1 l2 : list K) (w1 w2 : list W)
    (x : K) :
  length w1 = length l1 -> ~ In x l1 ->
  Dict.get (combine (l1 ++ l2) (w1 ++ w2)) x = Dict.get (combine l2 w2) x.
Proof.
  revert w1. induction l1 as [|k t IH]; intros [|w ws] Hl Hx;
    try discriminate Hl; [reflexivity|].
  cbn [app combine Dict.get].
  destruct (py_eqb_spec k x) as [E|_].
  - exfalso. apply Hx. left. exact E.
  - apply IH; [cbn [length] in Hl; lia|].
    intros Hin. apply Hx. right. exact Hin.
Qed.

Lemma map_res_getitem_combine {K W : Type} `{PyEq K} (ks : list K) (ws : list W) :
  NoDup ks -> length ws = length ks ->
  map_res (Dict.getitem (combine ks ws)) ks = Ok ws.
Proof.
  revert ws. induction ks as [|k t IH]; intros [|w ws] Hnd Hl;
    try discriminate Hl; [reflexivity|].
  apply NoDup_cons_iff in Hnd as [Hk Hnd].
  cbn [map_res combine]. unfold Dict.getitem at 1. cbn [Dict.get].
  rewrite py_eqb_refl. cbn [Py.bind].
  rewrite (map_res_ext_in_res _ (Dict.getitem (combine t ws))).
  - rewrite IH; [reflexivity|exact Hnd|cbn [length] in Hl; lia].
  - intros x Hx. unfold Dict.getitem. cbn [Dict.get].
    destruct (py_eqb_spec k x) as [E|_]; [|reflexivity].
    exfalso. apply Hk. rewrite E. exact Hx.
Qed.

(** [calc_tensor_dims] on an operand whose relevant and partially relevant
    dimensions are pairwise different: one entry per dimension, in order. *)
Lemma calc_tensor_dims_fill (self : LayerNode) (layer_op : OperandStr)
    (loop_sizes : LayerDimSizes) (dims : RelevancyDims) :
  Dict.get (operand_loop_dim self) layer_op = Some dims ->
  NoDup (R dims ++ Dict.keys (PR dims)) ->
  calc_tensor_dims self layer_op loop_sizes
  = (ws <- map_res (calc_tensor_dim self loop_sizes)
                   (R dims ++ Dict.keys (PR dims)) ;;
     Ok (combine (R dims ++ Dict.keys (PR dims)) ws)).
Proof.
  intros Hget Hnd. unfold calc_tensor_dims, Dict.getitem at 1. rewrite Hget.
  cbn [Py.bind].
  rewrite (for_each_fill_empty (fun d => d) (calc_tensor_dim self loop_sizes));
    [|intros acc x; reflexivity|rewrite map_id; exact Hnd].
  rewrite map_id. reflexivity.
Qed.

(** The relevant and the partially relevant dimensions of an operand are
    pairwise different when its term names no relevant dimension twice. *)
Lemma classify_NoDup {max_str_digits : nat}
    (relations : list string) (sizes : LayerDimSizes)
    (prl : PrLoop) (prll term : LoopList) (psf : PrScalingFactors)
    (dims : RelevancyDims) :
  build_pr_funcs max_str_digits relations = Ok (prl, prll, psf) ->
  classify sizes prl prll term = Ok dims ->
  NoDup (R dims) ->
  NoDup (R dims ++ Dict.keys (PR dims)).
Proof.
  intros Hb Hc Hnd. unfold classify in Hc.
  destruct (existsb (Dict.contains prl) term) eqn:Eflag.
  - destruct (filter_res _ _) as [ir|e]; cbn [Py.bind] in Hc; [|discriminate].
    injection Hc as <-. cbn [R PR] in *.
    destruct (build_pr_funcs_shape _ _ _ _ Hb) as [_ [Hwf _]].
    apply NoDup_app; [exact Hnd|exact Hwf|].
    intros x Hx Hk. apply filter_In in Hx as [_ Hx].
    apply negb_true_iff in Hx. apply (py_in_false _ _ Hx).
    apply in_map_iff in Hk as [[key gens] [E Hin]]. cbn [fst] in E. subst key.
    unfold build_pr_funcs in Hb. destruct (0 <? length relations)%nat.
    + exact (proj1 (extract_pr_loop_info_lists _ _ _ _ Hb x gens Hin)).
    + injection Hb as <- _ _. destruct Hin.
  - destruct (filter_res _ term) as [r|e]; cbn [Py.bind] in Hc; [|discriminate].
    destruct (filter_res _ (filter _ _)) as [ir|e]; cbn [Py.bind] in Hc;
      [|discriminate].
    injection Hc as <-. cbn [R PR] in *. rewrite app_nil_r. exact Hnd.
Qed.

(** [calc_tensor_size] at the sizes of the layer is the size in elements
    that [__init__] stored for the operand, when the operand's term names no
    relevant dimension twice. *)
Theorem calc_tensor_size_is_operand_size {max_str_digits : nat} (layer_id : Z)
    (attrs : LayerAttrs) (operand_precision : Dict.t OperandStr Z)
    (node_name : string) (node : LayerNode) (variable : list OperandStr)
    (info : LayerInfo) (operand : OperandStr) (dims : RelevancyDims) :
  LayerNode_init_info max_str_digits layer_id attrs operand_precision node_name
  = Ok (node, variable, info) ->
  Dict.wf (loop_dim_size node) ->
  Dict.get (operand_loop_dim node) operand = Some dims ->
  NoDup (R dims) ->
  exists size_in_elem,
    Dict.get (operand_size_elem info) operand = Some size_in_elem
    /\ calc_tensor_size node operand (loop_dim_size node) = Ok size_in_elem.
Proof.
  intros Hinit Hwf Hget Hnd.
  destruct (LayerNode_init_info_parts _ _ _ _ _ _ _ Hinit) as [Hnode [Hinfo _]].
  destruct (LayerNode_init_pr_funcs _ _ _ _ Hnode) as [prll [Hb [Hext _]]].
  destruct (extract_r_ir_loop_info_entries _ _ _ _ _ _ _ _ Hext) as [Hwfo Hent].
  destruct (Hent operand dims Hget) as [term [_ Hc]].
  pose proof (classify_NoDup _ _ _ _ _ _ _ Hb Hc Hnd) as Hnd2.
  destruct (extract_layer_info_entry _ _ _ _ _ Hwf Hwfo Hinfo Hget)
    as [n [p [f [Hn [Hgn _]]]]].
  exists n. split; [exact Hgn|].
  unfold calc_tensor_size. unfold operand_size in Hn.
  destruct (map_res (Dict.getitem (loop_dim_size node)) (R dims)) as [rs|e]
    eqn:Ers; cbn [Py.bind] in Hn; [|discriminate].
  assert (Hrs : map_res (calc_tensor_dim node (loop_dim_size node)) (R dims)
                = Ok rs).
  { rewrite <- Ers. apply map_res_ext_in_res. intros x Hx.
    destruct (proj2 (map_res_Ok _ _ _ Ers) x Hx) as [y [Hy _]].
    unfold calc_tensor_dim, Dict.contains. unfold Dict.getitem in Hy.
    destruct (Dict.get (loop_dim_size node) x); [reflexivity|discriminate]. }
  rewrite (calc_tensor_dims_fill _ _ _ _ Hget Hnd2), map_res_app, Hrs.
  cbn [Py.bind].
  rewrite (calc_tensor_dims_fill _ _ _ _ Hget Hnd2), map_res_app, Hrs in Hn.
  cbn [Py.bind] in Hn.
  destruct (map_res (calc_tensor_dim node (loop_dim_size node))
                    (Dict.keys (PR dims))) as [ws|e] eqn:Ews.
  - cbn [Py.bind] in *.
    assert (Hlen : length (rs ++ ws) = length (R dims ++ Dict.keys (PR dims))).
    { rewrite !length_app, (map_res_length _ _ _ Ers),
        (map_res_length _ _ _ Ews). reflexivity. }
    rewrite (values_combine _ _ Hlen). f_equal.
    assert (Hps : map_res
                    (fun '(pr_loop, _) =>
                       Dict.getitem
                         (combine (R dims ++ Dict.keys (PR dims)) (rs ++ ws))
                         pr_loop)
                    (Dict.items (PR dims)) = Ok ws).
    { rewrite <- (map_res_getitem_combine (Dict.keys (PR dims)) ws).
      - unfold Dict.keys at 3. rewrite map_res_map.
        apply map_res_ext_in_res. intros [pr gens] Hin. cbn [fst].
        unfold Dict.getitem. rewrite get_combine_app; [reflexivity| |].
        + exact (map_res_length _ _ _ Ers).
        + intros Hr. apply (NoDup_app_disjoint _ _ pr Hnd2 Hr).
          exact (in_map fst _ _ Hin).
      - exact (NoDup_app_remove_l _ _ Hnd2).
      - exact (map_res_length _ _ _ Ews). }
    rewrite Hps in Hn. cbn [Py.bind] in Hn. injection Hn as <-. reflexivity.
  - cbn [Py.bind] in *. exfalso.
    destruct (Dict.items (PR dims)) as [|[pr gens] rest] eqn:Eitems.
    + unfold Dict.keys in Ews. unfold Dict.items in Eitems. rewrite Eitems in Ews.
      discriminate Ews.
    + cbn [map_res Py.bind] in Hn. discriminate Hn.
Qed.

(** ** The tensor dimension of a partially relevant dimension *)

(** On a node constructed without [pr_loop_dim_size], [calc_tensor_dim] at
    the sizes of the layer gives, for a partially relevant dimension with a
    padding that is not negative, the size that [__init__] stored in
    [pr_loop_dim_size]: the overlap-aware size less the padding.  At any
    sizes the result does not exceed that stored size. *)
Theorem calc_tensor_dim_is_stored_size {max_str_digits : nat}
    (layer_id : Z) (attrs : LayerAttrs)
    (node_name : string) (node : LayerNode) (dim : LayerDimStr) :
  LayerNode_init max_str_digits layer_id attrs node_name = Ok node ->
  attr_pr_loop_dim_size attrs = None \/ attr_pr_loop_dim_size attrs = Some [] ->
  Dict.contains (pr_loop node) dim = true ->
  exists stored,
    pr_loop_dim_size_getitem node dim = Ok stored
    /\ calc_pr_dimension_size_total node dim = Ok stored
    /\ (Dict.contains (loop_dim_size node) dim = false ->
        0 <= total_padding node dim ->
        calc_tensor_dim node (loop_dim_size node) dim = Ok stored)
    /\ (forall loop_sizes n,
          Dict.contains loop_sizes dim = false ->
          calc_tensor_dim node loop_sizes dim = Ok n -> n <= stored).
Proof.
  intros Hinit Hnone Hc.
  destruct (LayerNode_init_pr_loop_dim_size _ _ _ _ Hinit Hnone)
    as [sizes [Hsizes Hall]].
  destruct (Hall dim (proj1 (contains_keys _ _) Hc)) as [stored [Htot Hget]].
  destruct (LayerNode_init_pr_funcs _ _ _ _ Hinit) as [prll [Hb _]].
  assert (Hst : pr_loop_dim_size_getitem node dim = Ok stored).
  { unfold pr_loop_dim_size_getitem, Dict.getitem. rewrite Hsizes, Hget.
    reflexivity. }
  exists stored. split; [exact Hst|]. split; [exact Htot|].
  destruct (calc_pr_dimension_size_total_cases node prll dim Hb)
    as [[Eg _]|[g1 [g2 [k1 [sa [k2 [sb [Eg [Ef Hcase]]]]]]]]].
  { unfold Dict.contains in Hc. rewrite Eg in Hc. discriminate Hc. }
  split.
  - intros Hl Hpad. rewrite (calc_tensor_dim_pr _ _ _ _ _ _ _ _ _ Hl Eg Ef).
    rewrite Hcase in Htot.
    destruct (Dict.getitem (loop_dim_size node) g1) as [A|e]; cbn [Py.bind] in *;
      [|discriminate].
    destruct (Dict.getitem (loop_dim_size node) g2) as [B|e]; cbn [Py.bind] in *;
      [|discriminate].
    destruct (calc_pr_dimension_size sa A sb B) as [v|e]; cbn [Py.bind] in *;
      [|discriminate].
    rewrite Hst. cbn [Py.bind]. injection Htot as <-. f_equal. lia.
  - intros loop_sizes n Hl Hn.
    rewrite (calc_tensor_dim_pr _ _ _ _ _ _ _ _ _ Hl Eg Ef) in Hn.
    destruct (Dict.getitem loop_sizes g1) as [A|e]; cbn [Py.bind] in Hn;
      [|discriminate].
    destruct (Dict.getitem loop_sizes g2) as [B|e]; cbn [Py.bind] in Hn;
      [|discriminate].
    destruct (calc_pr_dimension_size sa A sb B) as [v|e]; cbn [Py.bind] in Hn;
      [|discriminate].
    rewrite Hst in Hn. cbn [Py.bind] in Hn. injection Hn as <-. lia.
Qed.

(** ** [extract_layer_info]: sizes in bits, and no empty operand *)

(** When [extract_layer_info] returns, [total_MAC_count] is the product of
    the sizes of all loop dimensions, the three tables it fills have one
    entry for each operand of [operand_loop_dim], the size in bits of an
    operand is its size in elements times its precision, and no operand has
    a size of 0 elements ([total_MAC_count / size_in_elem] raised
    [ZeroDivisionError] otherwise). *)
Theorem extract_layer_info_sizes (self : LayerNode)
    (operand_precision : Dict.t OperandStr Z) (info : LayerInfo) :
  Dict.wf (loop_dim_size self) ->
  Dict.wf (operand_loop_dim self) ->
  extract_layer_info self operand_precision = Ok info ->
  total_MAC_count info = prod (Dict.values (loop_dim_size self))
  /\ Dict.keys (operand_size_elem info) = Dict.keys (operand_loop_dim self)
  /\ Dict.keys (operand_size_bit info) = Dict.keys (operand_loop_dim self)
  /\ Dict.keys (operand_data_reuse info) = Dict.keys (operand_loop_dim self)
  /\ forall operand size_in_elem,
       Dict.get (operand_size_elem info) operand = Some size_in_elem ->
       size_in_elem <> 0
       /\ exists precision,
            Dict.get operand_precision operand = Some precision
            /\ Dict.get (operand_size_bit info) operand
               = Some (size_in_elem * precision).
Proof.
  intros Hwf Hwfo Hrun.
  destruct (extract_layer_info_spec _ _ _ Hwf Hwfo Hrun)
    as [Htotal [elems [bits [reuses [He [HE [Hb [HB [Hr HR]]]]]]]]].
  assert (Hlen : length elems = length (Dict.keys (operand_loop_dim self))).
  { rewrite (map_res_length _ _ _ He). unfold Dict.keys, Dict.items.
    rewrite length_map. reflexivity. }
  assert (HkE : Dict.keys (operand_size_elem info)
                = Dict.keys (operand_loop_dim self))
    by (rewrite HE; apply keys_combine; exact Hlen).
  assert (HlenE : length (operand_size_elem info)
                  = length (Dict.keys (operand_loop_dim self))).
  { rewrite <- HkE. unfold Dict.keys. rewrite length_map. reflexivity. }
  split; [exact Htotal|]. split; [exact HkE|]. split; [|split].
  - rewrite HB. apply keys_combine. rewrite (map_res_length _ _ _ Hb).
    exact HlenE.
  - rewrite HR. apply keys_combine. rewrite (map_res_length _ _ _ Hr).
    exact HlenE.
  - intros operand n Hgn.
    destruct (Dict.get (operand_loop_dim self) operand) as [rel|] eqn:Eo.
    + destruct (extract_layer_info_entry _ _ _ _ _ Hwf Hwfo Hrun Eo)
        as [n' [p [f [_ [Hgn' [Hp [Hbit [Hdiv _]]]]]]]].
      rewrite Hgn in Hgn'. injection Hgn' as <-. split.
      * exact (truediv_Ok_nonzero _ _ _ Hdiv).
      * exists p. split; assumption.
    + exfalso. apply get_None_keys in Eo. apply Eo. rewrite <- HkE.
      apply get_In in Hgn. exact (in_map fst _ _ Hgn).
Qed.

(** ** [get_layer_operand] *)

(** [get_layer_operand] raises nothing but [ValueError], and raises it
    exactly for a memory operand that no layer operand is linked to.  When
    no two layer operands are linked to the same memory operand, it is the
    inverse of [memory_operand_links]. *)
Theorem get_layer_operand_inverse (self : LayerNode) (mem_op : MemOperandStr) :
  (get_layer_operand self mem_op = Raise ValueError
   <-> ~ In mem_op (Dict.values (memory_operand_links self)))
  /\ (forall layer_op,
        get_layer_operand self mem_op = Ok layer_op ->
        In (layer_op, mem_op) (Dict.items (memory_operand_links self)))
  /\ (Dict.wf (memory_operand_links self) ->
      NoDup (Dict.values (memory_operand_links self)) ->
      forall layer_op,
        get_layer_operand self mem_op = Ok layer_op
        <-> Dict.get (memory_operand_links self) layer_op = Some mem_op).
Proof.
  unfold get_layer_operand, Dict.items.
  generalize (memory_operand_links self). intros links.
  set (test := fun '(layer_operand, memory_operand) =>
                 String.eqb (memory_operand : string) mem_op).
  assert (Hfind : forall layer_op,
            match find test links with
            | Some (layer_operand, _) => Ok layer_operand
            | None => Raise ValueError
            end = Ok layer_op -> In (layer_op, mem_op) links).
  { intros layer_op Hf. destruct (find test links) as [[op m]|] eqn:E;
      [|discriminate].
    injection Hf as ->. apply find_some in E as [Hin Ht].
    unfold test in Ht. apply String.eqb_eq in Ht. subst m. exact Hin. }
  split; [|split].
  - split.
    + intros Hr Hin. destruct (find test links) as [[op m]|] eqn:E;
        [discriminate|].
      apply in_map_iff in Hin as [[op m] [Em Hin]]. cbn [snd] in Em. subst m.
      pose proof (find_none _ _ E _ Hin) as Ht. unfold test in Ht.
      rewrite String.eqb_refl in Ht. discriminate Ht.
    + intros Hn. destruct (find test links) as [[op m]|] eqn:E; [|reflexivity].
      exfalso. apply Hn. apply find_some in E as [Hin Ht].
      unfold test in Ht. apply String.eqb_eq in Ht. subst m.
      exact (in_map snd _ _ Hin).
  - exact Hfind.
  - intros Hwf Hnd layer_op. split.
    + intros Hf. exact (In_get _ _ _ Hwf (Hfind layer_op Hf)).
    + intros Hg. apply get_In in Hg.
      destruct (find test links) as [[op m]|] eqn:E.
      * f_equal. apply find_some in E as [Hin Ht].
        unfold test in Ht. apply String.eqb_eq in Ht. subst m.
        clear - Hnd Hin Hg. unfold Dict.values in Hnd.
        induction links as [|[k v] t IH]; [destruct Hin|].
        cbn [map snd] in Hnd. apply NoDup_cons_iff in Hnd as [Hv Hnd].
        destruct Hin as [E1|Hin], Hg as [E2|Hg].
        -- congruence.
        -- injection E1 as -> ->. exfalso. apply Hv.
           exact (in_map snd _ _ Hg).
        -- injection E2 as -> ->. exfalso. apply Hv.
           exact (in_map snd _ _ Hin).
        -- exact (IH Hin Hnd Hg).
      * exfalso. pose proof (find_none _ _ E _ Hg) as Ht. unfold test in Ht.
        rewrite String.eqb_refl in Ht. discriminate Ht.
Qed.

(** ** The theorems on layer information at the convolution layer *)

Lemma distinct_NoDup (l : list string) : distinct l = true -> NoDup l.
Proof.
  induction l as [|x t IH]; cbn [distinct]; intros Hd; [constructor|].
  apply andb_true_iff in Hd as [Hx Ht]. constructor; [|exact (IH Ht)].
  apply negb_true_iff in Hx. exact (py_in_false _ _ Hx).
Qed.

Lemma pr_dimension_assertions_hold_witness :
  exists node,
    LayerNode_init 4300 0 (conv_attrs 1 [] ["W"]) "conv" = Ok node
    /\ calc_pr_dimension_size_total node "IX" <> Raise AssertionError
    /\ calc_tensor_dim node [("OX", 2); ("FX", 3)] "IX" <> Raise AssertionError.
Proof.
  destruct (LayerNode_init 4300 0 (conv_attrs 1 [] ["W"]) "conv") as [node|e]
    eqn:Hinit; [|vm_compute in Hinit; discriminate Hinit].
  exists node. split; [reflexivity|].
  destruct (pr_dimension_assertions_hold 0 _ "conv" node "IX"
              [("OX", 2); ("FX", 3)] Hinit) as [_ [Ht Hd]].
  split; [exact Ht|]. apply Hd.
  vm_compute in Hinit. injection Hinit as <-. reflexivity.
Defined.

Lemma relevant_irrelevant_partition_witness :
  exists old reform ol order dims,
    extract_r_ir_loop_info
      "O[b][k][oy][ox]+=W[k][c][fy][fx]*I[b][c][iy][ix]"
      [("B", 1); ("K", 32); ("C", 64); ("OY", 28); ("OX", 4); ("FY", 3);
       ("FX", 3)]
      [("IX", ["OX"; "FX"]); ("IY", ["OY"; "FY"])]
      ["IX"; "OX"; "FX"; "IY"; "OY"; "FY"]
    = Ok (old, reform, ol, order)
    /\ Dict.get old "W" = Some dims
    /\ R dims = ["K"; "C"; "FY"; "FX"]
    /\ IR dims = ["OY"; "OX"]
    /\ (forall d, In d (IR dims) -> ~ In d (R dims))
    /\ NoDup (IR dims).
Proof.
  destruct (extract_r_ir_loop_info
              "O[b][k][oy][ox]+=W[k][c][fy][fx]*I[b][c][iy][ix]"
              [("B", 1); ("K", 32); ("C", 64); ("OY", 28); ("OX", 4);
               ("FY", 3); ("FX", 3)]
              [("IX", ["OX"; "FX"]); ("IY", ["OY"; "FY"])]
              ["IX"; "OX"; "FX"; "IY"; "OY"; "FY"])
    as [[[[old reform] ol] order]|e] eqn:Hrun;
    [|vm_compute in Hrun; discriminate Hrun].
  destruct (Dict.get old "W") as [dims|] eqn:Hget.
  - exists old, reform, ol, order, dims.
    split; [reflexivity|]. split; [exact Hget|].
    destruct (relevant_irrelevant_partition _ _ _ _ _ _ _ _ Hrun "W" dims Hget)
      as [Hir [Hnd _]].
    vm_compute in Hrun. injection Hrun as <- _ _ _.
    vm_compute in Hget. injection Hget as <-.
    split; [reflexivity|]. split; [reflexivity|]. split.
    + intros d Hd. exact (proj2 (Hir d Hd)).
    + apply Hnd. apply distinct_NoDup. reflexivity.
  - exfalso. vm_compute in Hrun. injection Hrun as <- _ _ _.
    vm_compute in Hget. discriminate Hget.
Defined.

Lemma operand_data_reuse_is_irrelevant_product_witness :
  exists node variable info,
    LayerNode_init_info 4300 0 (conv_attrs 1 [] ["W"]) conv_precision "conv"
    = Ok (node, variable, info)
    /\ total_MAC_count info = 2064384
    /\ Dict.get (operand_size_elem info) "W" = Some 18432
    /\ Dict.get (operand_data_reuse info) "W" = Some (Binary64.of_Z 112).
Proof.
  destruct (LayerNode_init_info 4300 0 (conv_attrs 1 [] ["W"]) conv_precision "conv")
    as [[[node variable] info]|e] eqn:Hinit;
    [|vm_compute in Hinit; discriminate Hinit].
  exists node, variable, info. split; [reflexivity|].
  pose proof Hinit as Hval. vm_compute in Hval. injection Hval as Hn Hv Hi.
  destruct (operand_data_reuse_is_irrelevant_product 0 _ _ _ node variable info
              "W" {| R := ["K"; "C"; "FY"; "FX"]; IR := ["OY"; "OX"]; PR := [] |}
              Hinit)
    as [n [irs [Hgn [Hir [Hprod Hreuse]]]]].
  - rewrite <- Hn. apply distinct_NoDup. reflexivity.
  - rewrite <- Hn. reflexivity.
  - reflexivity.
  - apply distinct_NoDup. reflexivity.
  - rewrite <- Hn in Hir. vm_compute in Hir. injection Hir as <-.
    rewrite <- Hi in Hgn. vm_compute in Hgn. injection Hgn as <-.
    split; [rewrite <- Hprod; reflexivity|].
    split; [rewrite <- Hi; reflexivity|].
    apply Hreuse. reflexivity.
Defined.

Lemma calc_tensor_size_is_operand_size_witness :
  exists node variable info,
    LayerNode_init_info 4300 0 (conv_attrs 1 [] ["W"]) conv_precision "conv"
    = Ok (node, variable, info)
    /\ Dict.get (operand_size_elem info) "I" = Some 11520
    /\ calc_tensor_size node "I" (loop_dim_size node) = Ok 11520.
Proof.
  destruct (LayerNode_init_info 4300 0 (conv_attrs 1 [] ["W"]) conv_precision "conv")
    as [[[node variable] info]|e] eqn:Hinit;
    [|vm_compute in Hinit; discriminate Hinit].
  exists node, variable, info. split; [reflexivity|].
  pose proof Hinit as Hval. vm_compute in Hval. injection Hval as Hn Hv Hi.
  destruct (calc_tensor_size_is_operand_size 0 _ _ _ node variable info
              "I" {| R := ["B"; "C"]; IR := ["K"];
                     PR := [("IX", ["OX"; "FX"]); ("IY", ["OY"; "FY"])] |}
              Hinit)
    as [n [Hgn Hsize]].
  - rewrite <- Hn. apply distinct_NoDup. reflexivity.
  - rewrite <- Hn. reflexivity.
  - apply distinct_NoDup. reflexivity.
  - rewrite Hsize. rewrite <- Hi in Hgn. vm_compute in Hgn.
    injection Hgn as <-. split; [rewrite <- Hi|]; reflexivity.
Defined.

Lemma calc_tensor_dim_is_stored_size_witness :
  exists node,
    LayerNode_init 4300 0 (conv_attrs 1 [("IX", (1, 1))] ["W"]) "conv" = Ok node
    /\ pr_loop_dim_size_getitem node "IX" = Ok 4
    /\ calc_tensor_dim node (loop_dim_size node) "IX" = Ok 4.
Proof.
  destruct (LayerNode_init 4300 0 (conv_attrs 1 [("IX", (1, 1))] ["W"]) "conv")
    as [node|e] eqn:Hinit; [|vm_compute in Hinit; discriminate Hinit].
  exists node. split; [reflexivity|].
  pose proof Hinit as Hval. vm_compute in Hval. injection Hval as Hn.
  destruct (calc_tensor_dim_is_stored_size 0 _ "conv" node "IX" Hinit
              (or_introl eq_refl))
    as [stored [Hst [_ [Hfull _]]]].
  - rewrite <- Hn. reflexivity.
  - assert (Es : stored = 4).
    { rewrite <- Hn in Hst. vm_compute in Hst. injection Hst as <-. reflexivity. }
    subst stored. split; [exact Hst|]. apply Hfull.
    + rewrite <- Hn. reflexivity.
    + rewrite <- Hn. vm_compute. discriminate.
Defined.

Lemma extract_layer_info_sizes_witness :
  exists info,
    extract_layer_info (node_of (conv_attrs 1 [] ["W"])) conv_precision = Ok info
    /\ total_MAC_count info = 2064384
    /\ Dict.get (operand_size_elem info) "O" = Some 3584
    /\ Dict.get (operand_size_bit info) "O" = Some 57344.
Proof.
  destruct (extract_layer_info (node_of (conv_attrs 1 [] ["W"])) conv_precision)
    as [info|e] eqn:Hrun; [|vm_compute in Hrun; discriminate Hrun].
  exists info. split; [reflexivity|].
  destruct (extract_layer_info_sizes (node_of (conv_attrs 1 [] ["W"]))
              conv_precision info
              ltac:(apply distinct_NoDup; reflexivity)
              ltac:(apply distinct_NoDup; reflexivity) Hrun)
    as [Htotal [_ [_ [_ Hall]]]].
  split; [rewrite Htotal; reflexivity|].
  assert (Hg : Dict.get (operand_size_elem info) "O" = Some 3584)
    by (vm_compute in Hrun; injection Hrun as <-; reflexivity).
  split; [exact Hg|].
  destruct (Hall "O" 3584 Hg) as [_ [p [Hp Hbit]]].
  vm_compute in Hp. injection Hp as <-. exact Hbit.
Defined.

Lemma get_layer_operand_inverse_witness :
  let self := node_of (conv_attrs 1 [] ["W"]) in
  get_layer_operand self "I2" = Ok "W"
  /\ get_layer_operand self "I3" = Raise ValueError.
Proof.
  intros self.
  destruct (get_layer_operand_inverse self "I2") as [_ [_ Hinv]].
  destruct (get_layer_operand_inverse self "I3") as [Hraise _].
  split.
  - apply Hinv; [apply distinct_NoDup; reflexivity
                |apply distinct_NoDup; reflexivity|reflexivity].
  - apply Hraise. vm_compute. intros [E|[E|[E|[]]]]; discriminate E.
Defined.

(** ** [MappingFactory.__init__]: which mapping it keeps *)

Lemma mapping_factory_init_selects_aux (operation_type : string)
    (mapping_data : list MappingFactory.MappingData) :
  (forall m,
      MappingFactory.init operation_type mapping_data = Some m ->
      In m mapping_data
      /\ (MappingFactory.mapping_name m = operation_type
          \/ MappingFactory.mapping_name m = "default"))
  /\ (MappingFactory.init operation_type mapping_data = None ->
      forall x, In x mapping_data ->
        MappingFactory.mapping_name x <> operation_type
        /\ MappingFactory.mapping_name x <> "default").
Proof.
  unfold MappingFactory.init.
  destruct (existsb _ mapping_data) eqn:Eop.
  - split.
    + intros m Hm. apply find_some in Hm as [Hin Hn].
      apply String.eqb_eq in Hn. split; [exact Hin|left; exact Hn].
    + intros Hnone. exfalso. apply existsb_exists in Eop as [x [Hx Ex]].
      apply String.eqb_eq in Ex.
      pose proof (find_none _ _ Hnone x Hx) as Hf. cbn beta in Hf.
      rewrite <- Ex, String.eqb_refl in Hf. discriminate Hf.
  - split.
    + intros m Hm. apply find_some in Hm as [Hin Hn].
      apply String.eqb_eq in Hn. split; [exact Hin|right; exact Hn].
    + intros Hnone x Hx. split.
      * intros E.
        assert (Ht : existsb (fun x => String.eqb operation_type
                                         (MappingFactory.mapping_name x))
                             mapping_data = true).
        { apply existsb_exists. exists x. split; [exact Hx|].
          rewrite E. apply String.eqb_refl. }
        rewrite Eop in Ht. discriminate Ht.
      * intros E. pose proof (find_none _ _ Hnone x Hx) as Hf. cbn beta in Hf.
        rewrite E in Hf. discriminate Hf.
Qed.

(** [MappingFactory.__init__] keeps the first entry that bears the name of
    the operator type; when no entry bears it, the first entry named
    "default"; and it fails ([StopIteration]) exactly when no entry bears
    either name. *)
Theorem mapping_factory_init_selects (operation_type : string)
    (mapping_data : list MappingFactory.MappingData) :
  (forall m,
      MappingFactory.init operation_type mapping_data = Some m ->
      exists before after,
        mapping_data = before ++ m :: after
        /\ ((MappingFactory.mapping_name m = operation_type
             /\ forall x, In x before ->
                  MappingFactory.mapping_name x <> operation_type)
            \/ (MappingFactory.mapping_name m = "default"
                /\ (forall x, In x mapping_data ->
                      MappingFactory.mapping_name x <> operation_type)
                /\ forall x, In x before ->
                     MappingFactory.mapping_name x <> "default")))
  /\ (MappingFactory.init operation_type mapping_data = None
      <-> forall x, In x mapping_data ->
            MappingFactory.mapping_name x <> operation_type
            /\ MappingFactory.mapping_name x <> "default").
Proof.
  assert (Hfind : forall (name : string) (l : list MappingFactory.MappingData) m,
            find (fun x => String.eqb (MappingFactory.mapping_name x) name) l
            = Some m ->
            exists before after,
              l = before ++ m :: after
              /\ MappingFactory.mapping_name m = name
              /\ forall x, In x before -> MappingFactory.mapping_name x <> name).
  { intros name l. induction l as [|y t IH]; intros m Hf; [discriminate Hf|].
    cbn [find] in Hf.
    destruct (String.eqb_spec (MappingFactory.mapping_name y) name) as [E|Hne].
    - injection Hf as <-. exists [], t. repeat split; [exact E|intros x []].
    - destruct (IH m Hf) as [before [after [-> [Hn Hb]]]].
      exists (y :: before), after. repeat split; [exact Hn|].
      intros x [<-|Hx]; [exact Hne|exact (Hb x Hx)]. }
  assert (Hex : existsb (fun x => String.eqb operation_type
                                    (MappingFactory.mapping_name x)) mapping_data
                = false ->
                forall x, In x mapping_data ->
                  MappingFactory.mapping_name x <> operation_type).
  { intros Hf x Hx E.
    assert (Ht : existsb (fun x => String.eqb operation_type
                                     (MappingFactory.mapping_name x))
                         mapping_data = true).
    { apply existsb_exists. exists x. split; [exact Hx|].
      rewrite E. apply String.eqb_refl. }
    rewrite Hf in Ht. discriminate Ht. }
  unfold MappingFactory.init.
  destruct (existsb _ mapping_data) eqn:Eop.
  - split.
    + intros m Hm. destruct (Hfind _ _ _ Hm) as [before [after [Hl [Hn Hb]]]].
      exists before, after. split; [exact Hl|]. left. split; assumption.
    + split.
      * intros Hnone. exfalso. apply existsb_exists in Eop as [x [Hx Ex]].
        apply String.eqb_eq in Ex.
        pose proof (find_none _ _ Hnone x Hx) as Hf. cbn beta in Hf.
        rewrite <- Ex, String.eqb_refl in Hf. discriminate Hf.
      * intros Hall. exfalso. apply existsb_exists in Eop as [x [Hx Ex]].
        apply String.eqb_eq in Ex. apply (proj1 (Hall x Hx)).
        symmetry. exact Ex.
  - split.
    + intros m Hm. destruct (Hfind _ _ _ Hm) as [before [after [Hl [Hn Hb]]]].
      exists before, after. split; [exact Hl|]. right.
      split; [exact Hn|]. split; [exact (Hex eq_refl)|exact Hb].
    + split.
      * intros Hnone x Hx. split; [exact (Hex eq_refl x Hx)|].
        intros E. pose proof (find_none _ _ Hnone x Hx) as Hf. cbn beta in Hf.
        rewrite E in Hf. discriminate Hf.
      * intros Hall.
        destruct (find _ mapping_data) as [m|] eqn:Ef; [|reflexivity].
        exfalso. apply find_some in Ef as [Hin Hn].
        apply String.eqb_eq in Hn. exact (proj2 (Hall m Hin) Hn).
Qed.

(** ** [MappingValidator.validate] *)

Lemma name_in_true (name : string) (data : list MappingValidator.RawMapping) :
  MappingValidator.name_in name data = Ok true ->
  exists x, In x data /\ MappingValidator.raw_name x = Some name.
Proof.
  induction data as [|y t IH]; cbn [MappingValidator.name_in];
    [discriminate|].
  destruct (MappingValidator.raw_name y) as [n|] eqn:En;
    cbn [Py.bind LayerNodeFactory.required]; [|discriminate].
  destruct (String.eqb_spec name n) as [->|_].
  - intros _. exists y. split; [left; reflexivity|exact En].
  - intros Ht. destruct (IH Ht) as [x [Hx Hn]]. exists x.
    split; [right; exact Hx|exact Hn].
Qed.

(** [validate] returns true exactly when the object was valid before, the
    schema validation succeeded and an entry is named "default" (the
    entries before it having a name); the only exception it raises is the
    [KeyError] of an entry without "name" that stands before every entry
    named "default"; it never changes the data, and an object once invalid
    stays invalid. *)
Theorem validate_true_iff (validate_success : bool)
    (self : MappingValidator.Validator) :
  (forall self',
      MappingValidator.validate validate_success self = Ok (self', true)
      <-> self' = self
          /\ MappingValidator.is_valid self = true
          /\ validate_success = true
          /\ MappingValidator.name_in "default" (MappingValidator.data self)
             = Ok true)
  /\ (forall e,
        MappingValidator.validate validate_success self = Raise e
        <-> e = KeyError
            /\ MappingValidator.name_in "default" (MappingValidator.data self)
               = Raise KeyError)
  /\ (forall self' b,
        MappingValidator.validate validate_success self = Ok (self', b) ->
        MappingValidator.data self' = MappingValidator.data self
        /\ MappingValidator.is_valid self' = b
        /\ (MappingValidator.is_valid self = false -> b = false)).
Proof.
  assert (Hraise : forall data e,
            MappingValidator.name_in "default" data = Raise e -> e = KeyError).
  { induction data as [|y t IH]; intros e; cbn [MappingValidator.name_in];
      [discriminate|].
    destruct (MappingValidator.raw_name y) as [n|];
      cbn [Py.bind LayerNodeFactory.required].
    - destruct (String.eqb "default" n); [discriminate|apply IH].
    - intros [= <-]. reflexivity. }
  destruct self as [data valid]. unfold MappingValidator.validate.
  cbn [MappingValidator.data MappingValidator.is_valid].
  assert (Hd : MappingValidator.data
                 (if negb validate_success
                  then MappingValidator.invalidate
                         {| MappingValidator.data := data;
                            MappingValidator.is_valid := valid |}
                  else {| MappingValidator.data := data;
                          MappingValidator.is_valid := valid |}) = data)
    by (destruct validate_success; reflexivity).
  rewrite Hd.
  destruct (MappingValidator.name_in "default" data) as [has_default|e0] eqn:En;
    cbn [Py.bind].
  - split; [|split].
    + intros self'. destruct validate_success, has_default, valid;
        cbn [negb MappingValidator.invalidate MappingValidator.is_valid
             MappingValidator.data];
        split; try (intros [= <-]); try (intros [-> [H1 [H2 H3]]]);
        try discriminate; try reflexivity; repeat split; congruence.
    + intros e. split; [discriminate|intros [_ H]; discriminate H].
    + intros self' b [= <- <-].
      destruct validate_success, has_default, valid;
        cbn [negb MappingValidator.invalidate MappingValidator.is_valid
             MappingValidator.data]; repeat split; congruence.
  - split; [|split].
    + intros self'. split; [discriminate|intros [_ [_ [_ H]]]; discriminate H].
    + intros e. split.
      * intros [= <-]. split; [exact (Hraise _ _ En)|].
        rewrite (Hraise _ _ En). reflexivity.
      * intros [-> H]. injection H as ->. reflexivity.
    + intros self' b H. discriminate H.
Qed.

(** Data that [validate] accepted holds a mapping for every operator type:
    on the validated entries, [MappingFactory.__init__] finds an entry, one
    that bears the name of the operator type or the name "default". *)
Theorem validated_data_has_mapping (validate_success : bool)
    (self self' : MappingValidator.Validator)
    (mapping_data : list MappingFactory.MappingData) (operation_type : string) :
  MappingValidator.validate validate_success self = Ok (self', true) ->
  map MappingValidator.raw_name (MappingValidator.data self)
  = map (fun m => Some (MappingFactory.mapping_name m)) mapping_data ->
  exists m,
    MappingFactory.init operation_type mapping_data = Some m
    /\ In m mapping_data
    /\ (MappingFactory.mapping_name m = operation_type
        \/ MappingFactory.mapping_name m = "default").
Proof.
  intros Hv Hnames.
  assert (Hdef : MappingValidator.name_in "default" (MappingValidator.data self)
                 = Ok true).
  { unfold MappingValidator.validate in Hv.
    assert (Hd : MappingValidator.data
                   (if negb validate_success
                    then MappingValidator.invalidate self else self)
                 = MappingValidator.data self)
      by (destruct validate_success; reflexivity).
    rewrite Hd in Hv.
    destruct (MappingValidator.name_in "default" (MappingValidator.data self))
      as [[|]|e]; cbn [Py.bind] in Hv; [reflexivity| |discriminate Hv].
    cbn [negb] in Hv. injection Hv as _ Hv.
    destruct validate_success; discriminate Hv. }
  destruct (name_in_true _ _ Hdef) as [x [Hx Hn]].
  assert (Hin : In (Some "default")
                   (map (fun m => Some (MappingFactory.mapping_name m))
                        mapping_data)).
  { rewrite <- Hnames, <- Hn. apply in_map. exact Hx. }
  apply in_map_iff in Hin as [d [Ed Hd]]. injection Ed as Ed.
  destruct (MappingFactory.init operation_type mapping_data) as [m|] eqn:Ei.
  - exists m. split; [reflexivity|].
    destruct (proj1 (mapping_factory_init_selects_aux operation_type mapping_data)
                m Ei) as [Hm Hname].
    split; assumption.
  - exfalso.
    exact (proj2 (proj2 (mapping_factory_init_selects_aux operation_type
                           mapping_data) Ei d Hd) Ed).
Qed.

(** ** [PlotTemporalMappingsStage.run] *)

Lemma plot_run_loop_spec (file_system : string -> option exn)
    (filename : string)
    (results : list (PlotTemporalMappingsStage.Result * ExtraInfo)) :
  forall cmes,
  let r := PlotTemporalMappingsStage.run_loop file_system filename cmes results in
  let handed_on :=
    map (fun '(cme, extra_info) => PlotTemporalMappingsStage.Yield cme extra_info)
        (leading_evaluations results) in
  let dir := Str.dirname filename in
  PlotTemporalMappingsStage.yielded (events r) = leading_evaluations results
  /\ (forallb is_evaluation results = true ->
      raised r = PlotTemporalMappingsStage.makedirs file_system dir
      /\ events r
         = handed_on
           ++ PlotTemporalMappingsStage.MakeDirs dir
              :: match PlotTemporalMappingsStage.makedirs file_system dir with
                 | None =>
                     [PlotTemporalMappingsStage.Plot
                        (cmes ++ map fst (leading_evaluations results)) filename]
                 | Some _ => []
                 end)
  /\ (forallb is_evaluation results = false ->
      raised r = Some AssertionError /\ events r = handed_on).
Proof.
  induction results as [|[[cme|] x] rest IH]; intros cmes;
    cbn [PlotTemporalMappingsStage.run_loop leading_evaluations forallb
         is_evaluation fst andb].
  - split; [|split; [|discriminate]].
    + destruct (PlotTemporalMappingsStage.makedirs _ _); reflexivity.
    + intros _.
      destruct (PlotTemporalMappingsStage.makedirs _ _);
        cbn [events raised map app]; rewrite ?app_nil_r; split; reflexivity.
  - destruct (IH (cmes ++ [cme])) as [Hy [Hall Hsome]].
    cbn [events raised].
    unfold PlotTemporalMappingsStage.yielded in *. cbn [flat_map app map].
    split; [f_equal; exact Hy|]. split.
    + intros Ht. destruct (Hall Ht) as [Hr He]. split; [exact Hr|].
      rewrite He. cbn [fst]. rewrite <- app_assoc. reflexivity.
    + intros Hf. destruct (Hsome Hf) as [Hr He]. split; [exact Hr|].
      rewrite He. reflexivity.
  - split; [reflexivity|]. split; [discriminate|].
    intros _. split; reflexivity.
Qed.

Lemma drop_while_all (cls : ascii -> bool) (l : list ascii) :
  forallb cls l = true -> Str.drop_while cls l = [].
Proof.
  induction l as [|c l IH]; [reflexivity|].
  cbn [forallb Str.drop_while]. intros Hl.
  apply andb_true_iff in Hl as [Hc Hl]. rewrite Hc. exact (IH Hl).
Qed.

(** A file name without a slash has no directory part. *)
Lemma dirname_plain (filename : string) :
  forallb (fun c => negb (Ascii.eqb c "/")) (list_ascii_of_string filename)
  = true ->
  Str.dirname filename = "".
Proof.
  intros Hplain. unfold Str.dirname.
  rewrite drop_while_all; [reflexivity|].
  rewrite forallb_forall in *. intros c Hc. apply Hplain.
  apply in_rev. exact Hc.
Qed.

(** [run] hands on what its sub-stage yields, unchanged and in order, as
    long as the results are evaluations; at the first result that is no
    evaluation it ends with [AssertionError], and no directory is created
    and nothing plotted.  When all results are evaluations it then calls
    [os.makedirs] on the directory part of the plot file name: if that
    raises, [run] ends with the exception and nothing is plotted; if it
    returns, [run] plots the evaluations it handed on, once, and ends.  For
    a file name without a slash the directory part is empty and [run] ends
    with [FileNotFoundError], after the last result and without a plot. *)
Theorem plot_run_hands_on_results
    (file_system : string -> option exn)
    (self : PlotTemporalMappingsStage.Stage)
    (substage_run : list (PlotTemporalMappingsStage.Result * ExtraInfo)) :
  let r := PlotTemporalMappingsStage.run file_system self substage_run in
  let filename := PlotTemporalMappingsStage.plot_filename_pattern self in
  let dir := Str.dirname filename in
  let handed_on :=
    map (fun '(cme, extra_info) => PlotTemporalMappingsStage.Yield cme extra_info)
        (leading_evaluations substage_run) in
  PlotTemporalMappingsStage.yielded (events r) = leading_evaluations substage_run
  /\ (forallb is_evaluation substage_run = false ->
      raised r = Some AssertionError /\ events r = handed_on)
  /\ (forallb is_evaluation substage_run = true ->
      map (fun y => (PlotTemporalMappingsStage.Evaluation (fst y), snd y))
          (leading_evaluations substage_run) = substage_run
      /\ (forall e,
            PlotTemporalMappingsStage.makedirs file_system dir = Some e ->
            raised r = Some e
            /\ events r = handed_on ++ [PlotTemporalMappingsStage.MakeDirs dir])
      /\ (PlotTemporalMappingsStage.makedirs file_system dir = None ->
          raised r = None
          /\ events r
             = handed_on
               ++ [PlotTemporalMappingsStage.MakeDirs dir;
                   PlotTemporalMappingsStage.Plot
                     (map fst (leading_evaluations substage_run)) filename])
      /\ (forallb (fun c => negb (Ascii.eqb c "/"))
                  (list_ascii_of_string filename) = true ->
          raised r = Some FileNotFoundError
          /\ events r = handed_on ++ [PlotTemporalMappingsStage.MakeDirs ""])).
Proof.
  intros r filename dir handed_on.
  destruct (plot_run_loop_spec file_system filename substage_run [])
    as [Hy [Hall Hsome]].
  split; [exact Hy|]. split; [exact Hsome|].
  intros Ht. destruct (Hall Ht) as [Hr He]. fold dir in Hr, He.
  fold r in Hr, He. fold handed_on in He.
  split; [|split; [|split]].
  - clear - Ht. induction substage_run as [|[[cme|] x] rest IH];
      cbn [leading_evaluations map fst snd forallb is_evaluation andb] in *;
      [reflexivity| |discriminate Ht].
    f_equal. exact (IH Ht).
  - intros e Hm. rewrite Hm in Hr, He. split; [exact Hr|exact He].
  - intros Hm. rewrite Hm in Hr, He. split; [exact Hr|exact He].
  - intros Hplain. pose proof (dirname_plain filename Hplain) as Hdir.
    fold dir in Hdir. rewrite Hdir in Hr, He.
    cbn [PlotTemporalMappingsStage.makedirs String.eqb] in Hr, He.
    split; [exact Hr|exact He].
Qed.

(** ** [LayerNodeFactory]: sizes and padding *)

Section FactoryTables.
Context {LayerDim : Type} `{PyEq LayerDim}.
Variable create_layer_dim : string -> LayerDim.

Lemma getitem_nth {A : Type} (l : list A) (i : nat) (d : A) :
  (i < length l)%nat -> Py.getitem l i = Ok (nth i l d).
Proof.
  intros Hi. unfold Py.getitem.
  rewrite (nth_error_nth' l d Hi). reflexivity.
Qed.

Lemma getitem_out {A : Type} (l : list A) (i : nat) :
  (length l <= i)%nat -> Py.getitem l i = Raise IndexError.
Proof.
  intros Hi. unfold Py.getitem.
  rewrite (proj2 (nth_error_None l i) Hi). reflexivity.
Qed.

Lemma padding_item_cases (padding_data : list (list Z)) (i : nat) (d : LayerDim) :
  LayerNodeFactory.padding_item padding_data (i, d)
  = if (2 <=? length (nth i padding_data []))%nat
    then Ok (d, padding_of_row (nth i padding_data []))
    else Raise IndexError.
Proof.
  unfold LayerNodeFactory.padding_item, padding_of_row.
  destruct (Nat.lt_ge_cases i (length padding_data)) as [Hi|Hi].
  - rewrite (getitem_nth _ _ [] Hi). cbn [Py.bind].
    destruct (nth i padding_data []) as [|a [|b row]]; reflexivity.
  - rewrite (getitem_out _ _ Hi). cbn [Py.bind].
    rewrite (nth_overflow _ _ Hi). reflexivity.
Qed.

Lemma padding_items (padding_data : list (list Z)) (dims : list LayerDim) :
  forall start,
  map_res (LayerNodeFactory.padding_item padding_data)
          (combine (seq start (length dims)) dims)
  = if forallb (fun i => (2 <=? length (nth i padding_data []))%nat)
               (seq start (length dims))
    then Ok (combine dims
               (map (fun i => padding_of_row (nth i padding_data []))
                    (seq start (length dims))))
    else Raise IndexError.
Proof.
  induction dims as [|d t IH]; intros start; [reflexivity|].
  cbn [length seq combine map_res forallb map].
  rewrite padding_item_cases.
  destruct (2 <=? length (nth start padding_data []))%nat; cbn [Py.bind andb];
    [|reflexivity].
  rewrite IH. destruct (forallb _ _); reflexivity.
Qed.

(** [create_padding] returns the empty padding for data without "padding";
    it raises [KeyError] for data with "padding" but without
    "pr_loop_dims"; otherwise it raises [IndexError] exactly when, for one
    of the partially relevant dimensions, the row of that position is
    missing or has fewer than two entries, and else pairs every dimension
    with the first two entries of its row (rows and entries beyond those are
    not read). *)
Theorem create_padding_cases (node_data : LayerNodeFactory.NodeFields) :
  match LayerNodeFactory.node_padding node_data,
        LayerNodeFactory.node_pr_loop_dims node_data with
  | None, _ =>
      LayerNodeFactory.create_padding create_layer_dim node_data = Ok Dict.empty
  | Some _, None =>
      LayerNodeFactory.create_padding create_layer_dim node_data = Raise KeyError
  | Some padding_data, Some pr_loop_dims =>
      LayerNodeFactory.create_padding create_layer_dim node_data
      = if padding_rows_ok padding_data (length pr_loop_dims)
        then Ok (Dict.of_items
                   (combine (map create_layer_dim pr_loop_dims)
                            (map (fun i => padding_of_row (nth i padding_data []))
                                 (seq 0 (length pr_loop_dims)))))
        else Raise IndexError
  end.
Proof.
  unfold LayerNodeFactory.create_padding, padding_rows_ok.
  destruct (LayerNodeFactory.node_padding node_data) as [padding_data|];
    [|reflexivity].
  destruct (LayerNodeFactory.node_pr_loop_dims node_data) as [dims|];
    cbn [LayerNodeFactory.required Py.bind]; [|reflexivity].
  rewrite padding_items, length_map.
  destruct (forallb _ _); reflexivity.
Qed.

Lemma get_combine_nth {V : Type} (ks : list LayerDim) (vs : list V) (i : nat)
    (k : LayerDim) :
  NoDup ks -> nth_error ks i = Some k ->
  Dict.get (combine ks vs) k = nth_error vs i.
Proof.
  revert vs i. induction ks as [|k0 t IH]; intros vs i Hnd Hk;
    [destruct i; discriminate Hk|].
  apply NoDup_cons_iff in Hnd as [Hk0 Hnd].
  destruct vs as [|v vs].
  - cbn [combine Dict.get]. destruct i; reflexivity.
  - cbn [combine Dict.get]. destruct i as [|i]; cbn [nth_error] in *.
    + injection Hk as ->. rewrite py_eqb_refl. reflexivity.
    + destruct (py_eqb_spec k0 k) as [E|_].
      * exfalso. apply Hk0. rewrite E. exact (nth_error_In _ _ Hk).
      * exact (IH vs i Hnd Hk).
Qed.

Lemma NoDup_keys_combine {V : Type} (ks : list LayerDim) (vs : list V) :
  NoDup ks -> NoDup (map fst (combine ks vs)).
Proof.
  revert vs. induction ks as [|k t IH]; intros vs Hnd; [constructor|].
  destruct vs as [|v vs]; [constructor|].
  apply NoDup_cons_iff in Hnd as [Hk Hnd]. cbn [combine map fst].
  constructor; [|exact (IH vs Hnd)].
  intros Hin. apply Hk. apply in_map_iff in Hin as [[k' v'] [E Hin]].
  cbn [fst] in E. subst k'. exact (in_combine_l _ _ _ _ Hin).
Qed.

(** [create_layer_dim_sizes] never raises: for dimension names that give
    pairwise different dimensions, a dimension has the size that stands at
    its position in "loop_sizes", and a dimension whose position is past
    the end of "loop_sizes" is left out without an error. *)
Theorem create_layer_dim_sizes_by_position
    (node_data : LayerNodeFactory.NodeFields) (i : nat) (name : string) :
  NoDup (map create_layer_dim (LayerNodeFactory.node_loop_dims node_data)) ->
  nth_error (LayerNodeFactory.node_loop_dims node_data) i = Some name ->
  Dict.get (LayerNodeFactory.create_layer_dim_sizes create_layer_dim node_data)
           (create_layer_dim name)
  = nth_error (LayerNodeFactory.node_loop_sizes node_data) i.
Proof.
  intros Hnd Hname. unfold LayerNodeFactory.create_layer_dim_sizes.
  rewrite of_items_NoDup by (apply NoDup_keys_combine; exact Hnd).
  apply get_combine_nth; [exact Hnd|].
  rewrite nth_error_map, Hname. reflexivity.
Qed.

End FactoryTables.

(** ** [create_mapping_single_oa_dim] on unrollings that the schema accepts *)

Section Unrollings.

Lemma span_spec (cls : ascii -> bool) (s a b : list ascii) :
  Str.span cls s = (a, b) ->
  s = a ++ b /\ forallb cls a = true
  /\ match b with [] => True | c :: _ => cls c = false end.
Proof.
  revert a b. induction s as [|c t IH]; intros a b Hs; cbn [Str.span] in Hs.
  - injection Hs as <- <-. repeat split.
  - destruct (cls c) eqn:Ec.
    + destruct (Str.span cls t) as [a' b'] eqn:Et. injection Hs as <- <-.
      destruct (IH a' b' eq_refl) as [-> [Ha Hb]].
      cbn [app forallb]. rewrite Ec. repeat split; assumption.
    + injection Hs as <- <-. cbn [app forallb]. repeat split. exact Ec.
Qed.

Lemma length_string_of_list_ascii (l : list ascii) :
  String.length (string_of_list_ascii l) = length l.
Proof. induction l as [|c t IH]; cbn; [reflexivity|f_equal; exact IH]. Qed.

(** The strings that the regular expression of the schema accepts. *)
Lemma match_unrolling_shape (s letters digits : string) :
  MappingValidator.match_unrolling s = Some (letters, digits) ->
  exists L D tail,
    list_ascii_of_string s = L ++ ","%char :: " "%char :: D ++ tail
    /\ letters = string_of_list_ascii L
    /\ digits = string_of_list_ascii D
    /\ forallb Str.is_upper L = true
    /\ D <> [] /\ forallb Str.is_digit D = true
    /\ (tail = [] \/ tail = [ascii_of_nat 10]).
Proof.
  unfold MappingValidator.match_unrolling. intros Hm.
  destruct (Str.span Str.is_upper (list_ascii_of_string s)) as [L rest] eqn:EL.
  destruct (span_spec _ _ _ _ EL) as [Hs [HL _]].
  destruct L as [|l0 L']; [discriminate Hm|].
  destruct rest as [|c1 [|c2 rest']]; try discriminate Hm.
  destruct (Ascii.eqb_spec c1 ",") as [->|]; [|discriminate Hm].
  destruct (Ascii.eqb_spec c2 " ") as [->|]; [|discriminate Hm].
  cbn [andb] in Hm.
  destruct (Str.span Str.is_digit rest') as [D tail] eqn:ED.
  destruct (span_spec _ _ _ _ ED) as [Hr [HD _]].
  destruct D as [|d0 D']; [discriminate Hm|].
  assert (Ht : tail = [] \/ tail = [ascii_of_nat 10]).
  { destruct tail as [|c [|c' t]]; [left; reflexivity| |discriminate Hm].
    destruct (Nat.eqb_spec (nat_of_ascii c) 10) as [E|]; [|discriminate Hm].
    right. rewrite <- E, ascii_nat_embedding. reflexivity. }
  assert (Hf : Some (string_of_list_ascii (l0 :: L'),
                     string_of_list_ascii (d0 :: D'))
               = Some (letters, digits)).
  { destruct tail as [|c [|c' t]]; [exact Hm| |discriminate Hm].
    destruct (nat_of_ascii c =? 10)%nat; [exact Hm|discriminate Hm]. }
  injection Hf as <- <-.
  exists (l0 :: L'), (d0 :: D'), tail. rewrite Hs, Hr.
  repeat split; try assumption. discriminate.
Qed.

Lemma split_from_plain (sep : ascii) (l cur : list ascii) :
  forallb (fun c => negb (Ascii.eqb c sep)) l = true ->
  Str.split_from sep cur l = [string_of_list_ascii (rev cur ++ l)].
Proof.
  revert cur. induction l as [|c t IH]; intros cur Hl.
  - cbn [Str.split_from]. rewrite app_nil_r. reflexivity.
  - cbn [forallb] in Hl. apply andb_true_iff in Hl as [Hc Ht].
    cbn [Str.split_from]. apply negb_true_iff in Hc. rewrite Hc.
    rewrite (IH (c :: cur) Ht). cbn [rev]. rewrite <- app_assoc. reflexivity.
Qed.

Lemma split_from_sep (sep : ascii) (l1 l2 cur : list ascii) :
  forallb (fun c => negb (Ascii.eqb c sep)) l1 = true ->
  Str.split_from sep cur (l1 ++ sep :: l2)
  = string_of_list_ascii (rev cur ++ l1) :: Str.split_from sep [] l2.
Proof.
  revert cur. induction l1 as [|c t IH]; intros cur Hl.
  - cbn [app Str.split_from]. rewrite Ascii.eqb_refl, app_nil_r. reflexivity.
  - cbn [forallb] in Hl. apply andb_true_iff in Hl as [Hc Ht].
    cbn [app Str.split_from]. apply negb_true_iff in Hc. rewrite Hc.
    rewrite (IH (c :: cur) Ht). cbn [rev]. rewrite <- app_assoc. reflexivity.
Qed.

Lemma forallb_impl {A : Type} (p q : A -> bool) (l : list A) :
  (forall x, p x = true -> q x = true) ->
  forallb p l = true -> forallb q l = true.
Proof.
  intros Hpq. induction l as [|x t IH]; [reflexivity|].
  cbn [forallb]. intros Hl. apply andb_true_iff in Hl as [Hx Ht].
  rewrite (Hpq x Hx), (IH Ht). reflexivity.
Qed.

Lemma upper_not_comma (c : ascii) :
  Str.is_upper c = true -> negb (Ascii.eqb c ",") = true.
Proof.
  intros Hc. destruct (Ascii.eqb_spec c ",") as [->|]; [|reflexivity].
  discriminate Hc.
Qed.

Lemma digit_plain (c : ascii) :
  Str.is_digit c = true ->
  negb (Ascii.eqb c ",") = true /\ Str.is_space c = false
  /\ Ascii.eqb c "-" = false /\ Ascii.eqb c "+" = false.
Proof.
  intros Hc. unfold Str.is_digit, Str.between in Hc.
  apply andb_true_iff in Hc as [H1 H2].
  apply Nat.leb_le in H1. apply Nat.leb_le in H2.
  repeat split.
  - destruct (Ascii.eqb_spec c ",") as [->|]; [|reflexivity].
    cbn in H1. lia.
  - unfold Str.is_space.
    destruct (Nat.eqb_spec (nat_of_ascii c) 32); [lia|].
    destruct (Nat.leb_spec 9 (nat_of_ascii c)); [|reflexivity].
    destruct (Nat.leb_spec (nat_of_ascii c) 13); [lia|reflexivity].
  - destruct (Ascii.eqb_spec c "-") as [->|]; [|reflexivity].
    cbn in H1. lia.
  - destruct (Ascii.eqb_spec c "+") as [->|]; [|reflexivity].
    cbn in H1. lia.
Qed.

Lemma digits_of_digits (D : list ascii) (after_digit : bool) :
  D <> [] -> forallb Str.is_digit D = true ->
  Str.digits_of D after_digit = Some D.
Proof.
  revert after_digit. induction D as [|c t IH]; intros b Hne HD;
    [contradiction|].
  cbn [forallb] in HD. apply andb_true_iff in HD as [Hc Ht].
  cbn [Str.digits_of]. rewrite Hc.
  destruct t as [|c' t'].
  - reflexivity.
  - rewrite (IH true ltac:(discriminate) Ht). reflexivity.
Qed.

Lemma drop_while_head (cls : ascii -> bool) (c : ascii) (l : list ascii) :
  cls c = false -> Str.drop_while cls (c :: l) = c :: l.
Proof. intros Hc. cbn [Str.drop_while]. rewrite Hc. reflexivity. Qed.

(** [int] on what follows the comma of an accepted unrolling. *)
Lemma to_int_unrolling (max_str_digits : nat) (D tail : list ascii) :
  D <> [] -> forallb Str.is_digit D = true ->
  tail = [] \/ tail = [ascii_of_nat 10] ->
  Str.to_int max_str_digits (string_of_list_ascii (" "%char :: D ++ tail))
  = if within_int_limit max_str_digits (string_of_list_ascii D)
    then Ok (Str.int_of_digits (string_of_list_ascii D))
    else Raise ValueError.
Proof.
  intros Hne HD Htail. unfold Str.to_int.
  rewrite list_ascii_of_string_of_list_ascii.
  assert (Hbody : rev (Str.drop_while Str.is_space
                         (rev (Str.drop_while Str.is_space (" "%char :: D ++ tail))))
                  = D).
  { destruct D as [|d0 D']; [contradiction|].
    cbn [forallb] in HD. apply andb_true_iff in HD as [Hd0 HD'].
    change (Str.drop_while Str.is_space (" "%char :: (d0 :: D') ++ tail))
      with (Str.drop_while Str.is_space ((d0 :: D') ++ tail)).
    cbn [app]. rewrite (drop_while_head _ _ _ (proj1 (proj2 (digit_plain _ Hd0)))).
    assert (Hlast : exists D0 dl, d0 :: D' = D0 ++ [dl]
                                  /\ Str.is_digit dl = true).
    { destruct (exists_last (l := d0 :: D') ltac:(discriminate)) as [D0 [dl E]].
      exists D0, dl. split; [exact E|].
      assert (Hall : forallb Str.is_digit (d0 :: D') = true)
        by (cbn [forallb]; rewrite Hd0, HD'; reflexivity).
      rewrite E, forallb_app in Hall. apply andb_true_iff in Hall as [_ Hl].
      cbn [forallb] in Hl. apply andb_true_iff in Hl as [Hl _]. exact Hl. }
    destruct Hlast as [D0 [dl [E Hdl]]].
    change (d0 :: D' ++ tail) with ((d0 :: D') ++ tail). rewrite E.
    destruct Htail as [->| ->].
    - rewrite app_nil_r, rev_app_distr. cbn [rev app].
      rewrite (drop_while_head _ _ _ (proj1 (proj2 (digit_plain _ Hdl)))).
      cbn [rev]. rewrite rev_involutive. reflexivity.
    - rewrite rev_app_distr. cbn [rev app].
      rewrite rev_app_distr. cbn [rev app].
      change (Str.drop_while Str.is_space (ascii_of_nat 10 :: dl :: rev D0))
        with (Str.drop_while Str.is_space (dl :: rev D0)).
      rewrite (drop_while_head _ _ _ (proj1 (proj2 (digit_plain _ Hdl)))).
      cbn [rev]. rewrite rev_involutive. reflexivity. }
  rewrite Hbody.
  destruct D as [|d0 D']; [contradiction|].
  assert (Hd0 : Str.is_digit d0 = true).
  { cbn [forallb] in HD. apply andb_true_iff in HD as [Hd0 _]. exact Hd0. }
  destruct (digit_plain _ Hd0) as [_ [_ [Hm Hp]]]. rewrite Hm, Hp.
  rewrite (digits_of_digits _ false Hne HD).
  unfold within_int_limit. rewrite length_string_of_list_ascii.
  destruct ((0 <? max_str_digits)%nat && (max_str_digits <? length (d0 :: D'))%nat);
    reflexivity.
Qed.

(** [int] on a run of digits. *)
Lemma to_int_digits (max_str_digits : nat) (digits : string) :
  digits <> "" ->
  forallb Str.is_digit (list_ascii_of_string digits) = true ->
  Str.to_int max_str_digits digits
  = if within_int_limit max_str_digits digits
    then Ok (Str.int_of_digits digits)
    else Raise ValueError.
Proof.
  intros Hne HD. unfold Str.to_int.
  destruct (list_ascii_of_string digits) as [|d0 D'] eqn:ED.
  { exfalso. apply Hne. rewrite <- (string_of_list_ascii_of_string digits), ED.
    reflexivity. }
  assert (Hd0 : Str.is_digit d0 = true).
  { cbn [forallb] in HD. apply andb_true_iff in HD as [Hd0 _]. exact Hd0. }
  assert (Hne' : d0 :: D' <> []) by discriminate.
  destruct (exists_last Hne') as [D0 [dl E]].
  assert (Hdl : Str.is_digit dl = true).
  { rewrite E, forallb_app in HD. apply andb_true_iff in HD as [_ Hl].
    cbn [forallb] in Hl. apply andb_true_iff in Hl as [Hl _]. exact Hl. }
  rewrite (drop_while_head _ _ _ (proj1 (proj2 (digit_plain _ Hd0)))).
  rewrite E, rev_app_distr. cbn [rev app].
  rewrite (drop_while_head _ _ _ (proj1 (proj2 (digit_plain _ Hdl)))).
  cbn [rev]. rewrite rev_involutive, <- E.
  destruct (digit_plain _ Hd0) as [_ [_ [Hm Hp]]]. rewrite Hm, Hp.
  rewrite (digits_of_digits _ false Hne' HD).
  assert (Edigits : digits = string_of_list_ascii (d0 :: D')).
  { rewrite <- ED. symmetry. apply string_of_list_ascii_of_string. }
  unfold within_int_limit. rewrite Edigits, length_string_of_list_ascii.
  destruct ((0 <? max_str_digits)%nat && (max_str_digits <? length (d0 :: D'))%nat);
    reflexivity.
Qed.

Context {LayerDim : Type} `{PyEq LayerDim}.
Variable create_layer_dim : string -> LayerDim.
Variable max_str_digits : nat.

(** One turn of the loop of [create_mapping_single_oa_dim] on an accepted
    unrolling. *)
Lemma unrolling_parts (s letters digits : string) :
  MappingValidator.match_unrolling s = Some (letters, digits) ->
  Py.getitem (Str.split "," s) 0 = Ok letters
  /\ (last <- MappingFactory.getitem_last (Str.split "," s) ;;
      Str.to_int max_str_digits last)
     = if within_int_limit max_str_digits digits
       then Ok (Str.int_of_digits digits) else Raise ValueError.
Proof.
  intros Hm.
  destruct (match_unrolling_shape _ _ _ Hm)
    as [L [D [tail [Hs [-> [-> [HL [Hne [HD Htail]]]]]]]]].
  assert (Hsplit : Str.split "," s
                   = [string_of_list_ascii L;
                      string_of_list_ascii (" "%char :: D ++ tail)]).
  { unfold Str.split. rewrite Hs.
    rewrite split_from_sep by (exact (forallb_impl _ _ _ upper_not_comma HL)).
    cbn [rev app]. f_equal. rewrite split_from_plain; [reflexivity|].
    cbn [forallb]. rewrite forallb_app.
    rewrite (forallb_impl _ _ _ (fun c Hc => proj1 (digit_plain c Hc)) HD).
    destruct Htail as [->| ->]; reflexivity. }
  rewrite Hsplit. split; [reflexivity|].
  cbn [MappingFactory.getitem_last length Nat.sub Py.getitem nth_error Py.bind].
  exact (to_int_unrolling max_str_digits D tail Hne HD Htail).
Qed.

Lemma create_mapping_single_oa_dim_loop (parsed : list (string * string))
    (mapping_data : list string) :
  map MappingValidator.match_unrolling mapping_data = map Some parsed ->
  forall acc : Dict.t LayerDim Z,
  for_each mapping_data acc
    (fun mapping_dict single_unrolling =>
       layer_dim_str <- Py.getitem (Str.split "," single_unrolling) 0 ;;
       last <- MappingFactory.getitem_last (Str.split "," single_unrolling) ;;
       unrolling <- Str.to_int max_str_digits last ;;
       let layer_dim := create_layer_dim layer_dim_str in
       Ok (Dict.set mapping_dict layer_dim unrolling))
  = if forallb (fun p => within_int_limit max_str_digits (snd p)) parsed
    then Ok (fold_left (fun d kv => Dict.set d (fst kv) (snd kv))
                       (map (fun '(letters, digits) =>
                               (create_layer_dim letters,
                                Str.int_of_digits digits)) parsed)
                       acc)
    else Raise ValueError.
Proof.
  revert parsed. induction mapping_data as [|s t IH]; intros parsed Hp acc.
  - destruct parsed; [reflexivity|discriminate Hp].
  - destruct parsed as [|[letters digits] parsed']; [discriminate Hp|].
    cbn [map] in Hp. injection Hp as Hs Ht.
    destruct (unrolling_parts s letters digits Hs) as [H0 Hl].
    cbn [for_each forallb map fold_left fst snd]. rewrite H0. cbn [Py.bind].
    destruct (MappingFactory.getitem_last (Str.split "," s)) as [l|e];
      cbn [Py.bind] in *.
    + rewrite Hl.
      destruct (within_int_limit max_str_digits digits); cbn [Py.bind andb];
        [|reflexivity].
      exact (IH parsed' Ht _).
    + destruct (within_int_limit max_str_digits digits); [discriminate Hl|].
      injection Hl as ->. reflexivity.
Qed.

(** On a list of unrollings that the regular expression of the schema
    accepts, [create_mapping_single_oa_dim] maps the dimension named by the
    letters to the number that the digits spell, a later unrolling of a
    dimension replacing an earlier one; it raises [ValueError] when one of
    the numbers has more digits than the interpreter converts, and nothing
    else. *)
Theorem create_mapping_single_oa_dim_parses (parsed : list (string * string))
    (mapping_data : list string) :
  map MappingValidator.match_unrolling mapping_data = map Some parsed ->
  MappingFactory.create_mapping_single_oa_dim create_layer_dim max_str_digits
    mapping_data
  = if forallb (fun p => within_int_limit max_str_digits (snd p)) parsed
    then Ok (Dict.of_items
               (map (fun '(letters, digits) =>
                       (create_layer_dim letters, Str.int_of_digits digits))
                    parsed))
    else Raise ValueError.
Proof.
  intros Hp. unfold MappingFactory.create_mapping_single_oa_dim, Dict.of_items.
  exact (create_mapping_single_oa_dim_loop parsed mapping_data Hp Dict.empty).
Qed.

End Unrollings.

(** ** [create_equation]: operators between spaces *)

Section Equation.

Lemma replace_from_single (c : ascii) (new l : list ascii) :
  Str.replace_from [c] new 0 l
  = flat_map (fun x => if Ascii.eqb c x then new else [x]) l.
Proof.
  induction l as [|x t IH]; [reflexivity|].
  cbn [Str.replace_from Str.is_prefix length Nat.sub flat_map].
  rewrite andb_true_r, IH. destruct (Ascii.eqb c x); reflexivity.
Qed.

Lemma replace_single (c : ascii) (new s : string) :
  list_ascii_of_string (Str.replace (String c EmptyString) new s)
  = flat_map (fun x => if Ascii.eqb c x then list_ascii_of_string new else [x])
             (list_ascii_of_string s).
Proof.
  unfold Str.replace. rewrite list_ascii_of_string_of_list_ascii.
  apply replace_from_single.
Qed.

Lemma spaced_all (l : list ascii) : spaced [] l.
Proof.
  induction l as [|c t IH]; constructor; [intros []|exact IH].
Qed.

Lemma spaced_step (c : ascii) (ops : list ascii) (l : list ascii) :
  ~ In c ops -> c <> " "%char ->
  spaced ops l ->
  spaced (c :: ops)
         (flat_map (fun x => if Ascii.eqb c x
                             then [" "%char; c; " "%char] else [x]) l).
Proof.
  intros Hc Hsp Hl. induction Hl as [|x l Hx Hl IH|d l Hd Hl IH].
  - constructor.
  - cbn [flat_map]. destruct (Ascii.eqb_spec c x) as [<-|Hne].
    + cbn [app]. apply spaced_op; [left; reflexivity|exact IH].
    + cbn [app]. apply spaced_char; [|exact IH].
      intros [E|Hin]; [exact (Hne E)|exact (Hx Hin)].
  - cbn [flat_map].
    destruct (Ascii.eqb_spec c " ") as [E|_]; [contradiction|].
    destruct (Ascii.eqb_spec c d) as [E|_]; [subst d; contradiction|].
    cbn [app]. apply spaced_op; [right; exact Hd|exact IH].
Qed.

Lemma without_spaces_step (c : ascii) (l : list ascii) :
  filter (fun x => negb (Ascii.eqb x " "))
         (flat_map (fun x => if Ascii.eqb c x
                             then [" "%char; c; " "%char] else [x]) l)
  = filter (fun x => negb (Ascii.eqb x " ")) l.
Proof.
  induction l as [|x t IH]; [reflexivity|].
  cbn [flat_map]. rewrite filter_app, IH.
  destruct (Ascii.eqb_spec c x) as [<-|_].
  - change (filter (fun x => negb (Ascii.eqb x " ")) [" "%char; c; " "%char])
      with (filter (fun x => negb (Ascii.eqb x " ")) [c]).
    cbn [filter]. destruct (negb (Ascii.eqb c " ")); reflexivity.
  - cbn [filter]. destruct (negb (Ascii.eqb x " ")); reflexivity.
Qed.

(** In the equation that [create_equation] hands to [LayerEquation], every
    [*], [=] and [+] stands between two spaces of its own; and apart from
    the spaces it adds, the equation is the one of the layer with [+=] read
    as [=] and [++] as [+]. *)
Theorem create_equation_spaced (node_data : LayerNodeFactory.NodeFields) :
  spaced ["+"; "="; "*"]%char
         (list_ascii_of_string (LayerNodeFactory.create_equation node_data))
  /\ without_spaces (LayerNodeFactory.create_equation node_data)
     = without_spaces
         (Str.replace "++" "+"
            (Str.replace "+=" "=" (LayerNodeFactory.node_equation node_data))).
Proof.
  unfold LayerNodeFactory.create_equation, without_spaces.
  set (e := Str.replace "++" "+"
              (Str.replace "+=" "=" (LayerNodeFactory.node_equation node_data))).
  change " * " with (string_of_list_ascii [" "; "*"; " "]%char).
  change " = " with (string_of_list_ascii [" "; "="; " "]%char).
  change " + " with (string_of_list_ascii [" "; "+"; " "]%char).
  rewrite !replace_single, !list_ascii_of_string_of_list_ascii. split.
  - apply spaced_step; [intros [E|[E|[]]]; discriminate E|discriminate|].
    apply spaced_step; [intros [E|[]]; discriminate E|discriminate|].
    apply spaced_step; [intros []|discriminate|].
    apply spaced_all.
  - rewrite !without_spaces_step. reflexivity.
Qed.

End Equation.

(** ** The theorems on the factories at example data *)

Lemma validated_data_has_mapping_witness :
  let self :=
    MappingValidator.init [ {| MappingValidator.raw_name := Some "Conv" |};
                            {| MappingValidator.raw_name := Some "default" |} ] in
  MappingValidator.validate true self = Ok (self, true)
  /\ exists m,
       MappingFactory.init "Pooling" example_mappings = Some m
       /\ In m example_mappings
       /\ (MappingFactory.mapping_name m = "Pooling"
           \/ MappingFactory.mapping_name m = "default").
Proof.
  intros self. split; [reflexivity|].
  exact (validated_data_has_mapping true self self example_mappings "Pooling"
           eq_refl eq_refl).
Defined.

Lemma create_layer_dim_sizes_by_position_witness :
  let node_data :=
    {| LayerNodeFactory.node_equation := "O[k]+=W[k][c]*I[c]";
       LayerNodeFactory.node_loop_dims := ["K"; "C"; "OX"];
       LayerNodeFactory.node_loop_sizes := [32; 64];
       LayerNodeFactory.node_padding := None;
       LayerNodeFactory.node_pr_loop_dims := None;
       LayerNodeFactory.node_pr_loop_sizes := None |} in
  Dict.get (LayerNodeFactory.create_layer_dim_sizes (fun name => name) node_data)
           "C" = Some 64
  /\ Dict.get (LayerNodeFactory.create_layer_dim_sizes (fun name => name)
                 node_data) "OX" = None.
Proof.
  intros node_data.
  assert (Hnd : NoDup (map (fun name : string => name)
                           (LayerNodeFactory.node_loop_dims node_data)))
    by (apply distinct_NoDup; reflexivity).
  split.
  - exact (create_layer_dim_sizes_by_position (fun name => name) node_data
             1 "C" Hnd eq_refl).
  - exact (create_layer_dim_sizes_by_position (fun name => name) node_data
             2 "OX" Hnd eq_refl).
Defined.

Lemma create_mapping_single_oa_dim_parses_witness :
  MappingFactory.create_mapping_single_oa_dim (fun name => name) 4300
    ["K, 8"; "C, 16"; "K, 4"]
  = Ok [("K", 4); ("C", 16)].
Proof.
  rewrite (create_mapping_single_oa_dim_parses (fun name => name) 4300
             [("K", "8"); ("C", "16"); ("K", "4")]
             ["K, 8"; "C, 16"; "K, 4"] eq_refl).
  reflexivity.
Defined.

(** ** Strings as lists of characters *)

Section StringLists.

Lemma list_ascii_of_string_app (s1 s2 : string) :
  list_ascii_of_string (s1 ++ s2)
  = list_ascii_of_string s1 ++ list_ascii_of_string s2.
Proof.
  induction s1 as [|c s1 IH]; [reflexivity|].
  cbn [String.append list_ascii_of_string app]. f_equal. exact IH.
Qed.

Lemma list_ascii_of_string_length (s : string) :
  length (list_ascii_of_string s) = String.length s.
Proof. induction s as [|c s IH]; cbn; [reflexivity|f_equal; exact IH]. Qed.

Lemma list_ascii_of_string_inj (s1 s2 : string) :
  list_ascii_of_string s1 = list_ascii_of_string s2 -> s1 = s2.
Proof.
  intros E. rewrite <- (string_of_list_ascii_of_string s1),
              <- (string_of_list_ascii_of_string s2), E. reflexivity.
Qed.

Lemma list_ascii_of_substring (n m : nat) (s : string) :
  list_ascii_of_string (substring n m s)
  = firstn m (skipn n (list_ascii_of_string s)).
Proof.
  revert n m. induction s as [|c s IH]; intros n m.
  - destruct n, m; reflexivity.
  - destruct n as [|n].
    + destruct m as [|m]; [reflexivity|].
      cbn [substring list_ascii_of_string skipn firstn]. f_equal.
      exact (IH 0%nat m).
    + cbn [substring list_ascii_of_string skipn]. exact (IH n m).
Qed.

Lemma get_nth_error (n : nat) (s : string) :
  String.get n s = nth_error (list_ascii_of_string s) n.
Proof.
  revert n. induction s as [|c s IH]; intros [|n]; try reflexivity.
  cbn [String.get list_ascii_of_string nth_error]. exact (IH n).
Qed.

Lemma occurs_at_app (p x q : list ascii) : occurs_at x (p ++ x ++ q) (length p).
Proof.
  unfold occurs_at. rewrite skipn_app, skipn_all, Nat.sub_diag. cbn [app skipn].
  rewrite firstn_app, firstn_all, Nat.sub_diag. cbn [firstn].
  apply app_nil_r.
Qed.

(** [s.index(x)] is the first position at which [x] stands in [s]. *)
Lemma index_first (x s : string) (n : nat) :
  x <> "" ->
  occurs_at (list_ascii_of_string x) (list_ascii_of_string s) n ->
  (forall p, (p < n)%nat ->
             ~ occurs_at (list_ascii_of_string x) (list_ascii_of_string s) p) ->
  Str.index s x = Ok n.
Proof.
  intros Hx Hn Hfirst. unfold Str.index.
  assert (Hsub : forall m,
            substring m (String.length x) s = x
            <-> occurs_at (list_ascii_of_string x) (list_ascii_of_string s) m).
  { intros m. unfold occurs_at. rewrite list_ascii_of_string_length.
    rewrite <- list_ascii_of_substring. split.
    - intros ->. reflexivity.
    - apply list_ascii_of_string_inj. }
  destruct (String.index 0 x s) as [m|] eqn:Ei.
  - f_equal. pose proof (index_correct1 _ _ _ _ Ei) as H1.
    pose proof (index_correct2 _ _ _ _ Ei) as H2.
    destruct (Nat.lt_trichotomy m n) as [Hlt|[E|Hgt]]; [|exact E|].
    + exfalso. apply (Hfirst m Hlt). apply Hsub. exact H1.
    + exfalso. apply (H2 n (Nat.le_0_l n) Hgt). apply Hsub. exact Hn.
  - exfalso. apply (index_correct3 0 n _ _ Ei Hx (Nat.le_0_l n)).
    apply Hsub. exact Hn.
Qed.

Lemma getitem_nth_error (s : string) (i : nat) (c : ascii) :
  nth_error (list_ascii_of_string s) i = Some c ->
  Str.getitem s (Z.of_nat i) = Ok c.
Proof.
  intros Hc. unfold Str.getitem.
  assert (Hi : (i < String.length s)%nat).
  { rewrite <- list_ascii_of_string_length. apply nth_error_Some.
    rewrite Hc. discriminate. }
  destruct (Z.ltb_spec (Z.of_nat i) 0); [lia|].
  destruct (Z.leb_spec 0 (Z.of_nat i)); [|lia].
  destruct (Z.ltb_spec (Z.of_nat i) (Z.of_nat (String.length s))); [|lia].
  cbn [andb]. rewrite Nat2Z.id, get_nth_error, Hc. reflexivity.
Qed.

End StringLists.

(** ** The names of a relation *)

Section Runs.

Lemma runs_class (cls : ascii -> bool) (X cur rest : list ascii) :
  forallb cls X = true ->
  Str.runs cls cur (X ++ rest) = Str.runs cls (rev X ++ cur) rest.
Proof.
  revert cur. induction X as [|c X IH]; intros cur HX; [reflexivity|].
  cbn [forallb] in HX. apply andb_true_iff in HX as [Hc HX].
  cbn [app Str.runs]. rewrite Hc, (IH (c :: cur) HX). cbn [rev].
  rewrite <- app_assoc. reflexivity.
Qed.

Lemma runs_other (cls : ascii -> bool) (X rest : list ascii) :
  forallb (fun c => negb (cls c)) X = true ->
  Str.runs cls [] (X ++ rest) = Str.runs cls [] rest.
Proof.
  induction X as [|c X IH]; intros HX; [reflexivity|].
  cbn [forallb] in HX. apply andb_true_iff in HX as [Hc HX].
  apply negb_true_iff in Hc. cbn [app Str.runs]. rewrite Hc.
  cbn [app]. exact (IH HX).
Qed.

(** A run of the class that a character outside the class ends. *)
Lemma runs_name (cls : ascii -> bool) (X rest : list ascii) (c : ascii) :
  X <> [] -> forallb cls X = true -> cls c = false ->
  Str.runs cls [] (X ++ c :: rest)
  = string_of_list_ascii X :: Str.runs cls [] rest.
Proof.
  intros Hne HX Hc. rewrite (runs_class cls X [] _ HX), app_nil_r.
  cbn [Str.runs]. rewrite Hc.
  destruct (rev X) as [|y t] eqn:E.
  - exfalso. apply Hne. rewrite <- (rev_involutive X), E. reflexivity.
  - rewrite <- E, rev_involutive. reflexivity.
Qed.

Lemma runs_last (cls : ascii -> bool) (X : list ascii) :
  X <> [] -> forallb cls X = true ->
  Str.runs cls [] X = [string_of_list_ascii X].
Proof.
  intros Hne HX. rewrite <- (app_nil_r X) at 1.
  rewrite (runs_class cls X [] [] HX), app_nil_r. cbn [Str.runs].
  destruct (rev X) as [|y t] eqn:E.
  - exfalso. apply Hne. rewrite <- (rev_involutive X), E. reflexivity.
  - rewrite <- E, rev_involutive. reflexivity.
Qed.

End Runs.

Section Relations.

Lemma digit_not_alpha (c : ascii) : Str.is_digit c = true -> Str.is_alpha c = false.
Proof.
  unfold Str.is_digit, Str.is_alpha, Str.is_lower, Str.is_upper, Str.between.
  intros Hc. apply andb_true_iff in Hc as [H1 H2].
  apply Nat.leb_le in H1. apply Nat.leb_le in H2.
  destruct (Nat.leb_spec 97 (nat_of_ascii c)); [lia|].
  destruct (Nat.leb_spec 65 (nat_of_ascii c)); [lia|]. reflexivity.
Qed.

Lemma alpha_not_digit (c : ascii) : Str.is_alpha c = true -> Str.is_digit c = false.
Proof.
  intros Ha. destruct (Str.is_digit c) eqn:Ed; [|reflexivity].
  rewrite (digit_not_alpha c Ed) in Ha. discriminate Ha.
Qed.

Lemma render_chars (r : Relation) :
  list_ascii_of_string (render r)
  = list_ascii_of_string (rel_key r)
    ++ "="%char :: factor_chars (rel_factor_a r)
    ++ list_ascii_of_string (rel_a r)
    ++ "+"%char :: factor_chars (rel_factor_b r)
    ++ list_ascii_of_string (rel_b r).
Proof.
  unfold render, render_term, factor_chars.
  destruct (rel_factor_a r), (rel_factor_b r);
    rewrite ?list_ascii_of_string_app; cbn [list_ascii_of_string app];
    rewrite <- ?app_assoc; reflexivity.
Qed.

Lemma factor_chars_not_alpha (factor : option string) :
  (forall digits, factor = Some digits -> is_number digits) ->
  forallb (fun c => negb (Str.is_alpha c)) (factor_chars factor) = true.
Proof.
  intros Hf. destruct factor as [digits|]; [|reflexivity].
  destruct (Hf digits eq_refl) as [_ Hd]. cbn [factor_chars].
  rewrite forallb_app. apply andb_true_iff. split; [|reflexivity].
  revert Hd. apply forallb_impl. intros c Hc.
  rewrite (digit_not_alpha c Hc). reflexivity.
Qed.

Lemma name_chars (s : string) :
  is_name s ->
  list_ascii_of_string s <> []
  /\ forallb Str.is_alpha (list_ascii_of_string s) = true.
Proof.
  intros [Hne Ha]. split; [|exact Ha].
  intros E. apply Hne. apply list_ascii_of_string_inj. exact E.
Qed.

(** [re.findall("[a-zA-Z]+", relation)] on a rendered relation. *)
Lemma relation_disassembly {max_str_digits : nat} (r : Relation) :
  well_formed max_str_digits r ->
  Str.findall_class Str.is_alpha (render r) = [rel_key r; rel_a r; rel_b r].
Proof.
  intros [Hk [Ha [Hb [Hfa [Hfb _]]]]].
  destruct (name_chars _ Hk) as [Hk1 Hk2].
  destruct (name_chars _ Ha) as [Ha1 Ha2].
  destruct (name_chars _ Hb) as [Hb1 Hb2].
  unfold Str.findall_class. rewrite render_chars.
  rewrite (runs_name Str.is_alpha _ _ "="%char Hk1 Hk2 eq_refl).
  rewrite (runs_other _ _ _ (factor_chars_not_alpha _ Hfa)).
  rewrite (runs_name Str.is_alpha _ _ "+"%char Ha1 Ha2 eq_refl).
  rewrite (runs_other _ _ _ (factor_chars_not_alpha _ Hfb)).
  rewrite (runs_last _ _ Hb1 Hb2).
  rewrite !string_of_list_ascii_of_string. reflexivity.
Qed.

End Relations.

(** ** Where a name stands in a relation *)

Section Occurrences.

Lemma string_of_list_ascii_app (l1 l2 : list ascii) :
  string_of_list_ascii (l1 ++ l2)
  = (string_of_list_ascii l1 ++ string_of_list_ascii l2)%string.
Proof.
  induction l1 as [|c l1 IH]; [reflexivity|].
  cbn [app string_of_list_ascii String.append]. f_equal. exact IH.
Qed.

Lemma occurs_at_shift (x p l : list ascii) (j : nat) :
  occurs_at x (p ++ l) (length p + j) <-> occurs_at x l j.
Proof.
  unfold occurs_at. rewrite skipn_app.
  rewrite (skipn_all2 p) by lia.
  replace (length p + j - length p)%nat with j by lia. reflexivity.
Qed.

Lemma not_contains_no_occurrence (x s : string) (j : nat) :
  x <> "" -> Str.contains s x = false ->
  ~ occurs_at (list_ascii_of_string x) (list_ascii_of_string s) j.
Proof.
  unfold Str.contains. intros Hne Hc Hocc.
  destruct (String.index 0 x s) eqn:Ei; [discriminate Hc|].
  apply (index_correct3 0 j _ _ Ei Hne (Nat.le_0_l j)).
  apply list_ascii_of_string_inj.
  rewrite list_ascii_of_substring, <- list_ascii_of_string_length.
  exact Hocc.
Qed.

(** No word of letters starts at a character that is no letter. *)
Lemma no_occurrence_other (x X rest : list ascii) (n : nat) :
  x <> [] -> forallb Str.is_alpha x = true ->
  forallb (fun c => negb (Str.is_alpha c)) X = true ->
  (forall j, (j < n)%nat -> ~ occurs_at x rest j) ->
  forall p, (p < length X + n)%nat -> ~ occurs_at x (X ++ rest) p.
Proof.
  intros Hne Hx HX Hrest p Hp Hocc.
  destruct (Nat.lt_ge_cases p (length X)) as [Hlt|Hge].
  - unfold occurs_at in Hocc. rewrite skipn_app in Hocc.
    destruct (skipn p X) as [|d Y] eqn:EY.
    { apply (f_equal (@length ascii)) in EY. rewrite length_skipn in EY.
      cbn in EY. lia. }
    destruct x as [|c x']; [exact (Hne eq_refl)|].
    cbn [length firstn app] in Hocc. injection Hocc as Ed _. subst d.
    cbn [forallb] in Hx. apply andb_true_iff in Hx as [Hc _].
    assert (Hin : In c X).
    { rewrite <- (firstn_skipn p X), EY. apply in_or_app. right. left.
      reflexivity. }
    rewrite forallb_forall in HX. specialize (HX c Hin).
    rewrite Hc in HX. discriminate HX.
  - apply (Hrest (p - length X)%nat); [lia|].
    apply (occurs_at_shift x X). replace (length X + (p - length X))%nat with p by lia.
    exact Hocc.
Qed.

(** A word of letters that starts inside a run of letters lies in it. *)
Lemma occurs_at_run (x X rest : list ascii) (c : ascii) (p : nat) :
  forallb Str.is_alpha x = true -> Str.is_alpha c = false ->
  (p < length X)%nat ->
  occurs_at x (X ++ c :: rest) p -> occurs_at x X p.
Proof.
  intros Hx Hc Hp Hocc. unfold occurs_at in *.
  rewrite skipn_app in Hocc.
  replace (p - length X)%nat with 0%nat in Hocc by lia. cbn [skipn] in Hocc.
  rewrite firstn_app in Hocc.
  destruct (Nat.le_gt_cases (length x) (length (skipn p X))) as [Hle|Hgt].
  - replace (length x - length (skipn p X))%nat with 0%nat in Hocc by lia.
    cbn [firstn] in Hocc. rewrite app_nil_r in Hocc. exact Hocc.
  - exfalso.
    destruct (length x - length (skipn p X))%nat as [|k] eqn:Ek; [lia|].
    cbn [firstn] in Hocc.
    assert (Hin : In c x).
    { rewrite <- Hocc. apply in_or_app. right. left. reflexivity. }
    rewrite forallb_forall in Hx. rewrite (Hx c Hin) in Hc. discriminate Hc.
Qed.

Lemma no_occurrence_run (x X rest : list ascii) (c : ascii) (n : nat) :
  forallb Str.is_alpha x = true -> Str.is_alpha c = false ->
  (forall j, ~ occurs_at x X j) ->
  (forall j, (j < n)%nat -> ~ occurs_at x (c :: rest) j) ->
  forall p, (p < length X + n)%nat -> ~ occurs_at x (X ++ c :: rest) p.
Proof.
  intros Hx Hc HX Hrest p Hp Hocc.
  destruct (Nat.lt_ge_cases p (length X)) as [Hlt|Hge].
  - exact (HX p (occurs_at_run _ _ _ _ _ Hx Hc Hlt Hocc)).
  - apply (Hrest (p - length X)%nat); [lia|].
    apply (occurs_at_shift x X). replace (length X + (p - length X))%nat with p by lia.
    exact Hocc.
Qed.

Lemma nth_error_middle {A : Type} (l1 l2 : list A) (a : A) :
  nth_error (l1 ++ a :: l2) (length l1) = Some a.
Proof.
  rewrite nth_error_app2 by lia. rewrite Nat.sub_diag. reflexivity.
Qed.

End Occurrences.

(** ** The scaling factor of a name *)

Section Factors.

Lemma span_run (cls : ascii -> bool) (X rest : list ascii) (c : ascii) :
  forallb cls X = true -> cls c = false ->
  Str.span cls (X ++ c :: rest) = (X, c :: rest).
Proof.
  intros HX Hc. induction X as [|d X IH].
  - cbn [app Str.span]. rewrite Hc. reflexivity.
  - cbn [forallb] in HX. apply andb_true_iff in HX as [Hd HX].
    cbn [app Str.span]. rewrite Hd, (IH HX). reflexivity.
Qed.

Lemma match_factor_other (name : string) (c : ascii) (s : list ascii) :
  Str.is_digit c = false -> Str.match_factor name (c :: s) = None.
Proof.
  intros Hc. unfold Str.match_factor. cbn [Str.span]. rewrite Hc. reflexivity.
Qed.

Lemma match_factor_digits (name : string) (D rest : list ascii) :
  D <> [] -> forallb Str.is_digit D = true ->
  Str.match_factor name (D ++ "*"%char :: rest)
  = if String.prefix name (string_of_list_ascii rest) then Some D else None.
Proof.
  intros Hne HD. unfold Str.match_factor.
  rewrite (span_run Str.is_digit D rest "*"%char HD eq_refl).
  destruct D as [|d D']; [exfalso; exact (Hne eq_refl)|].
  cbn [string_of_list_ascii String.prefix].
  destruct (ascii_dec "*" "*") as [_|Hn]; [reflexivity|].
  exfalso. exact (Hn eq_refl).
Qed.

Lemma findall_skip_other (name : string) (pre s : list ascii) :
  forallb (fun c => negb (Str.is_digit c)) pre = true ->
  Str.findall_factor_from name 0 (pre ++ s) = Str.findall_factor_from name 0 s.
Proof.
  induction pre as [|c pre IH]; intros Hpre; [reflexivity|].
  cbn [forallb] in Hpre. apply andb_true_iff in Hpre as [Hc Hpre].
  apply negb_true_iff in Hc.
  cbn [app Str.findall_factor_from].
  rewrite (match_factor_other name c (pre ++ s) Hc). exact (IH Hpre).
Qed.

Lemma findall_skip_digits (name : string) (D rest : list ascii) :
  forallb Str.is_digit D = true ->
  String.prefix name (string_of_list_ascii rest) = false ->
  Str.findall_factor_from name 0 (D ++ "*"%char :: rest)
  = Str.findall_factor_from name 0 ("*"%char :: rest).
Proof.
  intros HD Hp. induction D as [|d D IH]; [reflexivity|].
  assert (HD' := HD). cbn [forallb] in HD'.
  apply andb_true_iff in HD' as [_ HD'].
  change ((d :: D) ++ "*"%char :: rest) with (d :: (D ++ "*"%char :: rest)).
  cbn [Str.findall_factor_from].
  change (d :: (D ++ "*"%char :: rest)) with ((d :: D) ++ "*"%char :: rest).
  rewrite (match_factor_digits name (d :: D) rest) by (assumption || discriminate).
  rewrite Hp. exact (IH HD').
Qed.

Lemma findall_head (name : string) (D rest : list ascii) :
  D <> [] -> forallb Str.is_digit D = true ->
  String.prefix name (string_of_list_ascii rest) = true ->
  exists more,
    Str.findall_factor_from name 0 (D ++ "*"%char :: rest)
    = string_of_list_ascii D :: more.
Proof.
  intros Hne HD Hp.
  pose proof (match_factor_digits name D rest Hne HD) as Hm. rewrite Hp in Hm.
  destruct D as [|d D']; [exfalso; exact (Hne eq_refl)|].
  change ((d :: D') ++ "*"%char :: rest) with (d :: (D' ++ "*"%char :: rest)) in *.
  cbn [Str.findall_factor_from]. rewrite Hm. eexists. reflexivity.
Qed.

Lemma prefix_occurs_at (x s : string) :
  String.prefix x s = true
  <-> occurs_at (list_ascii_of_string x) (list_ascii_of_string s) 0.
Proof.
  rewrite prefix_correct. unfold occurs_at.
  rewrite list_ascii_of_string_length, <- list_ascii_of_substring. split.
  - intros ->. reflexivity.
  - apply list_ascii_of_string_inj.
Qed.

Lemma prefix_app (x s : string) : String.prefix x (x ++ s) = true.
Proof.
  induction x as [|c x IH]; [destruct s; reflexivity|].
  cbn [String.append String.prefix].
  destruct (ascii_dec c c) as [_|Hn]; [exact IH|exfalso; exact (Hn eq_refl)].
Qed.

Lemma number_chars (s : string) :
  is_number s ->
  list_ascii_of_string s <> []
  /\ forallb Str.is_digit (list_ascii_of_string s) = true.
Proof.
  intros [Hne Hd]. split; [|exact Hd].
  intros E. apply Hne. apply list_ascii_of_string_inj. exact E.
Qed.

(** The inner loop body of [extract_pr_loop_info] on one term
    [factor*name] of a relation, [pre] and [c] being what stands before the
    term and [post] what follows it. *)
Lemma scaling_factor_of_term {max_str_digits : nat}
    (relation name : string) (factor : option string)
    (pre post : list ascii) (c : ascii) :
  list_ascii_of_string relation
  = pre ++ c :: factor_chars factor ++ list_ascii_of_string name ++ post ->
  is_name name ->
  (forall digits, factor = Some digits -> is_number digits) ->
  (forall digits, factor = Some digits ->
     within_int_limit max_str_digits digits = true) ->
  c <> "*"%char -> Str.is_digit c = false ->
  (forall p, (p < length pre + 1 + length (factor_chars factor))%nat ->
             ~ occurs_at (list_ascii_of_string name)
                 (list_ascii_of_string relation) p) ->
  Str.findall_factor_from name 0
    (pre ++ c :: factor_chars factor ++ list_ascii_of_string name ++ post)
  = Str.findall_factor_from name 0
      (c :: factor_chars factor ++ list_ascii_of_string name ++ post) ->
  scaling_factor_of max_str_digits relation name = Ok (factor_value factor).
Proof.
  intros Hrel Hname Hfactor Hlimit Hc Hcd Hfirst Hskip.
  destruct (name_chars _ Hname) as [Hn1 Hn2].
  assert (Hindex : Str.index relation name
                   = Ok (length pre + 1 + length (factor_chars factor))%nat).
  { apply index_first; [exact (proj1 Hname)| |exact Hfirst].
    rewrite Hrel.
    replace (pre ++ c :: factor_chars factor ++ list_ascii_of_string name ++ post)
      with ((pre ++ c :: factor_chars factor)
            ++ list_ascii_of_string name ++ post)
      by (rewrite <- app_assoc; reflexivity).
    replace (length pre + 1 + length (factor_chars factor))%nat
      with (length (pre ++ c :: factor_chars factor))
      by (rewrite length_app; cbn [length]; lia).
    apply occurs_at_app. }
  unfold scaling_factor_of. rewrite Hindex. cbn [Py.bind].
  destruct factor as [digits|]; cbn [factor_chars factor_value] in *.
  - destruct (number_chars _ (Hfactor digits eq_refl)) as [Hd1 Hd2].
    destruct (exists_last Hd1) as [D' [dl ED]].
    assert (Hdl : Str.is_digit dl = true).
    { rewrite forallb_forall in Hd2. apply Hd2. rewrite ED.
      apply in_or_app. right. left. reflexivity. }
    rewrite length_app. cbn [length].
    replace (Z.of_nat (length pre + 1 + (length (list_ascii_of_string digits) + 1)) - 1)
      with (Z.of_nat (length (pre ++ c :: list_ascii_of_string digits))).
    2:{ rewrite length_app. cbn [length]. lia. }
    rewrite (getitem_nth_error relation _ "*"%char).
    2:{ rewrite Hrel.
        replace (pre ++ c :: (list_ascii_of_string digits ++ ["*"%char])
                 ++ list_ascii_of_string name ++ post)
          with ((pre ++ c :: list_ascii_of_string digits)
                ++ "*"%char :: list_ascii_of_string name ++ post)
          by (rewrite <- !app_assoc; reflexivity).
        apply nth_error_middle. }
    cbn [Py.bind]. change (Ascii.eqb "*" "*") with true. cbn match.
    replace (Z.of_nat (length pre + 1 + (length (list_ascii_of_string digits) + 1)) - 2)
      with (Z.of_nat (length (pre ++ c :: D'))).
    2:{ rewrite ED. repeat (rewrite length_app || cbn [length]). lia. }
    rewrite (getitem_nth_error relation _ dl).
    2:{ rewrite Hrel, ED.
        replace (pre ++ c :: ((D' ++ [dl]) ++ ["*"%char])
                 ++ list_ascii_of_string name ++ post)
          with ((pre ++ c :: D')
                ++ dl :: "*"%char :: list_ascii_of_string name ++ post)
          by (rewrite <- !app_assoc; reflexivity).
        apply nth_error_middle. }
    cbn [Py.bind]. rewrite Hdl. cbn [negb].
    unfold Str.findall_factor. rewrite Hrel.
    rewrite Hskip.
    change (c :: (list_ascii_of_string digits ++ ["*"%char])
            ++ list_ascii_of_string name ++ post)
      with ([c] ++ (list_ascii_of_string digits ++ ["*"%char])
            ++ list_ascii_of_string name ++ post).
    rewrite findall_skip_other by (cbn [forallb]; rewrite Hcd; reflexivity).
    rewrite <- app_assoc. cbn [app].
    destruct (findall_head name (list_ascii_of_string digits)
                (list_ascii_of_string name ++ post) Hd1 Hd2) as [more Hmore].
    { rewrite string_of_list_ascii_app, string_of_list_ascii_of_string.
      apply prefix_app. }
    rewrite Hmore. cbn [Py.getitem nth_error Py.bind].
    rewrite string_of_list_ascii_of_string.
    rewrite (to_int_digits max_str_digits digits
               (proj1 (Hfactor digits eq_refl)) Hd2).
    rewrite (Hlimit digits eq_refl). reflexivity.
  - cbn [length app]. rewrite Nat.add_0_r.
    replace (Z.of_nat (length pre + 1) - 1) with (Z.of_nat (length pre)) by lia.
    rewrite (getitem_nth_error relation _ c).
    2:{ rewrite Hrel. cbn [app]. apply nth_error_middle. }
    cbn [Py.bind].
    destruct (Ascii.eqb_spec c "*"%char) as [E|_]; [exfalso; exact (Hc E)|].
    reflexivity.
Qed.

End Factors.

(** ** Relations as [extract_pr_loop_info] reads them *)

Section ReadRelations.

Lemma alpha_chars_not_digit (X : list ascii) :
  forallb Str.is_alpha X = true ->
  forallb (fun c => negb (Str.is_digit c)) X = true.
Proof.
  apply forallb_impl. intros c Hc. rewrite (alpha_not_digit c Hc). reflexivity.
Qed.

Lemma scaling_factor_of_first {max_str_digits : nat} (r : Relation) :
  well_formed max_str_digits r ->
  scaling_factor_of max_str_digits (render r) (rel_a r) = Ok (factor_value (rel_factor_a r)).
Proof.
  intros [Hk [Ha [Hb [Hfa [Hfb [Hka [Hkb [Hab [Hla Hlb]]]]]]]]].
  destruct (name_chars _ Hk) as [Hk1 Hk2].
  destruct (name_chars _ Ha) as [Ha1 Ha2].
  apply (scaling_factor_of_term (render r) (rel_a r) (rel_factor_a r)
           (list_ascii_of_string (rel_key r))
           ("+"%char :: factor_chars (rel_factor_b r)
              ++ list_ascii_of_string (rel_b r)) "="%char).
  - apply render_chars.
  - exact Ha.
  - exact Hfa.
  - exact Hla.
  - discriminate.
  - reflexivity.
  - rewrite render_chars. rewrite <- Nat.add_assoc.
    apply (no_occurrence_run _ _ _ "="%char _ Ha2 eq_refl).
    + intros j. apply not_contains_no_occurrence; [exact (proj1 Ha)|exact Hka].
    + intros j Hj.
      change ("="%char :: factor_chars (rel_factor_a r)
              ++ list_ascii_of_string (rel_a r)
              ++ "+"%char :: factor_chars (rel_factor_b r)
              ++ list_ascii_of_string (rel_b r))
        with (("="%char :: factor_chars (rel_factor_a r))
              ++ list_ascii_of_string (rel_a r)
              ++ "+"%char :: factor_chars (rel_factor_b r)
              ++ list_ascii_of_string (rel_b r)).
      apply (no_occurrence_other _ _ _ 0 Ha1 Ha2).
      * cbn [forallb]. exact (factor_chars_not_alpha _ Hfa).
      * intros j' Hj'. lia.
      * cbn [length]. lia.
  - apply findall_skip_other. exact (alpha_chars_not_digit _ Hk2).
Qed.

Lemma scaling_factor_of_second {max_str_digits : nat} (r : Relation) :
  well_formed max_str_digits r ->
  scaling_factor_of max_str_digits (render r) (rel_b r) = Ok (factor_value (rel_factor_b r)).
Proof.
  intros [Hk [Ha [Hb [Hfa [Hfb [Hka [Hkb [Hab [Hla Hlb]]]]]]]]].
  destruct (name_chars _ Hk) as [Hk1 Hk2].
  destruct (name_chars _ Ha) as [Ha1 Ha2].
  destruct (name_chars _ Hb) as [Hb1 Hb2].
  set (K := list_ascii_of_string (rel_key r)) in *.
  set (A := list_ascii_of_string (rel_a r)) in *.
  set (B := list_ascii_of_string (rel_b r)) in *.
  set (Fa := factor_chars (rel_factor_a r)) in *.
  set (Fb := factor_chars (rel_factor_b r)) in *.
  assert (Hrel : list_ascii_of_string (render r)
                 = (K ++ "="%char :: Fa ++ A) ++ "+"%char :: Fb ++ B ++ []).
  { rewrite render_chars, app_nil_r. fold K A B Fa Fb.
    rewrite <- app_assoc. cbn [app]. rewrite <- app_assoc. reflexivity. }
  assert (HnoA : forall j, ~ occurs_at B A j).
  { intros j. apply not_contains_no_occurrence; [exact (proj1 Hb)|exact Hab]. }
  apply (scaling_factor_of_term (render r) (rel_b r) (rel_factor_b r)
           (K ++ "="%char :: Fa ++ A) [] "+"%char).
  - exact Hrel.
  - exact Hb.
  - exact Hfb.
  - exact Hlb.
  - discriminate.
  - reflexivity.
  - rewrite render_chars. fold K A B Fa Fb.
    intros p Hp. rewrite length_app in Hp. cbn [length] in Hp.
    rewrite length_app in Hp.
    apply (no_occurrence_run B K _ "="%char
             (1 + length Fa + (length A + (1 + length Fb))) Hb2 eq_refl);
      [ |clear p Hp|lia].
    + intros j. apply not_contains_no_occurrence; [exact (proj1 Hb)|exact Hkb].
    + intros p Hp.
      change ("="%char :: Fa ++ A ++ "+"%char :: Fb ++ B)
        with (("="%char :: Fa) ++ A ++ "+"%char :: Fb ++ B).
      apply (no_occurrence_other B _ _ (length A + (1 + length Fb)) Hb1 Hb2);
        [ |clear p Hp|cbn [length]; lia].
      * cbn [forallb]. exact (factor_chars_not_alpha _ Hfa).
      * intros p Hp.
        apply (no_occurrence_run B A _ "+"%char (1 + length Fb) Hb2 eq_refl);
          [exact HnoA|clear p Hp|exact Hp].
        intros p Hp.
        change ("+"%char :: Fb ++ B) with (("+"%char :: Fb) ++ B).
        apply (no_occurrence_other B _ _ 0 Hb1 Hb2);
          [ | |cbn [length]; lia].
        -- cbn [forallb]. exact (factor_chars_not_alpha _ Hfb).
        -- intros j Hj. lia.
  - fold B Fb. set (s := "+"%char :: Fb ++ B ++ []).
    replace ((K ++ "="%char :: Fa ++ A) ++ s)
      with ((K ++ ["="%char]) ++ Fa ++ A ++ s)
      by (repeat (rewrite <- app_assoc; cbn [app]); reflexivity).
    rewrite findall_skip_other.
    2:{ rewrite forallb_app, (alpha_chars_not_digit _ Hk2). reflexivity. }
    subst Fa. destruct (rel_factor_a r) as [digits|] eqn:Efa;
      cbn [factor_chars app].
    + destruct (number_chars _ (Hfa digits eq_refl)) as [Hd1 Hd2].
      rewrite <- app_assoc. cbn [app].
      rewrite findall_skip_digits; [|exact Hd2|].
      * change ("*"%char :: A ++ s) with (("*"%char :: A) ++ s).
        apply findall_skip_other. cbn [forallb].
        exact (alpha_chars_not_digit _ Ha2).
      * destruct (String.prefix (rel_b r) (string_of_list_ascii (A ++ s)))
          eqn:Ep; [|reflexivity].
        exfalso. apply prefix_occurs_at in Ep.
        rewrite list_ascii_of_string_of_list_ascii in Ep. fold B in Ep.
        apply (HnoA 0%nat).
        apply (occurs_at_run B A (Fb ++ B ++ []) "+"%char 0 Hb2 eq_refl);
          [|exact Ep].
        destruct A; [exfalso; exact (Ha1 eq_refl)|cbn [length]; lia].
    + apply findall_skip_other. exact (alpha_chars_not_digit _ Ha2).
Qed.

(** The names of a well-formed relation differ. *)
Lemma contains_self (s : string) : s <> "" -> Str.contains s s = true.
Proof.
  intros Hne. unfold Str.contains.
  destruct (String.index 0 s s) eqn:Ei; [reflexivity|].
  exfalso. apply (index_correct3 0 0 _ _ Ei Hne (Nat.le_0_l 0)).
  apply prefix_correct. clear Ei Hne.
  induction s as [|c s IH]; [reflexivity|].
  cbn [String.prefix].
  destruct (ascii_dec c c) as [_|Hn]; [exact IH|exfalso; exact (Hn eq_refl)].
Qed.

(** One turn of the loop of [extract_pr_loop_info]. *)
Lemma extract_pr_loop_info_step {max_str_digits : nat}
    (r : Relation) (rest : list string)
    (pr_loop : PrLoop) (pr_loop_list : LoopList)
    (pr_scaling_factors : PrScalingFactors)
    (body : PrLoop * LoopList * PrScalingFactors -> string
            -> res (PrLoop * LoopList * PrScalingFactors)) :
  well_formed max_str_digits r ->
  body = (fun '(pr_loop, pr_loop_list, pr_scaling_factors) relation =>
       let relation_disassembly := Str.findall_class Str.is_alpha relation in
       Py.py_assert (List.length relation_disassembly =? 3)%nat ;;;
       key <- Py.getitem (map Str.upper relation_disassembly) 0 ;;
       let val := map Str.upper (tl relation_disassembly) in
       let pr_loop := Dict.set pr_loop key val in
       let pr_loop_list := pr_loop_list ++ (key :: val) in
       scaling_factors <-
         for_each (tl relation_disassembly) Dict.empty
           (fun scaling_factors val_lower =>
              f <- scaling_factor_of max_str_digits relation val_lower ;;
              Ok (Dict.set scaling_factors val_lower f)) ;;
       Py.py_assert (List.length scaling_factors =? 2)%nat ;;;
       Ok (pr_loop, pr_loop_list, Dict.set pr_scaling_factors key scaling_factors)) ->
  body (pr_loop, pr_loop_list, pr_scaling_factors) (render r)
  = Ok (Dict.set pr_loop (Str.upper (rel_key r))
          [Str.upper (rel_a r); Str.upper (rel_b r)],
        pr_loop_list
          ++ [Str.upper (rel_key r); Str.upper (rel_a r); Str.upper (rel_b r)],
        Dict.set pr_scaling_factors (Str.upper (rel_key r))
          [(rel_a r, factor_value (rel_factor_a r));
           (rel_b r, factor_value (rel_factor_b r))]).
Proof.
  intros Hr ->. cbv zeta.
  rewrite (relation_disassembly r Hr).
  cbn [length Nat.eqb Py.py_assert Py.bind map Py.getitem nth_error tl for_each].
  rewrite (scaling_factor_of_first r Hr). cbn [Py.bind Dict.set Dict.empty].
  rewrite (scaling_factor_of_second r Hr). cbn [Py.bind].
  destruct Hr as [_ [Ha [_ [_ [_ [_ [_ [Hab _]]]]]]]].
  assert (Hne : String.eqb (rel_a r) (rel_b r) = false).
  { destruct (String.eqb_spec (rel_a r) (rel_b r)) as [E|_]; [|reflexivity].
    rewrite <- E, (contains_self _ (proj1 Ha)) in Hab. discriminate Hab. }
  cbn [Dict.set py_eqb PyEq_string]. rewrite Hne. reflexivity.
Qed.

End ReadRelations.

Section ReadAll.

Lemma extract_pr_loop_info_loop (max_str_digits : nat)
    (body : PrLoop * LoopList * PrScalingFactors -> string
            -> res (PrLoop * LoopList * PrScalingFactors))
    (rels : list Relation)
    (pr_loop : PrLoop) (pr_loop_list : LoopList)
    (pr_scaling_factors : PrScalingFactors) :
  (forall r acc1 acc2 acc3, well_formed max_str_digits r ->
     body (acc1, acc2, acc3) (render r)
     = Ok (Dict.set acc1 (fst (relation_loop r)) (snd (relation_loop r)),
           acc2 ++ fst (relation_loop r) :: snd (relation_loop r),
           Dict.set acc3 (fst (relation_factors r)) (snd (relation_factors r)))) ->
  Forall (well_formed max_str_digits) rels ->
  for_each (map render rels) (pr_loop, pr_loop_list, pr_scaling_factors) body
  = Ok (fold_left (fun d kv => Dict.set d (fst kv) (snd kv))
          (map relation_loop rels) pr_loop,
        pr_loop_list
          ++ flat_map (fun r => fst (relation_loop r) :: snd (relation_loop r))
               rels,
        fold_left (fun d kv => Dict.set d (fst kv) (snd kv))
          (map relation_factors rels) pr_scaling_factors).
Proof.
  intros Hbody Hrels. revert pr_loop pr_loop_list pr_scaling_factors.
  induction Hrels as [|r rels Hr Hrels IH]; intros d1 l d3.
  - cbn [map for_each fold_left flat_map]. rewrite app_nil_r. reflexivity.
  - cbn [map for_each fold_left flat_map]. rewrite (Hbody r d1 l d3 Hr).
    cbn [Py.bind]. rewrite IH. rewrite <- app_assoc. reflexivity.
Qed.

End ReadAll.

(** [extract_pr_loop_info] reads relations written [key=fa*a+fb*b], a
    factor being a number that may be left out, as they are meant when in
    each of them the name [a] is no part of the key, the name [b] is no
    part of the key or of [a], and no factor has more digits than [int]
    converts: it raises nothing, [pr_loop] maps each key, in capitals, to
    its two names in capitals, [pr_loop_list] lists key and names relation
    after relation, and [pr_scaling_factors] maps each key to the factors of
    its two names as written, a factor left out being 1. *)
Theorem extract_pr_loop_info_reads_relations {max_str_digits : nat}
    (rels : list Relation) :
  Forall (well_formed max_str_digits) rels ->
  extract_pr_loop_info max_str_digits (map render rels)
  = Ok (Dict.of_items (map relation_loop rels),
        flat_map (fun r => fst (relation_loop r) :: snd (relation_loop r)) rels,
        Dict.of_items (map relation_factors rels)).
Proof.
  intros Hrels. unfold extract_pr_loop_info, Dict.of_items.
  rewrite (extract_pr_loop_info_loop max_str_digits _ rels Dict.empty []
             Dict.empty);
    [reflexivity| |exact Hrels].
  intros r acc1 acc2 acc3 Hr.
  exact (extract_pr_loop_info_step r [] acc1 acc2 acc3 _ Hr eq_refl).
Qed.

Lemma extract_pr_loop_info_reads_relations_witness :
  Forall (well_formed 4300) example_relations
  /\ map render example_relations = ["ix=ox+fx"; "iy=2*oy+13*fy"]
  /\ extract_pr_loop_info 4300 ["ix=ox+fx"; "iy=2*oy+13*fy"]
     = Ok ([("IX", ["OX"; "FX"]); ("IY", ["OY"; "FY"])],
           ["IX"; "OX"; "FX"; "IY"; "OY"; "FY"],
           [("IX", [("ox", 1); ("fx", 1)]); ("IY", [("oy", 2); ("fy", 13)])]).
Proof.
  assert (Hwf : Forall (well_formed 4300) example_relations).
  { assert (Hname : forall s,
              s <> "" -> forallb Str.is_alpha (list_ascii_of_string s) = true ->
              is_name s) by (intros s H1 H2; split; assumption).
    apply Forall_cons; [|apply Forall_cons; [|apply Forall_nil]].
    - split; [apply Hname; [discriminate|reflexivity]|].
      split; [apply Hname; [discriminate|reflexivity]|].
      split; [apply Hname; [discriminate|reflexivity]|].
      split; [intros digits E; discriminate E|].
      split; [intros digits E; discriminate E|].
      split; [reflexivity|]. split; [reflexivity|]. split; [reflexivity|].
      split; intros digits E; discriminate E.
    - split; [apply Hname; [discriminate|reflexivity]|].
      split; [apply Hname; [discriminate|reflexivity]|].
      split; [apply Hname; [discriminate|reflexivity]|].
      split; [intros digits E; injection E as <-;
              split; [discriminate|reflexivity]|].
      split; [intros digits E; injection E as <-;
              split; [discriminate|reflexivity]|].
      split; [reflexivity|]. split; [reflexivity|]. split; [reflexivity|].
      split; intros digits E; injection E as <-; reflexivity. }
  split; [exact Hwf|]. split; [reflexivity|].
  exact (extract_pr_loop_info_reads_relations example_relations Hwf).
Defined.

(** ** [DNNWorkload.__init__]: the edges of the graph *)

Section WorkloadGraph.

Context {Any LayerAttributes LayerNode : Type}.
Variable parse_user_input : @DNNWorkload.LayerData Any -> res LayerAttributes.
Variable new_layer_node : Z -> LayerAttributes -> string -> res LayerNode.
Variable max_str_digits : nat.

Lemma edges_inner_loop (d : Dict.t Z LayerNode) (node : LayerNode)
    (ps : list Z) (edges : list (LayerNode * LayerNode)) :
  for_each ps edges
    (fun edges parent_id =>
       DNNWorkload.assert_with (Dict.contains d parent_id)
                               (Str.of_int max_str_digits parent_id) ;;;
       parent_layer <- Dict.getitem d parent_id ;;
       Ok (edges ++ [(parent_layer, node)]))
  = match find (fun p => negb (Dict.contains d p)) ps with
    | None => Ok (edges ++ edge_list d node ps)
    | Some p => Raise (reference_error max_str_digits p)
    end.
Proof.
  revert edges. induction ps as [|p ps IH]; intros edges.
  - cbn. rewrite app_nil_r. reflexivity.
  - cbn [for_each find edge_list flat_map].
    destruct (Dict.get d p) as [v|] eqn:Eg.
    + assert (Ec : Dict.contains d p = true)
        by (unfold Dict.contains; rewrite Eg; reflexivity).
      assert (Ei : Dict.getitem d p = Ok v)
        by (unfold Dict.getitem; rewrite Eg; reflexivity).
      rewrite Ec, Ei. cbn [DNNWorkload.assert_with Py.bind negb].
      rewrite IH. unfold edge_list. rewrite <- app_assoc. reflexivity.
    + assert (Ec : Dict.contains d p = false)
        by (unfold Dict.contains; rewrite Eg; reflexivity).
      rewrite Ec. cbn [DNNWorkload.assert_with negb]. unfold reference_error.
      destruct (Str.of_int max_str_digits p); reflexivity.
Qed.

Lemma find_app {A : Type} (f : A -> bool) (l1 l2 : list A) :
  find f (l1 ++ l2)
  = match find f l1 with
    | Some x => Some x
    | None => find f l2
    end.
Proof.
  induction l1 as [|x l1 IH]; [reflexivity|].
  cbn [app find]. destruct (f x); [reflexivity|exact IH].
Qed.

Lemma edges_outer_loop (d : Dict.t Z LayerNode) (node : LayerNode)
    (srcs : list (string * list Z)) (edges : list (LayerNode * LayerNode)) :
  for_each srcs edges
    (fun edges '(_, parent_list) =>
       for_each parent_list edges
         (fun edges parent_id =>
            DNNWorkload.assert_with (Dict.contains d parent_id)
                                    (Str.of_int max_str_digits parent_id) ;;;
            parent_layer <- Dict.getitem d parent_id ;;
            Ok (edges ++ [(parent_layer, node)])))
  = match find (fun p => negb (Dict.contains d p)) (flat_map snd srcs) with
    | None => Ok (edges ++ edge_list d node (flat_map snd srcs))
    | Some p => Raise (reference_error max_str_digits p)
    end.
Proof.
  revert edges. induction srcs as [|[k pl] srcs IH]; intros edges.
  - cbn. rewrite app_nil_r. reflexivity.
  - cbn [for_each flat_map snd]. rewrite edges_inner_loop, find_app.
    destruct (find _ pl); cbn [Py.bind]; [reflexivity|].
    rewrite IH. unfold edge_list. rewrite flat_map_app, app_assoc.
    reflexivity.
Qed.

Lemma edges_of_spec (d : Dict.t Z LayerNode)
    (layer : @DNNWorkload.LayerData Any) (node : LayerNode) :
  DNNWorkload.edges_of max_str_digits d layer node
  = match find (fun p => negb (Dict.contains d p)) (parents layer) with
    | None => Ok (edge_list d node (parents layer))
    | Some p => Raise (reference_error max_str_digits p)
    end.
Proof.
  unfold DNNWorkload.edges_of, parents. rewrite edges_outer_loop.
  reflexivity.
Qed.

Lemma of_int_cases (z : Z) :
  (exists number, Str.of_int max_str_digits z = Ok number)
  \/ Str.of_int max_str_digits z = Raise ValueError.
Proof.
  unfold Str.of_int. destruct (_ && _)%bool; [right|left; eexists]; reflexivity.
Qed.

Lemma edge_list_In (d : Dict.t Z LayerNode) (node : LayerNode) (ps : list Z)
    (parent child : LayerNode) :
  In (parent, child) (edge_list d node ps) ->
  child = node /\ exists id, In id ps /\ Dict.get d id = Some parent.
Proof.
  unfold edge_list. rewrite in_flat_map. intros [id [Hid Hin]].
  destruct (Dict.get d id) as [v|] eqn:Eg; [|destruct Hin].
  destruct Hin as [E|[]]. injection E as <- <-.
  split; [reflexivity|]. exists id. split; assumption.
Qed.

End WorkloadGraph.

Section WorkloadGraphInvariant.

Context {Any LayerAttributes LayerNode : Type}.
Variable parse_user_input : @DNNWorkload.LayerData Any -> res LayerAttributes.
Variable new_layer_node : Z -> LayerAttributes -> string -> res LayerNode.
Variable max_str_digits : nat.

Lemma edges_point_back_snoc (evs : list (@DNNWorkload.Event LayerNode))
    (x : @DNNWorkload.Event LayerNode) :
  edges_point_back evs ->
  (forall es, x = DNNWorkload.AddEdges es ->
     exists evs0 n,
       evs = evs0 ++ [DNNWorkload.AddNode n]
       /\ forall parent child, In (parent, child) es ->
            child = n
            /\ exists j, nth_error evs j = Some (DNNWorkload.AddNode parent)) ->
  edges_point_back (evs ++ [x]).
Proof.
  intros Hb Hx i es Hi.
  destruct (Nat.lt_ge_cases i (length evs)) as [Hlt|Hge].
  - rewrite nth_error_app1 in Hi by exact Hlt.
    destruct (Hb i es Hi) as [Hpos [n [Hn Hall]]].
    split; [exact Hpos|]. exists n. split.
    + rewrite nth_error_app1 by lia. exact Hn.
    + intros parent child Hin.
      destruct (Hall parent child Hin) as [-> [j [Hj Hjn]]].
      split; [reflexivity|]. exists j. split; [exact Hj|].
      rewrite nth_error_app1 by lia. exact Hjn.
  - rewrite nth_error_app2 in Hi by exact Hge.
    destruct (i - length evs)%nat as [|k] eqn:Ek;
      [|destruct k; discriminate Hi].
    cbn [nth_error] in Hi. injection Hi as ->.
    destruct (Hx es eq_refl) as [evs0 [n [Eevs Hall]]].
    assert (Ei : i = S (length evs0)).
    { assert (Hl : length evs = S (length evs0))
        by (rewrite Eevs, length_app; cbn [length]; lia).
      lia. }
    split; [lia|]. exists n. split.
    + rewrite Ei. cbn [pred]. rewrite Eevs, <- app_assoc.
      apply nth_error_middle.
    + intros parent child Hin.
      destruct (Hall parent child Hin) as [-> [j Hjn]].
      split; [reflexivity|]. exists j.
      assert (Hj : (j < length evs)%nat)
        by (apply nth_error_Some; rewrite Hjn; discriminate).
      split; [lia|]. rewrite nth_error_app1 by exact Hj. exact Hjn.
Qed.

Lemma added_nodes_app (evs1 evs2 : list (@DNNWorkload.Event LayerNode)) :
  added_nodes (evs1 ++ evs2) = added_nodes evs1 ++ added_nodes evs2.
Proof. unfold added_nodes. apply flat_map_app. Qed.

Lemma run_layer_invariant (mapping : Dict.t string (@DNNWorkload.LayerData Any))
    (st : @DNNWorkload.State LayerNode) (layer_id : Z)
    (layer : @DNNWorkload.LayerData Any) :
  graph_invariant st ->
  graph_invariant
    (fst (DNNWorkload.run_layer parse_user_input new_layer_node max_str_digits
            mapping st layer_id layer)).
Proof.
  intros [Htable [Hlist Hback]]. unfold DNNWorkload.run_layer.
  destruct (DNNWorkload.build _ _ _ _ _ _) as [[layer' node]|e];
    [|exact (conj Htable (conj Hlist Hback))].
  set (st1 := {| DNNWorkload.layer_id_to_obj :=
                   Dict.set (DNNWorkload.layer_id_to_obj st) layer_id node;
                 DNNWorkload.layer_node_list :=
                   DNNWorkload.layer_node_list st ++ [node];
                 DNNWorkload.events :=
                   DNNWorkload.events st ++ [DNNWorkload.AddNode node] |}).
  assert (H1 : graph_invariant st1).
  { split; [|split]; cbn [st1 DNNWorkload.layer_id_to_obj
                           DNNWorkload.layer_node_list DNNWorkload.events].
    - intros id v Hg. destruct (Z.eq_dec layer_id id) as [<-|Hne].
      + rewrite get_set_same in Hg. injection Hg as <-.
        exists (length (DNNWorkload.events st)). apply nth_error_middle.
      + rewrite (get_set_other _ _ _ _ Hne) in Hg.
        destruct (Htable id v Hg) as [j Hj]. exists j.
        rewrite nth_error_app1; [exact Hj|].
        apply nth_error_Some. rewrite Hj. discriminate.
    - rewrite added_nodes_app, Hlist. reflexivity.
    - apply edges_point_back_snoc; [exact Hback|]. intros es E. discriminate E. }
  cbn zeta. fold st1.
  rewrite edges_of_spec.
  destruct (find _ _) as [missing|]; cbn [fst]; [exact H1|].
  destruct H1 as [Htable1 [Hlist1 Hback1]].
  split; [|split]; cbn [DNNWorkload.layer_id_to_obj
                         DNNWorkload.layer_node_list DNNWorkload.events].
  - intros id v Hg. destruct (Htable1 id v Hg) as [j Hj]. exists j.
    rewrite nth_error_app1; [exact Hj|].
    apply nth_error_Some. rewrite Hj. discriminate.
  - rewrite added_nodes_app, <- Hlist1. cbn. rewrite app_nil_r. reflexivity.
  - apply edges_point_back_snoc; [exact Hback1|].
    intros es E. injection E as <-.
    exists (DNNWorkload.events st), node. split; [reflexivity|].
    intros parent child Hin.
    destruct (edge_list_In _ _ _ _ _ Hin) as [-> [id [_ Hg]]].
    split; [reflexivity|]. exact (Htable1 id parent Hg).
Qed.

Lemma run_loop_invariant (mapping : Dict.t string (@DNNWorkload.LayerData Any))
    (items : list (Z * @DNNWorkload.LayerData Any))
    (st : @DNNWorkload.State LayerNode) :
  graph_invariant st ->
  graph_invariant
    (fst (DNNWorkload.run_loop parse_user_input new_layer_node max_str_digits
            mapping st items)).
Proof.
  revert st. induction items as [|[layer_id layer] rest IH]; intros st Hst.
  - exact Hst.
  - cbn [DNNWorkload.run_loop].
    pose proof (run_layer_invariant mapping st layer_id layer Hst) as Hstep.
    destruct (DNNWorkload.run_layer _ _ _ _ _ _ _) as [st' [e|]];
      cbn [fst] in *; [exact Hstep|exact (IH st' Hstep)].
Qed.

End WorkloadGraphInvariant.

(** Whatever the constructor of [DNNWorkload] does, and whether it returns
    or raises: [layer_node_list] holds the nodes it added to the graph, in
    the order it added them; it adds edges right after the node of the
    layer that names the sources, every edge ends in that node, and every
    edge starts at a node that was added before the edges (the node itself
    or an earlier one).  So no edge of the graph goes from a later layer of
    the workload to an earlier one. *)
Theorem init_edges_point_back
    {Any LayerAttributes LayerNode : Type}
    (parse_user_input : @DNNWorkload.LayerData Any -> res LayerAttributes)
    (new_layer_node : Z -> LayerAttributes -> string -> res LayerNode)
    (max_str_digits : nat)
    (workload : Dict.t Z (@DNNWorkload.LayerData Any))
    (mapping : Dict.t string (@DNNWorkload.LayerData Any)) :
  let st := fst (DNNWorkload.init parse_user_input new_layer_node
                   max_str_digits workload mapping) in
  DNNWorkload.layer_node_list st = added_nodes (DNNWorkload.events st)
  /\ forall i es,
       nth_error (DNNWorkload.events st) i = Some (DNNWorkload.AddEdges es) ->
       (0 < i)%nat
       /\ exists n,
            nth_error (DNNWorkload.events st) (pred i)
            = Some (DNNWorkload.AddNode n)
            /\ forall parent child, In (parent, child) es ->
                 child = n
                 /\ exists j, (j < i)%nat
                      /\ nth_error (DNNWorkload.events st) j
                         = Some (DNNWorkload.AddNode parent).
Proof.
  intros st.
  assert (Hinv : graph_invariant st).
  { apply run_loop_invariant. split; [|split].
    - intros id v Hg. discriminate Hg.
    - reflexivity.
    - intros i es Hi. destruct i; discriminate Hi. }
  destruct Hinv as [_ [Hlist Hback]]. split; [exact Hlist|exact Hback].
Qed.

(** ** [DNNWorkload.__init__]: the sources it accepts *)

Section WorkloadSources.

Context {Any LayerAttributes LayerNode : Type}.
Variable parse_user_input : @DNNWorkload.LayerData Any -> res LayerAttributes.
Variable new_layer_node : Z -> LayerAttributes -> string -> res LayerNode.
Variable max_str_digits : nat.

Lemma contains_set (d : Dict.t Z LayerNode) (k k' : Z) (v : LayerNode) :
  Dict.contains (Dict.set d k v) k' = true
  <-> k' = k \/ Dict.contains d k' = true.
Proof.
  unfold Dict.contains. destruct (Z.eq_dec k k') as [<-|Hne].
  - rewrite get_set_same. split; [left; reflexivity|reflexivity].
  - rewrite (get_set_other _ _ _ _ Hne). split.
    + intros Hc. right. exact Hc.
    + intros [E|Hc]; [exfalso; apply Hne; symmetry; exact E|exact Hc].
Qed.

Lemma run_loop_outcome (mapping : Dict.t string (@DNNWorkload.LayerData Any))
    (items : list (Z * @DNNWorkload.LayerData Any))
    (st : @DNNWorkload.State LayerNode) (seen : list Z) :
  (forall p, Dict.contains (DNNWorkload.layer_id_to_obj st) p = true
             <-> In p seen) ->
  Forall (fun item =>
            Py.is_raise (DNNWorkload.build parse_user_input new_layer_node
                           max_str_digits mapping (fst item) (snd item))
            = false) items ->
  let outcome :=
    snd (DNNWorkload.run_loop parse_user_input new_layer_node max_str_digits
           mapping st items) in
  (outcome = None
   <-> forall before layer_id layer after layer_name merged,
         items = before ++ (layer_id, layer) :: after ->
         DNNWorkload.apply_mapping max_str_digits mapping layer_id layer
         = Ok (layer_name, merged) ->
         forall parent_id, In parent_id (parents merged) ->
           parent_id = layer_id \/ In parent_id (map fst before)
           \/ In parent_id seen)
  /\ (outcome = None
      \/ exists before layer_id layer after layer_name merged parent_id,
           items = before ++ (layer_id, layer) :: after
           /\ DNNWorkload.apply_mapping max_str_digits mapping layer_id layer
              = Ok (layer_name, merged)
           /\ In parent_id (parents merged)
           /\ outcome = Some (reference_error max_str_digits parent_id)).
Proof.
  revert st seen.
  induction items as [|[layer_id layer] rest IH]; intros st seen Hseen Hbuild.
  - cbn [DNNWorkload.run_loop snd]. split; [|left; reflexivity].
    split; [|reflexivity].
    intros _ before id l after n m E. destruct before; discriminate E.
  - inversion Hbuild as [|item items' Hhead Hrest]; subst. cbn [fst snd] in Hhead.
    cbn [DNNWorkload.run_loop]. unfold DNNWorkload.run_layer.
    unfold DNNWorkload.build in Hhead |- *.
    destruct (DNNWorkload.apply_mapping max_str_digits mapping layer_id layer)
      as [[layer_name merged]|e] eqn:Emap; [|discriminate Hhead].
    cbn [Py.bind] in Hhead |- *.
    destruct (parse_user_input merged) as [attributes|e];
      [|discriminate Hhead].
    cbn [Py.bind] in Hhead |- *.
    destruct (new_layer_node layer_id attributes layer_name) as [node|e];
      [|discriminate Hhead].
    cbn [Py.bind DNNWorkload.layer_id_to_obj]. rewrite edges_of_spec.
    assert (Hseen' : forall p,
              Dict.contains
                (Dict.set (DNNWorkload.layer_id_to_obj st) layer_id node) p
              = true <-> In p (layer_id :: seen)).
    { intros p. rewrite contains_set, Hseen. cbn [In]. split.
      - intros [->|Hin]; [left; reflexivity|right; exact Hin].
      - intros [<-|Hin]; [left; reflexivity|right; exact Hin]. }
    destruct (find _ (parents merged)) as [missing|] eqn:Efind.
    + cbn [snd]. apply find_some in Efind as [Hmissing Hnot].
      apply negb_true_iff in Hnot. split.
      * split; [discriminate|]. intros Hall. exfalso.
        assert (Ht : Dict.contains
                       (Dict.set (DNNWorkload.layer_id_to_obj st) layer_id node)
                       missing = true).
        { apply Hseen'.
          destruct (Hall [] layer_id layer rest layer_name merged eq_refl Emap
                      missing Hmissing) as [->|[[]|Hin]];
            [left; reflexivity|right; exact Hin]. }
        rewrite Ht in Hnot. discriminate Hnot.
      * right. exists [], layer_id, layer, rest, layer_name, merged, missing.
        repeat split; assumption.
    + pose proof (find_none _ _ Efind) as Hnone.
      match goal with
      | |- context [DNNWorkload.run_loop _ _ _ _ ?st2 rest] =>
          specialize (IH st2 (layer_id :: seen) Hseen' Hrest)
      end.
      cbv zeta in IH. destruct IH as [Hiff Hcases].
      destruct (DNNWorkload.run_loop _ _ _ _ _ rest) as [st3 outcome].
      cbn [snd] in *. split.
      * rewrite Hiff. split.
        -- intros Hall before id l after n m E Hm p Hp.
           destruct before as [|x before].
           ++ cbn [app] in E. injection E as <- <- <-.
              rewrite Emap in Hm. injection Hm as <- <-.
              specialize (Hnone p Hp). apply negb_false_iff in Hnone.
              apply Hseen' in Hnone. destruct Hnone as [<-|Hin];
                [left; reflexivity|right; right; exact Hin].
           ++ cbn [app] in E. injection E as <- ->.
              destruct (Hall before id l after n m eq_refl Hm p Hp)
                as [->|[Hin|[<-|Hin]]].
              ** left. reflexivity.
              ** right. left. right. exact Hin.
              ** right. left. left. reflexivity.
              ** right. right. exact Hin.
        -- intros Hall before id l after n m E Hm p Hp.
           destruct (Hall ((layer_id, layer) :: before) id l after n m
                       (f_equal (cons (layer_id, layer)) E) Hm p Hp)
             as [->|[[<-|Hin]|Hin]].
           ++ left. reflexivity.
           ++ right. right. left. reflexivity.
           ++ right. left. exact Hin.
           ++ right. right. right. exact Hin.
      * destruct Hcases as [Hnone'|[before [id [l [after [n [m [p H]]]]]]]];
          [left; exact Hnone'|].
        destruct H as [E [Hm [Hp Hout]]].
        right. exists ((layer_id, layer) :: before), id, l, after, n, m, p.
        split; [cbn [app]; rewrite E; reflexivity|].
        split; [exact Hm|]. split; [exact Hp|exact Hout].
Qed.

End WorkloadSources.

(** When every layer finds a mapping and [LayerAttributes.parse_user_input]
    and [LayerNode] return for it, the constructor of [DNNWorkload] returns
    exactly when every layer names as sources of its operands (after the
    attributes of its mapping were written into it) only itself and layers
    that stand before it in the workload.  A layer may thus name itself, and
    may not name a layer that comes later.  Otherwise the constructor ends
    with the [AssertionError] of the first reference it cannot follow, or
    with [ValueError] when that reference is an id of more digits than the
    interpreter converts, which the message of the assertion cannot hold. *)
Theorem init_accepts_sources_seen
    {Any LayerAttributes LayerNode : Type}
    (parse_user_input : @DNNWorkload.LayerData Any -> res LayerAttributes)
    (new_layer_node : Z -> LayerAttributes -> string -> res LayerNode)
    (max_str_digits : nat)
    (workload : Dict.t Z (@DNNWorkload.LayerData Any))
    (mapping : Dict.t string (@DNNWorkload.LayerData Any)) :
  Forall (fun item =>
            Py.is_raise (DNNWorkload.build parse_user_input new_layer_node
                           max_str_digits mapping (fst item) (snd item))
            = false) (Dict.items workload) ->
  let outcome :=
    snd (DNNWorkload.init parse_user_input new_layer_node max_str_digits
           workload mapping) in
  (outcome = None
   <-> forall before layer_id layer after layer_name merged,
         Dict.items workload = before ++ (layer_id, layer) :: after ->
         DNNWorkload.apply_mapping max_str_digits mapping layer_id layer
         = Ok (layer_name, merged) ->
         forall parent_id, In parent_id (parents merged) ->
           parent_id = layer_id \/ In parent_id (map fst before))
  /\ (outcome = None \/ outcome = Some AssertionError
      \/ outcome = Some ValueError)
  /\ (outcome = Some ValueError ->
      exists before layer_id layer after layer_name merged parent_id,
        Dict.items workload = before ++ (layer_id, layer) :: after
        /\ DNNWorkload.apply_mapping max_str_digits mapping layer_id layer
           = Ok (layer_name, merged)
        /\ In parent_id (parents merged)
        /\ Str.of_int max_str_digits parent_id = Raise ValueError).
Proof.
  intros Hbuild outcome. subst outcome. unfold DNNWorkload.init.
  destruct (run_loop_outcome parse_user_input new_layer_node max_str_digits
              mapping (Dict.items workload)
              {| DNNWorkload.layer_id_to_obj := Dict.empty;
                 DNNWorkload.layer_node_list := [];
                 DNNWorkload.events := [] |} [])
    as [Hiff Hcases]; [|exact Hbuild|].
  - intros p. cbn. split; [discriminate|intros []].
  - cbv zeta in Hcases, Hiff. split; [|split].
    + rewrite Hiff. split.
      * intros Hall before id l after n m E Hm p Hp.
        destruct (Hall before id l after n m E Hm p Hp) as [->|[Hin|[]]];
          [left; reflexivity|right; exact Hin].
      * intros Hall before id l after n m E Hm p Hp.
        destruct (Hall before id l after n m E Hm p Hp) as [->|Hin];
          [left; reflexivity|right; left; exact Hin].
    + destruct Hcases as [Hnone|[before [id [l [after [n [m [p H]]]]]]]];
        [left; exact Hnone|].
      destruct H as [_ [_ [_ Hout]]]. right. rewrite Hout.
      unfold reference_error.
      destruct (of_int_cases max_str_digits p) as [[number E]|E]; rewrite E;
        [left|right]; reflexivity.
    + intros Hvalue.
      destruct Hcases as [Hnone|[before [id [l [after [n [m [p H]]]]]]]];
        [rewrite Hnone in Hvalue; discriminate Hvalue|].
      destruct H as [E [Hm [Hp Hout]]].
      exists before, id, l, after, n, m, p.
      split; [exact E|]. split; [exact Hm|]. split; [exact Hp|].
      rewrite Hout in Hvalue. unfold reference_error in Hvalue.
      destruct (of_int_cases max_str_digits p) as [[number Eo]|Eo];
        rewrite Eo in Hvalue |- *; [discriminate Hvalue|reflexivity].
Qed.

Lemma init_accepts_sources_seen_witness :
  Forall (fun item =>
            Py.is_raise (DNNWorkload.build example_parse example_node 4300
                           example_dnn_mapping (fst item) (snd item))
            = false) (Dict.items example_dnn_workload)
  /\ snd (DNNWorkload.init example_parse example_node 4300
            example_dnn_workload example_dnn_mapping) = None
  /\ (snd (DNNWorkload.init example_parse example_node 4300
             example_dnn_workload example_dnn_mapping) = None
      <-> forall before layer_id layer after layer_name merged,
            Dict.items example_dnn_workload
            = before ++ (layer_id, layer) :: after ->
            DNNWorkload.apply_mapping 4300 example_dnn_mapping layer_id layer
            = Ok (layer_name, merged) ->
            forall parent_id, In parent_id (parents merged) ->
              parent_id = layer_id \/ In parent_id (map fst before)).
Proof.
  assert (Hbuild :
    Forall (fun item =>
              Py.is_raise (DNNWorkload.build example_parse example_node 4300
                             example_dnn_mapping (fst item) (snd item))
              = false) (Dict.items example_dnn_workload)).
  { repeat (apply Forall_cons; [reflexivity|]). apply Forall_nil. }
  split; [exact Hbuild|]. split; [reflexivity|].
  exact (proj1 (init_accepts_sources_seen example_parse example_node 4300
                  example_dnn_workload example_dnn_mapping Hbuild)).
Defined.

(** ** The Relevant list of an operand with partially relevant dimensions *)

Lemma extract_pr_loop_info_names {max_str_digits : nat}
    (equation_relations : list string)
    (prl : PrLoop) (prll : LoopList) (psf : PrScalingFactors) :
  extract_pr_loop_info max_str_digits equation_relations = Ok (prl, prll, psf) ->
  prll = flat_map relation_names equation_relations.
Proof.
  unfold extract_pr_loop_info.
  match goal with
  | |- for_each _ _ ?b = _ -> _ => set (body := b)
  end.
  assert (Hgen : forall rels st st',
            for_each rels st body = Ok st' ->
            snd (fst st') = snd (fst st) ++ flat_map relation_names rels).
  { induction rels as [|relation rels IH]; intros st st' Hrun.
    - injection Hrun as <-. cbn [flat_map]. rewrite app_nil_r. reflexivity.
    - cbn [for_each] in Hrun.
      destruct (body st relation) as [st1|e] eqn:Ebody; cbn [Py.bind] in Hrun;
        [|discriminate].
      rewrite (IH st1 st' Hrun). cbn [flat_map]. rewrite app_assoc. f_equal.
      clear - Ebody. subst body. destruct st as [[a1 a2] a3]. cbv beta iota zeta in Ebody.
      destruct (Str.findall_class Str.is_alpha relation) as [|x [|y [|z [|w t]]]]
        eqn:Edis; cbn [length Nat.eqb Py.py_assert Py.bind] in Ebody;
        try discriminate Ebody.
      cbn [map Py.getitem nth_error Py.bind tl] in Ebody.
      destruct (for_each _ Dict.empty _) as [sf|e]; cbn [Py.bind] in Ebody;
        [|discriminate].
      destruct (Py.py_assert _) as [[]|e]; cbn [Py.bind] in Ebody;
        [|discriminate].
      injection Ebody as <-. cbn [fst snd]. unfold relation_names.
      rewrite Edis. reflexivity. }
  intros Hrun. exact (Hgen _ _ _ Hrun).
Qed.

Lemma build_pr_funcs_names {max_str_digits : nat} (relations : list string)
    (prl : PrLoop) (prll : LoopList) (psf : PrScalingFactors) :
  build_pr_funcs max_str_digits relations = Ok (prl, prll, psf) ->
  forall d, In d prll <-> named_in_relations relations d.
Proof.
  unfold build_pr_funcs, named_in_relations.
  destruct relations as [|r rs]; cbn [length Nat.ltb Nat.leb].
  - intros [= _ <- _] d. split; [intros []|intros [relation [[] _]]].
  - intros Hrun d. rewrite (extract_pr_loop_info_names _ _ _ _ Hrun).
    apply in_flat_map.
Qed.

(** C2 (as amended).  For every operand of a constructed layer node, no
    dimension of size 1 is in the Irrelevant list, and none is in the
    Relevant list when the operand has no partially relevant dimension.
    When it has some, its Relevant list is the operand's term filtered by
    [pr_loop_list] alone: a dimension of the term is in the list exactly
    when none of the layer's dimension relations names it, whatever its
    size.  So the list holds no partially relevant dimension and no
    generator of one, and it keeps the size-1 dimensions of the term that
    no relation names. *)
Theorem constructed_lists_size_1_free {max_str_digits : nat} (layer_id : Z)
    (attrs : LayerAttrs) (node_name : string) (node : LayerNode) :
  LayerNode_init max_str_digits layer_id attrs node_name = Ok node ->
  forall operand dims,
    Dict.get (operand_loop_dim node) operand = Some dims ->
    (forall d, In d (IR dims) -> Dict.get (loop_dim_size node) d <> Some 1)
    /\ (PR dims = [] ->
        forall d, In d (R dims) -> Dict.get (loop_dim_size node) d <> Some 1)
    /\ (PR dims <> [] ->
        PR dims = pr_loop node
        /\ (forall d, In d (R dims) ->
            forall key gens, In (key, gens) (pr_loop node) ->
              d <> key /\ ~ In d gens)
        /\ exists term,
             Dict.get (operand_dimensionality_order node) operand = Some term
             /\ (forall d, In d (R dims)
                           <-> In d term
                               /\ ~ named_in_relations
                                      (dimension_relations node) d)
             /\ (forall d, In d term ->
                           Dict.get (loop_dim_size node) d = Some 1 ->
                           ~ named_in_relations (dimension_relations node) d ->
                           In d (R dims))).
Proof.
  intros Hinit operand dims Hget.
  destruct (LayerNode_init_pr_funcs layer_id attrs node_name node Hinit)
    as [prll [Epr [Einfo _]]].
  pose proof (build_pr_funcs_names _ _ _ _ Epr) as Hnames.
  destruct (extract_r_ir_loop_info_entries _ _ _ _ _ _ _ _ Einfo)
    as [_ Hent].
  destruct (Hent operand dims Hget) as [term [Hterm Hclass]].
  destruct (extract_r_ir_loop_info_size_1_free _ _ _ _ _ _ _ _ Einfo
              operand dims (get_In _ _ _ Hget)) as [[Hir [Hr Hpr]] Hwhich].
  split; [|split].
  - intros d Hd. destruct (Hir d Hd) as [n [-> Hn]]. congruence.
  - intros Hnil d Hd. destruct (Hr Hnil d Hd) as [n [-> Hn]]. congruence.
  - intros Hne. destruct Hwhich as [Hnil|Hprl]; [contradiction|].
    split; [exact Hprl|]. split.
    + intros d Hd key gens Hin.
      assert (Hlists : In key prll /\ incl gens prll).
      { unfold build_pr_funcs in Epr.
        destruct (0 <? length (dimension_relations node))%nat.
        - exact (extract_pr_loop_info_lists _ _ _ _ Epr key gens Hin).
        - injection Epr as E _ _. rewrite <- E in Hin. destruct Hin. }
      destruct Hlists as [Hk Hg]. pose proof (Hpr Hne d Hd) as Hnot. split.
      * intros ->. exact (Hnot Hk).
      * intros Hdg. exact (Hnot (Hg d Hdg)).
    + assert (HR : R dims = filter (fun loop => negb (py_in loop prll)) term).
      { unfold classify in Hclass.
        destruct (existsb (Dict.contains (pr_loop node)) term).
        - destruct (filter_res _ _) as [ir|e]; cbn [Py.bind] in Hclass;
            [|discriminate].
          injection Hclass as <-. reflexivity.
        - destruct (filter_res _ term) as [r|e]; cbn [Py.bind] in Hclass;
            [|discriminate].
          destruct (filter_res _ _) as [ir|e]; cbn [Py.bind] in Hclass;
            [|discriminate].
          injection Hclass as <-. cbn [PR] in Hne. exfalso. apply Hne.
          reflexivity. }
      assert (Hiff : forall d, In d (R dims)
                               <-> In d term
                                   /\ ~ named_in_relations
                                          (dimension_relations node) d).
      { intros d. rewrite HR, filter_In, negb_true_iff, <- Hnames. split.
        - intros [Hin Hf]. split; [exact Hin|exact (py_in_false _ _ Hf)].
        - intros [Hin Hn]. split; [exact Hin|].
          destruct (py_in d prll) eqn:Ein; [|reflexivity].
          exfalso. apply Hn. apply py_in_In. exact Ein. }
      exists term. split; [exact Hterm|]. split; [exact Hiff|].
      intros d Hin _ Hn. apply Hiff. split; assumption.
Qed.

Lemma constructed_lists_size_1_free_witness :
  exists node dims,
    LayerNode_init 4300 0 (conv_attrs 1 [] ["W"]) "conv" = Ok node
    /\ Dict.get (operand_loop_dim node) "I" = Some dims
    /\ Dict.get (loop_dim_size node) "B" = Some 1
    /\ In "B" (R dims)
    /\ (forall d, In d (IR dims) -> Dict.get (loop_dim_size node) d <> Some 1)
    /\ (PR dims = [] ->
        forall d, In d (R dims) -> Dict.get (loop_dim_size node) d <> Some 1)
    /\ (PR dims <> [] ->
        PR dims = pr_loop node
        /\ (forall d, In d (R dims) ->
            forall key gens, In (key, gens) (pr_loop node) ->
              d <> key /\ ~ In d gens)
        /\ exists term,
             Dict.get (operand_dimensionality_order node) "I" = Some term
             /\ (forall d, In d (R dims)
                           <-> In d term
                               /\ ~ named_in_relations
                                      (dimension_relations node) d)
             /\ (forall d, In d term ->
                           Dict.get (loop_dim_size node) d = Some 1 ->
                           ~ named_in_relations (dimension_relations node) d ->
                           In d (R dims))).
Proof.
  destruct (LayerNode_init 4300 0 (conv_attrs 1 [] ["W"]) "conv") as [node|e]
    eqn:Hinit; [|vm_compute in Hinit; discriminate].
  destruct (Dict.get (operand_loop_dim node) "I") as [dims|] eqn:Hget.
  - exists node, dims. split; [reflexivity|]. split; [exact Hget|].
    pose proof (constructed_lists_size_1_free 0 _ "conv" node Hinit "I" dims
                  Hget) as Hthm.
    pose proof Hinit as Hval. vm_compute in Hval. injection Hval as Hval.
    split; [subst node; reflexivity|].
    split; [|exact Hthm].
    subst node. vm_compute in Hget. injection Hget as <-.
    left. reflexivity.
  - exfalso. vm_compute in Hinit. injection Hinit as <-.
    vm_compute in Hget. discriminate Hget.
Defined.
